(* ===== verification/_CoqProject ===== *)
-Q . S2P
Prelude.v
SeqNum.v
RxBuffer.v
RxBufferSpec.v
TcpOptions.v
TcpHeader.v
TcpHeaderSpec.v
TxBuffer.v
TxBufferSpec.v
Float.v
Int64x64.v
NsTime.v
TimeSpec.v
Scheduler.v
HeapScheduler.v
SchedulerSpec.v
Simulator.v
SimulatorSpec.v
RttEstimator.v
StreamSpec.v
SocketState.v
RateOps.v
CongestionOps.v
RecoveryOps.v
CongestionSpec.v
SocketCore.v
SocketRx.v
SocketTx.v
SocketAck.v
SocketFsm.v
SocketVis.v
SocketSpec.v
DelAckSpec.v
WindowSpec.v
HandshakeSpec.v
SendSpec.v
Demux.v
DemuxSpec.v
L4Protocol.v
L4Spec.v
RefusalSpec.v
