(* ===== verification/Prelude.v ===== *)
(** * TCP of the ns-3 tree, in Rocq

    The program is a tree of ns-3, the discrete-event network simulator, whose
    TCP was extended with delayed-acknowledgement policies (the adaptive delay
    window ADW and the aggregation-aware delay AAD) and with delay-based
    congestion controls (TcpCerl, TcpCerlPlus, TcpCerlX).  This development
    models that TCP, from the sequence numbers to the state machine of the
    socket, and the parts of the simulator core that it stands on.

    ** How the parts interact

    A socket (tcp-socket-base.cc) owns a send buffer (tcp-tx-buffer.cc), and a
    transmission control block (tcp-socket-state.cc) that holds the receive
    buffer (tcp-rx-buffer.cc) and the windows.  A received segment is a header
    (tcp-header.cc) with options (tcp-option*.cc) and a payload: the socket
    dispatches it on its state, puts data in the receive buffer and decides
    when to acknowledge it; an acknowledgement goes through the scoreboard of
    the send buffer, the round-trip time estimator (rtt-estimator.cc), the rate
    sampling (tcp-rate-ops.cc), the congestion control (tcp-congestion-ops.cc,
    tcp-linux-reno.cc, tcp-cerl.cc) and the loss recovery (tcp-recovery-ops.cc,
    tcp-prr-recovery.cc), which write the windows of the control block.  The
    protocol of the node (tcp-l4-protocol.cc) puts headers on the segments and
    finds the end point of a received one (ipv4-end-point-demux.cc).  Timers
    are events of the simulator (default-simulator-impl.cc), kept in time order
    by an event list (scheduler.h and its implementations).

    ** The files

    - Prelude (this file): machine words, the fault monad [res], the bounded
      loop [while], record update, byte strings, shared lemmas and hints.
    - SeqNum: sequence-number.h.  The operations are the class [SeqArith], at
      32 bits ([seq32], the code) and unbounded ([seqZ], the specification).
    - RxBuffer, RxBufferSpec: tcp-rx-buffer.cc over any [SeqArith]; reassembly.
    - TcpOptions, TcpHeader, TcpHeaderSpec: the options, the header, the
      checksum; round trips and the end of the option loop.
    - TxBuffer, TxBufferSpec: tcp-tx-buffer.cc with the SACK scoreboard;
      refinement of a byte stream, the counters, the losses.
    - Float, Int64x64, NsTime, TimeSpec: the floating-point arithmetic of the
      language, int64x64-128.cc, nstime.h and time.cc.
    - RttEstimator: rtt-estimator.cc, with its bounds.
    - StreamSpec: the two buffers joined by an unreliable network.
    - SocketState, RateOps, CongestionOps, RecoveryOps, CongestionSpec: the
      control block and the algorithms behind the interfaces TcpCongestionOps
      and TcpRecoveryOps, which are classes; [TcpCongestionLaws] states what a
      congestion control promises to the socket, and the implementations are
      its instances.
    - SocketCore (state, timers, options, control segments), SocketRx (data,
      delayed acknowledgements, FIN), SocketTx (sending, pacing), SocketAck
      (acknowledgements, loss states, timeouts), SocketFsm (one function per
      state, dispatch, fork, one step per event): tcp-socket-base.cc, over any
      congestion control and recovery.
    - SocketVis, SocketSpec, DelAckSpec, WindowSpec, HandshakeSpec, SendSpec:
      what the socket promises.
    - Demux, DemuxSpec: ipv4-end-point.cc, ipv4-end-point-demux.cc; ephemeral
      ports, distinct four-tuples, the best match.
    - L4Protocol, L4Spec: tcp-l4-protocol.cc over IPv4; a segment from one node
      to the end point on another one.  RefusalSpec: the reset of a refused
      connection and the socket that gets it.
    - Scheduler, HeapScheduler, SchedulerSpec: scheduler.h as the classes
      [SchedulerOps] and [SchedulerLaws], ListScheduler, MapScheduler,
      PriorityQueueScheduler and HeapScheduler as instances.
    - Simulator, SimulatorSpec: default-simulator-impl.cc over any event list;
      the simulated program is a parameter, its tasks are sequences of calls.

    ** Correspondence

    Definitions have the names of the C++ members; a record has the fields of
    the class.  A method is a function from the object to the object, in the
    monad [res] when it can fail; the methods of the socket are computations of
    the state monad [St], and what they hand to other objects (segments to the
    L4 protocol, callbacks to the application) is the list [m_out].  Words are
    integers with the wrap-around of their C++ type written out ([u32], [i64],
    ...), doubles are the IEEE numbers of the Standard Library.  A failed
    NS_ASSERT, an NS_ABORT, a null or dangling pointer, a read out of bounds, a
    shift or a conversion that C++ leaves undefined is a value of [fault], so
    that a theorem that a method returns [Ok] says that none of them happens.
    NS_ASSERT is enabled, as in the debug build.

    ** The theorems

    Data transfer: the receive buffer delivers a prefix of the stream whatever
    the order and the overlaps of the segments; the send buffer holds exactly
    the unacknowledged bytes; composed over a network that loses, duplicates,
    delays and reorders, what is read is a prefix of what was written.
    Connection: every change of state is an edge of the state diagram and no
    state is entered twice; the close is notified once; an attempt that nobody
    answers ends after the configured number of SYNs; a sender without losses
    sends the stream in order within the window; a segment reaches the end point
    that matches it best, or is refused with a reset; in-sequence data is
    acknowledged within the delayed-acknowledgement timeout; the advertised
    window fits the buffer.  Algorithms: the laws of the congestion controls,
    the linear growth of TcpLinuxReno, the reaction of TcpCerl to losses, the
    bounds of proportional rate reduction and of the round-trip time.  Wire
    format: round trips of options and header, the checksum.  Numbers: exact
    fixed-point multiplication, conversions of times.
    Simulator: events run in order and none is lost; the event lists implement
    one specification, so that their choice is not observable.
    Where the code does not do what it means to, a theorem says what it does:
    an unknown option of length zero makes Deserialize loop, CopyFromSequence
    can dereference null, a full window of the peer with SACKed data makes the
    sender do so, a connecting socket ignores the reset of a refused connection,
    the order of SACKs changes the losses inferred, the
    overflow guard of the fixed-point multiplication never fires, TcpCerlX
    reads a removed sample, ADW and AAD convert an infinite delay.
    HeapScheduler::Remove breaks the heap.

    ** Bounds and fuel

    A loop without a structural bound is [while], at most 2^32 rounds counted in
    binary, with a theorem that it ends earlier where the property needs it; the
    loop of the window scale halves a 32-bit number, 32 rounds; the merge of
    SACK blocks and the loops over lists take the length of the list; the
    option loop of the header takes 41 rounds, one per byte of options and one
    to see the end.
    The loops of a heap take its length; the loop of the simulator takes any
    number of rounds, and ends within 2^32, the number of identifiers.  [NoFuel] is never a result of the code: a theorem that
    gives [Ok] shows that the bound sufficed.

    ** Not modelled

    In the socket: IPv6, ICMP, trace sources and logging, the binding to
    devices, packet tags other than the TOS, SendTo and RecvFrom, the re-entry
    of the socket from an application callback (a callback is an output).  A
    packet is its bytes.  Of the other TCP sources: the remaining congestion
    controls (BBR, CUBIC, DCTCP, Vegas, ...), clients of the same interface;
    tcp-socket-adw.cc, an earlier copy of the ADW policy.  Of the protocol of
    the node: the IPv6 twins of its methods (Receive is that of a node without
    IPv6), the routing of what it sends, its aggregation and disposal; the
    socket gets the end point that Bind allocates as an argument.  The IP layers, links (WiFi, LTE, CSMA, ...), ad-hoc
    routing, traffic control, helpers, examples and statistics are upstream
    modules that the transport does not depend on; the network appears as the
    nondeterministic relation of StreamSpec.
    In the core: the calendar queue, the real-time and distributed simulators,
    the release of event objects; the socket schedules its timers by their
    time, its runs are sequences of events with a clock, not runs of Simulator. *)
From Stdlib Require Import ZArith Lia List Bool.
From stdpp Require Import base list.

#[global] Open Scope Z_scope.

(** ** Machine-width integers: [Z] with the C++ wrap-around written out. *)

Definition u8 (x : Z) : Z := x mod 2 ^ 8.
Definition u16 (x : Z) : Z := x mod 2 ^ 16.
Definition u32 (x : Z) : Z := x mod 2 ^ 32.
Definition u64 (x : Z) : Z := x mod 2 ^ 64.
Definition u128 (x : Z) : Z := x mod 2 ^ 128.

(** Two's complement reading of the low [w] bits. *)
Definition sint (w : Z) (x : Z) : Z := (x + 2 ^ (w - 1)) mod 2 ^ w - 2 ^ (w - 1).
Definition i32 (x : Z) : Z := sint 32 x.
Definition i64 (x : Z) : Z := sint 64 x.
Definition i128 (x : Z) : Z := sint 128 x.

Definition is_u8 (x : Z) : Prop := 0 <= x < 2 ^ 8.
Definition is_u16 (x : Z) : Prop := 0 <= x < 2 ^ 16.
Definition is_u32 (x : Z) : Prop := 0 <= x < 2 ^ 32.
Definition is_u64 (x : Z) : Prop := 0 <= x < 2 ^ 64.
Definition is_i64 (x : Z) : Prop := - 2 ^ 63 <= x < 2 ^ 63.

(** ** Faults

    [AssertFailed] is a failed NS_ASSERT (the debug build, where assertions
    are compiled in), [Aborted] an NS_ABORT or NS_FATAL_ERROR, [NullDeref] the
    use of a null pointer or of a past-the-end iterator, [OutOfBounds] a read
    outside a buffer, [BadCast] the conversion of a floating-point number to an
    integer type that cannot hold it, [DivByZero] an integer division by zero,
    [Dangling] a read through a reference to a removed element, [BadShift] a
    shift by the width of the type or more.  [NoFuel] is no
    run of the code: the bound of a loop or recursion of the model was too
    small. *)

Inductive fault :=
| AssertFailed
| Aborted
| NullDeref
| OutOfBounds
| BadCast
| DivByZero
| Dangling
| BadShift
| NoFuel.

Inductive res (A : Type) :=
| Ok (a : A)
| Err (f : fault).
Arguments Ok {A} a.
Arguments Err {A} f.

#[export] Instance res_ret : MRet res := fun A a => Ok a.
#[export] Instance res_bind : MBind res :=
  fun A B k m => match m with Ok a => k a | Err f => Err f end.
#[export] Instance res_fmap : FMap res :=
  fun A B k m => match m with Ok a => Ok (k a) | Err f => Err f end.

Definition ns_assert (b : bool) : res unit := if b then Ok tt else Err AssertFailed.
Definition ns_abort_if (b : bool) : res unit := if b then Err Aborted else Ok tt.

(** Integer division and remainder of unsigned numbers. *)
Definition udiv (a b : Z) : res Z := if b =? 0 then Err DivByZero else Ok (a / b).

(** [while (true) body]: at most [n] rounds of [step], which says with [inl]
    that the loop goes on and with [inr] that it ends. The rounds are counted in
    binary, so a bound that is far from reached costs nothing. *)
Fixpoint rounds {St R : Type} (n : positive) (step : St -> res (St + R)) (s : St) : res (St + R) :=
  match n with
  | xH => step s
  | xO n =>
      match rounds n step s with
      | Ok (inl s) => rounds n step s
      | o => o
      end
  | xI n =>
      match step s with
      | Ok (inl s) =>
          match rounds n step s with
          | Ok (inl s) => rounds n step s
          | o => o
          end
      | o => o
      end
  end.

Definition while {St R : Type} (n : positive) (step : St -> res (St + R)) (s : St) : res R :=
  match rounds n step s with
  | Ok (inl _) => Err NoFuel
  | Ok (inr r) => Ok r
  | Err f => Err f
  end.

(** Run the binds whose first computation is a value. *)
Ltac res_step := cbv [mbind res_bind]; cbn iota beta.

Definition is_ok {A} (m : res A) : bool := match m with Ok _ => true | Err _ => false end.

Lemma Ok_inj {A} (a b : A) : Ok a = Ok b -> a = b.
Proof. congruence. Qed.

(** Conversion unfolds everything else before it unrolls a loop. *)
#[global] Strategy 1000 [while rounds].

(** An invariant of the rounds. *)
Lemma rounds_inv {St R : Type} (I : St -> Prop) (F : R -> Prop) (step : St -> res (St + R)) :
  (forall s, I s -> match step s with Ok (inl s') => I s' | Ok (inr r) => F r | Err _ => True end) ->
  forall n s, I s ->
  match rounds n step s with Ok (inl s') => I s' | Ok (inr r) => F r | Err _ => True end.
Proof.
  intros Hstep n; induction n as [n IH|n IH|]; intros s Hs; cbn [rounds].
  - specialize (Hstep s Hs). destruct (step s) as [[s1|r]|]; [|done|done].
    pose proof (IH s1 Hstep) as H1. destruct (rounds n step s1) as [[s2|r]|]; [|done|done].
    exact (IH s2 H1).
  - pose proof (IH s Hs) as H1. destruct (rounds n step s) as [[s2|r]|]; [|done|done].
    exact (IH s2 H1).
  - exact (Hstep s Hs).
Qed.

Lemma while_inv {St R : Type} (I : St -> Prop) (F : R -> Prop) (step : St -> res (St + R)) n s r :
  (forall s, I s -> match step s with Ok (inl s') => I s' | Ok (inr r) => F r | Err _ => True end) ->
  I s -> while n step s = Ok r -> F r.
Proof.
  intros Hstep Hs. pose proof (rounds_inv I F step Hstep n s Hs) as H. unfold while.
  destruct (rounds n step s) as [[s1|r1]|]; [done| |done]. intros Hr. apply Ok_inj in Hr. by subst.
Qed.

(** ** Record update: [r <| f := v |>] is [r] with field [f] set to [v].

    A record type declares its eta expansion once, as an instance of
    [Settable]; the setter of a projection is found from it. *)

Class Settable (R : Type) := eta_record : R -> R.
Class Setter {R T : Type} (f : R -> T) := set_field : (T -> T) -> R -> R.
Arguments set_field {R T} f {_} _ _.

Ltac find_setter :=
  match goal with
  | |- @Setter ?R ?T ?f =>
      let g := fresh "g" in
      let r := fresh "r" in
      intros g r;
      let e := eval hnf in (@eta_record R _ r) in
      let e := eval pattern (f r) in e in
      match e with
      | ?h _ => let t := eval cbv beta in (h (g (f r))) in exact t
      end
  end.

#[global] Hint Extern 1 (Setter _) => find_setter : typeclass_instances.

(** Compute the setters applied to explicit records. *)
Ltac rec_simpl := unfold set_field in *; simpl in *.

Declare Scope record_scope.
#[global] Open Scope record_scope.
Notation "r <| f := v |>" := (set_field f (fun _ => v) r)
  (at level 1, f at next level, left associativity) : record_scope.
Notation "r <| f ::= g |>" := (set_field f g r)
  (at level 1, f at next level, left associativity) : record_scope.

(** ** Byte strings: every element is a byte value. *)

Abbreviation bytes := (list Z).

Definition is_bytes (l : bytes) : Prop := Forall is_u8 l.

(** Size of a byte string, the C++ [uint32_t] size of a packet (a packet
    never exceeds 4 GiB). *)
Definition zlen {A} (l : list A) : Z := Z.of_nat (length l).

(** [l] without its first [n] elements, and its first [n] elements. *)
Definition zdrop {A} (n : Z) (l : list A) : list A := drop (Z.to_nat n) l.
Definition ztake {A} (n : Z) (l : list A) : list A := take (Z.to_nat n) l.

(** Bytes of a stream [S] in positions [a .. a + n). *)
Fixpoint stream_slice {A} (S : Z -> A) (a : Z) (n : nat) : list A :=
  match n with
  | O => []
  | Datatypes.S n' => S a :: stream_slice S (a + 1) n'
  end.

(** ** Generic lemmas *)

Create HintDb width.
Create HintDb zlen.
Create Rewrite HintDb width.
Create Rewrite HintDb zlen.

(** [lia] with the equations of division and modulo. *)
Ltac dlia := Z.div_mod_to_equations; lia.

Ltac unfold_width :=
  unfold u8, u16, u32, u64, u128, i32, i64, i128, sint, is_u8, is_u16, is_u32,
    is_u64, is_i64 in *.

Lemma u32_range x : is_u32 (u32 x).
Proof. apply Z.mod_pos_bound. lia. Qed.

Lemma u16_range x : is_u16 (u16 x).
Proof. apply Z.mod_pos_bound. lia. Qed.

Lemma u8_range x : is_u8 (u8 x).
Proof. apply Z.mod_pos_bound. lia. Qed.

Lemma u32_small x : is_u32 x -> u32 x = x.
Proof. apply Z.mod_small. Qed.

Lemma u16_small x : is_u16 x -> u16 x = x.
Proof. apply Z.mod_small. Qed.

Lemma u8_small x : is_u8 x -> u8 x = x.
Proof. apply Z.mod_small. Qed.

Lemma u64_range x : is_u64 (u64 x).
Proof. unfold is_u64, u64. by apply Z.mod_pos_bound. Qed.

Lemma u64_small x : is_u64 x -> u64 x = x.
Proof. apply Z.mod_small. Qed.

Lemma u32_idem x : u32 (u32 x) = u32 x.
Proof. apply u32_small, u32_range. Qed.

Lemma u32_add_l x y : u32 (u32 x + y) = u32 (x + y).
Proof. apply Zplus_mod_idemp_l. Qed.

Lemma u32_add_r x y : u32 (x + u32 y) = u32 (x + y).
Proof. apply Zplus_mod_idemp_r. Qed.

Lemma u32_sub_l x y : u32 (u32 x - y) = u32 (x - y).
Proof. apply Zminus_mod_idemp_l. Qed.

Lemma u32_sub_r x y : u32 (x - u32 y) = u32 (x - y).
Proof. apply Zminus_mod_idemp_r. Qed.

#[export] Hint Rewrite u32_idem u32_add_l u32_add_r u32_sub_l u32_sub_r : width.
#[export] Hint Resolve u32_range u16_range u8_range : width.

Lemma sint_small w x : 0 < w -> - 2 ^ (w - 1) <= x < 2 ^ (w - 1) -> sint w x = x.
Proof.
  intros Hw Hx. unfold sint.
  assert (2 ^ w = 2 * 2 ^ (w - 1)) as E.
  { replace w with (Z.succ (w - 1)) at 1 by lia. rewrite Z.pow_succ_r; lia. }
  rewrite Z.mod_small; lia.
Qed.

Lemma sint_range w x : 0 < w -> - 2 ^ (w - 1) <= sint w x < 2 ^ (w - 1).
Proof.
  intros Hw. unfold sint.
  assert (2 ^ w = 2 * 2 ^ (w - 1)) as E.
  { replace w with (Z.succ (w - 1)) at 1 by lia. rewrite Z.pow_succ_r; lia. }
  pose proof (Z.mod_pos_bound (x + 2 ^ (w - 1)) (2 ^ w)). lia.
Qed.

Lemma i64_small x : is_i64 x -> i64 x = x.
Proof. intros H. apply sint_small; [lia|exact H]. Qed.

Lemma zlen_nonneg {A} (l : list A) : 0 <= zlen l.
Proof. unfold zlen. lia. Qed.

Lemma zlen_app {A} (l k : list A) : zlen (l ++ k) = zlen l + zlen k.
Proof. unfold zlen. rewrite length_app. lia. Qed.

Lemma zlen_cons {A} (x : A) l : zlen (x :: l) = 1 + zlen l.
Proof. unfold zlen. simpl. lia. Qed.

Lemma zlen_nil {A} : zlen (@nil A) = 0.
Proof. reflexivity. Qed.

Lemma zlen_drop {A} n (l : list A) : 0 <= n -> zlen (zdrop n l) = Z.max 0 (zlen l - n).
Proof. intros. unfold zlen, zdrop. rewrite length_drop. lia. Qed.

Lemma zlen_take {A} n (l : list A) : 0 <= n -> zlen (ztake n l) = Z.min n (zlen l).
Proof. intros. unfold zlen, ztake. rewrite length_take. lia. Qed.

#[export] Hint Rewrite @zlen_app @zlen_cons @zlen_nil : zlen.
#[export] Hint Resolve zlen_nonneg : zlen.

Lemma stream_slice_length {A} (S : Z -> A) a n : length (stream_slice S a n) = n.
Proof. revert a; induction n; simpl; auto. Qed.

Lemma stream_slice_app {A} (S : Z -> A) a n m :
  stream_slice S a (n + m) = stream_slice S a n ++ stream_slice S (a + Z.of_nat n) m.
Proof.
  revert a; induction n as [|n IH]; intros a; simpl.
  - by rewrite Z.add_0_r.
  - rewrite IH. replace (a + 1 + Z.of_nat n) with (a + Z.of_nat (Datatypes.S n)) by lia. done.
Qed.

Lemma stream_slice_take {A} (S : Z -> A) a n k :
  take k (stream_slice S a n) = stream_slice S a (k `min` n).
Proof.
  revert a k; induction n as [|n IH]; intros a [|k]; simpl; auto.
  f_equal. apply IH.
Qed.

Lemma stream_slice_drop {A} (S : Z -> A) a n k :
  drop k (stream_slice S a n) = stream_slice S (a + Z.of_nat k) (n - k).
Proof.
  revert a k; induction n as [|n IH]; intros a [|k]; simpl; auto.
  - by rewrite Z.add_0_r.
  - rewrite IH. f_equal. lia.
Qed.

Lemma filter_length_le {A} (f : A -> bool) l : (length (List.filter f l) <= length l)%nat.
Proof. induction l as [|x l IH]; simpl; [lia|]. destruct (f x); simpl; lia. Qed.

Lemma elem_of_filter_In {A} (f : A -> bool) l x :
  x ∈ List.filter f l <-> x ∈ l /\ f x = true.
Proof. by rewrite !list_elem_of_In, filter_In. Qed.

Lemma Forall_filter {A} (P : A -> Prop) (f : A -> bool) l :
  Forall P l -> Forall P (List.filter f l).
Proof. induction 1 as [|x l Hx Hl IH]; simpl; [done|]. destruct (f x); auto. Qed.

Lemma removelast_map {A B} (f : A -> B) l : removelast (map f l) = map f (removelast l).
Proof.
  induction l as [|x [|y l] IH]; [done|done|].
  change (map f (x :: y :: l)) with (f x :: map f (y :: l)).
  cbn [removelast map] in *. by rewrite <- IH.
Qed.
