(* ===== verification/SeqNum.v ===== *)
(** TCP sequence numbers: the template [SequenceNumber<NUMERIC, SIGNED>] of
    src/network/utils/sequence-number.h.

    The C++ class is a template; here its operations are the class [SeqArith],
    and the code that uses sequence numbers is written once over it.  The
    instance [seq32] is [SequenceNumber32], the operators of the header file
    at 32 bits.  The instance [seqZ] is unbounded integers: it is the
    specification, under which a position of the byte stream is just its
    index.  The interface lemmas say that inside a window smaller than half
    the number space the two agree, so a theorem about [seqZ] carries over to
    the 32-bit code, across any number of wrap-arounds. *)
From Stdlib Require Import ZArith Lia Bool.
From stdpp Require Import base list.
From S2P Require Import Prelude.

(** The operations of the class that the buffers use.  [seq_wrap] is the
    truncation of a NUMERIC_TYPE. *)
Class SeqArith := {
  seq_wrap : Z -> Z;
  seq_gt : Z -> Z -> bool;
  seq_minus : Z -> Z -> Z;
}.

Section Operators.
  Context {SA : SeqArith}.

Definition seq_eq (a b : Z) : bool := a =? b.
Definition seq_ne (a b : Z) : bool := negb (a =? b).
Definition seq_le (a b : Z) : bool := negb (seq_gt a b).
Definition seq_ge (a b : Z) : bool := seq_gt a b || (a =? b).
Definition seq_lt (a b : Z) : bool := negb (seq_gt a b) && negb (a =? b).
Definition seq_add (a b : Z) : Z := seq_wrap (a + b).
Definition seq_sub (a b : Z) : Z := seq_wrap (a - b).
Definition seq_diff (a b : Z) : Z := seq_minus a b.
Definition seq_inc (a : Z) : Z := seq_wrap (a + 1).
End Operators.

(** The comparison operator of the header at width [w], NUMERIC_TYPE being a
    [w]-bit unsigned integer. *)
Definition gt_w (w : Z) (a b : Z) : bool :=
  let half := (2 ^ w - 1) / 2 in
  ((b <? a) && ((a - b) mod 2 ^ w <=? half)) || ((a <? b) && (half <? (b - a) mod 2 ^ w)).

(** The difference of the header at width [w], the negations and casts to
    SIGNED_TYPE included. *)
Definition diff_w (w : Z) (a b : Z) : Z :=
  let maxv := 2 ^ w - 1 in
  let half := maxv / 2 in
  if b <? a then
    let d := (a - b) mod 2 ^ w in
    if d <? half then sint w d
    else sint w (- sint w ((maxv - a + 1 + b) mod 2 ^ w))
  else
    let d := (b - a) mod 2 ^ w in
    if d <? half then sint w (- sint w d)
    else sint w ((maxv - b + 1 + a) mod 2 ^ w).

#[export] Instance seq32 : SeqArith := {|
  seq_wrap := u32;
  seq_gt := gt_w 32;
  seq_minus := diff_w 32;
|}.

#[local] Instance seqZ : SeqArith := {|
  seq_wrap := fun x => x;
  seq_gt := Z.gtb;
  seq_minus := Z.sub;
|}.

(** ** The two instances agree in a window *)

Section Window.
  Variables a b : Z.
  Hypothesis near : - 2 ^ 31 < a - b < 2 ^ 31.

Lemma u32_diff : exists k, u32 a - u32 b = a - b + k * 2 ^ 32.
Proof.
    unfold u32. exists (b / 2 ^ 32 - a / 2 ^ 32).
    pose proof (Z.div_mod a (2 ^ 32)). pose proof (Z.div_mod b (2 ^ 32)). lia.
Qed.

Lemma gt32_window : seq_gt (SeqArith := seq32) (u32 a) (u32 b) = (b <? a).
Proof.
    destruct u32_diff as [k Hk].
    pose proof (u32_range a). pose proof (u32_range b). unfold is_u32 in *.
    cbn. unfold gt_w. change ((2 ^ 32 - 1) / 2) with (2 ^ 31 - 1).
    set (x := u32 a) in *. set (y := u32 b) in *.
    assert (k = 0 \/ k = 1 \/ k = -1) as Hc by lia.
    destruct (Z.ltb_spec y x).
    - rewrite (Z.mod_small (x - y)) by lia. lia.
    - destruct (Z.ltb_spec x y); [rewrite (Z.mod_small (y - x)) by lia|]; lia.
Qed.

Lemma eq32_window : (u32 a =? u32 b) = (a =? b).
Proof.
    destruct u32_diff as [k Hk].
    pose proof (u32_range a). pose proof (u32_range b). unfold is_u32 in *. lia.
Qed.

Lemma diff32_window : seq_diff (SA := seq32) (u32 a) (u32 b) = a - b.
Proof.
    destruct u32_diff as [k Hk].
    pose proof (u32_range a). pose proof (u32_range b). unfold is_u32 in *.
    cbn. unfold diff_w. change ((2 ^ 32 - 1) / 2) with (2 ^ 31 - 1).
    set (x := u32 a) in *. set (y := u32 b) in *.
    assert (k = 0 \/ k = 1 \/ k = -1) as Hc by lia.
    destruct (Z.ltb_spec y x); cbv zeta.
    - rewrite (Z.mod_small (x - y)) by lia.
      destruct (Z.ltb_spec (x - y) (2 ^ 31 - 1)).
      + rewrite sint_small; lia.
      + assert (k = 0 /\ x - y = 2 ^ 31 - 1 \/ k = 1) as [[-> E]| -> ] by lia.
        * rewrite Z.mod_small by lia. replace (2 ^ 32 - 1 - x + 1 + y) with (2 ^ 31 + 1) by lia.
          change (sint 32 (- sint 32 (2 ^ 31 + 1))) with (2 ^ 31 - 1). lia.
        * rewrite (Z.mod_small (2 ^ 32 - 1 - x + 1 + y)) by lia.
          rewrite (sint_small 32 (2 ^ 32 - 1 - x + 1 + y)) by lia. rewrite sint_small; lia.
    - rewrite (Z.mod_small (y - x)) by lia.
      destruct (Z.ltb_spec (y - x) (2 ^ 31 - 1)).
      + rewrite (sint_small 32 (y - x)) by lia. rewrite sint_small; lia.
      + rewrite Z.mod_small by lia.
        assert (k = 0 /\ y - x = 2 ^ 31 - 1 \/ k = -1) as [[-> E]| -> ] by lia.
        * replace (2 ^ 32 - 1 - y + 1 + x) with (2 ^ 31 + 1) by lia.
          change (sint 32 (2 ^ 31 + 1)) with (- (2 ^ 31 - 1)). lia.
        * rewrite sint_small; lia.
Qed.

Lemma lt32_window : seq_lt (SA := seq32) (u32 a) (u32 b) = (a <? b).
Proof. unfold seq_lt. rewrite gt32_window, eq32_window. lia. Qed.

Lemma le32_window : seq_le (SA := seq32) (u32 a) (u32 b) = (a <=? b).
Proof. unfold seq_le. rewrite gt32_window. lia. Qed.

Lemma ge32_window : seq_ge (SA := seq32) (u32 a) (u32 b) = (b <=? a).
Proof. unfold seq_ge. rewrite gt32_window, eq32_window. lia. Qed.
End Window.

Lemma add32_wrap a b : seq_add (SA := seq32) (u32 a) b = u32 (a + b).
Proof. apply u32_add_l. Qed.

Lemma add32_wrap2 a b : seq_add (SA := seq32) (u32 a) (u32 b) = u32 (a + b).
Proof. cbn. unfold seq_add. cbn. by autorewrite with width. Qed.

Lemma sub32_wrap a b : seq_sub (SA := seq32) (u32 a) b = u32 (a - b).
Proof. apply u32_sub_l. Qed.

Lemma inc32_wrap a : seq_inc (SA := seq32) (u32 a) = u32 (a + 1).
Proof. apply u32_add_l. Qed.

#[export] Hint Rewrite add32_wrap2 add32_wrap sub32_wrap inc32_wrap : width.

(** The unwrapped instance in terms of the operators of [Z]. *)

Lemma gtZ a b : seq_gt (SeqArith := seqZ) a b = (b <? a).
Proof. apply Z.gtb_ltb. Qed.

Lemma leZ a b : seq_le (SA := seqZ) a b = (a <=? b).
Proof. unfold seq_le. rewrite gtZ. lia. Qed.

Lemma geZ a b : seq_ge (SA := seqZ) a b = (b <=? a).
Proof. unfold seq_ge. rewrite gtZ. lia. Qed.

Lemma ltZ a b : seq_lt (SA := seqZ) a b = (a <? b).
Proof. unfold seq_lt. rewrite gtZ. lia. Qed.

Lemma addZ a b : seq_add (SA := seqZ) a b = a + b.
Proof. reflexivity. Qed.

Lemma subZ a b : seq_sub (SA := seqZ) a b = a - b.
Proof. reflexivity. Qed.

Lemma incZ a : seq_inc (SA := seqZ) a = a + 1.
Proof. reflexivity. Qed.

Lemma diffZ a b : seq_diff (SA := seqZ) a b = a - b.
Proof. reflexivity. Qed.

(** Rewrite every operation of [seqZ] in the goal, or in a hypothesis. *)
Ltac seqz_with rw :=
  match goal with
  | |- context [@seq_gt seqZ ?a ?b] => rw constr:(gtZ a b)
  | |- context [@seq_le seqZ ?a ?b] => rw constr:(leZ a b)
  | |- context [@seq_ge seqZ ?a ?b] => rw constr:(geZ a b)
  | |- context [@seq_lt seqZ ?a ?b] => rw constr:(ltZ a b)
  | |- context [@seq_add seqZ ?a ?b] => rw constr:(addZ a b)
  | |- context [@seq_sub seqZ ?a ?b] => rw constr:(subZ a b)
  | |- context [@seq_inc seqZ ?a] => rw constr:(incZ a)
  | |- context [@seq_diff seqZ ?a ?b] => rw constr:(diffZ a b)
  end.

Ltac seqz := repeat seqz_with ltac:(fun e => rewrite e).
Ltac seqz_in H := revert H; seqz; intros H.

(** Rewrite the operations of [seq32] on wrapped positions, in the goal; the
    positions are near by [lia]. *)
Ltac seqw :=
  repeat match goal with
  | |- context [@seq_add seq32 (u32 ?a) ?b] => rewrite (add32_wrap a b)
  | |- context [@seq_gt seq32 (u32 ?a) (u32 ?b)] => rewrite (gt32_window a b) by lia
  | |- context [@seq_le seq32 (u32 ?a) (u32 ?b)] => rewrite (le32_window a b) by lia
  | |- context [@seq_ge seq32 (u32 ?a) (u32 ?b)] => rewrite (ge32_window a b) by lia
  | |- context [@seq_lt seq32 (u32 ?a) (u32 ?b)] => rewrite (lt32_window a b) by lia
  | |- context [@seq_diff seq32 (u32 ?a) (u32 ?b)] => rewrite (diff32_window a b) by lia
  | |- context [u32 ?a =? u32 ?b] => rewrite (eq32_window a b) by lia
  end.

Lemma gt32_total a b : is_u32 a -> is_u32 b ->
  seq_gt (SeqArith := seq32) a b = negb (seq_gt (SeqArith := seq32) b a || (a =? b)).
Proof.
  unfold is_u32. intros Ha Hb. cbn. unfold gt_w.
  change ((2 ^ 32 - 1) / 2) with (2 ^ 31 - 1).
  destruct (Z.ltb_spec b a), (Z.ltb_spec a b); lia.
Qed.

Lemma sint32_split x :
  - 2 ^ 32 < x < 2 ^ 32 ->
  sint 32 x = if x <? - 2 ^ 31 then x + 2 ^ 32 else if x <? 2 ^ 31 then x else x - 2 ^ 32.
Proof.
  intros H. unfold sint. change (2 ^ (32 - 1)) with (2 ^ 31).
  destruct (Z.ltb_spec x (- 2 ^ 31)); [|destruct (Z.ltb_spec x (2 ^ 31))].
  - rewrite <- (Z_mod_plus_full _ 1), Z.mod_small; lia.
  - rewrite Z.mod_small; lia.
  - rewrite <- (Z_mod_plus_full _ (-1)), Z.mod_small; lia.
Qed.

Lemma diff32_total a b : is_u32 a -> is_u32 b ->
  seq_diff (SA := seq32) a b = i32 (a - b).
Proof.
  unfold is_u32, i32. intros Ha Hb. cbn. unfold diff_w.
  change ((2 ^ 32 - 1) / 2) with (2 ^ 31 - 1).
  destruct (Z.ltb_spec b a); cbv zeta.
  - rewrite (Z.mod_small (a - b)) by lia.
    destruct (Z.ltb_spec (a - b) (2 ^ 31 - 1)); [done|].
    rewrite (Z.mod_small (_ + b)) by lia.
    rewrite (sint32_split (_ + b)), (sint32_split (a - b)) by lia.
    rewrite sint32_split; repeat case_match; lia.
  - rewrite (Z.mod_small (b - a)) by lia.
    destruct (Z.ltb_spec (b - a) (2 ^ 31 - 1)).
    + rewrite (sint32_split (b - a)), (sint32_split (a - b)) by lia.
      rewrite sint32_split; repeat case_match; lia.
    + rewrite (Z.mod_small (_ + a)) by lia.
      rewrite !sint32_split by lia. repeat case_match; lia.
Qed.

(** ** Properties of the 32-bit comparison *)

(** C34. [operator>] of SequenceNumber32 is a total asymmetric comparison of
    any two sequence numbers, and within half of the number space it, the
    derived operators and [operator-] agree with the order and the difference
    of the unwrapped stream positions, whatever the wrap-arounds in between. *)
Theorem sequence_number_window_order (a b : Z) (near : - 2 ^ 31 < a - b < 2 ^ 31) :
  seq_gt (SeqArith := seq32) (u32 a) (u32 b) = (b <? a)
  /\ seq_lt (SA := seq32) (u32 a) (u32 b) = (a <? b)
  /\ seq_le (SA := seq32) (u32 a) (u32 b) = (a <=? b)
  /\ seq_ge (SA := seq32) (u32 a) (u32 b) = (b <=? a)
  /\ seq_diff (SA := seq32) (u32 a) (u32 b) = a - b.
Proof.
  split_and!; [apply gt32_window | apply lt32_window | apply le32_window
              | apply ge32_window | apply diff32_window]; exact near.
Qed.

(** The positions 100 before and 50 after the wrap-around at [2 ^ 32]. *)
Lemma sequence_number_window_order_witness :
  u32 (2 ^ 32 + 50) = 50
  /\ seq_gt (SeqArith := seq32) (u32 (2 ^ 32 + 50)) (u32 (2 ^ 32 - 100)) = true.
Proof.
  split; [reflexivity|].
  exact (proj1 (sequence_number_window_order (2 ^ 32 + 50) (2 ^ 32 - 100)
                  ltac:(split; reflexivity))).
Defined.

(** For every pair of 32-bit values, also those exactly half the number
    space apart where the order is by value, [operator>] is total and
    asymmetric, and [operator-] is the signed 32-bit difference. *)
Theorem sequence_number_total (a b : Z) (Ha : is_u32 a) (Hb : is_u32 b) :
  seq_gt (SeqArith := seq32) a b = negb (seq_gt (SeqArith := seq32) b a || (a =? b))
  /\ seq_diff (SA := seq32) a b = i32 (a - b).
Proof.
  split; [by apply gt32_total | by apply diff32_total].
Qed.

Lemma sequence_number_total_witness :
  seq_diff (SA := seq32) 0 (2 ^ 31) = i32 (0 - 2 ^ 31).
Proof.
  exact (proj2 (sequence_number_total 0 (2 ^ 31) ltac:(split; [discriminate|reflexivity])
                  ltac:(split; [discriminate|reflexivity]))).
Defined.

(** Keep the operations folded: the lemmas above rewrite them. *)
#[global] Arguments seq_wrap {_} _ : simpl never.
#[global] Arguments seq_gt {_} _ _ : simpl never.
#[global] Arguments seq_diff {_} _ _ : simpl never.
#[global] Arguments seq_eq _ _ : simpl never.
#[global] Arguments seq_ne _ _ : simpl never.
#[global] Arguments seq_le {_} _ _ : simpl never.
#[global] Arguments seq_ge {_} _ _ : simpl never.
#[global] Arguments seq_lt {_} _ _ : simpl never.
#[global] Arguments seq_add {_} _ _ : simpl never.
#[global] Arguments seq_sub {_} _ _ : simpl never.
#[global] Arguments seq_inc {_} _ : simpl never.
