(* ===== verification/RxBuffer.v ===== *)
(** The receive buffer: src/internet/model/tcp-rx-buffer.{h,cc}.

    [TcpRxBuffer] is the record of the class, [Add], [Extract],
    [UpdateSackList], ... its methods, over any [SeqArith]: at [seq32] they
    are the code, at [seqZ] the same code over unwrapped stream positions.
    The [std::map] of the class is a list of its (key, packet) pairs in
    iteration order. *)
From Stdlib Require Import ZArith Lia Bool List.
From stdpp Require Import base list.
From S2P Require Import Prelude SeqNum.

(** ** State *)

Record TcpRxBuffer := mkRx {
  m_sackList : list (Z * Z);      (* TcpOptionSack::SackList *)
  m_nextRxSeq : Z;
  m_finSeq : Z;
  m_gotFin : bool;
  m_size : Z;
  m_maxBuffer : Z;
  m_availBytes : Z;
  m_data : list (Z * bytes);      (* std::map<SequenceNumber32, Ptr<Packet>> *)
}.

#[export] Instance eta_TcpRxBuffer : Settable TcpRxBuffer := fun r =>
  mkRx (m_sackList r) (m_nextRxSeq r) (m_finSeq r) (m_gotFin r) (m_size r)
       (m_maxBuffer r) (m_availBytes r) (m_data r).

(** ** Packets: [Packet::GetSize] and [Packet::CreateFragment] on the payload *)

Definition GetSize (p : bytes) : Z := zlen p.

Definition CreateFragment (p : bytes) (start length : Z) : bytes :=
  ztake length (zdrop start p).

Section Rx.
Context {SA : SeqArith}.

(** The constructor; [n] is the first expected sequence number. *)
Definition TcpRxBuffer_new (n : Z) : TcpRxBuffer :=
  mkRx [] n 0 false 0 32768 0 [].

Definition NextRxSequence (b : TcpRxBuffer) : Z := m_nextRxSeq b.
Definition SetNextRxSequence (b : TcpRxBuffer) (s : Z) : TcpRxBuffer := b <| m_nextRxSeq := s |>.
Definition MaxBufferSize (b : TcpRxBuffer) : Z := m_maxBuffer b.
Definition SetMaxBufferSize (b : TcpRxBuffer) (s : Z) : TcpRxBuffer := b <| m_maxBuffer := s |>.
Definition Size (b : TcpRxBuffer) : Z := m_size b.
Definition Available (b : TcpRxBuffer) : Z := m_availBytes b.

Definition IncNextRxSequence (b : TcpRxBuffer) : res TcpRxBuffer :=
  ns_assert (m_size b =? 0) ;;
  Ok (b <| m_nextRxSeq := seq_inc (m_nextRxSeq b) |>).

Definition MaxRxSequence (b : TcpRxBuffer) : Z :=
  if m_gotFin b then m_finSeq b
  else
    match m_data b with
    | (k, _) :: _ =>
        if seq_gt (m_nextRxSeq b) k then seq_add k (m_maxBuffer b)
        else seq_add (m_nextRxSeq b) (m_maxBuffer b)
    | [] => seq_add (m_nextRxSeq b) (m_maxBuffer b)
    end.

Definition SetFinSequence (b : TcpRxBuffer) (s : Z) : TcpRxBuffer :=
  let b := b <| m_gotFin := true |> <| m_finSeq := s |> in
  if m_nextRxSeq b =? m_finSeq b then b <| m_nextRxSeq := seq_inc (m_nextRxSeq b) |> else b.

Definition Finished (b : TcpRxBuffer) : bool :=
  m_gotFin b && seq_lt (m_finSeq b) (m_nextRxSeq b).

(** [std::map::operator[]] with assignment, and [find], for the comparator
    [operator<] of SequenceNumber32. *)
Fixpoint map_set (k : Z) (v : bytes) (l : list (Z * bytes)) : list (Z * bytes) :=
  match l with
  | [] => [(k, v)]
  | (k', v') :: t =>
      if seq_lt k k' then (k, v) :: l
      else if seq_lt k' k then (k', v') :: map_set k v t
      else (k', v) :: t
  end.

Fixpoint map_mem (k : Z) (l : list (Z * bytes)) : bool :=
  match l with
  | [] => false
  | (k', _) :: t =>
      if seq_lt k k' then false else if seq_lt k' k then map_mem k t else true
  end.

(** *** SACK list *)

(** The merging loop of UpdateSackList.  [seen] are the blocks between the
    front block [begin] and the iterator, nearest first; [rest] the blocks
    from the iterator on.  A merge erases the block at the iterator, replaces
    the front block by the union and restarts after it. *)
Fixpoint merge_sack (fuel : nat) (begin : Z * Z) (seen rest : list (Z * Z))
  : res (list (Z * Z)) :=
  match fuel with
  | O => Err NoFuel
  | S fuel =>
      match rest with
      | [] => Ok (begin :: rev seen)
      | current :: rest' =>
          if fst begin =? snd current then
            ns_assert (seq_lt (fst current) (snd begin)) ;;
            merge_sack fuel (fst current, snd begin) [] (rev seen ++ rest')
          else if snd begin =? fst current then
            ns_assert (seq_lt (fst begin) (snd current)) ;;
            merge_sack fuel (fst begin, snd current) [] (rev seen ++ rest')
          else merge_sack fuel begin (current :: seen) rest'
      end
  end.

(** Each merge shortens the list and a pass over it takes its length, so
    [(n + 1) * (n + 1)] iterations are enough for [n] old blocks. *)
Definition merge_fuel (n : nat) : nat := (n + 1) * (n + 1).

Definition pop_back {A} (l : list A) : list A := removelast l.

Definition UpdateSackList (b : TcpRxBuffer) (head tail : Z) : res TcpRxBuffer :=
  ns_assert (seq_gt head (m_nextRxSeq b)) ;;
  l ← merge_sack (merge_fuel (length (m_sackList b))) (head, tail) [] (m_sackList b) ;
  let l := if (4 <? length l)%nat then pop_back l else l in
  Ok (b <| m_sackList := l |>).

Fixpoint clear_sacks (seq : Z) (l : list (Z * Z)) : res (list (Z * Z)) :=
  match l with
  | [] => Ok []
  | block :: t =>
      ns_assert (seq_lt (fst block) (snd block)) ;;
      t' ← clear_sacks seq t ;
      Ok (if seq_le (snd block) seq then t' else block :: t')
  end.

Definition ClearSackList (b : TcpRxBuffer) (seq : Z) : res TcpRxBuffer :=
  l ← clear_sacks seq (m_sackList b) ;
  Ok (b <| m_sackList := l |>).

Definition GetSackListSize (b : TcpRxBuffer) : Z := zlen (m_sackList b).
Definition GetSackList (b : TcpRxBuffer) : list (Z * Z) := m_sackList b.

(** *** Add *)

(** The loop that removes overlapped bytes: it returns the map without the
    packets embedded in the new one, and the trimmed head, tail and size. *)
Fixpoint trim_overlap (l : list (Z * bytes)) (head tail size : Z)
  : list (Z * bytes) * Z * Z * Z :=
  match l with
  | [] => ([], head, tail, size)
  | (k, v) :: t =>
      if seq_le k tail then
        let lastByteSeq := seq_add k (GetSize v) in
        if seq_gt lastByteSeq head then
          if seq_gt k head && seq_lt lastByteSeq tail then
            trim_overlap t head tail (u32 (size - GetSize v))
          else
            let head' := if seq_le k head then lastByteSeq else head in
            let tail' := if seq_ge lastByteSeq tail then k else tail in
            let '(l', h, tl, sz) := trim_overlap t head' tail' size in
            ((k, v) :: l', h, tl, sz)
        else
          let '(l', h, tl, sz) := trim_overlap t head tail size in
          ((k, v) :: l', h, tl, sz)
      else (l, head, tail, size)
  end.

(** The loop that advances NextRxSequence over the packets now in sequence. *)
Fixpoint advance (l : list (Z * bytes)) (b : TcpRxBuffer) : res TcpRxBuffer :=
  match l with
  | [] => Ok b
  | (k, v) :: t =>
      if seq_lt k (m_nextRxSeq b) then advance t b
      else if seq_gt k (m_nextRxSeq b) then Ok b
      else
        let b := b <| m_nextRxSeq := seq_add k (GetSize v) |>
                   <| m_availBytes := u32 (m_availBytes b + GetSize v) |> in
        b ← ClearSackList b (m_nextRxSeq b) ;
        advance t b
  end.

(** The trimming of head and tail to the receive window. *)
Definition trim_window (b : TcpRxBuffer) (headSeq tailSeq : Z) : Z * Z :=
  let headSeq := if seq_lt headSeq (m_nextRxSeq b) then m_nextRxSeq b else headSeq in
  match m_data b with
  | [] => (headSeq, tailSeq)
  | (k, _) :: _ =>
      let maxSeq := seq_add k (m_maxBuffer b) in
      let tailSeq := if seq_lt maxSeq tailSeq then maxSeq else tailSeq in
      (if seq_lt tailSeq headSeq then tailSeq else headSeq, tailSeq)
  end.

(** The end of [Add]: the trimmed packet goes into the map, the SACK list and
    the in-sequence part are updated. *)
Definition insert_packet (b : TcpRxBuffer) (headSeq tailSeq : Z) (p : bytes) : res TcpRxBuffer :=
  ns_assert (negb (map_mem headSeq (m_data b))) ;;
  let b := b <| m_data := map_set headSeq p (m_data b) |> in
  b ← (if seq_gt headSeq (m_nextRxSeq b) then UpdateSackList b headSeq tailSeq else Ok b) ;
  let b := b <| m_size := u32 (m_size b + GetSize p) |> in
  b ← advance (m_data b) b ;
  Ok (if m_gotFin b && (m_nextRxSeq b =? m_finSeq b)
      then b <| m_nextRxSeq := seq_inc (m_nextRxSeq b) |> else b).

(** [Add p tcph], with [seq] the sequence number of the header [tcph]. *)
Definition Add (b : TcpRxBuffer) (p : bytes) (seq : Z) : res (bool * TcpRxBuffer) :=
  let pktSize := GetSize p in
  let headSeq := seq in
  let tailSeq := seq_add headSeq pktSize in
  let '(headSeq, tailSeq) := trim_window b headSeq tailSeq in
  let '(data, headSeq, tailSeq, size) := trim_overlap (m_data b) headSeq tailSeq (m_size b) in
  let b := b <| m_data := data |> <| m_size := size |> in
  if seq_ge headSeq tailSeq then Ok (false, b)
  else
    let start := u32 (seq_diff headSeq seq) in
    let length := u32 (seq_diff tailSeq headSeq) in
    let p := CreateFragment p start length in
    ns_assert (length =? GetSize p) ;;
    b ← insert_packet b headSeq tailSeq p ;
    Ok (true, b).

(** *** Extract *)

(** The delivery loop, over the packets at the front of the map. *)
Fixpoint extract_loop (l : list (Z * bytes)) (b : TcpRxBuffer) (extractSize : Z) (out : bytes)
  : res (bytes * TcpRxBuffer) :=
  if extractSize =? 0 then Ok (out, b <| m_data := l |>)
  else
    match l with
    | [] => Err NullDeref
    | (k, v) :: t =>
        ns_assert (seq_le k (m_nextRxSeq b)) ;;
        let pktSize := GetSize v in
        if pktSize <=? extractSize then
          extract_loop t
            (b <| m_size := u32 (m_size b - pktSize) |>
               <| m_availBytes := u32 (m_availBytes b - pktSize) |>)
            (extractSize - pktSize) (out ++ v)
        else
          let rest := CreateFragment v extractSize (pktSize - extractSize) in
          Ok (out ++ CreateFragment v 0 extractSize,
              b <| m_data := map_set (seq_add k extractSize) rest t |>
                <| m_size := u32 (m_size b - extractSize) |>
                <| m_availBytes := u32 (m_availBytes b - extractSize) |>)
    end.

(** [None] is the null packet. *)
Definition Extract (b : TcpRxBuffer) (maxSize : Z) : res (option bytes * TcpRxBuffer) :=
  let extractSize := Z.min maxSize (m_availBytes b) in
  if extractSize =? 0 then Ok (None, b)
  else
    ns_assert (negb (bool_decide (m_data b = []))) ;;
    '(out, b) ← extract_loop (m_data b) b extractSize [] ;
    if GetSize out =? 0 then Ok (None, b) else Ok (Some out, b).

End Rx.
