(* ===== verification/RxBufferSpec.v ===== *)
(** What the receive buffer promises: reassembly of the byte stream. *)
From Stdlib Require Import ZArith Lia Bool List.
From stdpp Require Import base list.
From S2P Require Import Prelude SeqNum RxBuffer.

(** ** Specification

    [S] is the byte stream of the peer, indexed by unwrapped position. *)

Section Stream.
Variable S : Z -> Z.

(** The packets of [l] are non-empty, hold the bytes of the stream, follow one
    another without overlap from [lo] on, and end by [hi]. *)
Fixpoint blocks (lo hi : Z) (l : list (Z * bytes)) : Prop :=
  match l with
  | [] => lo <= hi
  | (k, v) :: t =>
      lo <= k /\ v <> [] /\ v = stream_slice S k (length v) /\ blocks (k + zlen v) hi t
  end.

(** The packets of [l] cover exactly [a .. b), in order. *)
Fixpoint contiguous (a b : Z) (l : list (Z * bytes)) : Prop :=
  match l with
  | [] => a = b
  | (k, v) :: t => k = a /\ contiguous (k + zlen v) b t
  end.

Definition total (l : list (Z * bytes)) : Z := foldr (fun kv n => zlen (snd kv) + n) 0 l.

Definition covered (l : list (Z * bytes)) (x : Z) : Prop :=
  exists k v, (k, v) ∈ l /\ k <= x < k + zlen v.

(** [W] bounds the receive window. *)
Definition W : Z := 2 ^ 29.

Definition sacks_in (cov : Z -> Prop) (l : list (Z * Z)) : Prop :=
  Forall (fun blk => fst blk < snd blk /\ (forall x, fst blk <= x < snd blk -> cov x)) l.

(** Position of the first byte not yet delivered. *)
Definition rx_first (b : TcpRxBuffer) : Z := m_nextRxSeq b - m_availBytes b.

(** No packet starts at or before [n]. *)
Definition hole (n : Z) (l : list (Z * bytes)) : Prop :=
  forall k v t, l = (k, v) :: t -> n < k.

(** The invariant of the buffer while no FIN is pending: packets in order,
    holding the right bytes, a contiguous part up to NextRxSequence, a gap,
    and the out-of-order packets; the counters agree with the packets, and
    every SACK block lies above the gap and is completely buffered. *)
Record rx_ok (b : TcpRxBuffer) : Prop := {
  ok_split : exists pre post,
    m_data b = pre ++ post
    /\ contiguous (rx_first b) (m_nextRxSeq b) pre
    /\ hole (m_nextRxSeq b) post;
  ok_blocks : blocks (rx_first b) (rx_first b + W) (m_data b);
  ok_avail : 0 <= m_availBytes b;
  ok_size : m_size b = total (m_data b);
  ok_max : 0 <= m_maxBuffer b <= W;
  ok_nofin : m_gotFin b = false;
  ok_sack : sacks_in (covered (m_data b)) (m_sackList b);
  ok_sack_above : Forall (fun s => m_nextRxSeq b < fst s) (m_sackList b);
  ok_sack_len : (length (m_sackList b) <= 4)%nat;
}.

(** ** The lists of packets *)

Lemma zlen_pos {A} (v : list A) : v <> [] -> 0 < zlen v.
Proof. destruct v; [done|]. intros _. rewrite zlen_cons. pose proof (zlen_nonneg v). lia. Qed.

Lemma covered_nil x : ~ covered [] x.
Proof. intros (k & v & H & _). by apply elem_of_nil in H. Qed.

Lemma covered_cons k v l x :
  covered ((k, v) :: l) x <-> k <= x < k + zlen v \/ covered l x.
Proof.
  unfold covered. setoid_rewrite elem_of_cons. naive_solver.
Qed.

Lemma covered_app l l' x : covered (l ++ l') x <-> covered l x \/ covered l' x.
Proof. unfold covered. setoid_rewrite elem_of_app. naive_solver. Qed.

Lemma total_cons k v l : total ((k, v) :: l) = zlen v + total l.
Proof. reflexivity. Qed.

Lemma total_app l l' : total (l ++ l') = total l + total l'.
Proof. induction l as [|[k v] l IH]; simpl; [done|]. rewrite IH. lia. Qed.

Lemma total_nonneg l : 0 <= total l.
Proof. induction l as [|[k v] l IH]; simpl; [done|]. pose proof (zlen_nonneg v). lia. Qed.

Lemma blocks_bounds lo hi l : blocks lo hi l -> lo <= hi.
Proof.
  revert lo; induction l as [|[k v] l IH]; simpl; intros lo H; [done|].
  destruct H as (? & ? & ? & H). apply IH in H. pose proof (zlen_nonneg v). lia.
Qed.

Lemma blocks_total lo hi l : blocks lo hi l -> total l <= hi - lo.
Proof.
  revert lo; induction l as [|[k v] l IH]; simpl; intros lo H; [lia|].
  destruct H as (? & ? & ? & H). apply IH in H. lia.
Qed.

Lemma blocks_weaken lo lo' hi hi' l :
  blocks lo hi l -> lo' <= lo -> hi <= hi' -> blocks lo' hi' l.
Proof.
  revert lo lo'; induction l as [|[k v] l IH]; simpl; intros lo lo' H Hl Hh; [lia|].
  destruct H as (? & ? & ? & H). split_and!; try lia; auto. eapply IH; eauto. lia.
Qed.

Lemma blocks_elem lo hi l k v :
  blocks lo hi l -> (k, v) ∈ l ->
  lo <= k /\ v <> [] /\ v = stream_slice S k (length v) /\ k + zlen v <= hi.
Proof.
  revert lo; induction l as [|[k' v'] l IH]; simpl; intros lo H Hin.
  - by apply elem_of_nil in Hin.
  - destruct H as (? & ? & ? & H). apply elem_of_cons in Hin as [[= -> ->]|Hin].
    + apply blocks_bounds in H. auto.
    + pose proof (zlen_nonneg v'). eapply IH in H as (? & ? & ? & ?); eauto.
      split_and!; auto; lia.
Qed.

Lemma blocks_covered lo hi l x : blocks lo hi l -> covered l x -> lo <= x < hi.
Proof.
  intros H (k & v & Hin & Hx). eapply blocks_elem in Hin as (? & ? & ? & ?); eauto. lia.
Qed.

(** Raising the lower bound of a block list whose first key allows it. *)
Lemma blocks_raise lo lo' hi l :
  blocks lo hi l -> lo' <= hi -> (forall k v t, l = (k, v) :: t -> lo' <= k) ->
  blocks lo' hi l.
Proof.
  destruct l as [|[k v] l]; simpl; intros H Hh Hk; [done|].
  destruct H as (? & ? & ? & ?). split_and!; eauto.
Qed.

Lemma blocks_lower_hi lo hi hi' l :
  blocks lo hi l -> lo <= hi' -> (forall k v, (k, v) ∈ l -> k + zlen v <= hi') ->
  blocks lo hi' l.
Proof.
  revert lo; induction l as [|[k v] l IH]; simpl; intros lo H Hl Hk; [done|].
  destruct H as (? & ? & ? & H). split_and!; eauto.
  apply IH; auto.
  - apply Hk. by left.
  - intros. apply Hk. by right.
Qed.

Lemma contiguous_covered a b l x :
  contiguous a b l -> a <= x < b -> covered l x.
Proof.
  revert a; induction l as [|[k v] l IH]; simpl; intros a H Hx; [lia|].
  destruct H as (-> & H). apply covered_cons.
  destruct (Z.lt_ge_cases x (a + zlen v)); [left; lia|right].
  eapply IH; eauto. lia.
Qed.

Lemma contiguous_app a b c l l' :
  contiguous a b l -> contiguous b c l' -> contiguous a c (l ++ l').
Proof.
  revert a; induction l as [|[k v] l IH]; simpl; intros a H H'; [by subst|].
  destruct H as (-> & H). eauto.
Qed.

Lemma contiguous_total a b l : contiguous a b l -> total l = b - a.
Proof.
  revert a; induction l as [|[k v] l IH]; simpl; intros a H; [lia|].
  destruct H as (-> & H). apply IH in H. lia.
Qed.

Lemma blocks_app lo mid hi l l' :
  blocks lo mid l -> blocks mid hi l' -> blocks lo hi (l ++ l').
Proof.
  revert lo; induction l as [|[k v] l IH]; simpl; intros lo H H'.
  - eapply blocks_weaken; eauto. lia.
  - destruct H as (? & ? & ? & H). split_and!; eauto.
Qed.


(** ** The loops of [Add] at unwrapped positions *)

Abbreviation trimZ := (trim_overlap (SA := seqZ)).

(** A segment with nothing left erases nothing and stays empty. *)
Lemma trim_noop l head tail size :
  tail <= head ->
  exists h t, trimZ l head tail size = (l, h, t, size) /\ t <= h.
Proof.
  revert head tail; induction l as [|[k v] l IH]; simpl; intros head tail Hle; [eauto|].
  seqz. unfold GetSize.
  destruct (Z.leb_spec k tail) as [Hk|Hk]; [|eauto].
  destruct (Z.ltb_spec head (k + zlen v)) as [Hlast|Hlast].
  - destruct ((head <? k) && (k + zlen v <? tail)) eqn:E.
    { pose proof (zlen_nonneg v). lia. }
    edestruct IH as (h & t & -> & ?); [|by eauto].
    repeat case_match; lia.
  - edestruct IH as (h & t & -> & ?); eauto.
Qed.

(** Packets that end before the head are kept and skipped. *)
Lemma trim_prefix pre l head tail size h t l' size' :
  (forall k v, (k, v) ∈ pre -> k + zlen v <= head /\ k <= tail) ->
  trimZ l head tail size = (l', h, t, size') ->
  trimZ (pre ++ l) head tail size = (pre ++ l', h, t, size').
Proof.
  induction pre as [|[k v] pre IH]; simpl; intros Hpre E; [done|].
  destruct (Hpre k v) as [? ?]; [by left|].
  rewrite IH; auto; [|intros; apply Hpre; by right].
  seqz. unfold GetSize.
  destruct (Z.leb_spec k tail); [|lia]. destruct (Z.ltb_spec head (k + zlen v)); [lia|done].
Qed.

Record trimmed (lo hi : Z) (l : list (Z * bytes)) (head tail size : Z)
    (l' : list (Z * bytes)) (h t size' : Z) : Prop := {
  tr_blocks : blocks lo hi l';
  tr_head : head <= h;
  tr_tail : t <= tail;
  tr_size : size' = size - (total l - total l');
  tr_total : 0 <= total l' <= total l;
  tr_disj : forall k v, (k, v) ∈ l' -> k + zlen v <= h \/ t <= k;
  tr_seg : forall x, head <= x < tail -> covered l' x \/ h <= x < t;
  tr_old : forall x, covered l x -> covered l' x \/ h <= x < t;
  tr_sub : forall k v, (k, v) ∈ l' -> (k, v) ∈ l;
}.

(** Keeping the first packet: its own facts and the result on the rest. *)
Lemma trim_keep lo hi k v l head tail size l' h t size' :
  lo <= k -> v <> [] -> v = stream_slice S k (length v) ->
  blocks (k + zlen v) hi l' -> head <= h -> t <= tail ->
  size' = size - (total l - total l') -> 0 <= total l' <= total l ->
  (forall k v, (k, v) ∈ l' -> k + zlen v <= h \/ t <= k) ->
  (forall x, covered l x -> covered l' x \/ h <= x < t) ->
  (forall k v, (k, v) ∈ l' -> (k, v) ∈ l) ->
  (k + zlen v <= h \/ t <= k) ->
  (forall x, head <= x < tail -> covered ((k, v) :: l') x \/ h <= x < t) ->
  trimmed lo hi ((k, v) :: l) head tail size ((k, v) :: l') h t size'.
Proof.
  intros. pose proof (zlen_nonneg v). split; simpl; auto; try lia.
  - intros k' v' [[= -> ->]|Hin]%elem_of_cons; auto.
  - intros x. rewrite !covered_cons. intros [?|Hx]; [by left; left|].
    destruct (H8 x Hx); auto.
  - intros k' v'. rewrite !elem_of_cons. naive_solver.
Qed.

Lemma trim_spec lo hi l head tail size h t l' size' :
  blocks lo hi l -> total l <= size < 2 ^ 32 ->
  trimZ l head tail size = (l', h, t, size') ->
  trimmed lo hi l head tail size l' h t size'.
Proof.
  revert lo head tail size h t l' size'.
  induction l as [|[k v] l IH]; simpl; intros lo head tail size h t l' size' Hb Hs E.
  { injection E as <- <- <- <-.
    split; simpl; try lia; auto; intros.
    by apply elem_of_nil in H. }
  destruct Hb as (Hk & Hv & Hsl & Hb). pose proof (zlen_pos v Hv). pose proof (total_nonneg l).
  seqz_in E. unfold GetSize in E.
  destruct (Z.leb_spec k tail) as [Hkt|Hkt].
  2: { injection E as <- <- <- <-. split; auto; simpl; auto; try lia.
       intros k' v' [[= -> ->]|Hin]%elem_of_cons; [lia|].
       destruct (blocks_elem _ _ _ _ _ Hb Hin). lia. }
  destruct (Z.ltb_spec head (k + zlen v)) as [Hl|Hl].
  2: { destruct (trimZ l head tail size) as [[[l1 h1] t1] s1] eqn:E1.
       injection E as <- <- <- <-.
       apply (IH (k + zlen v)) in E1 as []; auto; [|lia].
       apply trim_keep; auto; try lia.
       intros x Hx. rewrite covered_cons. destruct (tr_seg0 x Hx); auto. }
  destruct ((head <? k) && (k + zlen v <? tail)) eqn:Hemb.
  - rewrite u32_small in E by (unfold is_u32; lia).
    apply (IH (k + zlen v)) in E as []; auto; [|lia].
    split; auto; simpl; try lia.
    + eapply blocks_weaken; eauto; lia.
    + intros x [?|?]%covered_cons; [apply tr_seg0; lia|auto].
    + intros. right. auto.
  - match type of E with context [trimZ l ?hd ?tl size] =>
      destruct (trimZ l hd tl size) as [[[l1 h1] t1] s1] eqn:E1 end.
    injection E as <- <- <- <-.
    apply (IH (k + zlen v)) in E1 as []; auto; [|lia].
    apply trim_keep; auto; repeat case_match; try lia.
    all: intros x Hx; rewrite covered_cons; destruct (decide (k <= x < k + zlen v)); [by left; left|].
    all: destruct (tr_seg0 x) as [?|?]; [lia|by left; right|by right].
Qed.

(** Insertion of a packet between the packets of an ordered map. *)
Abbreviation mapsetZ := (map_set (SA := seqZ)).
Abbreviation mapmemZ := (map_mem (SA := seqZ)).

Lemma map_set_prefix pre l k v :
  (forall k' v', (k', v') ∈ pre -> k' < k) ->
  mapsetZ k v (pre ++ l) = pre ++ mapsetZ k v l.
Proof.
  induction pre as [|[k' v'] pre IH]; simpl; intros H; [done|].
  seqz. assert (k' < k) by (apply (H k' v'); by left).
  destruct (Z.ltb_spec k k'); [lia|]. destruct (Z.ltb_spec k' k); [|lia].
  rewrite IH; auto. intros. apply (H k'0 v'0). by right.
Qed.

Record inserted (lo hi : Z) (l : list (Z * bytes)) (k : Z) (v : bytes)
    (l' : list (Z * bytes)) : Prop := {
  in_blocks : blocks lo hi l';
  in_total : total l' = zlen v + total l;
  in_covered : forall x, covered l' x <-> k <= x < k + zlen v \/ covered l x;
  in_elem : forall kv, kv ∈ l' <-> kv = (k, v) \/ kv ∈ l;
}.

Lemma map_set_spec lo hi l k v :
  blocks lo hi l -> lo <= k -> k + zlen v <= hi -> v <> [] ->
  v = stream_slice S k (length v) ->
  (forall k' v', (k', v') ∈ l -> k' + zlen v' <= k \/ k + zlen v <= k') ->
  inserted lo hi l k v (mapsetZ k v l) /\ mapmemZ k l = false.
Proof.
  intros Hb Hlo Hhi Hv Hs. pose proof (zlen_pos v Hv).
  revert lo Hb Hlo. induction l as [|[k' v'] l IH]; simpl; intros lo Hb Hlo Hd.
  { split; [|done]. split; simpl; auto; intros.
    - rewrite covered_cons. done.
    - by rewrite elem_of_cons. }
  destruct Hb as (? & Hv' & ? & Hb). pose proof (zlen_pos v' Hv').
  seqz.
  pose proof (Hd k' v' ltac:(by left)).
  destruct (Z.ltb_spec k k').
  { split; [|done]. split; simpl; auto; intros.
    - split_and!; auto; lia.
    - by rewrite !covered_cons.
    - by rewrite !elem_of_cons. }
  destruct (Z.ltb_spec k' k); [|lia].
  destruct (IH (k' + zlen v')) as [[] ?]; auto; [lia|intros; apply Hd; by right|].
  split; [|done]. split; simpl; auto; intros; try lia.
  - rewrite !covered_cons. naive_solver.
  - rewrite !elem_of_cons. naive_solver.
Qed.

Lemma map_mem_prefix pre l k :
  (forall k' v', (k', v') ∈ pre -> k' < k) -> mapmemZ k (pre ++ l) = mapmemZ k l.
Proof.
  induction pre as [|[k' v'] pre IH]; simpl; intros H; [done|].
  seqz. assert (k' < k) by (apply (H k' v'); by left).
  destruct (Z.ltb_spec k k'); [lia|]. destruct (Z.ltb_spec k' k); [|lia].
  apply IH. intros. apply (H k'0 v'0). by right.
Qed.

Lemma map_set_front lo hi l k v : blocks lo hi l -> k < lo -> mapsetZ k v l = (k, v) :: l.
Proof.
  destruct l as [|[k' v'] l]; simpl; intros Hb Hk; [done|].
  seqz. destruct (Z.ltb_spec k k'); [done|lia].
Qed.

(** *** The SACK list *)

Lemma clear_sacks_spec seq l :
  Forall (fun blk => fst blk < snd blk) l ->
  clear_sacks (SA := seqZ) seq l = Ok (List.filter (fun blk => seq <? snd blk) l).
Proof.
  induction 1 as [|blk l Hblk Hl IH]; simpl; [done|].
  rewrite IH. seqz. unfold ns_assert. simpl.
  destruct (Z.ltb_spec (fst blk) (snd blk)); [simpl|lia].
  by destruct (Z.leb_spec (snd blk) seq), (Z.ltb_spec seq (snd blk)); try lia.
Qed.

(** The merge loop ends within its fuel, keeps every block covered, and its
    front block contains the block it started from. *)
Lemma merge_sack_spec cov fuel begin seen rest :
  ((length seen + length rest) * (length seen + length rest + 1) + length rest + 1 <= fuel)%nat ->
  sacks_in cov (begin :: rev seen ++ rest) ->
  exists first l,
    merge_sack (SA := seqZ) fuel begin seen rest = Ok (first :: l)
    /\ sacks_in cov (first :: l)
    /\ (length l <= length seen + length rest)%nat
    /\ fst first <= fst begin /\ snd begin <= snd first.
Proof.
  revert begin seen rest. induction fuel as [|fuel IH]; simpl; intros begin seen rest Hf Hs; [lia|].
  destruct rest as [|cur rest].
  { exists begin, (rev seen). rewrite app_nil_r in Hs. rewrite length_rev. split_and!; auto; lia. }
  unfold sacks_in in Hs. rewrite Forall_cons, Forall_app, Forall_cons in Hs.
  destruct Hs as ((Hb1 & Hb2) & Hseen & (Hc1 & Hc2) & Hrest). simpl in Hf.
  assert (forall nb, fst nb < snd nb -> (forall x, fst nb <= x < snd nb -> cov x) ->
            sacks_in cov (nb :: rev [] ++ rev seen ++ rest)) as Hmerge.
  { intros nb H1 H2. apply Forall_cons. split; [done|]. simpl. by apply Forall_app. }
  assert (length (rev seen ++ rest) = length seen + length rest)%nat as Hlen
    by (by rewrite length_app, length_rev).
  seqz. unfold ns_assert.
  destruct (Z.eqb_spec (fst begin) (snd cur)) as [E|_];
    [|destruct (Z.eqb_spec (snd begin) (fst cur)) as [E|_]].
  - destruct (Z.ltb_spec (fst cur) (snd begin)); [simpl|lia].
    destruct (IH (fst cur, snd begin) [] (rev seen ++ rest)) as (f & l & -> & ? & ? & ? & ?).
    + rewrite Hlen. simpl. nia.
    + apply Hmerge; simpl; [lia|]. intros x Hx.
      destruct (Z.lt_ge_cases x (snd cur)); [apply Hc2|apply Hb2]; lia.
    + exists f, l. rewrite Hlen in *. simpl in *. split_and!; auto; lia.
  - destruct (Z.ltb_spec (fst begin) (snd cur)); [simpl|lia].
    destruct (IH (fst begin, snd cur) [] (rev seen ++ rest)) as (f & l & -> & ? & ? & ? & ?).
    + rewrite Hlen. simpl. nia.
    + apply Hmerge; simpl; [lia|]. intros x Hx.
      destruct (Z.lt_ge_cases x (snd begin)); [apply Hb2|apply Hc2]; lia.
    + exists f, l. rewrite Hlen in *. simpl in *. split_and!; auto; lia.
  - destruct (IH begin (cur :: seen) rest) as (f & l & -> & ? & ? & ? & ?).
    + simpl. nia.
    + simpl. unfold sacks_in. rewrite <- app_assoc. simpl.
      rewrite Forall_cons, Forall_app, Forall_cons. auto.
    + exists f, l. simpl in *. split_and!; auto; lia.
Qed.

Lemma sacks_in_pop_back cov first l :
  sacks_in cov (first :: l) -> sacks_in cov (pop_back (first :: l)).
Proof.
  unfold pop_back. intros H.
  rewrite (app_removelast_last (0, 0)) in H by done.
  by apply Forall_app in H as [? _].
Qed.

(** *** Advancing the next expected sequence number *)

Abbreviation advanceZ := (advance (SA := seqZ)).

Lemma advance_prefix pre l b :
  (forall k v, (k, v) ∈ pre -> k < m_nextRxSeq b) -> advanceZ (pre ++ l) b = advanceZ l b.
Proof.
  induction pre as [|[k v] pre IH]; simpl; intros H; [done|].
  seqz. assert (k < m_nextRxSeq b) by (apply (H k v); by left).
  destruct (Z.ltb_spec k (m_nextRxSeq b)); [|lia].
  apply IH. intros. apply (H k0 v0). by right.
Qed.

Record advanced (b : TcpRxBuffer) (rest : list (Z * bytes)) (b' : TcpRxBuffer)
    (c post : list (Z * bytes)) : Prop := {
  ad_split : rest = c ++ post;
  ad_contig : contiguous (m_nextRxSeq b) (m_nextRxSeq b') c;
  ad_hole : forall k v t, post = (k, v) :: t -> m_nextRxSeq b' < k;
  ad_eq : b' = b <| m_nextRxSeq := m_nextRxSeq b' |>
                 <| m_availBytes := m_availBytes b + (m_nextRxSeq b' - m_nextRxSeq b) |>
                 <| m_sackList := m_sackList b' |>;
  ad_sacks : forall s, s ∈ m_sackList b' -> s ∈ m_sackList b;
  ad_drop : m_nextRxSeq b' <> m_nextRxSeq b ->
            Forall (fun s => m_nextRxSeq b' < snd s) (m_sackList b');
  ad_len : (length (m_sackList b') <= length (m_sackList b))%nat;
  ad_mono : m_nextRxSeq b <= m_nextRxSeq b';
}.

Lemma advance_spec hi l b :
  blocks (m_nextRxSeq b) hi l ->
  Forall (fun s => fst s < snd s) (m_sackList b) ->
  0 <= m_availBytes b -> m_availBytes b + total l < 2 ^ 32 ->
  exists b' c post, advanceZ l b = Ok b' /\ advanced b l b' c post.
Proof.
  revert b. induction l as [|[k v] l IH]; simpl; intros b Hb Hsk Ha Ht.
  { exists b, [], []. split; [done|]. destruct b; split; simpl; auto; try lia; try done.
    by rewrite Z.sub_diag, Z.add_0_r. }
  destruct Hb as (Hk & Hv & ? & Hb). pose proof (zlen_pos v Hv). pose proof (total_nonneg l).
  seqz.
  destruct (Z.ltb_spec k (m_nextRxSeq b)); [lia|].
  destruct (Z.ltb_spec (m_nextRxSeq b) k).
  { exists b, [], ((k, v) :: l). split; [done|]. destruct b; split; simpl; auto; try lia; try done.
    - intros. by simplify_eq.
    - by rewrite Z.sub_diag, Z.add_0_r. }
  assert (k = m_nextRxSeq b) as -> by lia. unfold GetSize.
  rewrite u32_small by (unfold is_u32; lia).
  unfold ClearSackList. cbn [set_field m_sackList m_nextRxSeq].
  rewrite clear_sacks_spec by done. simpl.
  match goal with |- context [advanceZ l ?x] => set (b1 := x) end.
  destruct (IH b1) as (b' & c & post & E & []); simpl; auto; try lia.
  { by apply Forall_filter. }
  simpl in *. exists b', ((m_nextRxSeq b, v) :: c), post.
  split; [done|]. split; simpl; auto; try lia.
  - by rewrite ad_split0.
  - destruct b, b'. simpl in *. injection ad_eq0. intros. subst. rec_simpl. f_equal. lia.
  - intros s Hs. by apply ad_sacks0, elem_of_filter_In in Hs as [? _].
  - intros _. destruct (decide (m_nextRxSeq b' = m_nextRxSeq b + zlen v)) as [E'|]; [|auto].
    apply Forall_forall. intros s Hs. apply ad_sacks0, elem_of_filter_In in Hs as [_ ?]. lia.
  - etransitivity; [exact ad_len0|]. apply filter_length_le.
Qed.

Lemma contiguous_split a b hi c post :
  contiguous a b c -> blocks a hi (c ++ post) -> blocks a b c /\ blocks b hi post.
Proof.
  revert a; induction c as [|[k v] c IH]; simpl; intros a Hc Hb; [subst; split; [lia|done]|].
  destruct Hc as (-> & Hc), Hb as (? & ? & ? & Hb).
  destruct (IH _ Hc Hb). auto.
Qed.

Lemma sacks_in_impl (P Q : Z -> Prop) l : sacks_in P l -> (forall x, P x -> Q x) -> sacks_in Q l.
Proof. intros H HPQ. eapply Forall_impl; [exact H|]. naive_solver. Qed.

(** What [Add] does to a buffer in its invariant. *)
Record added (b : TcpRxBuffer) (seq len : Z) (b' : TcpRxBuffer) : Prop := {
  add_ok : rx_ok b';
  add_first : rx_first b' = rx_first b;
  add_next : m_nextRxSeq b <= m_nextRxSeq b';
  add_max : m_maxBuffer b' = m_maxBuffer b;
  add_keep : forall x, covered (m_data b) x -> covered (m_data b') x;
  add_only : forall x, covered (m_data b') x -> covered (m_data b) x \/ seq <= x < seq + len;
  add_seg : forall x, seq <= x < seq + len -> m_nextRxSeq b <= x ->
    (forall k v t, m_data b = (k, v) :: t -> x < k + m_maxBuffer b) -> covered (m_data b') x;
}.

Lemma added_same b seq len :
  rx_ok b -> (forall x, seq <= x < seq + len -> m_nextRxSeq b <= x ->
    (forall k v t, m_data b = (k, v) :: t -> x < k + m_maxBuffer b) -> covered (m_data b) x) ->
  added b seq len b.
Proof. intros. split; auto; lia. Qed.

(** The bounds of a segment after the trimming to the window. *)
Lemma trim_window_spec b seq len :
  rx_ok b -> 0 <= len -> seq + len <= m_nextRxSeq b + W ->
  exists h t, trim_window (SA := seqZ) b seq (seq + len) = (h, t)
    /\ t <= seq + len /\ t <= rx_first b + W /\
    (h < t -> h = Z.max seq (m_nextRxSeq b)) /\
    (forall x, seq <= x < seq + len -> m_nextRxSeq b <= x ->
      (forall k v t, m_data b = (k, v) :: t -> x < k + m_maxBuffer b) -> h <= x < t).
Proof.
  intros [] Hlen Hw. unfold trim_window. seqz.
  destruct ok_split0 as (pre & post & Hd & Hc & Hh).
  destruct (m_data b) as [|[k v] l] eqn:E.
  - destruct pre; [|done]. simpl in Hc. unfold W, rx_first in *.
    eexists _, _. split; [done|]. split_and!; repeat case_match; try lia.
  - assert (k = rx_first b \/ (pre = [] /\ rx_first b = m_nextRxSeq b)) as Hk.
    { destruct pre as [|[k' v'] pre]; simpl in *; [right; split; congruence|].
      destruct Hc as [-> _]. left. congruence. }
    eexists _, _. split; [seqz; reflexivity|].
    unfold W, rx_first in *.
    split_and!; repeat case_match; try lia.
    all: intros x ? ? Hx; specialize (Hx _ _ _ eq_refl); lia.
Qed.

(** A buffer between the trimming loop and the insertion of [h .. t). *)
Record rx_mid (b : TcpRxBuffer) (pre post : list (Z * bytes)) (h t : Z) : Prop := {
  mid_data : m_data b = pre ++ post;
  mid_contig : contiguous (rx_first b) (m_nextRxSeq b) pre;
  mid_hole : hole (m_nextRxSeq b) post;
  mid_blocks : blocks (rx_first b) (rx_first b + W) (pre ++ post);
  mid_avail : 0 <= m_availBytes b;
  mid_size : m_size b = total (pre ++ post);
  mid_max : 0 <= m_maxBuffer b <= W;
  mid_nofin : m_gotFin b = false;
  mid_sack : sacks_in (fun x => covered (pre ++ post) x \/ h <= x < t) (m_sackList b);
  mid_sack_above : Forall (fun s => m_nextRxSeq b < fst s) (m_sackList b);
  mid_sack_len : (length (m_sackList b) <= 4)%nat;
  mid_seg : m_nextRxSeq b <= h < t /\ t <= rx_first b + W;
  mid_disj : forall k v, (k, v) ∈ post -> k + zlen v <= h \/ t <= k;
}.

Lemma blocks_elem_lt a b l k v : blocks a b l -> (k, v) ∈ l -> k < b /\ k + zlen v <= b.
Proof.
  intros Hb Hin. destruct (blocks_elem _ _ _ _ _ Hb Hin) as (? & Hv & ? & ?).
  pose proof (zlen_pos v Hv). lia.
Qed.

(** The update of the SACK list, when the new packet is out of order. *)
Lemma UpdateSackList_spec cov b h t :
  sacks_in cov (m_sackList b) -> (length (m_sackList b) <= 4)%nat ->
  m_nextRxSeq b < h < t -> (forall x, h <= x < t -> cov x) ->
  exists sk, UpdateSackList (SA := seqZ) b h t = Ok (b <| m_sackList := sk |>)
    /\ sacks_in cov sk /\ (length sk <= 4)%nat.
Proof.
  intros Hs Hl Hh Hc. unfold UpdateSackList, ns_assert. seqz.
  destruct (Z.ltb_spec (m_nextRxSeq b) h); [|lia].
  destruct (merge_sack_spec cov (merge_fuel (length (m_sackList b))) (h, t) [] (m_sackList b))
    as (f & l & E & ? & ? & _); [simpl; unfold merge_fuel; nia| |].
  { apply Forall_cons. split; [simpl; split; [lia|done]|done]. }
  unfold mbind, res_bind. rewrite E.
  eexists. split; [reflexivity|].
  destruct (Nat.ltb_spec 4 (length (f :: l))).
  - split; [by apply sacks_in_pop_back|]. unfold pop_back.
    pose proof (f_equal length (app_removelast_last (l := f :: l) (0, 0) ltac:(done))) as Hlast.
    rewrite length_app in Hlast. simpl in *. lia.
  - split; [done|]. simpl in *. lia.
Qed.

Lemma insert_packet_spec b pre post h t p :
  rx_mid b pre post h t -> p = stream_slice S h (Z.to_nat (t - h)) ->
  exists b', insert_packet (SA := seqZ) b h t p = Ok b'
    /\ rx_ok b' /\ rx_first b' = rx_first b /\ m_nextRxSeq b <= m_nextRxSeq b'
    /\ m_maxBuffer b' = m_maxBuffer b
    /\ (forall x, covered (m_data b') x <-> h <= x < t \/ covered (pre ++ post) x).
Proof.
  intros [] Hp.
  assert (zlen p = t - h) as Hlen by (subst p; unfold zlen; rewrite stream_slice_length; lia).
  assert (p <> []) as Hpn by (intros ->; rewrite zlen_nil in Hlen; lia).
  destruct (contiguous_split _ _ _ _ _ mid_contig0 mid_blocks0) as [Hpre Hpost].
  assert (forall k v, (k, v) ∈ pre -> k < h) as Hlt.
  { intros k v Hin. destruct (blocks_elem_lt _ _ _ _ _ Hpre Hin). lia. }
  destruct (map_set_spec (m_nextRxSeq b) (rx_first b + W) post h p) as [[] Hmem]; auto; try lia.
  { subst p. by rewrite stream_slice_length. }
  { intros. rewrite Hlen. replace (h + (t - h)) with t by lia. auto. }
  unfold insert_packet, ns_assert.
  rewrite mid_data0, map_mem_prefix, map_set_prefix, Hmem by eauto.
  cbn [negb]. cbv [mbind res_bind]. cbn iota zeta.
  set (data := pre ++ mapsetZ h p post) in *.
  assert (forall x, covered data x <-> h <= x < t \/ covered (pre ++ post) x) as Hcov.
  { intros x. unfold data. rewrite !covered_app, in_covered0, Hlen.
    replace (h + (t - h)) with t by lia. tauto. }
  set (cov := fun x => m_nextRxSeq b < x /\ covered data x).
  assert (sacks_in cov (m_sackList b)) as Hsk.
  { apply Forall_forall. intros s Hs.
    pose proof (proj1 (Forall_forall _ _) mid_sack0 s Hs) as [? Hc].
    pose proof (proj1 (Forall_forall _ _) mid_sack_above0 s Hs) as Hab. simpl in Hab.
    split; [done|]. intros x Hx. split; [lia|]. apply Hcov. destruct (Hc x Hx); auto. }
  set (b1 := b <| m_data := data |>).
  assert (exists sk, (if seq_gt (SeqArith := seqZ) h (m_nextRxSeq b1)
                      then UpdateSackList (SA := seqZ) b1 h t else Ok b1)
                     = Ok (b1 <| m_sackList := sk |>)
                     /\ sacks_in cov sk /\ (length sk <= 4)%nat) as (sk & E & Hsk' & Hskl).
  { seqz. change (m_nextRxSeq b1) with (m_nextRxSeq b).
    destruct (Z.ltb_spec (m_nextRxSeq b) h).
    - apply (UpdateSackList_spec cov b1); auto; simpl; [lia|].
      intros x Hx. split; [lia|]. apply Hcov. auto.
    - exists (m_sackList b). destruct b; auto. }
  rewrite E. cbn iota.
  set (b2 := b1 <| m_sackList := sk |> <| m_size := u32 (m_size b + zlen p) |>).
  assert (blocks (rx_first b) (rx_first b + W) data) as Hdata by (eapply blocks_app; eauto).
  pose proof (blocks_total _ _ _ Hdata) as Htot. pose proof (total_nonneg (pre ++ post)).
  assert (total data = zlen p + total (pre ++ post)) as Htd
    by (unfold data; rewrite !total_app, in_total0; lia).
  match goal with |- context [advanceZ ?l ?x] =>
    change x with b2; change (m_data b2) with (pre ++ mapsetZ h p post) end.
  rewrite advance_prefix by (intros k v Hin; destruct (blocks_elem_lt _ _ _ _ _ Hpre Hin); done).
  destruct (advance_spec (rx_first b + W) (mapsetZ h p post) b2) as (b' & c & post' & Ea & []);
    auto; simpl.
  { eapply Forall_impl; [exact Hsk'|]. naive_solver. }
  { unfold W in *. rewrite total_app in Htd. pose proof (total_nonneg pre).
    pose proof (contiguous_total _ _ _ mid_contig0). unfold rx_first in *.
    unfold data in Htot. rewrite total_app in Htot. lia. }
  rewrite Ea. cbn iota.
  assert (m_gotFin b' = false /\ m_data b' = data /\ m_size b' = u32 (m_size b + zlen p)
          /\ m_availBytes b' = m_availBytes b + (m_nextRxSeq b' - m_nextRxSeq b)
          /\ m_maxBuffer b' = m_maxBuffer b) as (Ef & Ed & Es & Eav & Emx)
    by (rewrite ad_eq0; auto).
  rewrite Ef. simpl. exists b'. split; [done|].
  assert (rx_first b' = rx_first b) as Efst by (unfold rx_first; lia).
  simpl in ad_contig0, ad_mono0, ad_sacks0, ad_drop0, ad_len0.
  assert (contiguous (rx_first b) (m_nextRxSeq b') (pre ++ c)) as Hcontig
    by (eapply contiguous_app; eauto).
  assert (data = (pre ++ c) ++ post') as Hsplit by (unfold data; rewrite ad_split0; apply app_assoc).
  assert (~ covered data (m_nextRxSeq b')) as Hnc.
  { rewrite Hsplit, covered_app. rewrite Hsplit in Hdata.
    destruct (contiguous_split _ _ _ _ _ Hcontig Hdata) as [H1 H2].
    intros [Hx|Hx]; [apply (blocks_covered _ _ _ _ H1) in Hx; lia|].
    destruct post' as [|[k v] post']; [by apply covered_nil in Hx|].
    apply (blocks_covered k (rx_first b + W)) in Hx; [pose proof (ad_hole0 _ _ _ eq_refl); lia|].
    apply (blocks_raise _ _ _ _ H2); [|intros; simplify_eq; lia].
    apply blocks_bounds in H2. destruct (blocks_elem_lt _ _ _ k v Hdata); [|lia].
    apply elem_of_app. right. by left. }
  split_and!; auto; [|intros; by rewrite Ed, Hcov].
  split; rewrite ?Efst, ?Ed; auto; try lia.
  - exists (pre ++ c), post'. auto.
  - rewrite Es, u32_small; unfold is_u32, W in *; lia.
  - eapply sacks_in_impl; [apply Forall_forall|].
    + intros s Hs. apply ad_sacks0 in Hs. exact (proj1 (Forall_forall _ _) Hsk' s Hs).
    + unfold cov. naive_solver.
  - apply Forall_forall. intros s Hs.
    pose proof (proj1 (Forall_forall _ _) Hsk' s (ad_sacks0 s Hs)) as [Hs1 Hs2].
    destruct (decide (m_nextRxSeq b' = m_nextRxSeq b)) as [Eq|Hne].
    + destruct (Hs2 (fst s)); [lia|]. lia.
    + specialize (ad_drop0 Hne).
      pose proof (proj1 (Forall_forall _ _) ad_drop0 s Hs) as Hgt. simpl in Hgt.
      destruct (Z.lt_ge_cases (m_nextRxSeq b') (fst s)); [done|].
      destruct (Hs2 (m_nextRxSeq b')) as [_ ?]; [lia|done].
Qed.

Lemma CreateFragment_slice p seq a n :
  p = stream_slice S seq (length p) -> seq <= a -> 0 <= n -> a + n <= seq + zlen p ->
  CreateFragment p (a - seq) n = stream_slice S a (Z.to_nat n).
Proof.
  intros Hp Ha Hn Hl. unfold CreateFragment, ztake, zdrop, zlen in *.
  rewrite Hp, stream_slice_drop, stream_slice_take. f_equal; lia.
Qed.

Lemma Add_spec b p seq :
  rx_ok b -> p = stream_slice S seq (length p) ->
  m_nextRxSeq b - W <= seq -> seq + zlen p <= m_nextRxSeq b + W ->
  exists r b', Add (SA := seqZ) b p seq = Ok (r, b') /\ added b seq (zlen p) b'.
Proof.
  intros Hok Hp Hlo Hhi. pose proof (zlen_nonneg p).
  destruct (trim_window_spec b seq (zlen p) Hok) as (h0 & t0 & E & Ht1 & Ht2 & Hh & Hin); auto.
  pose proof Hok as [(pre & post & Hd & Hc & Hhole)].
  pose proof ok_blocks0 as Hb. rewrite Hd in Hb.
  destruct (contiguous_split _ _ _ _ _ Hc Hb) as [Hpre Hpost].
  unfold Add. rewrite addZ. change (GetSize p) with (zlen p). rewrite E. rewrite Hd.
  destruct (Z.le_gt_cases t0 h0) as [Hle|Hlt].
  { destruct (trim_noop (pre ++ post) h0 t0 (m_size b) Hle) as (h & t & -> & ?).
    rewrite geZ. destruct (Z.leb_spec t h); [|lia]. exists false, b. split.
    - rewrite <- Hd. by destruct b.
    - apply added_same; auto. intros x Hx1 Hx2 Hx. specialize (Hin x Hx1 Hx2 Hx). lia. }
  specialize (Hh Hlt).
  destruct (trimZ post h0 t0 (m_size b)) as [[[post' h] t] size'] eqn:Et.
  pose proof (blocks_total _ _ _ Hpost). pose proof (contiguous_total _ _ _ Hc) as Htp.
  rewrite Hd, total_app in ok_size0. pose proof (total_nonneg post).
  pose proof Et as [] %(trim_spec (m_nextRxSeq b) (rx_first b + W)); auto;
    [|unfold rx_first, W in *; lia].
  erewrite trim_prefix; [|intros k v Hk; destruct (blocks_elem_lt _ _ _ _ _ Hpre Hk); lia|exact Et].
  seqz.
  set (b1 := b <| m_data := pre ++ post' |> <| m_size := size' |>).
  assert (rx_first b1 = rx_first b /\ m_nextRxSeq b1 = m_nextRxSeq b
          /\ m_maxBuffer b1 = m_maxBuffer b) as (Ef & En & Em) by done.
  assert (forall x, covered (m_data b) x -> covered (pre ++ post') x \/ h <= x < t) as Hkeep.
  { intros x. rewrite Hd, !covered_app. intros [?|Hx]; [by left; left|].
    destruct (tr_old0 x Hx); auto. }
  assert (hole (m_nextRxSeq b) post') as Hhole'.
  { intros k v tl ->. destruct post as [|[k1 v1] post1].
    - by pose proof (tr_sub0 k v ltac:(by left)) as ?%elem_of_nil.
    - specialize (Hhole k1 v1 post1 eq_refl).
      pose proof (tr_sub0 k v ltac:(by left)) as [[= -> ->]|Hin']%elem_of_cons; [done|].
      simpl in Hpost. destruct Hpost as (_ & _ & _ & Hpost). pose proof (zlen_nonneg v1).
      destruct (blocks_elem _ _ _ _ _ Hpost Hin'). lia. }
  assert (blocks (rx_first b) (rx_first b + W) (pre ++ post')) as Hb' by (eapply blocks_app; eauto).
  assert (forall x, covered (pre ++ post') x -> covered (m_data b) x) as Hsub.
  { intros x. rewrite Hd, !covered_app. intros [?|(k & v & Hk & ?)]; [by left|].
    right. exists k, v. auto. }
  destruct (Z.leb_spec t h) as [Hth|Hth].
  - exists false, b1. split; [done|].
    split; rewrite ?Ef, ?En, ?Em; auto; try lia.
    + split; rewrite ?Ef, ?En, ?Em; auto; simpl.
      * exists pre, post'. auto.
      * rewrite total_app. lia.
      * eapply sacks_in_impl; [done|]. intros x Hx. destruct (Hkeep x Hx); [done|lia].
    + intros x Hx. destruct (Hkeep x Hx); [done|lia].
    + intros x Hx1 Hx2 Hx. simpl. specialize (Hin x Hx1 Hx2 Hx). rewrite covered_app.
      destruct (tr_seg0 x Hin); [by right|lia].
  - assert (m_nextRxSeq b <= h) by lia. cbn zeta.
    rewrite !u32_small by (unfold is_u32, rx_first, W in *; lia).
    rewrite (CreateFragment_slice p seq h) by (auto; lia).
    set (v := stream_slice S h (Z.to_nat (t - h))).
    assert (zlen v = t - h) as Hv by (unfold v, zlen; rewrite stream_slice_length; lia).
    unfold ns_assert. change (GetSize v) with (zlen v). rewrite Hv, Z.eqb_refl.
    destruct (insert_packet_spec b1 pre post' h t v) as (b' & Ei & Hok' & Hf & Hn & Hm & Hc');
      [|done|].
    { split; rewrite ?Ef, ?En, ?Em; auto; simpl; try lia.
      - rewrite total_app. lia.
      - eapply sacks_in_impl; [done|]. auto. }
    cbv [mbind res_bind]. rewrite Ei. exists true, b'. split; [done|].
    rewrite Ef, En, Em in *.
    split; auto; try lia.
    + intros x Hx. apply Hc'. destruct (Hkeep x Hx); auto.
    + intros x [?|?]%Hc'; [right; lia|left; auto].
    + intros x Hx1 Hx2 Hx. specialize (Hin x Hx1 Hx2 Hx). apply Hc'.
      rewrite covered_app. destruct (tr_seg0 x Hin); auto.
Qed.

(** *** Extraction *)

Record extracted (b : TcpRxBuffer) (a n hi : Z) (l post : list (Z * bytes))
    (b' : TcpRxBuffer) : Prop := {
  ex_eq : b' = b <| m_size := m_size b - n |> <| m_availBytes := m_availBytes b - n |>
                 <| m_data := m_data b' |>;
  ex_split : exists pre', m_data b' = pre' ++ post /\ contiguous (a + n) (m_nextRxSeq b) pre';
  ex_blocks : blocks (a + n) hi (m_data b');
  ex_total : total (m_data b') = total l - n;
  ex_covered : forall x, covered (m_data b') x <-> covered l x /\ a + n <= x;
}.

Lemma extract_loop_spec l b a n hi pre post out :
  l = pre ++ post -> contiguous a (m_nextRxSeq b) pre -> blocks a hi l ->
  0 <= n <= m_nextRxSeq b - a -> n <= m_availBytes b < 2 ^ 32 -> total l <= m_size b < 2 ^ 32 ->
  exists b', extract_loop (SA := seqZ) l b n out = Ok (out ++ stream_slice S a (Z.to_nat n), b')
    /\ extracted b a n hi l post b'.
Proof.
  revert b a n pre out. induction l as [|[k v] l IH]; simpl;
    intros b a n pre out Hl Hc Hb Hn Hav Hsz.
  { destruct pre; [|done]. simpl in *. subst post.
    assert (n = 0) as -> by lia. simpl. rewrite app_nil_r.
    exists (b <| m_data := [] |>). split; [done|]. destruct b.
    split; rec_simpl; rewrite ?Z.add_0_r; auto; try lia.
    - f_equal; lia.
    - by exists [].
    - intros x. split; [intros []%covered_nil|tauto]. }
  destruct Hb as (Hk & Hv & Hs & Hb). pose proof (zlen_pos v Hv).
  destruct (Z.eqb_spec n 0) as [->|Hn0].
  { simpl. rewrite app_nil_r. exists (b <| m_data := (k, v) :: l |>). split; [done|].
    destruct b. split; rec_simpl; rewrite ?Z.add_0_r; auto; try lia.
    - f_equal; lia.
    - eauto.
    - intros x. rewrite covered_cons. split; [|tauto]. intros Hx. split; [done|].
      destruct Hx as [?|Hx]; [lia|]. eapply blocks_covered in Hx; eauto. lia. }
  destruct pre as [|[k' v'] pre]; simpl in Hc, Hl; [lia|].
  destruct Hc as [-> Hc]. injection Hl as -> <- ->.
  seqz. unfold ns_assert.
  destruct (Z.leb_spec a (m_nextRxSeq b)); [|lia]. simpl. unfold GetSize.
  destruct (Z.leb_spec (zlen v) n) as [Hle|Hgt].
  - rewrite !u32_small by (unfold is_u32; pose proof (total_nonneg (pre ++ post)); lia).
    match goal with |- context [extract_loop _ ?x _ _] => set (b1 := x) end.
    destruct (IH b1 (a + zlen v) (n - zlen v) pre (out ++ v)) as (b' & E & []);
      auto; simpl; try lia.
    exists b'. split.
    { rewrite E, <- app_assoc.
      replace (Z.to_nat n) with (length v + Z.to_nat (n - zlen v))%nat by (unfold zlen in *; lia).
      by rewrite stream_slice_app, <- Hs. }
    replace (a + zlen v + (n - zlen v)) with (a + n) in * by lia.
    split; auto; simpl; try lia.
    + destruct b, b'. rec_simpl. injection ex_eq0. intros. subst. f_equal; lia.
    + intros x. rewrite ex_covered0, covered_cons. split; [intuition lia|].
      intros [[?|?] ?]; [lia|auto].
  - rewrite !u32_small by (unfold is_u32; pose proof (total_nonneg (pre ++ post)); lia).
    assert (CreateFragment v 0 n = stream_slice S a (Z.to_nat n)) as E0.
    { replace 0 with (a - a) by lia. apply CreateFragment_slice; auto; lia. }
    assert (CreateFragment v n (zlen v - n) = stream_slice S (a + n) (Z.to_nat (zlen v - n))) as E1.
    { replace n with (a + n - a) at 1 by lia. apply CreateFragment_slice; auto; lia. }
    set (w := CreateFragment v n (zlen v - n)) in *.
    assert (zlen w = zlen v - n) as Hw.
    { rewrite E1. unfold zlen. rewrite stream_slice_length. unfold zlen in *. lia. }
    rewrite E0, (map_set_front _ _ _ _ _ Hb) by (simpl; lia).
    eexists. split; [reflexivity|].
    split; simpl; auto.
    + exists ((a + n, w) :: pre). simpl. rewrite Hw. split_and!; auto.
      replace (a + n + (zlen v - n)) with (a + zlen v) by lia. done.
    + rewrite Hw. replace (a + n + (zlen v - n)) with (a + zlen v) by lia.
      split_and!; auto; [lia|intros ->; rewrite zlen_nil in Hw; lia|].
      rewrite E1 at 1. f_equal. unfold zlen in *. lia.
    + lia.
    + intros x. rewrite !covered_cons, Hw. split; [|intuition lia].
      intros [?|Hx]; [lia|]. split; [auto|]. eapply blocks_covered in Hx; eauto. lia.
Qed.

Record delivered (b : TcpRxBuffer) (n : Z) (b' : TcpRxBuffer) : Prop := {
  del_ok : rx_ok b';
  del_first : rx_first b' = rx_first b + n;
  del_next : m_nextRxSeq b' = m_nextRxSeq b;
  del_max : m_maxBuffer b' = m_maxBuffer b;
  del_covered : forall x, covered (m_data b') x <-> covered (m_data b) x /\ rx_first b + n <= x;
}.

Lemma rx_ok_avail b : rx_ok b -> m_availBytes b <= W.
Proof.
  intros []. destruct ok_split0 as (pre & post & Hd & Hc & _). rewrite Hd in *.
  destruct (contiguous_split _ _ _ _ _ Hc ok_blocks0) as [_ Hp%blocks_bounds].
  unfold rx_first in *. lia.
Qed.

Lemma Extract_spec b maxSize :
  rx_ok b -> 0 <= maxSize ->
  exists b', let n := Z.min maxSize (m_availBytes b) in
    Extract (SA := seqZ) b maxSize
      = Ok (if n =? 0 then None else Some (stream_slice S (rx_first b) (Z.to_nat n)), b')
    /\ delivered b n b'.
Proof.
  intros Hok Hm. pose proof (rx_ok_avail b Hok). pose proof Hok as [].
  unfold Extract. cbv zeta.
  set (n := Z.min maxSize (m_availBytes b)).
  destruct (Z.eqb_spec n 0) as [->|Hn].
  { exists b. split; [done|]. split; auto; try lia.
    intros x. rewrite Z.add_0_r. split; [|tauto].
    intros Hx. split; [done|]. apply (blocks_covered _ _ _ _ ok_blocks0 Hx). }
  destruct ok_split0 as (pre & post & Hd & Hc & Hh).
  destruct (extract_loop_spec (m_data b) b (rx_first b) n (rx_first b + W) pre post [])
    as (b' & E & []); auto.
  { unfold rx_first in *. lia. }
  { unfold W in *. lia. }
  { pose proof (blocks_total _ _ _ ok_blocks0). unfold rx_first, W in *. lia. }
  rewrite bool_decide_eq_false_2; [|intros E0; rewrite E0 in Hd; destruct pre; [|done];
    simpl in Hc; unfold rx_first in Hc; lia].
  cbn [negb]. unfold ns_assert. cbv [mbind res_bind]. rewrite E. cbn iota beta. simpl app.
  exists b'.
  assert (m_availBytes b' = m_availBytes b - n /\ m_nextRxSeq b' = m_nextRxSeq b
    /\ m_maxBuffer b' = m_maxBuffer b /\ m_gotFin b' = m_gotFin b /\ m_size b' = m_size b - n
    /\ m_sackList b' = m_sackList b) as (Ea & En & Em & Eg & Es & Ek)
    by (rewrite ex_eq0; split_and!; reflexivity).
  assert (rx_first b' = rx_first b + n) as Ef by (unfold rx_first; lia).
  split.
  { destruct (Z.eqb_spec (GetSize (stream_slice S (rx_first b) (Z.to_nat n))) 0) as [E0|]; [|done].
    unfold GetSize, zlen in E0. rewrite stream_slice_length in E0. lia. }
  split; auto. split; rewrite ?Ef, ?En, ?Em, ?Ea, ?Ek, ?Es, ?Eg; auto; try lia.
  - destruct ex_split0 as (pre' & ? & ?). exists pre', post. auto.
  - eapply blocks_weaken; eauto; lia.
  - apply Forall_forall. intros s Hs.
    pose proof (proj1 (Forall_forall _ _) ok_sack0 s Hs) as [? Hcv].
    pose proof (proj1 (Forall_forall _ _) ok_sack_above0 s Hs) as Ha. simpl in Ha.
    split; [done|]. intros x Hx. apply ex_covered0. split; [auto|]. unfold rx_first. lia.
Qed.

(** ** Traces of operations *)

Inductive rx_op :=
| RxAdd (pos : Z) (p : bytes)       (* a segment carrying the bytes at [pos] *)
| RxExtract (maxSize : Z).          (* the application reads *)

(** Run the operations; the result is everything the application read. *)
Fixpoint rx_run {SA : SeqArith} (b : TcpRxBuffer) (ops : list rx_op)
  : res (bytes * TcpRxBuffer) :=
  match ops with
  | [] => Ok ([], b)
  | RxAdd pos p :: ops =>
      '(_, b) ← Add b p (seq_wrap pos) ;
      rx_run b ops
  | RxExtract n :: ops =>
      '(out, b) ← Extract b n ;
      '(rest, b) ← rx_run b ops ;
      Ok (default [] out ++ rest, b)
  end.

(** A segment that carries the bytes of the stream, and whose distance from
    the next expected byte is less than the window bound. *)
Definition op_ok (b : TcpRxBuffer) (o : rx_op) : Prop :=
  match o with
  | RxAdd pos p =>
      p = stream_slice S pos (length p)
      /\ m_nextRxSeq b - W <= pos /\ pos + zlen p <= m_nextRxSeq b + W
  | RxExtract maxSize => 0 <= maxSize
  end.

(** ** From unwrapped positions to 32-bit sequence numbers

    [wrap_rx] truncates every sequence number of a buffer.  Inside the window
    each loop of the 32-bit code commutes with it. *)

Definition wrap_kv (kv : Z * bytes) : Z * bytes := (u32 (fst kv), snd kv).
Definition wrap_blk (s : Z * Z) : Z * Z := (u32 (fst s), u32 (snd s)).

Definition wrap_rx (b : TcpRxBuffer) : TcpRxBuffer :=
  b <| m_sackList := map wrap_blk (m_sackList b) |>
    <| m_nextRxSeq := u32 (m_nextRxSeq b) |>
    <| m_finSeq := u32 (m_finSeq b) |>
    <| m_data := map wrap_kv (m_data b) |>.

(** Values whose pairwise differences stay below half the number space. *)
Definition near (c x : Z) : Prop := c - W <= x <= c + 2 * W.

Definition near_kv (c : Z) (kv : Z * bytes) : Prop :=
  near c (fst kv) /\ near c (fst kv + zlen (snd kv)).

Lemma wrap_gt c a b : near c a -> near c b ->
  seq_gt (SeqArith := seq32) (u32 a) (u32 b) = seq_gt (SeqArith := seqZ) a b.
Proof. unfold near, W. intros. rewrite gtZ. apply gt32_window. lia. Qed.

Lemma wrap_eq c a b : near c a -> near c b -> (u32 a =? u32 b) = (a =? b).
Proof. unfold near, W. intros. apply eq32_window. lia. Qed.

Lemma wrap_lt c a b : near c a -> near c b ->
  seq_lt (SA := seq32) (u32 a) (u32 b) = seq_lt (SA := seqZ) a b.
Proof. intros. unfold seq_lt. by rewrite (wrap_gt c), (wrap_eq c). Qed.

Lemma wrap_le c a b : near c a -> near c b ->
  seq_le (SA := seq32) (u32 a) (u32 b) = seq_le (SA := seqZ) a b.
Proof. intros. unfold seq_le. by rewrite (wrap_gt c). Qed.

Lemma wrap_ge c a b : near c a -> near c b ->
  seq_ge (SA := seq32) (u32 a) (u32 b) = seq_ge (SA := seqZ) a b.
Proof. intros. unfold seq_ge. by rewrite (wrap_gt c), (wrap_eq c). Qed.

Lemma wrap_diff c a b : near c a -> near c b ->
  seq_diff (SA := seq32) (u32 a) (u32 b) = seq_diff (SA := seqZ) a b.
Proof. unfold near, W. intros. rewrite diffZ. apply diff32_window. lia. Qed.

Lemma wrap_add a n : seq_add (SA := seq32) (u32 a) n = u32 (seq_add (SA := seqZ) a n).
Proof. apply add32_wrap. Qed.

(** Rewriting every operation on wrapped values near [c]. *)
Ltac wrap_ops c :=
  repeat first
    [ rewrite wrap_add
    | rewrite (wrap_gt c) by auto | rewrite (wrap_lt c) by auto
    | rewrite (wrap_le c) by auto | rewrite (wrap_ge c) by auto
    | rewrite (wrap_eq c) by auto | rewrite (wrap_diff c) by auto ].

Lemma wrap_map_set c k v l :
  near c k -> Forall (near_kv c) l ->
  map_set (SA := seq32) (u32 k) v (map wrap_kv l) = map wrap_kv (map_set (SA := seqZ) k v l).
Proof.
  intros Hk. induction 1 as [|[k' v'] l [Hk' _] Hl IH]; simpl; [done|].
  simpl in Hk'. wrap_ops c. rewrite IH. by repeat case_match.
Qed.

Lemma wrap_map_mem c k l :
  near c k -> Forall (near_kv c) l ->
  map_mem (SA := seq32) (u32 k) (map wrap_kv l) = map_mem (SA := seqZ) k l.
Proof.
  intros Hk. induction 1 as [|[k' v'] l [Hk' _] Hl IH]; simpl; [done|].
  simpl in Hk'. wrap_ops c. by rewrite IH.
Qed.

Lemma wrap_trim c l h t size :
  near c h -> near c t -> Forall (near_kv c) l ->
  trim_overlap (SA := seq32) (map wrap_kv l) (u32 h) (u32 t) size
  = (let '(l', h', t', size') := trimZ l h t size in
     (map wrap_kv l', u32 h', u32 t', size')).
Proof.
  intros Hh Ht Hl. revert h t size Hh Ht.
  induction Hl as [|[k v] l [Hk Hkv] Hl IH]; simpl; intros h t size Hh Ht; [done|].
  simpl in Hk, Hkv. rewrite <- addZ in Hkv. unfold GetSize. wrap_ops c.
  set (last := seq_add (SA := seqZ) k (zlen v)) in *.
  destruct (seq_le k t); [|done].
  destruct (seq_gt last h); [destruct (seq_gt k h && seq_lt last t)|].
  - by apply IH.
  - replace (if seq_le (SA := seqZ) k h then u32 last else u32 h)
      with (u32 (if seq_le (SA := seqZ) k h then last else h)) by (by case_match).
    replace (if seq_ge (SA := seqZ) last t then u32 k else u32 t)
      with (u32 (if seq_ge (SA := seqZ) last t then k else t)) by (by case_match).
    rewrite IH by (by case_match).
    by destruct (trimZ l _ _ _) as [[[? ?] ?] ?].
  - rewrite IH by auto. by destruct (trimZ l _ _ _) as [[[? ?] ?] ?].
Qed.

Definition near_blk (c : Z) (s : Z * Z) : Prop := near c (fst s) /\ near c (snd s).

Definition res_map {A B} (f : A -> B) (m : res A) : res B := f <$> m.

Lemma wrap_clear_sacks c seq l :
  near c seq -> Forall (near_blk c) l ->
  clear_sacks (SA := seq32) (u32 seq) (map wrap_blk l)
  = map wrap_blk <$> clear_sacks (SA := seqZ) seq l.
Proof.
  intros Hs. induction 1 as [|s l [Hl Hr] H IH]; simpl; [done|].
  wrap_ops c. rewrite IH. unfold ns_assert.
  destruct (seq_lt (fst s) (snd s)); simpl; [|done].
  destruct (clear_sacks seq l); simpl; [|done]. by case_match.
Qed.

Lemma wrap_merge_sack c fuel begin seen rest :
  near_blk c begin -> Forall (near_blk c) seen -> Forall (near_blk c) rest ->
  merge_sack (SA := seq32) fuel (wrap_blk begin) (map wrap_blk seen) (map wrap_blk rest)
  = map wrap_blk <$> merge_sack (SA := seqZ) fuel begin seen rest.
Proof.
  revert begin seen rest. induction fuel as [|fuel IH]; simpl; intros begin seen rest Hb Hs Hr; [done|].
  destruct Hb as [Hb1 Hb2]. destruct Hr as [|cur rest [Hc1 Hc2] Hr]; simpl.
  { by rewrite map_rev. }
  wrap_ops c. unfold ns_assert.
  assert (Forall (near_blk c) (rev seen ++ rest)) as Happ.
  { apply Forall_app. split; [by apply Forall_rev|done]. }
  rewrite <- map_rev, <- map_app.
  destruct (fst begin =? snd cur); [|destruct (snd begin =? fst cur)].
  - destruct (seq_lt (fst cur) (snd begin)); simpl; [|done].
    by rewrite <- (IH (fst cur, snd begin) []).
  - destruct (seq_lt (fst begin) (snd cur)); simpl; [|done].
    by rewrite <- (IH (fst begin, snd cur) []).
  - rewrite <- (IH begin (cur :: seen) rest); [done|by split| |done].
    constructor; [by split|done].
Qed.

Lemma wrap_advance c l b :
  near c (m_nextRxSeq b) -> Forall (near_kv c) l -> Forall (near_blk c) (m_sackList b) ->
  advance (SA := seq32) (map wrap_kv l) (wrap_rx b) = wrap_rx <$> advance (SA := seqZ) l b.
Proof.
  intros Hn Hl. revert b Hn. induction Hl as [|[k v] l [Hk Hkv] Hl IH]; simpl; intros b Hn Hs; [done|].
  simpl in Hk, Hkv. rewrite <- addZ in Hkv. wrap_ops c.
  destruct (seq_lt k (m_nextRxSeq b)); [by apply IH|].
  destruct (seq_gt k (m_nextRxSeq b)); [done|].
  unfold ClearSackList. simpl. wrap_ops c. rewrite (wrap_clear_sacks c) by auto.
  destruct (clear_sacks _ (m_sackList b)) as [sk|] eqn:E; simpl; [|done].
  rewrite <- IH; [done|done|]. simpl.
  clear -E Hs. revert sk E. induction Hs as [|s l Hs Hl IH]; simpl; intros sk E; [by simplify_eq|].
  unfold ns_assert in E. destruct (seq_lt (fst s) (snd s)); simpl in E; [|done].
  destruct (clear_sacks _ l) as [sk'|]; simpl in E; [|done]. specialize (IH sk' eq_refl).
  injection E as <-. case_match; auto.
Qed.

(** The trimmed bounds and the merged blocks stay in the window. *)
Lemma near_trim c l h t size l' h' t' size' :
  near c h -> near c t -> Forall (near_kv c) l ->
  trimZ l h t size = (l', h', t', size') ->
  near c h' /\ near c t' /\ Forall (near_kv c) l'.
Proof.
  intros Hh Ht Hl. revert h t size l' h' t' size' Hh Ht.
  induction Hl as [|[k v] l [Hk Hkv] Hl IH]; simpl; intros h t size l' h' t' size' Hh Ht E;
    [by injection E as <- <- <- <-|].
  simpl in Hk, Hkv. rewrite <- addZ in Hkv. unfold GetSize in E.
  set (last := seq_add (SA := seqZ) k (zlen v)) in *.
  assert (near_kv c (k, v)) as Hkv' by (split; simpl; [done|by rewrite <- addZ]).
  destruct (seq_le k t); [|injection E as <- <- <- <-; auto].
  destruct (seq_gt last h); [destruct (seq_gt k h && seq_lt last t)|].
  - eapply IH in E; eauto.
  - match type of E with context [trimZ l ?hd ?tl size] =>
      destruct (trimZ l hd tl size) as [[[l1 h1] t1] s1] eqn:E1 end.
    injection E as <- <- <- <-.
    assert (near c (if seq_le (SA := seqZ) k h then last else h)) as Hh'
      by (by destruct (seq_le (SA := seqZ) k h)).
    assert (near c (if seq_ge (SA := seqZ) last t then k else t)) as Ht'
      by (by destruct (seq_ge (SA := seqZ) last t)).
    destruct (IH _ _ _ _ _ _ _ Hh' Ht' E1) as (? & ? & ?). auto.
  - destruct (trimZ l h t size) as [[[l1 h1] t1] s1] eqn:E1.
    injection E as <- <- <- <-. apply IH in E1 as (? & ? & ?); auto.
Qed.

Lemma near_merge c fuel begin seen rest l :
  near_blk c begin -> Forall (near_blk c) seen -> Forall (near_blk c) rest ->
  merge_sack (SA := seqZ) fuel begin seen rest = Ok l -> Forall (near_blk c) l.
Proof.
  revert begin seen rest. induction fuel as [|fuel IH]; simpl; intros begin seen rest Hb Hs Hr E; [done|].
  destruct Hr as [|cur rest Hc Hr].
  { injection E as <-. constructor; [done|]. by apply Forall_rev. }
  assert (Forall (near_blk c) (rev seen ++ rest)) as Happ.
  { apply Forall_app. split; [by apply Forall_rev|done]. }
  destruct Hb as [Hb1 Hb2], Hc as [Hc1 Hc2]. unfold ns_assert in E.
  destruct (fst begin =? snd cur); [|destruct (snd begin =? fst cur)].
  - destruct (seq_lt (fst cur) (snd begin)); simpl in E; [|done].
    apply IH in E; [done|by split|constructor|done].
  - destruct (seq_lt (fst begin) (snd cur)); simpl in E; [|done].
    apply IH in E; [done|by split|constructor|done].
  - eapply IH in E; [done|by split| |done]. constructor; [by split|done].
Qed.

Lemma wrap_UpdateSackList c b h t :
  near c (m_nextRxSeq b) -> near c h -> near c t -> Forall (near_blk c) (m_sackList b) ->
  UpdateSackList (SA := seq32) (wrap_rx b) (u32 h) (u32 t)
    = wrap_rx <$> UpdateSackList (SA := seqZ) b h t
  /\ (forall b', UpdateSackList (SA := seqZ) b h t = Ok b' ->
        Forall (near_blk c) (m_sackList b') /\ m_nextRxSeq b' = m_nextRxSeq b
        /\ m_data b' = m_data b /\ m_gotFin b' = m_gotFin b).
Proof.
  intros Hn Hh Ht Hs. unfold UpdateSackList. simpl. rewrite length_map.
  wrap_ops c. unfold ns_assert. destruct (seq_gt h (m_nextRxSeq b)); simpl; [|done].
  pose proof (wrap_merge_sack c (merge_fuel (length (m_sackList b))) (h, t) [] (m_sackList b)
                ltac:(by split) ltac:(done) Hs) as Ew.
  pose proof (near_merge c (merge_fuel (length (m_sackList b))) (h, t) [] (m_sackList b)) as Hnm.
  unfold wrap_blk at 1 in Ew. simpl map in Ew. simpl fst in Ew. simpl snd in Ew. rewrite Ew.
  destruct (merge_sack _ (h, t) [] (m_sackList b)) as [l|]; simpl; [|done].
  specialize (Hnm l ltac:(by split) ltac:(done) Hs eq_refl).
  rewrite length_map. destruct (Nat.ltb 4 (length l)); simpl; (split; [|intros b' [= <-]; simpl]).
  - unfold pop_back, wrap_rx. rec_simpl. by rewrite removelast_map.
  - split; [|done]. unfold pop_back. destruct l as [|x l]; [done|].
    rewrite (app_removelast_last (0, 0)) in Hnm by done. by apply Forall_app in Hnm as [? _].
  - done.
  - done.
Qed.

Lemma advance_gotFin {SA : SeqArith} l b b' : advance l b = Ok b' -> m_gotFin b' = m_gotFin b.
Proof.
  revert b. induction l as [|[k v] l IH]; simpl; intros b E; [by simplify_eq|].
  destruct (seq_lt k (m_nextRxSeq b)); [eauto|].
  destruct (seq_gt k (m_nextRxSeq b)); [by simplify_eq|].
  unfold ClearSackList in E. destruct (clear_sacks _ _); simpl in E; [|done].
  by apply IH in E.
Qed.

Lemma near_map_set c k v l :
  near_kv c (k, v) -> Forall (near_kv c) l -> Forall (near_kv c) (map_set (SA := seqZ) k v l).
Proof.
  intros Hk. induction 1 as [|[k' v'] l Hk' Hl IH]; simpl; [by constructor|].
  seqz. destruct (Z.ltb_spec k k'); [by constructor; [|constructor]|].
  destruct (Z.ltb_spec k' k); [by constructor|].
  constructor; [|done]. by replace k' with k by lia.
Qed.

(** The steps of [insert_packet] after the update of the SACK list. *)
Definition insert_finish {SA : SeqArith} (p : bytes) (b : TcpRxBuffer) : res TcpRxBuffer :=
  let b := b <| m_size := u32 (m_size b + GetSize p) |> in
  b ← advance (m_data b) b ;
  Ok (if m_gotFin b && (m_nextRxSeq b =? m_finSeq b)
      then b <| m_nextRxSeq := seq_inc (m_nextRxSeq b) |> else b).

Lemma wrap_insert_finish c p b :
  near c (m_nextRxSeq b) -> Forall (near_kv c) (m_data b) ->
  Forall (near_blk c) (m_sackList b) -> m_gotFin b = false ->
  insert_finish (SA := seq32) p (wrap_rx b) = wrap_rx <$> insert_finish (SA := seqZ) p b.
Proof.
  intros Hn Hd Hs Hf. unfold insert_finish.
  set (b1 := b <| m_size := u32 (m_size b + GetSize p) |>).
  pose proof (wrap_advance c (m_data b1) b1 Hn Hd Hs) as E.
  change ((wrap_rx b) <| m_size := u32 (m_size (wrap_rx b) + GetSize p) |>) with (wrap_rx b1).
  change (m_data (wrap_rx b1)) with (map wrap_kv (m_data b1)). rewrite E.
  pose proof (advance_gotFin (SA := seqZ) (m_data b1) b1) as Hg.
  destruct (advance _ b1) as [b2|]; simpl; [|done].
  rewrite (Hg b2 eq_refl). change (m_gotFin b1) with (m_gotFin b). by rewrite Hf.
Qed.

Lemma wrap_insert_packet c b h t p :
  near c (m_nextRxSeq b) -> near c h -> near c t -> near_kv c (h, p) ->
  Forall (near_kv c) (m_data b) -> Forall (near_blk c) (m_sackList b) -> m_gotFin b = false ->
  insert_packet (SA := seq32) (wrap_rx b) (u32 h) (u32 t) p
  = wrap_rx <$> insert_packet (SA := seqZ) b h t p.
Proof.
  intros Hn Hh Ht Hp Hd Hs Hf. unfold insert_packet.
  change (m_data (wrap_rx b)) with (map wrap_kv (m_data b)).
  change (m_nextRxSeq (wrap_rx b)) with (u32 (m_nextRxSeq b)).
  rewrite (wrap_map_mem c), (wrap_map_set c) by auto.
  pose proof (near_map_set c h p (m_data b) Hp Hd) as Hd'.
  unfold ns_assert. destruct (map_mem h (m_data b)); simpl; [done|].
  set (b1 := b <| m_data := mapsetZ h p (m_data b) |>).
  change ((wrap_rx b) <| m_data := map wrap_kv (mapsetZ h p (m_data b)) |>) with (wrap_rx b1).
  rewrite (wrap_gt c) by auto.
  destruct (wrap_UpdateSackList c b1 h t Hn Hh Ht Hs) as [Eu Hu].
  destruct (seq_gt h (m_nextRxSeq b)).
  - rewrite Eu. destruct (UpdateSackList b1 h t) as [b2|]; simpl; [|done].
    destruct (Hu b2 eq_refl) as (? & E1 & E2 & E3).
    apply (wrap_insert_finish c p b2); [by rewrite E1|by rewrite E2|done|by rewrite E3].
  - simpl. by apply (wrap_insert_finish c p b1).
Qed.

Lemma rx_ok_near b :
  rx_ok b -> Forall (near_kv (m_nextRxSeq b)) (m_data b)
             /\ Forall (near_blk (m_nextRxSeq b)) (m_sackList b).
Proof.
  intros Hok. pose proof (rx_ok_avail b Hok). pose proof Hok as [].
  unfold near_kv, near_blk, near, rx_first in *. split; apply Forall_forall.
  - intros [k v] Hin. destruct (blocks_elem _ _ _ _ _ ok_blocks0 Hin) as (? & Hv & _ & ?).
    pose proof (zlen_pos v Hv). simpl. lia.
  - intros s Hs. pose proof (proj1 (Forall_forall _ _) ok_sack0 s Hs) as [? Hc].
    pose proof (proj1 (Forall_forall _ _) ok_sack_above0 s Hs) as Ha. simpl in Ha.
    pose proof (blocks_covered _ _ _ _ ok_blocks0 (Hc (snd s - 1) ltac:(lia))). lia.
Qed.

Lemma wrap_trim_window c b s t :
  near c s -> near c t -> near c (m_nextRxSeq b) -> Forall (near_kv c) (m_data b) ->
  (forall k v l, m_data b = (k, v) :: l -> near c (k + m_maxBuffer b)) ->
  exists h t', trim_window (SA := seqZ) b s t = (h, t')
    /\ trim_window (SA := seq32) (wrap_rx b) (u32 s) (u32 t) = (u32 h, u32 t')
    /\ near c h /\ near c t'.
Proof.
  intros Hs Ht Hn Hd Hm. unfold trim_window.
  change (m_data (wrap_rx b)) with (map wrap_kv (m_data b)).
  change (m_nextRxSeq (wrap_rx b)) with (u32 (m_nextRxSeq b)).
  change (m_maxBuffer (wrap_rx b)) with (m_maxBuffer b).
  rewrite (wrap_lt c) by auto.
  replace (if seq_lt (SA := seqZ) s (m_nextRxSeq b) then u32 (m_nextRxSeq b) else u32 s)
    with (u32 (if seq_lt (SA := seqZ) s (m_nextRxSeq b) then m_nextRxSeq b else s))
    by (by destruct (seq_lt s (m_nextRxSeq b))).
  set (h := if seq_lt (SA := seqZ) s (m_nextRxSeq b) then m_nextRxSeq b else s).
  assert (near c h) as Hh by (unfold h; by destruct (seq_lt s (m_nextRxSeq b))).
  destruct (m_data b) as [|[k v] l]; simpl; [eauto 6|].
  specialize (Hm k v l eq_refl). rewrite <- addZ in Hm.
  rewrite wrap_add, (wrap_lt c (seq_add k (m_maxBuffer b))) by auto.
  set (m := seq_add (SA := seqZ) k (m_maxBuffer b)) in *.
  replace (if seq_lt (SA := seqZ) m t then u32 m else u32 t)
    with (u32 (if seq_lt (SA := seqZ) m t then m else t)) by (by destruct (seq_lt m t)).
  set (t' := if seq_lt (SA := seqZ) m t then m else t).
  assert (near c t') as Ht' by (unfold t'; by destruct (seq_lt m t)).
  rewrite (wrap_lt c) by auto.
  eexists _, _. split_and!; [reflexivity| |by destruct (seq_lt t' h)|done].
  by destruct (seq_lt t' h).
Qed.

(** The 32-bit [Add] does what the unwrapped one does. *)
Lemma wrap_Add b p seq :
  rx_ok b -> p = stream_slice S seq (length p) ->
  m_nextRxSeq b - W <= seq -> seq + zlen p <= m_nextRxSeq b + W ->
  Add (SA := seq32) (wrap_rx b) p (u32 seq)
  = prod_map id wrap_rx <$> Add (SA := seqZ) b p seq.
Proof.
  intros Hok Hp Hlo Hhi. destruct (rx_ok_near b Hok) as [Hd Hs]. pose proof Hok as [].
  set (c := m_nextRxSeq b) in *. pose proof (zlen_nonneg p).
  assert (near c c /\ near c seq /\ near c (seq + zlen p)) as (Hc & Hseq & Ht)
    by (unfold near, W in *; lia).
  unfold Add. change (GetSize p) with (zlen p).
  assert (exists h t, trim_window (SA := seqZ) b seq (seq + zlen p) = (h, t)
    /\ trim_window (SA := seq32) (wrap_rx b) (u32 seq) (u32 (seq + zlen p)) = (u32 h, u32 t)
    /\ near c h /\ near c t) as (h & t & E1 & E2 & Hh & Htl).
  { apply wrap_trim_window; auto. intros k v l E. pose proof (rx_ok_avail b Hok).
    rewrite E in ok_blocks0. destruct (blocks_elem_lt _ _ _ k v ok_blocks0); [by left|].
    destruct ok_blocks0 as (? & _). unfold near, rx_first, W, c in *. lia. }
  rewrite add32_wrap, (addZ seq (zlen p)), E1, E2.
  change (m_data (wrap_rx b)) with (map wrap_kv (m_data b)).
  change (m_size (wrap_rx b)) with (m_size b). rewrite (wrap_trim c) by auto.
  destruct (trimZ (m_data b) h t (m_size b)) as [[[l' h'] t'] size'] eqn:Etr.
  destruct (near_trim _ _ _ _ _ _ _ _ _ Hh Htl Hd Etr) as (Hh' & Ht' & Hd').
  simpl. rewrite (wrap_ge c), !(wrap_diff c) by auto.
  destruct (seq_ge h' t') eqn:Ege; [done|]. rewrite geZ in Ege.
  set (v := CreateFragment _ _ _). unfold ns_assert.
  destruct (Z.eqb_spec (u32 (seq_diff (SA := seqZ) t' h')) (GetSize v)) as [Ev|]; simpl; [|done].
  set (b1 := b <| m_data := l' |> <| m_size := size' |>).
  change ((wrap_rx b) <| m_data := map wrap_kv l' |> <| m_size := size' |>) with (wrap_rx b1).
  rewrite (wrap_insert_packet c b1); auto.
  - by destruct (insert_packet b1 h' t' v).
  - split; simpl; [done|]. change (GetSize v) with (zlen v) in Ev.
    rewrite <- Ev, diffZ, u32_small by (unfold is_u32, near, W in *; lia).
    by replace (h' + (t' - h')) with t' by lia.
Qed.

Lemma wrap_extract_loop c l b n out :
  near c (m_nextRxSeq b) -> Forall (near_kv c) l -> 0 <= n ->
  extract_loop (SA := seq32) (map wrap_kv l) (wrap_rx b) n out
  = prod_map id wrap_rx <$> extract_loop (SA := seqZ) l b n out.
Proof.
  intros Hn Hl. revert b n out Hn. induction Hl as [|[k v] l [Hk Hkv] Hl IH]; simpl; intros b n out Hn H0.
  { by destruct (n =? 0). }
  destruct (n =? 0); [done|]. simpl in Hk, Hkv. wrap_ops c. unfold ns_assert.
  destruct (seq_le k (m_nextRxSeq b)); simpl; [|done]. unfold GetSize.
  destruct (Z.leb_spec (zlen v) n).
  - match goal with |- context [extract_loop _ ?x _ _] => change x with
      (wrap_rx (b <| m_size := u32 (m_size b - zlen v) |>
                  <| m_availBytes := u32 (m_availBytes b - zlen v) |>)) end.
    apply IH; [done|lia].
  - simpl. rewrite wrap_map_set with (c := c); [done| |done].
    rewrite addZ. unfold near in *. lia.
Qed.

Lemma wrap_Extract b maxSize :
  rx_ok b -> 0 <= maxSize ->
  Extract (SA := seq32) (wrap_rx b) maxSize
  = prod_map id wrap_rx <$> Extract (SA := seqZ) b maxSize.
Proof.
  intros Hok Hm. destruct (rx_ok_near b Hok) as [Hd _]. pose proof Hok as [].
  unfold Extract. change (m_availBytes (wrap_rx b)) with (m_availBytes b).
  change (m_data (wrap_rx b)) with (map wrap_kv (m_data b)).
  set (n := Z.min maxSize (m_availBytes b)).
  destruct (n =? 0); [done|].
  rewrite (wrap_extract_loop (m_nextRxSeq b)) by (auto; unfold near, W; lia).
  destruct (m_data b) as [|kv l]; [done|]. unfold ns_assert.
  rewrite !bool_decide_eq_false_2 by done. cbn [negb]. cbv [mbind res_bind].
  destruct (extract_loop (kv :: l) b n []) as [[out b']|]; simpl; [|done].
  by destruct (GetSize out =? 0).
Qed.

(** ** The reassembly theorem *)

Inductive steps_ok : TcpRxBuffer -> list rx_op -> Prop :=
| steps_nil b : steps_ok b []
| steps_add b pos p r b' ops :
    op_ok b (RxAdd pos p) -> Add (SA := seqZ) b p pos = Ok (r, b') ->
    steps_ok b' ops -> steps_ok b (RxAdd pos p :: ops)
| steps_extract b n out b' ops :
    op_ok b (RxExtract n) -> Extract (SA := seqZ) b n = Ok (out, b') ->
    steps_ok b' ops -> steps_ok b (RxExtract n :: ops).

Lemma run_spec b ops :
  rx_ok b -> steps_ok b ops ->
  exists n b', rx_run (SA := seq32) (wrap_rx b) ops
      = Ok (stream_slice S (rx_first b) (Z.to_nat n), wrap_rx b')
    /\ 0 <= n /\ rx_ok b' /\ rx_first b' = rx_first b + n /\ m_nextRxSeq b <= m_nextRxSeq b'.
Proof.
  intros Hok Hs. induction Hs as [b|b pos p r b' ops Ho E Hs IH|b n out b' ops Ho E Hs IH].
  - exists 0, b. rewrite Z.add_0_r. split_and!; auto; lia.
  - destruct Ho as (Hp & Hlo & Hhi).
    destruct (Add_spec b p pos Hok Hp Hlo Hhi) as (r' & b1 & E1 & []).
    assert (b1 = b') as -> by congruence.
    destruct (IH add_ok0) as (n & b2 & E2 & ? & ? & ? & ?).
    exists n, b2. simpl. change (seq_wrap (SeqArith := seq32) pos) with (u32 pos).
    rewrite wrap_Add, E by auto. simpl. rewrite E2.
    rewrite add_first0 in *. split_and!; auto; lia.
  - destruct (Extract_spec b n Hok Ho) as (b1 & E1 & []).
    assert (b1 = b') as -> by congruence.
    destruct (IH del_ok0) as (m & b2 & E2 & ? & ? & ? & ?).
    set (d := Z.min n (m_availBytes b)) in *.
    assert (0 <= d) by (destruct Hok; simpl in Ho; lia).
    exists (d + m), b2. simpl. rewrite wrap_Extract, E1 by auto. simpl. rewrite E2. simpl.
    replace (Z.to_nat (d + m)) with (Z.to_nat d + Z.to_nat m)%nat by lia.
    rewrite stream_slice_app, del_first0, Z2Nat.id by lia.
    split_and!; auto; try lia.
    by destruct (Z.eqb_spec d 0) as [->|].
Qed.

End Stream.

(** ** Properties *)

Lemma rx_ok_new S isn m :
  0 <= m <= W -> rx_ok S (SetMaxBufferSize (TcpRxBuffer_new isn) m).
Proof.
  intros Hm. split; simpl; auto; try lia.
  - exists [], []. split_and!; [done|unfold rx_first; simpl; lia|done].
  - by constructor.
Qed.


Definition witness_stream (x : Z) : Z := x mod 256.
Definition witness_seg (pos : Z) (n : nat) : rx_op :=
  RxAdd pos (stream_slice witness_stream pos n).

(** The stream starts three bytes before the sequence number wraps; the
    segments arrive out of order, overlapping, across the wrap-around. *)
Definition witness_ops : list rx_op :=
  let isn := 2 ^ 32 - 3 in
  [ witness_seg (isn + 4) 3; witness_seg (isn + 9) 2; witness_seg isn 5; RxExtract 6;
    witness_seg (isn + 6) 4; RxExtract 100 ].




(** C23. One read on the 32-bit buffer, in the invariant: it returns exactly
    the next [min maxSize available] bytes of the stream (the null packet when
    that is none), and leaves the rest of the buffer, the expected sequence
    number and the SACK list as they were. *)
Theorem rx_extract_correct (S : Z -> Z) (b : TcpRxBuffer) (maxSize : Z)
  (Hok : rx_ok S b) (Hm : 0 <= maxSize) :
  exists b', let n := Z.min maxSize (m_availBytes b) in
    Extract (SA := seq32) (wrap_rx b) maxSize
      = Ok (if n =? 0 then None else Some (stream_slice S (rx_first b) (Z.to_nat n)), wrap_rx b')
    /\ delivered S b n b'.
Proof.
  destruct (Extract_spec S b maxSize Hok Hm) as (b' & E & Hd).
  exists b'. cbv zeta in *. by rewrite (wrap_Extract S), E.
Qed.

Lemma rx_extract_correct_witness :
  exists b', Extract (SA := seq32) (wrap_rx (SetMaxBufferSize (TcpRxBuffer_new 7) 100)) 10
      = Ok (None, wrap_rx b')
    /\ delivered witness_stream (SetMaxBufferSize (TcpRxBuffer_new 7) 100) 0 b'.
Proof.
  exact (rx_extract_correct witness_stream (SetMaxBufferSize (TcpRxBuffer_new 7) 100) 10
           (rx_ok_new witness_stream 7 100 ltac:(split; discriminate)) ltac:(discriminate)).
Defined.


