(* ===== verification/TcpOptions.v ===== *)
(** TCP options: src/internet/model/tcp-option*.{h,cc}, with the byte access
    of Buffer::Iterator (src/network/model/buffer.{h,cc}) they are built on.

    An iterator is the list of the bytes from its position to the end of the
    buffer; a write is the list of the bytes written. *)
From Stdlib Require Import ZArith Lia Bool List.
From stdpp Require Import base list.
From S2P Require Import Prelude SeqNum.

(** ** Buffer::Iterator *)

Definition PeekU8 (i : bytes) : res Z :=
  match i with
  | b :: _ => Ok b
  | [] => Err AssertFailed
  end.

Definition ReadU8 (i : bytes) : res (Z * bytes) :=
  match i with
  | b :: i => Ok (b, i)
  | [] => Err AssertFailed
  end.

(** [ReadNtohU16] and [ReadNtohU32] do not check the end of the buffer. *)
Definition ReadNtohU16 (i : bytes) : res (Z * bytes) :=
  match i with
  | b0 :: b1 :: i => Ok (Z.lor (Z.shiftl b0 8) b1, i)
  | _ => Err OutOfBounds
  end.

Definition ReadNtohU32 (i : bytes) : res (Z * bytes) :=
  match i with
  | b0 :: b1 :: b2 :: b3 :: i =>
      Ok (Z.lor (Z.shiftl (Z.lor (Z.shiftl (Z.lor (Z.shiftl b0 8) b1) 8) b2) 8) b3, i)
  | _ => Err OutOfBounds
  end.

(** [Read(buffer, size)]: [size] times [ReadU8]. *)
Fixpoint ReadN (size : nat) (i : bytes) : res (bytes * bytes) :=
  match size with
  | O => Ok ([], i)
  | S size =>
      '(b, i) ← ReadU8 i ;
      '(l, i) ← ReadN size i ;
      Ok (b :: l, i)
  end.

Definition Next (i : bytes) (delta : Z) : res bytes :=
  ns_assert (delta <=? zlen i) ;; Ok (zdrop delta i).

Definition WriteU8 (data : Z) : bytes := [u8 data].

Definition WriteHtonU16 (data : Z) : bytes :=
  [Z.land (Z.shiftr data 8) 255; Z.land data 255].

Definition WriteHtonU32 (data : Z) : bytes :=
  [Z.land (Z.shiftr data 24) 255; Z.land (Z.shiftr data 16) 255;
   Z.land (Z.shiftr data 8) 255; Z.land data 255].

(** ** The option classes *)

Inductive TcpOption :=
| TcpOptionEnd
| TcpOptionNOP
| TcpOptionMSS (m_mss : Z)
| TcpOptionWinScale (m_scale : Z)
| TcpOptionSackPermitted
| TcpOptionSack (m_sackList : list (Z * Z))
| TcpOptionTS (m_timestamp m_echo : Z)
| TcpOptionCwnd (m_cwnd : Z)
| TcpOptionUnknown (m_kind m_size : Z) (m_content : bytes).

(** enum Kind *)
Definition END : Z := 0.
Definition NOP : Z := 1.
Definition MSS : Z := 2.
Definition WINSCALE : Z := 3.
Definition SACKPERMITTED : Z := 4.
Definition SACK : Z := 5.
Definition TS : Z := 8.
Definition CWND : Z := 16.
Definition UNKNOWN : Z := 255.

Definition GetKind (o : TcpOption) : Z :=
  match o with
  | TcpOptionEnd => END
  | TcpOptionNOP => NOP
  | TcpOptionMSS _ => MSS
  | TcpOptionWinScale _ => WINSCALE
  | TcpOptionSackPermitted => SACKPERMITTED
  | TcpOptionSack _ => SACK
  | TcpOptionTS _ _ => TS
  | TcpOptionCwnd _ => CWND
  | TcpOptionUnknown kind _ _ => kind
  end.

Definition GetNumSackBlocks (l : list (Z * Z)) : Z := zlen l.

Definition GetSerializedSize (o : TcpOption) : Z :=
  match o with
  | TcpOptionEnd | TcpOptionNOP => 1
  | TcpOptionMSS _ => 4
  | TcpOptionWinScale _ => 3
  | TcpOptionSackPermitted => 2
  | TcpOptionSack l => 2 + GetNumSackBlocks l * 8
  | TcpOptionTS _ _ => 10
  | TcpOptionCwnd _ => 6
  | TcpOptionUnknown _ size _ => size
  end.

Definition IsKindKnown (kind : Z) : bool :=
  bool_decide (kind ∈ [END; NOP; MSS; WINSCALE; SACKPERMITTED; SACK; TS; CWND]).

(** The option a kind creates, with the values of its default constructor. *)
Definition CreateOption (kind : Z) : TcpOption :=
  if kind =? END then TcpOptionEnd
  else if kind =? MSS then TcpOptionMSS 1460
  else if kind =? NOP then TcpOptionNOP
  else if kind =? TS then TcpOptionTS 0 0
  else if kind =? CWND then TcpOptionCwnd 0
  else if kind =? WINSCALE then TcpOptionWinScale 0
  else if kind =? SACKPERMITTED then TcpOptionSackPermitted
  else if kind =? SACK then TcpOptionSack []
  else TcpOptionUnknown 255 0 [].

(** *** Serialize *)

Definition Serialize_sack (l : list (Z * Z)) : bytes :=
  concat (map (fun blk => WriteHtonU32 (fst blk) ++ WriteHtonU32 (snd blk)) l).

Definition TcpOptionEnd_Serialize : bytes := WriteU8 END.
Definition TcpOptionNOP_Serialize : bytes := WriteU8 NOP.
Definition TcpOptionMSS_Serialize (mss : Z) : bytes := WriteU8 MSS ++ WriteU8 4 ++ WriteHtonU16 mss.
Definition TcpOptionWinScale_Serialize (scale : Z) : bytes :=
  WriteU8 WINSCALE ++ WriteU8 3 ++ WriteU8 scale.
Definition TcpOptionSackPermitted_Serialize : bytes := WriteU8 SACKPERMITTED ++ WriteU8 2.
Definition TcpOptionSack_Serialize (l : list (Z * Z)) : bytes :=
  WriteU8 SACK ++ WriteU8 (GetNumSackBlocks l * 8 + 2) ++ Serialize_sack l.
Definition TcpOptionTS_Serialize (ts echo : Z) : bytes :=
  WriteU8 TS ++ WriteU8 10 ++ WriteHtonU32 ts ++ WriteHtonU32 echo.
Definition TcpOptionCwnd_Serialize (cwnd : Z) : bytes :=
  WriteU8 CWND ++ WriteU8 6 ++ WriteHtonU32 cwnd.
Definition TcpOptionUnknown_Serialize (kind size : Z) (content : bytes) : bytes :=
  if size =? 0 then []
  else WriteU8 kind ++ WriteU8 size ++ ztake (size - 2) content.

Definition Serialize (o : TcpOption) : bytes :=
  match o with
  | TcpOptionEnd => TcpOptionEnd_Serialize
  | TcpOptionNOP => TcpOptionNOP_Serialize
  | TcpOptionMSS mss => TcpOptionMSS_Serialize mss
  | TcpOptionWinScale scale => TcpOptionWinScale_Serialize scale
  | TcpOptionSackPermitted => TcpOptionSackPermitted_Serialize
  | TcpOptionSack l => TcpOptionSack_Serialize l
  | TcpOptionTS ts echo => TcpOptionTS_Serialize ts echo
  | TcpOptionCwnd cwnd => TcpOptionCwnd_Serialize cwnd
  | TcpOptionUnknown kind size content => TcpOptionUnknown_Serialize kind size content
  end.

(** *** Deserialize

    Each returns the number of bytes it claims and the option object. *)

(** [sackCount] pairs of edges, appended to the list. *)
Fixpoint Deserialize_blocks (sackCount : nat) (i : bytes) (l : list (Z * Z))
  : res (list (Z * Z)) :=
  match sackCount with
  | O => Ok l
  | S n =>
      '(leftEdge, i) ← ReadNtohU32 i ;
      '(rightEdge, i) ← ReadNtohU32 i ;
      Deserialize_blocks n i (l ++ [(leftEdge, rightEdge)])
  end.

Definition TcpOptionEnd_Deserialize (start : bytes) : res (Z * TcpOption) :=
  '(readKind, _) ← ReadU8 start ;
  if negb (readKind =? END) then Ok (0, TcpOptionEnd)
  else Ok (GetSerializedSize TcpOptionEnd, TcpOptionEnd).

Definition TcpOptionNOP_Deserialize (start : bytes) : res (Z * TcpOption) :=
  '(readKind, _) ← ReadU8 start ;
  if negb (readKind =? NOP) then Ok (0, TcpOptionNOP)
  else Ok (GetSerializedSize TcpOptionNOP, TcpOptionNOP).

Definition TcpOptionMSS_Deserialize (mss : Z) (start : bytes) : res (Z * TcpOption) :=
  '(readKind, i) ← ReadU8 start ;
  if negb (readKind =? MSS) then Ok (0, TcpOptionMSS mss)
  else
    '(size, i) ← ReadU8 i ;
    ns_abort_if (negb (size =? 4)) ;;
    '(mss, _) ← ReadNtohU16 i ;
    Ok (GetSerializedSize (TcpOptionMSS mss), TcpOptionMSS mss).

Definition TcpOptionWinScale_Deserialize (scale : Z) (start : bytes) : res (Z * TcpOption) :=
  '(readKind, i) ← ReadU8 start ;
  if negb (readKind =? WINSCALE) then Ok (0, TcpOptionWinScale scale)
  else
    '(size, i) ← ReadU8 i ;
    if negb (size =? 3) then Ok (0, TcpOptionWinScale scale)
    else
      '(scale, _) ← ReadU8 i ;
      Ok (GetSerializedSize (TcpOptionWinScale scale), TcpOptionWinScale scale).

Definition TcpOptionSackPermitted_Deserialize (start : bytes) : res (Z * TcpOption) :=
  '(readKind, i) ← ReadU8 start ;
  if negb (readKind =? SACKPERMITTED) then Ok (0, TcpOptionSackPermitted)
  else
    '(size, _) ← ReadU8 i ;
    if negb (size =? 2) then Ok (0, TcpOptionSackPermitted)
    else Ok (GetSerializedSize TcpOptionSackPermitted, TcpOptionSackPermitted).

Definition TcpOptionSack_Deserialize (l : list (Z * Z)) (start : bytes) : res (Z * TcpOption) :=
  '(readKind, i) ← ReadU8 start ;
  if negb (readKind =? SACK) then Ok (0, TcpOptionSack l)
  else
    '(size, i) ← ReadU8 i ;
    let sackCount := u8 (Z.quot (size - 2) 8) in
    l ← Deserialize_blocks (Z.to_nat sackCount) i [] ;
    Ok (GetSerializedSize (TcpOptionSack l), TcpOptionSack l).

Definition TcpOptionTS_Deserialize (ts echo : Z) (start : bytes) : res (Z * TcpOption) :=
  '(readKind, i) ← ReadU8 start ;
  if negb (readKind =? TS) then Ok (0, TcpOptionTS ts echo)
  else
    '(size, i) ← ReadU8 i ;
    if negb (size =? 10) then Ok (0, TcpOptionTS ts echo)
    else
      '(ts, i) ← ReadNtohU32 i ;
      '(echo, _) ← ReadNtohU32 i ;
      Ok (GetSerializedSize (TcpOptionTS ts echo), TcpOptionTS ts echo).

Definition TcpOptionCwnd_Deserialize (cwnd : Z) (start : bytes) : res (Z * TcpOption) :=
  '(readKind, i) ← ReadU8 start ;
  if negb (readKind =? CWND) then Ok (0, TcpOptionCwnd cwnd)
  else
    '(size, i) ← ReadU8 i ;
    if negb (size =? 6) then Ok (0, TcpOptionCwnd cwnd)
    else
      '(cwnd, _) ← ReadNtohU32 i ;
      Ok (GetSerializedSize (TcpOptionCwnd cwnd), TcpOptionCwnd cwnd).

Definition TcpOptionUnknown_Deserialize (content : bytes) (start : bytes) : res (Z * TcpOption) :=
  '(kind, i) ← ReadU8 start ;
  '(size, i) ← ReadU8 i ;
  if (size <? 2) || (40 <? size) then Ok (0, TcpOptionUnknown kind size content)
  else
    '(content, _) ← ReadN (Z.to_nat (size - 2)) i ;
    Ok (size, TcpOptionUnknown kind size content).

Definition Deserialize (o : TcpOption) (start : bytes) : res (Z * TcpOption) :=
  match o with
  | TcpOptionEnd => TcpOptionEnd_Deserialize start
  | TcpOptionNOP => TcpOptionNOP_Deserialize start
  | TcpOptionMSS mss => TcpOptionMSS_Deserialize mss start
  | TcpOptionWinScale scale => TcpOptionWinScale_Deserialize scale start
  | TcpOptionSackPermitted => TcpOptionSackPermitted_Deserialize start
  | TcpOptionSack l => TcpOptionSack_Deserialize l start
  | TcpOptionTS ts echo => TcpOptionTS_Deserialize ts echo start
  | TcpOptionCwnd cwnd => TcpOptionCwnd_Deserialize cwnd start
  | TcpOptionUnknown _ _ content => TcpOptionUnknown_Deserialize content start
  end.

Ltac unfold_options :=
  unfold Serialize, TcpOptionEnd_Serialize, TcpOptionNOP_Serialize, TcpOptionMSS_Serialize,
    TcpOptionWinScale_Serialize, TcpOptionSackPermitted_Serialize, TcpOptionSack_Serialize,
    TcpOptionTS_Serialize, TcpOptionCwnd_Serialize, TcpOptionUnknown_Serialize,
    Deserialize, TcpOptionEnd_Deserialize, TcpOptionNOP_Deserialize, TcpOptionMSS_Deserialize,
    TcpOptionWinScale_Deserialize, TcpOptionSackPermitted_Deserialize, TcpOptionSack_Deserialize,
    TcpOptionTS_Deserialize, TcpOptionCwnd_Deserialize, TcpOptionUnknown_Deserialize in *.

(** Timestamps, from the simulation time in milliseconds. *)
Definition NowToTsValue (nowMs : Z) : Z := Z.land (u64 nowMs) (2 ^ 32 - 1).

(** Elapsed milliseconds. *)
Definition ElapsedTimeFromTsValue (nowMs echoTime : Z) : Z :=
  let now32 := Z.land (u64 nowMs) (2 ^ 32 - 1) in
  if echoTime <? now32 then now32 - echoTime else 0.

(** ** Well-formed options: values in the range of their fields. *)
Definition option_ok (o : TcpOption) : Prop :=
  match o with
  | TcpOptionEnd | TcpOptionNOP | TcpOptionSackPermitted => True
  | TcpOptionMSS mss => is_u16 mss
  | TcpOptionWinScale scale => is_u8 scale
  | TcpOptionSack l =>
      Forall (fun blk => is_u32 (fst blk) /\ is_u32 (snd blk)) l /\ zlen l <= 30
  | TcpOptionTS ts echo => is_u32 ts /\ is_u32 echo
  | TcpOptionCwnd cwnd => is_u32 cwnd
  | TcpOptionUnknown kind size content =>
      is_u8 kind /\ IsKindKnown kind = false /\ 2 <= size <= 40
      /\ zlen content = size - 2 /\ is_bytes content
  end.

(** ** Round trips *)

Lemma lor_shift_add a b n : 0 <= n -> 0 <= b < 2 ^ n -> Z.lor (Z.shiftl a n) b = a * 2 ^ n + b.
Proof.
  intros Hn Hb. assert (Z.land (Z.shiftl a n) b = 0) as Hl.
  { apply Z.bits_inj'. intros k Hk. rewrite Z.land_spec, Z.bits_0.
    destruct (Z.lt_ge_cases k n).
    - by rewrite Z.shiftl_spec_low.
    - rewrite <- (Z.mod_small b (2 ^ n)) by done. rewrite Z.mod_pow2_bits_high by lia.
      apply andb_false_r. }
  rewrite <- Z.lxor_lor, <- Z.add_nocarry_lxor, Z.shiftl_mul_pow2 by done. done.
Qed.

Lemma land_255 x : Z.land x 255 = x mod 2 ^ 8.
Proof. by apply (Z.land_ones x 8). Qed.

Lemma ReadNtohU16_write x r : is_u16 x -> ReadNtohU16 (WriteHtonU16 x ++ r) = Ok (x, r).
Proof.
  unfold is_u16. intros Hx. simpl. rewrite !land_255, Z.shiftr_div_pow2 by lia.
  rewrite lor_shift_add by dlia. do 2 f_equal. dlia.
Qed.

Lemma ReadNtohU32_write x r : is_u32 x -> ReadNtohU32 (WriteHtonU32 x ++ r) = Ok (x, r).
Proof.
  unfold is_u32. intros Hx. simpl. rewrite !land_255, !Z.shiftr_div_pow2 by lia.
  rewrite !lor_shift_add by dlia. do 2 f_equal.
  replace (x / 2 ^ 24) with (x / 2 ^ 8 / 2 ^ 8 / 2 ^ 8) by (by rewrite !Z.div_div by lia).
  replace (x / 2 ^ 16) with (x / 2 ^ 8 / 2 ^ 8) by (by rewrite !Z.div_div by lia).
  dlia.
Qed.

Lemma ReadU8_write x r : is_u8 x -> ReadU8 (WriteU8 x ++ r) = Ok (x, r).
Proof. intros Hx. simpl. by rewrite u8_small. Qed.

Lemma ReadN_app l r : ReadN (length l) (l ++ r) = Ok (l, r).
Proof. induction l as [|x l IH]; simpl; [done|]. by rewrite IH. Qed.

Lemma Deserialize_blocks_write l acc r :
  Forall (fun blk => is_u32 (fst blk) /\ is_u32 (snd blk)) l ->
  Deserialize_blocks (length l) (Serialize_sack l ++ r) acc = Ok (acc ++ l).
Proof.
  unfold Serialize_sack. intros H. revert acc. induction H as [|[a b] l [Ha Hb] Hl IH]; intros acc.
  - by rewrite app_nil_r.
  - cbn [map concat Deserialize_blocks length fst snd]. rewrite <- !app_assoc.
    rewrite (ReadNtohU32_write a) by done. cbv [mbind res_bind]. cbn iota.
    rewrite (ReadNtohU32_write b) by done. cbn iota. rewrite IH, <- app_assoc. done.
Qed.

Lemma zlen_WriteU8 x : zlen (WriteU8 x) = 1.
Proof. done. Qed.

Lemma zlen_WriteHtonU16 x : zlen (WriteHtonU16 x) = 2.
Proof. done. Qed.

Lemma zlen_WriteHtonU32 x : zlen (WriteHtonU32 x) = 4.
Proof. done. Qed.

#[export] Hint Rewrite zlen_WriteU8 zlen_WriteHtonU16 zlen_WriteHtonU32 : zlen.

Lemma Serialize_sack_len l : zlen (Serialize_sack l) = 8 * zlen l.
Proof.
  unfold Serialize_sack. induction l as [|blk l IH]; [done|].
  cbn [map concat]. autorewrite with zlen. rewrite IH. lia.
Qed.

Lemma Serialize_len o : option_ok o -> zlen (Serialize o) = GetSerializedSize o.
Proof.
  destruct o; cbn [option_ok GetSerializedSize]; unfold_options; intros H; try reflexivity.
  - autorewrite with zlen. rewrite Serialize_sack_len. unfold GetNumSackBlocks. lia.
  - destruct H as (? & ? & ? & Hc & ?). destruct (Z.eqb_spec m_size 0); [lia|].
    autorewrite with zlen. rewrite zlen_take by lia. lia.
Qed.

(** The size a well-formed option claims is never zero. *)
Lemma GetSerializedSize_pos o : option_ok o -> 1 <= GetSerializedSize o.
Proof.
  destruct o; simpl; try lia. intros _. unfold GetNumSackBlocks. pose proof (zlen_nonneg m_sackList). lia.
Qed.

(** Steps of a parser over what the writers wrote. *)
Ltac read_steps :=
  repeat first
    [ rewrite ReadU8_write by (done || (split; [discriminate|reflexivity]))
    | rewrite ReadNtohU16_write by done
    | rewrite ReadNtohU32_write by done
    | progress (cbv [mbind res_bind]; cbn iota) ].

Lemma Deserialize_known o r :
  option_ok o -> IsKindKnown (GetKind o) = true ->
  Deserialize (CreateOption (GetKind o)) (Serialize o ++ r) = Ok (GetSerializedSize o, o).
Proof.
  destruct o as [| |mss|scale| |l|ts echo|cwnd|kind size content];
    intros Hok Hk; cbn [option_ok GetKind] in *; try reflexivity;
    unfold_options; rewrite <- ?app_assoc.
  - change (CreateOption MSS) with (TcpOptionMSS 1460). unfold_options. by read_steps.
  - change (CreateOption WINSCALE) with (TcpOptionWinScale 0). unfold_options. by read_steps.
  - change (CreateOption SACK) with (TcpOptionSack []). unfold_options.
    destruct Hok as [Hl Hn]. pose proof (zlen_nonneg l). unfold GetNumSackBlocks.
    rewrite ReadU8_write by (split; [discriminate|reflexivity]). cbv [mbind res_bind]. cbn iota.
    rewrite ReadU8_write by (unfold is_u8; lia). cbn iota. simpl.
    replace (zlen l * 8 + 2 - 2) with (zlen l * 8) by lia. rewrite Z.quot_mul by lia.
    rewrite u8_small by (unfold is_u8; lia).
    replace (Z.to_nat (zlen l)) with (length l) by (unfold zlen; lia).
    by rewrite Deserialize_blocks_write.
  - destruct Hok. change (CreateOption TS) with (TcpOptionTS 0 0). unfold_options. by read_steps.
  - change (CreateOption CWND) with (TcpOptionCwnd 0). unfold_options. by read_steps.
  - destruct Hok as (_ & E & _). congruence.
Qed.

Lemma Deserialize_unknown kind size content r :
  option_ok (TcpOptionUnknown kind size content) ->
  Deserialize (CreateOption UNKNOWN) (Serialize (TcpOptionUnknown kind size content) ++ r)
  = Ok (size, TcpOptionUnknown kind size content).
Proof.
  intros (Hk & _ & Hs & Hc & Hb). unfold_options.
  destruct (Z.eqb_spec size 0); [lia|]. rewrite <- !app_assoc.
  change (CreateOption UNKNOWN) with (TcpOptionUnknown 255 0 []). unfold_options.
  rewrite ReadU8_write by done. cbv [mbind res_bind]. cbn iota.
  rewrite ReadU8_write by (unfold is_u8; lia). cbn iota.
  destruct (Z.ltb_spec size 2); [lia|]. destruct (Z.ltb_spec 40 size); [lia|]. simpl.
  assert (ztake (size - 2) content = content) as ->
    by (unfold ztake; apply take_ge; unfold zlen in *; lia).
  replace (Z.to_nat (size - 2)) with (length content) by (unfold zlen in *; lia).
  by rewrite ReadN_app.
Qed.

(** Every well-formed option, of known kind or not, is read back from
    the bytes its Serialize writes by the object the header's loop creates for
    its kind byte, and claims exactly the bytes it wrote. *)
Theorem option_roundtrip o rest :
  option_ok o ->
  zlen (Serialize o) = GetSerializedSize o
  /\ exists kind, PeekU8 (Serialize o ++ rest) = Ok kind
     /\ Deserialize (if IsKindKnown kind then CreateOption kind else CreateOption UNKNOWN)
          (Serialize o ++ rest) = Ok (GetSerializedSize o, o).
Proof.
  intros Ho. split; [by apply Serialize_len|].
  destruct (IsKindKnown (GetKind o)) eqn:Hk.
  - exists (GetKind o). rewrite Hk. split; [|by apply Deserialize_known].
    destruct o; try reflexivity. destruct Ho as (_ & E & _). cbn in Hk. congruence.
  - destruct o as [| | | | | | | |kind size content]; try discriminate Hk.
    exists kind. pose proof Ho as (Hkind & _ & Hs & _). cbn in Hk. rewrite Hk. split.
    + unfold_options. destruct (Z.eqb_spec size 0); [lia|]. cbn. by rewrite u8_small.
    + by apply Deserialize_unknown.
Qed.

Lemma option_roundtrip_witness :
  zlen (Serialize (TcpOptionSack [(4294967290, 6); (10, 20)])) = 18
  /\ exists kind, PeekU8 (Serialize (TcpOptionSack [(4294967290, 6); (10, 20)]) ++ [1]) = Ok kind
     /\ Deserialize (if IsKindKnown kind then CreateOption kind else CreateOption UNKNOWN)
          (Serialize (TcpOptionSack [(4294967290, 6); (10, 20)]) ++ [1])
        = Ok (18, TcpOptionSack [(4294967290, 6); (10, 20)]).
Proof.
  apply (option_roundtrip (TcpOptionSack [(4294967290, 6); (10, 20)]) [1]).
  split; [|vm_compute; congruence].
  repeat (apply Forall_cons; split; [repeat split; vm_compute; congruence|]). apply Forall_nil. exact I.
Defined.
