(* ===== verification/TcpHeader.v ===== *)
(** The TCP header: src/internet/model/tcp-header.{h,cc}, with the Internet
    checksum of Buffer::Iterator (src/network/model/buffer.cc).

    A header is serialized at the start of a buffer; [payload] is what the
    buffer holds after it.  Addresses are their byte strings: 4 bytes for an
    Ipv4Address, 16 for an Ipv6Address. *)
From Stdlib Require Import ZArith Lia Bool List.
From stdpp Require Import base list.
From S2P Require Import Prelude SeqNum TcpOptions.

Record TcpHeader := mkHdr {
  m_sourcePort : Z;
  m_destinationPort : Z;
  m_sequenceNumber : Z;
  m_ackNumber : Z;
  m_length : Z;
  m_flags : Z;
  m_windowSize : Z;
  m_urgentPointer : Z;
  m_source : bytes;
  m_destination : bytes;
  m_protocol : Z;
  m_calcChecksum : bool;
  m_goodChecksum : bool;
  m_options : list TcpOption;
  m_optionsLen : Z;
}.

#[export] Instance eta_TcpHeader : Settable TcpHeader := fun r =>
  mkHdr (m_sourcePort r) (m_destinationPort r) (m_sequenceNumber r) (m_ackNumber r)
    (m_length r) (m_flags r) (m_windowSize r) (m_urgentPointer r) (m_source r)
    (m_destination r) (m_protocol r) (m_calcChecksum r) (m_goodChecksum r) (m_options r)
    (m_optionsLen r).

(** The default member initializers. *)
Definition TcpHeader_new : TcpHeader :=
  mkHdr 0 0 0 0 5 0 65535 0 [] [] 6 false true [] 0.

Definition m_maxOptionsLen : Z := 40.

(** Flags_t *)
Definition FIN : Z := 1.
Definition SYN : Z := 2.
Definition RST : Z := 4.
Definition PSH : Z := 8.
Definition ACK : Z := 16.
Definition URG : Z := 32.
Definition ECE : Z := 64.
Definition CWR : Z := 128.

(** *** Lengths and options *)

Definition options_size (l : list TcpOption) : Z :=
  fold_left (fun len o => u32 (len + GetSerializedSize o)) l 20.

(** Header length in 32-bit words. *)
Definition CalculateHeaderLength (h : TcpHeader) : Z :=
  let len := options_size (m_options h) in
  let len := if negb (len mod 4 =? 0) then u32 (len + (4 - len mod 4)) else len in
  u8 (Z.shiftr len 2).

Definition GetSerializedSize (h : TcpHeader) : Z := CalculateHeaderLength h * 4.

Definition AppendOption (h : TcpHeader) (o : TcpOption) : bool * TcpHeader :=
  if m_optionsLen h + TcpOptions.GetSerializedSize o <=? m_maxOptionsLen then
    if negb (IsKindKnown (GetKind o)) then (false, h)
    else if negb (GetKind o =? END) then
      let h := h <| m_options ::= fun l => l ++ [o] |>
                 <| m_optionsLen := u8 (m_optionsLen h + TcpOptions.GetSerializedSize o) |> in
      let totalLen := 20 + 3 + m_optionsLen h in
      (true, h <| m_length := u8 (Z.shiftr totalLen 2) |>)
    else (true, h)
  else (false, h).

Definition GetOption (h : TcpHeader) (kind : Z) : option TcpOption :=
  List.find (fun o => GetKind o =? kind) (m_options h).

Definition HasOption (h : TcpHeader) (kind : Z) : bool :=
  existsb (fun o => GetKind o =? kind) (m_options h).

(** operator== compares the fixed fields. *)
Definition header_eqb (a b : TcpHeader) : bool :=
  (m_sourcePort a =? m_sourcePort b) && (m_destinationPort a =? m_destinationPort b)
  && (m_sequenceNumber a =? m_sequenceNumber b) && (m_ackNumber a =? m_ackNumber b)
  && (m_flags a =? m_flags b) && (m_windowSize a =? m_windowSize b)
  && (m_urgentPointer a =? m_urgentPointer b).

(** *** Internet checksum *)

(** The sum of the little-endian 16-bit words of the first [size] bytes. *)
Fixpoint sum_words (n : nat) (i : bytes) (sum : Z) : res (Z * bytes) :=
  match n with
  | O => Ok (sum, i)
  | S n =>
      '(byte0, i) ← ReadU8 i ;
      '(byte1, i) ← ReadU8 i ;
      sum_words n i (u32 (sum + Z.lor (Z.shiftl byte1 8) byte0))
  end.

(** [while (sum >> 16) sum = (sum & 0xffff) + (sum >> 16)]: three rounds are
    enough for a 32-bit sum. *)
Fixpoint fold_carry (fuel : nat) (sum : Z) : Z :=
  match fuel with
  | O => sum
  | S fuel =>
      if Z.shiftr sum 16 =? 0 then sum
      else fold_carry fuel (u32 (Z.land sum 65535 + Z.shiftr sum 16))
  end.

Definition CalculateIpChecksum (i : bytes) (size initialChecksum : Z) : res Z :=
  '(sum, i) ← sum_words (Z.to_nat (size / 2)) i initialChecksum ;
  sum ← (if Z.testbit size 0 then '(b, _) ← ReadU8 i ; Ok (u32 (sum + b)) else Ok sum) ;
  Ok (u16 (Z.lnot (fold_carry 4 sum))).

Definition is_ipv4 (a : bytes) : bool := zlen a =? 4.

(** The pseudo-header, in a buffer of [2 * Address::MAX_SIZE + 8] zero bytes,
    and its partial checksum; [size] is a uint16_t. *)
Definition pseudo_header (h : TcpHeader) (size : Z) : bytes :=
  (m_source h ++ m_destination h ++
   (if is_ipv4 (m_source h)
    then [0; m_protocol h; Z.shiftr size 8; Z.land size 255]
    else [0; 0; Z.shiftr size 8; Z.land size 255; 0; 0; 0; m_protocol h]))
  ++ repeat 0 48.

Definition CalculateHeaderChecksum (h : TcpHeader) (size : Z) : res Z :=
  let hdrSize := if is_ipv4 (m_source h) then 12 else 40 in
  c ← CalculateIpChecksum (pseudo_header h size) hdrSize 0 ;
  Ok (u16 (Z.lnot c)).

(** *** Serialize *)

(** The bytes of the header, with zero in the checksum field. *)
Definition padding (optionLen : Z) : bytes :=
  repeat END (Z.to_nat ((4 - optionLen mod 4) mod 4)).

Definition options_bytes (l : list TcpOption) : bytes :=
  let opts := concat (map TcpOptions.Serialize l) in
  let optionLen := fold_left (fun len o => u32 (len + TcpOptions.GetSerializedSize o)) l 0 in
  opts ++ padding optionLen.

Definition fixed_bytes (h : TcpHeader) : bytes :=
  WriteHtonU16 (m_sourcePort h) ++ WriteHtonU16 (m_destinationPort h)
  ++ WriteHtonU32 (m_sequenceNumber h) ++ WriteHtonU32 (m_ackNumber h)
  ++ WriteHtonU16 (u16 (Z.lor (Z.shiftl (m_length h) 12) (m_flags h)))
  ++ WriteHtonU16 (m_windowSize h) ++ WriteHtonU16 0 ++ WriteHtonU16 (m_urgentPointer h).

(** [WriteU16] writes in little-endian order. *)
Definition WriteU16 (data : Z) : bytes := [Z.land data 255; Z.land (Z.shiftr data 8) 255].

(** The whole buffer after [Serialize], [payload] included. *)
Definition Serialize (h : TcpHeader) (payload : bytes) : res bytes :=
  let buf := fixed_bytes h ++ options_bytes (m_options h) ++ payload in
  if m_calcChecksum h then
    let size := u16 (zlen buf) in
    headerChecksum ← CalculateHeaderChecksum h size ;
    checksum ← CalculateIpChecksum buf size headerChecksum ;
    Ok (ztake 16 buf ++ WriteU16 checksum ++ zdrop 18 buf)
  else Ok buf.

(** *** Deserialize *)

(** The option loop.  [fuel] bounds its iterations: [None] means that it did
    not end within [fuel] of them. *)
Fixpoint read_options (fuel : nat) (optionLen : Z) (i : bytes) (opts : list TcpOption)
    (optsLen : Z) : option (res (list TcpOption * Z)) :=
  if optionLen =? 0 then Some (Ok (opts, optsLen))
  else
    match fuel with
    | O => None
    | S fuel =>
        match PeekU8 i with
        | Err f => Some (Err f)
        | Ok kind =>
            let op := if IsKindKnown kind then CreateOption kind else CreateOption UNKNOWN in
            match TcpOptions.Deserialize op i with
            | Err f => Some (Err f)
            | Ok (optionSize, op) =>
                if negb (optionSize =? TcpOptions.GetSerializedSize op) then
                  Some (Ok (opts, optsLen))
                else if optionSize <=? optionLen then
                  let optionLen := optionLen - optionSize in
                  match Next i optionSize with
                  | Err f => Some (Err f)
                  | Ok i =>
                      let opts := opts ++ [op] in
                      let optsLen := u8 (optsLen + optionSize) in
                      if GetKind op =? END then
                        (* the padding bytes are skipped one by one *)
                        if optionLen <=? zlen i
                        then Some (Ok (opts, u8 (optsLen + optionLen)))
                        else Some (Err AssertFailed)
                      else read_options fuel optionLen i opts optsLen
                  end
                else Some (Ok (opts, optsLen))
            end
        end
    end.

(** The fixed part of the header: the fields and the rest of the buffer. *)
Definition read_fixed (h : TcpHeader) (start : bytes) : res (TcpHeader * bytes) :=
  '(sport, i) ← ReadNtohU16 start ;
  '(dport, i) ← ReadNtohU16 i ;
  '(sq, i) ← ReadNtohU32 i ;
  '(ack, i) ← ReadNtohU32 i ;
  '(field, i) ← ReadNtohU16 i ;
  '(win, i) ← ReadNtohU16 i ;
  i ← Next i 2 ;
  '(urg, i) ← ReadNtohU16 i ;
  Ok (h <| m_sourcePort := sport |> <| m_destinationPort := dport |>
        <| m_sequenceNumber := sq |> <| m_ackNumber := ack |>
        <| m_flags := Z.land field 255 |> <| m_length := u8 (Z.shiftr field 12) |>
        <| m_windowSize := win |> <| m_urgentPointer := urg |>
        <| m_options := [] |> <| m_optionsLen := 0 |>, i).

(** [None]: the option loop does not end within [fuel] iterations. *)
Definition Deserialize (fuel : nat) (h : TcpHeader) (start : bytes)
  : option (res (Z * TcpHeader)) :=
  match read_fixed h start with
  | Err f => Some (Err f)
  | Ok (h, i) =>
      let optionLen := u32 ((m_length h - 5) * 4) in
      if m_maxOptionsLen <? optionLen then Some (Ok (20, h))
      else
        match read_options fuel optionLen i [] 0 with
        | None => None
        | Some (Err f) => Some (Err f)
        | Some (Ok (opts, optsLen)) =>
            let h := h <| m_options := opts |> <| m_optionsLen := optsLen |> in
            Some
              (if m_calcChecksum h then
                 let size := u16 (zlen start) in
                 headerChecksum ← CalculateHeaderChecksum h size ;
                 checksum ← CalculateIpChecksum start size headerChecksum ;
                 Ok (GetSerializedSize h, h <| m_goodChecksum := (checksum =? 0) |>)
               else Ok (GetSerializedSize h, h))
        end
  end.
