(* ===== verification/TcpHeaderSpec.v ===== *)
(** What the header codec promises: round trip, checksum, and the end of the
    option loop. *)
From Stdlib Require Import ZArith Lia Bool List.
From stdpp Require Import base list.
From S2P Require Import Prelude SeqNum TcpOptions TcpHeader.

(** ** The Internet checksum *)

(** The sum of the little-endian words of a byte string. *)
Fixpoint lesum (l : bytes) : Z :=
  match l with
  | [] => 0
  | [b] => b
  | b0 :: b1 :: t => b0 + 256 * b1 + lesum t
  end.

Lemma list_pairs_ind {A} (P : list A -> Prop) :
  P [] -> (forall x, P [x]) -> (forall x y l, P l -> P (x :: y :: l)) -> forall l, P l.
Proof.
  intros H0 H1 H2 l. assert (P l /\ forall x, P (x :: l)) as [? _]; [|done].
  induction l as [|y l [IH1 IH2]]; split; auto.
Qed.

Lemma lesum_bounds l : is_bytes l -> 0 <= lesum l <= 65535 * ((zlen l + 1) / 2).
Proof.
  induction l as [|x|x y l IH] using list_pairs_ind; intros H.
  - done.
  - apply Forall_cons in H as [Hx _]. unfold is_u8 in Hx. simpl. change (zlen [x]) with 1.
    change ((1 + 1) / 2) with 1. lia.
  - apply Forall_cons in H as [Hx H]. apply Forall_cons in H as [Hy H].
    unfold is_u8 in *. specialize (IH H). cbn [lesum]. rewrite !zlen_cons.
    replace ((1 + (1 + zlen l) + 1) / 2) with (1 + (zlen l + 1) / 2); [lia|].
    replace (1 + (1 + zlen l) + 1) with (1 * 2 + (zlen l + 1)) by lia.
    rewrite Z.div_add_l by lia. done.
Qed.

Lemma lesum_app l k : Z.even (zlen l) = true -> lesum (l ++ k) = lesum l + lesum k.
Proof.
  induction l as [|x|x y l IH] using list_pairs_ind; intros H; [done|done|].
  cbn [lesum app]. rewrite !zlen_cons in H.
  rewrite IH; [lia|]. rewrite Z.add_assoc, Z.even_add in H.
  by destruct (Z.even (zlen l)).
Qed.

Lemma le_word b0 b1 : is_u8 b0 -> is_u8 b1 -> Z.lor (Z.shiftl b1 8) b0 = b0 + 256 * b1.
Proof. intros H0 H1. rewrite lor_shift_add; [lia|lia|exact H0]. Qed.

(** Reading [n] words and possibly one more byte of a buffer. *)
Lemma sum_words_spec n l sum :
  is_bytes l -> (2 * n <= length l)%nat -> 0 <= sum ->
  sum + lesum (take (2 * n) l) < 2 ^ 32 ->
  sum_words n l sum = Ok (sum + lesum (take (2 * n) l), drop (2 * n) l).
Proof.
  revert l sum. induction n as [|n IH]; intros l sum Hb Hl Hs Hlt.
  { simpl. by rewrite Z.add_0_r. }
  destruct l as [|b0 [|b1 l]]; simpl in Hl; try lia.
  apply Forall_cons in Hb as [H0 Hb]. apply Forall_cons in Hb as [H1 Hb].
  assert (0 <= lesum (take (2 * n) l)) as Hpos by (by apply lesum_bounds, Forall_take).
  replace (2 * S n)%nat with (S (S (2 * n))) in * by lia.
  cbn [take drop lesum] in *. cbn -[Nat.mul]. rewrite le_word by done. unfold is_u8 in *.
  rewrite u32_small by (unfold is_u32; lia).
  rewrite IH; auto; [|lia|lia|lia]. do 2 f_equal. lia.
Qed.

Lemma fold_carry_step f x :
  0 <= x < 2 ^ 32 ->
  fold_carry (S f) x = if x <? 2 ^ 16 then x else fold_carry f (x mod 2 ^ 16 + x / 2 ^ 16).
Proof.
  intros Hx. cbn -[Z.land]. rewrite Z.shiftr_div_pow2 by lia.
  change (Z.land x 65535) with (Z.land x (Z.ones 16)). rewrite Z.land_ones by lia.
  destruct (Z.ltb_spec x (2 ^ 16)).
  - by rewrite Z.div_small by lia.
  - destruct (Z.eqb_spec (x / 2 ^ 16) 0); [dlia|].
    by rewrite u32_small by (unfold is_u32; dlia).
Qed.

(** Three rounds bring any 32-bit sum below [2 ^ 16], and keep it modulo
    [2 ^ 16 - 1]. *)
Lemma fold_carry_spec s :
  0 <= s < 2 ^ 32 ->
  0 <= fold_carry 4 s <= 65535 /\ (exists k, s - fold_carry 4 s = k * 65535)
  /\ (0 < s -> 0 < fold_carry 4 s).
Proof.
  intros Hs. rewrite fold_carry_step by done.
  destruct (Z.ltb_spec s (2 ^ 16)); [split_and!; [lia|lia|exists 0; lia|lia]|].
  set (s1 := s mod 2 ^ 16 + s / 2 ^ 16). assert (0 < s1 < 2 ^ 17 - 1) by (unfold s1; dlia).
  assert (s - s1 = s / 2 ^ 16 * 65535) as E1 by (unfold s1; dlia).
  rewrite fold_carry_step by lia.
  destruct (Z.ltb_spec s1 (2 ^ 16)); [split_and!; [lia|lia|eauto|lia]|].
  set (s2 := s1 mod 2 ^ 16 + s1 / 2 ^ 16). assert (0 < s2 < 2 ^ 16) by (unfold s2; dlia).
  assert (s1 - s2 = s1 / 2 ^ 16 * 65535) as E2 by (unfold s2; dlia).
  rewrite fold_carry_step by lia.
  destruct (Z.ltb_spec s2 (2 ^ 16)); [|lia]. split_and!; [lia|lia| |lia].
  exists (s / 2 ^ 16 + s1 / 2 ^ 16). lia.
Qed.

Lemma lnot_u16 x : 0 <= x <= 65535 -> u16 (Z.lnot x) = 65535 - x.
Proof. intros H. unfold Z.lnot, u16. dlia. Qed.

(** The checksum of a whole buffer is the complement of its folded sum. *)
Lemma CalculateIpChecksum_spec l size init :
  is_bytes l -> 0 <= size <= zlen l -> size < 2 ^ 16 -> 0 <= init <= 65535 ->
  CalculateIpChecksum l size init
  = Ok (65535 - fold_carry 4 (init + lesum (ztake size l))).
Proof.
  intros Hb Hs Hs2 Hi. unfold CalculateIpChecksum.
  assert (is_bytes (ztake size l)) as Hbt by (by apply Forall_take).
  pose proof (lesum_bounds _ Hbt) as Hl. rewrite zlen_take in Hl by lia.
  assert (0 <= init + lesum (ztake size l) < 2 ^ 32) as Hr by dlia.
  set (n := Z.to_nat (size / 2)).
  assert (Z.of_nat n = size / 2) as Hn by (unfold n; dlia).
  assert ((2 * n <= length l)%nat) as Hnl by (unfold zlen in *; dlia).
  assert (0 <= lesum (take (2 * n) l)) as Hpos by (by apply lesum_bounds, Forall_take).
  destruct (fold_carry_spec _ Hr) as (Hf & _ & _).
  rewrite Z.bit0_odd. pose proof (Zmod_odd size) as E.
  destruct (Z.odd size); simpl in E; [|].
  2: { assert (take (2 * n) l = ztake size l) as Et by (unfold ztake; f_equal; dlia).
    rewrite sum_words_spec by (auto; rewrite ?Et; lia). rewrite Et.
    res_step. by rewrite lnot_u16. }
  - destruct (drop (2 * n) l) as [|b r] eqn:Ed.
    { apply (f_equal length) in Ed. rewrite length_drop in Ed. unfold zlen in *. simpl in Ed. dlia. }
    assert (ztake size l = take (2 * n) l ++ [b]) as Et.
    { unfold ztake. replace (Z.to_nat size) with (2 * n + 1)%nat by dlia.
      rewrite <- (take_drop (2 * n) l) at 1. rewrite take_app_add'.
      2: { rewrite length_take. lia. } by rewrite Ed. }
    assert (Z.even (zlen (take (2 * n) l)) = true) as Hev.
    { unfold zlen. rewrite length_take, Nat.min_l by lia. rewrite Nat2Z.inj_mul. by rewrite Z.even_mul. }
    rewrite Et, (lesum_app _ _ Hev) in *. cbn [lesum] in *.
    assert (is_u8 b) as Hbb.
    { eapply (proj1 (Forall_forall _ _) Hbt). apply elem_of_app. right. by left. }
    unfold is_u8 in Hbb.
    rewrite sum_words_spec by (auto; lia). rewrite Ed. res_step. cbn [ReadU8]. res_step. rewrite u32_small by (unfold is_u32; lia).
    rewrite <- Z.add_assoc. by rewrite lnot_u16.
Qed.

(** ** Well-formed headers *)

Definition opts_len (l : list TcpOption) : Z :=
  foldr (fun o n => TcpOptions.GetSerializedSize o + n) 0 l.

(** An option that AppendOption stores. *)
Definition stored_ok (o : TcpOption) : Prop :=
  option_ok o /\ IsKindKnown (GetKind o) = true /\ GetKind o <> END.

Record header_ok (h : TcpHeader) : Prop := {
  hok_sport : is_u16 (m_sourcePort h);
  hok_dport : is_u16 (m_destinationPort h);
  hok_seq : is_u32 (m_sequenceNumber h);
  hok_ack : is_u32 (m_ackNumber h);
  hok_flags : is_u8 (m_flags h);
  hok_win : is_u16 (m_windowSize h);
  hok_urg : is_u16 (m_urgentPointer h);
  hok_opts : Forall stored_ok (m_options h);
  hok_optsLen : m_optionsLen h = opts_len (m_options h);
  hok_max : m_optionsLen h <= 40;
  hok_length : m_length h = (23 + m_optionsLen h) / 4;
}.

Lemma opts_len_app l k : opts_len (l ++ k) = opts_len l + opts_len k.
Proof. induction l as [|o l IH]; simpl; [done|]. rewrite IH. lia. Qed.

Lemma opts_len_nonneg l : Forall stored_ok l -> 0 <= opts_len l.
Proof.
  induction 1 as [|o l [Ho _] Hl IH]; simpl; [lia|]. pose proof (GetSerializedSize_pos o Ho). lia.
Qed.

Lemma fold_size_spec l n :
  Forall stored_ok l -> 0 <= n -> n + opts_len l < 2 ^ 32 ->
  fold_left (fun len o => u32 (len + TcpOptions.GetSerializedSize o)) l n = n + opts_len l.
Proof.
  intros H. revert n. induction H as [|o l [Ho Hk] Hl IH]; simpl; intros n Hn Hlt; [lia|].
  pose proof (GetSerializedSize_pos o Ho). pose proof (opts_len_nonneg l Hl).
  rewrite u32_small by (unfold is_u32; lia). rewrite IH; lia.
Qed.

Definition padded (n : Z) : Z := n + (4 - n mod 4) mod 4.

Lemma CalculateHeaderLength_ok h : header_ok h ->
  CalculateHeaderLength h = m_length h /\ GetSerializedSize h = 20 + padded (opts_len (m_options h)).
Proof.
  intros []. pose proof (opts_len_nonneg _ hok_opts0).
  assert (CalculateHeaderLength h = (23 + opts_len (m_options h)) / 4) as E.
  { unfold CalculateHeaderLength, options_size. rewrite fold_size_spec by (auto; lia).
    set (n := opts_len (m_options h)) in *. rewrite Z.shiftr_div_pow2 by lia.
    destruct (Z.eqb_spec ((20 + n) mod 4) 0) as [E|E]; simpl negb; cbn iota.
    - unfold u8. rewrite Z.mod_small; dlia.
    - rewrite u32_small by (unfold is_u32; dlia). unfold u8. rewrite Z.mod_small; dlia. }
  unfold GetSerializedSize, padded. rewrite E. split; [by rewrite hok_length0, hok_optsLen0|dlia].
Qed.

(** AppendOption keeps a header well formed and accepts every storable option
    that fits. *)
Lemma AppendOption_ok h o : header_ok h -> option_ok o ->
  header_ok (snd (AppendOption h o)).
Proof.
  intros Hh Ho. pose proof Hh as []. pose proof (opts_len_nonneg _ hok_opts0).
  pose proof (GetSerializedSize_pos o Ho) as Hp.
  unfold AppendOption. destruct (Z.leb_spec (m_optionsLen h + TcpOptions.GetSerializedSize o) m_maxOptionsLen)
    as [Hle|]; [|done].
  unfold m_maxOptionsLen in Hle.
  destruct (IsKindKnown (GetKind o)) eqn:Hk; [|done]. simpl.
  destruct (Z.eqb_spec (GetKind o) END) as [|Hne]; [done|]. simpl.
  assert (0 <= m_optionsLen h + TcpOptions.GetSerializedSize o <= 40) by lia.
  assert (u8 (m_optionsLen h + TcpOptions.GetSerializedSize o)
          = m_optionsLen h + TcpOptions.GetSerializedSize o) as E
    by (apply u8_small; unfold is_u8; lia).
  split; simpl; rewrite ?E; auto; try lia.
  - apply Forall_app. split; [done|]. by repeat constructor.
  - rewrite opts_len_app. simpl. lia.
  - rewrite Z.shiftr_div_pow2 by lia. apply u8_small. unfold is_u8. dlia.
Qed.

(** ** Bytes written *)

Lemma is_bytes_app l k : is_bytes l -> is_bytes k -> is_bytes (l ++ k).
Proof. intros. by apply Forall_app. Qed.

Lemma is_u8_land x : is_u8 (Z.land x 255).
Proof. rewrite land_255. apply u8_range. Qed.

Lemma is_bytes_WriteU8 x : is_bytes (WriteU8 x).
Proof. repeat constructor. apply u8_range. apply u8_range. Qed.

Lemma is_bytes_WriteHtonU16 x : is_bytes (WriteHtonU16 x).
Proof. repeat (constructor; [apply is_u8_land|]). constructor. Qed.

Lemma is_bytes_WriteHtonU32 x : is_bytes (WriteHtonU32 x).
Proof. repeat (constructor; [apply is_u8_land|]). constructor. Qed.

Lemma is_bytes_WriteU16 x : is_bytes (WriteU16 x).
Proof. repeat (constructor; [apply is_u8_land|]). constructor. Qed.

Lemma is_bytes_repeat x n : is_u8 x -> is_bytes (repeat x n).
Proof. intros. induction n; simpl; constructor; auto. Qed.

Lemma is_bytes_sack l : is_bytes (Serialize_sack l).
Proof.
  unfold Serialize_sack. induction l as [|blk l IH]; cbn [map concat]; [constructor|].
  auto using is_bytes_app, is_bytes_WriteHtonU32.
Qed.

Create HintDb bytes.
#[export] Hint Resolve is_bytes_app is_bytes_WriteU8 is_bytes_WriteHtonU16 is_bytes_WriteU16
  is_bytes_WriteHtonU32 is_bytes_repeat is_bytes_sack : bytes.

Lemma is_bytes_option o : option_ok o -> is_bytes (TcpOptions.Serialize o).
Proof.
  destruct o; cbn [option_ok]; unfold_options; intros H; auto 6 with bytes.
  destruct (_ =? 0); [constructor|]. destruct H as (_ & _ & _ & _ & H).
  apply is_bytes_app; [auto with bytes|]. apply is_bytes_app; [auto with bytes|].
  by apply Forall_take.
Qed.

Lemma is_bytes_options l : Forall stored_ok l -> is_bytes (options_bytes l).
Proof.
  intros H. apply is_bytes_app; [|by apply is_bytes_repeat].
  induction H as [|o l [Ho _] Hl IH]; cbn [map concat]; [constructor|].
  auto using is_bytes_app, is_bytes_option.
Qed.

Lemma is_bytes_fixed h : is_bytes (fixed_bytes h).
Proof. unfold fixed_bytes. auto 20 with bytes. Qed.

Lemma options_bytes_len l : Forall stored_ok l -> opts_len l < 2 ^ 32 ->
  options_bytes l = concat (map TcpOptions.Serialize l)
                    ++ repeat END (Z.to_nat ((4 - opts_len l mod 4) mod 4))
  /\ zlen (concat (map TcpOptions.Serialize l)) = opts_len l
  /\ zlen (options_bytes l) = padded (opts_len l).
Proof.
  intros H Hlt. unfold options_bytes, padding. rewrite fold_size_spec by (auto; lia).
  assert (zlen (concat (map TcpOptions.Serialize l)) = opts_len l) as E.
  { clear Hlt. induction H as [|o l [Ho _] Hl IH]; [done|]. cbn [map concat opts_len foldr].
    rewrite zlen_app, Serialize_len, IH by done. done. }
  split_and!; [done|done|]. rewrite zlen_app, E. unfold padded, zlen at 1.
  rewrite repeat_length. rewrite Z2Nat.id; [done|]. apply Z.mod_pos_bound. lia.
Qed.

(** ** Reading back *)

Lemma Next_app l r n : zlen l = n -> Next (l ++ r) n = Ok r.
Proof.
  intros <-.
  unfold Next, ns_assert. rewrite zlen_app.
  destruct (Z.leb_spec (zlen l) (zlen l + zlen r)); [|pose proof (zlen_nonneg r); lia].
  res_step. unfold zdrop, zlen. by rewrite Nat2Z.id, drop_app_length.
Qed.

(** The fields of [h0] after the fixed part of [h] is read. *)
Definition with_fixed (h0 h : TcpHeader) : TcpHeader :=
  h0 <| m_sourcePort := m_sourcePort h |> <| m_destinationPort := m_destinationPort h |>
     <| m_sequenceNumber := m_sequenceNumber h |> <| m_ackNumber := m_ackNumber h |>
     <| m_flags := m_flags h |> <| m_length := m_length h |>
     <| m_windowSize := m_windowSize h |> <| m_urgentPointer := m_urgentPointer h |>
     <| m_options := [] |> <| m_optionsLen := 0 |>.

(** The fixed part with a checksum in its field. *)
Definition head_bytes (h : TcpHeader) : bytes :=
  WriteHtonU16 (m_sourcePort h) ++ WriteHtonU16 (m_destinationPort h)
  ++ WriteHtonU32 (m_sequenceNumber h) ++ WriteHtonU32 (m_ackNumber h)
  ++ WriteHtonU16 (u16 (Z.lor (Z.shiftl (m_length h) 12) (m_flags h)))
  ++ WriteHtonU16 (m_windowSize h).

Lemma read_fixed_bytes h0 h ck rest :
  header_ok h -> zlen ck = 2 ->
  read_fixed h0 (head_bytes h ++ ck ++ WriteHtonU16 (m_urgentPointer h) ++ rest)
  = Ok (with_fixed h0 h, rest).
Proof.
  intros [] Hck. unfold read_fixed, head_bytes, with_fixed.
  pose proof (opts_len_nonneg _ hok_opts0). unfold is_u8 in *.
  assert (is_u16 (m_length h * 2 ^ 12 + m_flags h)) as Hf by (unfold is_u16; dlia).
  rewrite lor_shift_add by lia. rewrite (u16_small _ Hf). rewrite <- !app_assoc.
  read_steps. rewrite (Next_app ck) by done. read_steps.
  assert (Z.land (m_length h * 2 ^ 12 + m_flags h) 255 = m_flags h) as ->
    by (rewrite land_255; dlia).
  assert (u8 (Z.shiftr (m_length h * 2 ^ 12 + m_flags h) 12) = m_length h) as ->; [|done].
  rewrite Z.shiftr_div_pow2 by lia. rewrite <- (u8_small (m_length h)) at 2 by (unfold is_u8; dlia).
  f_equal. dlia.
Qed.

(** The option [TcpOptionEnd] that Deserialize makes of the padding. *)
Definition read_back (l : list TcpOption) : list TcpOption :=
  l ++ (if opts_len l mod 4 =? 0 then [] else [TcpOptionEnd]).

Lemma read_pad fuel pad tail opts optsLen :
  0 <= pad <= 3 -> 0 <= optsLen -> optsLen + pad <= 255 -> (1 <= fuel)%nat ->
  read_options fuel pad (repeat END (Z.to_nat pad) ++ tail) opts optsLen
  = Some (Ok (opts ++ (if pad =? 0 then [] else [TcpOptionEnd]), optsLen + pad)).
Proof.
  intros Hp Ho Hs Hf. destruct fuel as [|fuel]; [lia|]. cbn [read_options].
  destruct (Z.eqb_spec pad 0) as [->|Hne]; [by rewrite app_nil_r, Z.add_0_r|].
  replace (Z.to_nat pad) with (S (Z.to_nat (pad - 1))) by lia. cbn [repeat app PeekU8].
  change (IsKindKnown END) with true. change (CreateOption END) with TcpOptionEnd.
  cbv zeta. cbn iota. rewrite (eq_refl : TcpOptions.Deserialize TcpOptionEnd
    (END :: repeat END (Z.to_nat (pad - 1)) ++ tail) = Ok (1, TcpOptionEnd)). change (negb (1 =? TcpOptions.GetSerializedSize TcpOptionEnd)) with false. cbn iota.
  destruct (Z.leb_spec 1 pad); [|lia].
  rewrite (Next_app [END] (repeat END (Z.to_nat (pad - 1)) ++ tail) 1 eq_refl :
    Next (END :: repeat END (Z.to_nat (pad - 1)) ++ tail) 1 = _). change (GetKind TcpOptionEnd =? END) with true. cbn iota.
  destruct (Z.leb_spec (pad - 1) (zlen (repeat END (Z.to_nat (pad - 1)) ++ tail))) as [|Hc].
  2: { rewrite zlen_app in Hc. pose proof (zlen_nonneg tail). unfold zlen at 1 in Hc.
    rewrite repeat_length in Hc. lia. }
  rewrite (u8_small (optsLen + 1)) by (unfold is_u8; lia).
  rewrite u8_small by (unfold is_u8; lia). do 3 f_equal. lia.
Qed.

Lemma read_option o r : stored_ok o ->
  exists kind, PeekU8 (TcpOptions.Serialize o ++ r) = Ok kind /\ IsKindKnown kind = true
  /\ TcpOptions.Deserialize (CreateOption kind) (TcpOptions.Serialize o ++ r)
     = Ok (TcpOptions.GetSerializedSize o, o).
Proof.
  intros (Ho & Hk & _). exists (GetKind o). split_and!; [|done|by apply Deserialize_known].
  destruct o; try reflexivity. destruct Ho as (_ & E & _). cbn in Hk. congruence.
Qed.

Lemma read_options_written l fuel pad tail opts optsLen :
  Forall stored_ok l -> 0 <= pad <= 3 -> 0 <= optsLen -> optsLen + opts_len l + pad <= 255 ->
  (length l < fuel)%nat ->
  read_options fuel (opts_len l + pad)
    (concat (map TcpOptions.Serialize l) ++ repeat END (Z.to_nat pad) ++ tail) opts optsLen
  = Some (Ok (opts ++ l ++ (if pad =? 0 then [] else [TcpOptionEnd]), optsLen + opts_len l + pad)).
Proof.
  intros H. revert fuel opts optsLen.
  induction H as [|o l Ho Hl IH]; intros fuel opts optsLen Hp Hs Hmax Hf.
  { cbn [map concat opts_len foldr app] in *. rewrite Z.add_0_r, Z.add_0_l. apply read_pad; lia. }
  destruct fuel as [|fuel]; [cbn [length] in Hf; lia|].
  pose proof Ho as (Hoo & Hk & Hend). pose proof (GetSerializedSize_pos o Hoo).
  pose proof (opts_len_nonneg l Hl).
  cbn [map concat length opts_len foldr] in *. fold (opts_len l) in *.
  destruct (read_option o (concat (map TcpOptions.Serialize l) ++ repeat END (Z.to_nat pad) ++ tail)
              Ho) as (kind & E1 & E2 & E3).
  rewrite <- app_assoc. cbn [read_options]. destruct (Z.eqb_spec (TcpOptions.GetSerializedSize o
    + opts_len l + pad) 0); [lia|].
  rewrite E1, E2, E3. rewrite Z.eqb_refl. cbn [negb].
  destruct (Z.leb_spec (TcpOptions.GetSerializedSize o)
    (TcpOptions.GetSerializedSize o + opts_len l + pad)); [|lia].
  rewrite Next_app by (by apply Serialize_len).
  destruct (Z.eqb_spec (GetKind o) END); [done|].
  rewrite u8_small by (unfold is_u8; lia).
  replace (TcpOptions.GetSerializedSize o + opts_len l + pad - TcpOptions.GetSerializedSize o)
    with (opts_len l + pad) by lia.
  rewrite IH by lia. rewrite <- app_assoc. do 3 f_equal. lia.
Qed.

(** ** The checksum *)

Lemma CalculateHeaderChecksum_spec h size :
  is_bytes (m_source h) -> is_bytes (m_destination h) -> is_u8 (m_protocol h) -> is_u16 size ->
  exists c, CalculateHeaderChecksum h size = Ok c /\ 0 <= c <= 65535.
Proof.
  intros Hs Hd Hp Hz. unfold is_u16 in Hz.
  assert (is_bytes (pseudo_header h size)) as Hb.
  { assert (is_u8 0) by (unfold is_u8; lia).
    assert (is_u8 (Z.shiftr size 8)) by (rewrite Z.shiftr_div_pow2 by lia; unfold is_u8; dlia).
    pose proof (is_u8_land size). unfold pseudo_header.
    apply is_bytes_app; [|by apply is_bytes_repeat]. do 2 (apply is_bytes_app; [done|]).
    unfold is_bytes. destruct (is_ipv4 (m_source h)); rewrite !Forall_cons; auto 20. }
  assert (48 <= zlen (pseudo_header h size)) as Hl.
  { unfold pseudo_header. rewrite zlen_app. pose proof (@zlen_nonneg Z). change (zlen (repeat 0 48)) with 48.
    match goal with |- _ <= zlen ?l + _ => specialize (H l) end. lia. }
  unfold CalculateHeaderChecksum.
  rewrite CalculateIpChecksum_spec; [|done|destruct (is_ipv4 _); lia|destruct (is_ipv4 _); lia|lia].
  res_step. eexists; split; [done|]. pose proof (u16_range (Z.lnot (65535 - fold_carry 4
    (0 + lesum (ztake (if is_ipv4 (m_source h) then 12 else 40) (pseudo_header h size)))))).
  unfold is_u16 in *. lia.
Qed.

Lemma lesum_WriteU16 x : 0 <= x <= 65535 -> lesum (WriteU16 x) = x.
Proof.
  intros Hx. cbn [lesum WriteU16]. rewrite !land_255, Z.shiftr_div_pow2 by lia. dlia.
Qed.

Lemma multiple_65535 y k : 0 < y <= 65535 -> y = k * 65535 -> y = 65535.
Proof. intros. nia. Qed.

(** A buffer whose checksum field holds the checksum computed with zero in it
    has checksum zero. *)
Lemma checksum_verifies A B init c :
  is_bytes A -> is_bytes B -> Z.even (zlen A) = true -> zlen A + 2 + zlen B < 2 ^ 16 ->
  0 <= init <= 65535 ->
  CalculateIpChecksum (A ++ [0; 0] ++ B) (zlen (A ++ [0; 0] ++ B)) init = Ok c ->
  0 <= c <= 65535 /\
  CalculateIpChecksum (A ++ WriteU16 c ++ B) (zlen (A ++ WriteU16 c ++ B)) init = Ok 0.
Proof.
  intros HA HB HeA Hlen Hi.
  assert (forall ck, zlen ck = 2 -> is_bytes ck ->
    CalculateIpChecksum (A ++ ck ++ B) (zlen (A ++ ck ++ B)) init
    = Ok (65535 - fold_carry 4 (init + (lesum A + (lesum ck + lesum B))))
    /\ 0 <= init + (lesum A + (lesum ck + lesum B)) < 2 ^ 32) as Hsum.
  { intros ck Hck Hbk. assert (is_bytes (A ++ ck ++ B)) as Hb by auto with bytes.
    assert (zlen (A ++ ck ++ B) = zlen A + 2 + zlen B) as El by (rewrite !zlen_app; lia).
    pose proof (zlen_nonneg A). pose proof (zlen_nonneg B). pose proof (lesum_bounds _ Hb) as Hlb.
    rewrite CalculateIpChecksum_spec by (auto; lia).
    assert (ztake (zlen (A ++ ck ++ B)) (A ++ ck ++ B) = A ++ ck ++ B) as ->
      by (unfold ztake, zlen; rewrite Nat2Z.id; by apply take_ge).
    rewrite lesum_app by done. rewrite lesum_app in Hlb by done.
    rewrite (lesum_app ck) in * by (by rewrite Hck). split; [done|dlia]. }
  destruct (Hsum [0; 0]) as [E0 R0]; [done|by repeat constructor|].
  rewrite E0. intros Ec%Ok_inj. subst c. cbn [lesum] in *.
  set (s := init + (lesum A + (0 + 256 * 0 + 0 + lesum B))) in *.
  destruct (fold_carry_spec s R0) as (Hr & (k & Hk) & Hpos). split; [lia|].
  destruct (Hsum (WriteU16 (65535 - fold_carry 4 s))) as [E1 R1]; [done|auto with bytes|].
  rewrite E1. rewrite lesum_WriteU16 in * by lia.
  set (s' := init + (lesum A + (65535 - fold_carry 4 s + lesum B))) in *.
  destruct (fold_carry_spec s' R1) as (Hr' & (k' & Hk') & Hpos').
  assert (s' = s + (65535 - fold_carry 4 s)) as Es.
  { assert (s = init + (lesum A + lesum B)) by (unfold s; lia). unfold s'. lia. }
  rewrite (multiple_65535 (fold_carry 4 s') (1 + k - k')); [done| |lia].
  destruct (Z.eq_dec s' 0) as [E|]; [|lia]. assert (s = 0) by lia.
  assert (fold_carry 4 s = 65535) as E2 by lia. rewrite H in E2. vm_compute in E2. discriminate.
Qed.

(** ** The round trip *)

(** The pseudo-header inputs of a header: what Tcp::InitializeChecksum sets. *)
Definition pseudo_ok (h : TcpHeader) : Prop :=
  is_bytes (m_source h) /\ is_bytes (m_destination h) /\ is_u8 (m_protocol h).

Definition same_pseudo (h0 h : TcpHeader) : Prop :=
  m_source h0 = m_source h /\ m_destination h0 = m_destination h /\ m_protocol h0 = m_protocol h.

Lemma CalculateHeaderChecksum_same h0 h size :
  same_pseudo h0 h -> CalculateHeaderChecksum h0 size = CalculateHeaderChecksum h size.
Proof.
  intros (E1 & E2 & E3). unfold CalculateHeaderChecksum, pseudo_header. by rewrite E1, E2, E3.
Qed.

Lemma head_bytes_len h : zlen (head_bytes h) = 16.
Proof. unfold head_bytes. by autorewrite with zlen. Qed.

(** Serialize writes the header with a checksum field [ck]: zero, or the
    checksum that makes the buffer verify. *)
Lemma Serialize_shape h payload :
  header_ok h -> pseudo_ok h -> is_bytes payload ->
  zlen payload + GetSerializedSize h < 2 ^ 16 ->
  exists ck, zlen ck = 2 /\
  let buf := head_bytes h ++ ck ++ WriteHtonU16 (m_urgentPointer h)
             ++ options_bytes (m_options h) ++ payload in
  Serialize h payload = Ok buf
  /\ zlen buf = GetSerializedSize h + zlen payload
  /\ (m_calcChecksum h = true -> exists init,
       CalculateHeaderChecksum h (u16 (zlen buf)) = Ok init
       /\ CalculateIpChecksum buf (zlen buf) init = Ok 0).
Proof.
  intros Hh (Hs & Hd & Hp) Hpay Hlen. pose proof Hh as [].
  destruct (CalculateHeaderLength_ok h Hh) as [_ Hsize].
  destruct (options_bytes_len (m_options h)) as (_ & _ & Hol); [done|lia|].
  pose proof (zlen_nonneg payload).
  set (B := WriteHtonU16 (m_urgentPointer h) ++ options_bytes (m_options h) ++ payload).
  assert (is_bytes (head_bytes h)) as Hhb by (unfold head_bytes; auto 20 with bytes).
  assert (is_bytes B) as HB by (unfold B; auto using is_bytes_options with bytes).
  assert (forall ck, zlen ck = 2 -> zlen (head_bytes h ++ ck ++ B) = GetSerializedSize h + zlen payload)
    as Hzl.
  { intros ck Hck. unfold B. autorewrite with zlen. rewrite head_bytes_len, Hck, Hol, Hsize. lia. }
  assert (fixed_bytes h ++ options_bytes (m_options h) ++ payload = head_bytes h ++ [0; 0] ++ B) as Eb
    by (unfold fixed_bytes, head_bytes, B; by rewrite <- !app_assoc).
  unfold Serialize. rewrite Eb. destruct (m_calcChecksum h).
  2: { exists [0; 0]. split; [done|]. cbv zeta. split_and!; [done|by apply Hzl|done]. }
  assert (zlen (head_bytes h ++ [0; 0] ++ B) = GetSerializedSize h + zlen payload) as Hz by (by apply Hzl).
  assert (0 <= GetSerializedSize h) by (rewrite Hsize; unfold padded;
    pose proof (opts_len_nonneg _ hok_opts0); dlia).
  cbv zeta. rewrite Hz. rewrite (u16_small (GetSerializedSize h + zlen payload)) by (unfold is_u16; lia).
  destruct (CalculateHeaderChecksum_spec h (GetSerializedSize h + zlen payload)) as (init & Ei & Hi);
    [done..|unfold is_u16; lia|].
  rewrite Ei. res_step.
  destruct (CalculateIpChecksum (head_bytes h ++ [0; 0] ++ B) (GetSerializedSize h + zlen payload) init)
    as [c|f] eqn:Ec.
  2: { rewrite CalculateIpChecksum_spec in Ec; [discriminate| |rewrite Hz; lia|lia|lia].
    apply is_bytes_app; [done|]. apply is_bytes_app; [|done]. by repeat constructor. }
  rewrite <- Hz in Ec. pose proof (Hzl (WriteU16 c) eq_refl) as Hz'.
  destruct (checksum_verifies (head_bytes h) B init c) as (Hc & Ev); [done|done|
    by rewrite head_bytes_len| |done|done|].
  { rewrite !zlen_app in Hz. change (zlen [0; 0]) with 2 in Hz. lia. }
  exists (WriteU16 c). split; [done|]. fold B. rewrite Hz'. split_and!; [|done|].
  - assert (ztake 16 (head_bytes h ++ [0; 0] ++ B) = head_bytes h) as -> by (unfold ztake; by apply take_app_length').
    assert (zdrop 18 (head_bytes h ++ [0; 0] ++ B) = B) as ->; [|done].
    rewrite app_assoc. unfold zdrop. by apply drop_app_length'.
  - intros _. exists init. rewrite (u16_small (_ + _)) by (unfold is_u16; lia). split; [done|]. by rewrite <- Hz'.
Qed.

Lemma opts_len_length l : Forall stored_ok l -> zlen l <= opts_len l.
Proof.
  induction 1 as [|o l [Ho _] Hl IH]; [done|]. rewrite zlen_cons. simpl.
  pose proof (GetSerializedSize_pos o Ho). lia.
Qed.

Lemma read_options_of l payload :
  Forall stored_ok l -> opts_len l <= 40 ->
  read_options 41 (padded (opts_len l)) (options_bytes l ++ payload) [] 0
  = Some (Ok (read_back l, padded (opts_len l))).
Proof.
  intros Hl Hle. pose proof (opts_len_nonneg l Hl). pose proof (opts_len_length l Hl).
  destruct (options_bytes_len l Hl) as (-> & _ & _); [lia|].
  rewrite <- app_assoc. unfold padded.
  rewrite read_options_written; [|done|dlia|lia|dlia|unfold zlen in *; lia].
  unfold read_back. cbn [app]. rewrite Z.add_0_l. do 4 f_equal.
  destruct (Z.eqb_spec (opts_len l mod 4) 0) as [E|E];
    destruct (Z.eqb_spec ((4 - opts_len l mod 4) mod 4) 0); auto; dlia.
Qed.

Lemma read_back_size h l :
  m_options h = read_back l -> Forall stored_ok l -> opts_len l <= 40 ->
  GetSerializedSize h = 20 + padded (opts_len l).
Proof.
  intros Eh Hl Hle. pose proof (opts_len_nonneg l Hl) as Hn.
  unfold GetSerializedSize, CalculateHeaderLength, options_size. rewrite Eh.
  assert (fold_left (fun len o => u32 (len + TcpOptions.GetSerializedSize o)) (read_back l) 20
    = 20 + opts_len l + (if opts_len l mod 4 =? 0 then 0 else 1)) as ->.
  { unfold read_back. rewrite fold_left_app, (fold_size_spec l) by (auto; lia).
    destruct (_ =? 0); simpl; [lia|]. rewrite u32_small; [lia|unfold is_u32; lia]. }
  set (n := opts_len l) in *.
  set (t := 20 + n + (if n mod 4 =? 0 then 0 else 1)).
  assert (n mod 4 = 0 /\ t = 20 + n \/ 0 < n mod 4 /\ t = 21 + n) as Ht.
  { unfold t. destruct (Z.eqb_spec (n mod 4) 0); [left|right]; dlia. }
  clearbody t. rewrite Z.shiftr_div_pow2 by lia. unfold padded, u8.
  destruct (Z.eqb_spec (t mod 4) 0) as [E|E]; cbn [negb].
  - rewrite (Z.mod_small _ (2 ^ 8)) by dlia. dlia.
  - rewrite (u32_small (t + (4 - t mod 4))) by (unfold is_u32; dlia).
    rewrite (Z.mod_small _ (2 ^ 8)) by dlia. dlia.
Qed.

Lemma header_read_back h h0 payload :
  header_ok h -> pseudo_ok h -> is_bytes payload ->
  zlen payload + GetSerializedSize h < 2 ^ 16 ->
  (m_calcChecksum h0 = true -> m_calcChecksum h = true /\ same_pseudo h0 h) ->
  exists buf, Serialize h payload = Ok buf
  /\ zlen buf = GetSerializedSize h + zlen payload
  /\ zdrop (GetSerializedSize h) buf = payload
  /\ Deserialize 41 h0 buf
     = Some (Ok (GetSerializedSize h,
         (with_fixed h0 h) <| m_options := read_back (m_options h) |>
           <| m_optionsLen := padded (opts_len (m_options h)) |>
           <| m_goodChecksum := if m_calcChecksum h0 then true else m_goodChecksum h0 |>)).
Proof.
  intros Hh Hps Hpay Hlen Hck. pose proof Hh as [].
  destruct (CalculateHeaderLength_ok h Hh) as [_ Hsize].
  pose proof (opts_len_nonneg _ hok_opts0) as Hol0.
  destruct (options_bytes_len (m_options h)) as (Hob & _ & Hol); [done|lia|].
  destruct (Serialize_shape h payload Hh Hps Hpay Hlen) as (ck & Hck2 & Es & Hz & Hv).
  eexists. split; [exact Es|]. split; [exact Hz|]. split.
  { rewrite !app_assoc. unfold zdrop. apply drop_app_length'.
    rewrite Hsize. unfold zlen in *. rewrite !length_app. pose proof (head_bytes_len h).
    unfold zlen in *. change (length (WriteHtonU16 (m_urgentPointer h))) with 2%nat. lia. }
  unfold Deserialize. rewrite read_fixed_bytes by done. cbv zeta.
  change (m_length (with_fixed h0 h)) with (m_length h).
  change (m_calcChecksum (_ <| m_options := _ |> <| m_optionsLen := _ |>)) with (m_calcChecksum h0).
  assert (u32 ((m_length h - 5) * 4) = padded (opts_len (m_options h))) as ->.
  { rewrite hok_length0, hok_optsLen0. unfold padded. rewrite u32_small; [|unfold is_u32]; dlia. }
  destruct (Z.ltb_spec m_maxOptionsLen (padded (opts_len (m_options h)))) as [Hc|_].
  { unfold m_maxOptionsLen, padded in Hc. exfalso. dlia. }
  assert (GetSerializedSize ((with_fixed h0 h) <| m_options := read_back (m_options h) |>
      <| m_optionsLen := padded (opts_len (m_options h)) |>) = GetSerializedSize h) as Eback
    by (rewrite Hsize; apply read_back_size; [reflexivity|done|lia]).
  rewrite read_options_of by (auto; lia). rewrite Eback. destruct (m_calcChecksum h0) eqn:Ec; [|].
  2: { reflexivity. }
  destruct (Hck eq_refl) as [Hc Hsame]. destruct (Hv Hc) as (init & Ei & Ev).
  rewrite (CalculateHeaderChecksum_same _ h) by done. rewrite Ei. res_step.
  rewrite u16_small by (unfold is_u16; rewrite Hz; pose proof (zlen_nonneg payload);
    rewrite Hsize in *; unfold padded in *; dlia).
  rewrite Ev. reflexivity.
Qed.

(** C15. Deserialize inverts Serialize: whatever the fields, options and
    payload of a well-formed header, the receiver reads back its fields and
    options, the size of the header, and, where checksums are on at both ends,
    a good checksum.  The option loop ends within 41 iterations.  The only
    trace of the padding is one TcpOptionEnd. *)
Theorem header_roundtrip h h0 payload :
  header_ok h -> pseudo_ok h -> is_bytes payload ->
  zlen payload + GetSerializedSize h < 2 ^ 16 ->
  (m_calcChecksum h0 = true -> m_calcChecksum h = true /\ same_pseudo h0 h) ->
  exists buf, Serialize h payload = Ok buf
  /\ zlen buf = GetSerializedSize h + zlen payload
  /\ zdrop (GetSerializedSize h) buf = payload
  /\ Deserialize 41 h0 buf
     = Some (Ok (GetSerializedSize h,
         (with_fixed h0 h) <| m_options := read_back (m_options h) |>
           <| m_optionsLen := padded (opts_len (m_options h)) |>
           <| m_goodChecksum := if m_calcChecksum h0 then true else m_goodChecksum h0 |>)).
Proof. exact (header_read_back h h0 payload). Qed.

(** A SYN with the options a socket sends, checksummed, and one payload byte. *)
Definition syn_example : TcpHeader :=
  TcpHeader_new <| m_sourcePort := 49153 |> <| m_destinationPort := 80 |>
    <| m_sequenceNumber := 4294967295 |> <| m_flags := SYN |> <| m_windowSize := 65535 |>
    <| m_source := [10; 0; 0; 1] |> <| m_destination := [10; 0; 0; 2] |>
    <| m_calcChecksum := true |>
    <| m_options := [TcpOptionWinScale 2; TcpOptionSackPermitted; TcpOptionTS 1000 0] |>
    <| m_optionsLen := 15 |> <| m_length := 9 |>.

Lemma syn_example_ok : header_ok syn_example.
Proof.
  split;
    lazymatch goal with
    | |- Forall _ _ => idtac
    | |- _ => vm_compute; repeat split; discriminate
    end.
  repeat (apply Forall_cons; split; [repeat split; vm_compute; congruence|]). apply Forall_nil. exact I.
Qed.

Lemma syn_example_pseudo : pseudo_ok syn_example.
Proof.
  repeat split; try (vm_compute; congruence);
    repeat (apply Forall_cons; split; [split; vm_compute; congruence|]); apply Forall_nil; exact I.
Qed.

Lemma header_roundtrip_witness :
  exists buf, Serialize syn_example [7] = Ok buf
  /\ zlen buf = 37 /\ zdrop 36 buf = [7]
  /\ Deserialize 41 (TcpHeader_new <| m_source := [10; 0; 0; 1] |>
        <| m_destination := [10; 0; 0; 2] |> <| m_calcChecksum := true |>
        <| m_goodChecksum := false |>) buf
     = Some (Ok (36, syn_example
          <| m_options := [TcpOptionWinScale 2; TcpOptionSackPermitted; TcpOptionTS 1000 0; TcpOptionEnd] |>
          <| m_optionsLen := 16 |>)).
Proof.
  destruct (header_roundtrip syn_example (TcpHeader_new <| m_source := [10; 0; 0; 1] |>
        <| m_destination := [10; 0; 0; 2] |> <| m_calcChecksum := true |>
        <| m_goodChecksum := false |>) [7]) as (buf & E1 & E2 & E3 & E4).
  - exact syn_example_ok.
  - exact syn_example_pseudo.
  - apply Forall_cons; split; [split; vm_compute; congruence|]. apply Forall_nil; exact I.
  - vm_compute. reflexivity.
  - intros _. repeat split.
  - exists buf. split; [exact E1|]. split; [rewrite E2; vm_compute; reflexivity|]. split.
    + etransitivity; [|exact E3]. f_equal.
    + etransitivity; [exact E4|]. vm_compute. reflexivity.
Defined.

(** ** AppendOption *)

(** C31. AppendOption stores an option exactly when its kind is known, it is
    not END and it fits in the 40 bytes of options; the header stays well
    formed, so that its length field is the padded length it serializes to. *)
Theorem append_option_correct h o :
  header_ok h -> option_ok o ->
  let r := AppendOption h o in
  header_ok (snd r)
  /\ CalculateHeaderLength (snd r) = m_length (snd r)
  /\ (m_options (snd r) = m_options h ++ [o]
      /\ HasOption (snd r) (GetKind o) = true
      /\ fst r = true
      /\ opts_len (m_options h) + TcpOptions.GetSerializedSize o <= 40
    \/ snd r = h
      /\ (GetKind o = END \/ IsKindKnown (GetKind o) = false
          \/ 40 < opts_len (m_options h) + TcpOptions.GetSerializedSize o)).
Proof.
  intros Hh Ho r. assert (header_ok (snd r)) as Hr by (by apply AppendOption_ok).
  split; [done|]. split; [by apply CalculateHeaderLength_ok|].
  pose proof Hh as []. unfold r, AppendOption, m_maxOptionsLen. rewrite hok_optsLen0.
  destruct (Z.leb_spec (opts_len (m_options h) + TcpOptions.GetSerializedSize o) 40) as [Hle|];
    [|right; split; [done|]; lia].
  destruct (IsKindKnown (GetKind o)) eqn:Hk; [|right; auto]. cbn [negb].
  destruct (Z.eqb_spec (GetKind o) END) as [|Hne]; [right; auto|]. cbn [negb]. left.
  split_and!; [done| |done|done].
  unfold HasOption. rec_simpl. rewrite existsb_app. simpl. by rewrite Z.eqb_refl, orb_true_r.
Qed.

Lemma append_option_correct_witness :
  let r := AppendOption syn_example (TcpOptionMSS 1460) in
  header_ok (snd r)
  /\ CalculateHeaderLength (snd r) = m_length (snd r)
  /\ (m_options (snd r) = m_options syn_example ++ [TcpOptionMSS 1460]
      /\ HasOption (snd r) (GetKind (TcpOptionMSS 1460)) = true
      /\ fst r = true
      /\ opts_len (m_options syn_example) + TcpOptions.GetSerializedSize (TcpOptionMSS 1460) <= 40
    \/ snd r = syn_example
      /\ (GetKind (TcpOptionMSS 1460) = END \/ IsKindKnown (GetKind (TcpOptionMSS 1460)) = false
          \/ 40 < opts_len (m_options syn_example)
                  + TcpOptions.GetSerializedSize (TcpOptionMSS 1460))).
Proof.
  apply (append_option_correct syn_example (TcpOptionMSS 1460) syn_example_ok).
  split; vm_compute; congruence.
Defined.

(** ** Termination of the option loop *)

(** An option of unknown kind whose length byte is zero. *)
Definition zero_length_option (i : bytes) : Prop :=
  exists kind rest, i = kind :: 0 :: rest /\ IsKindKnown kind = false.

Definition is_unknown (o : TcpOption) : bool :=
  match o with TcpOptionUnknown _ _ _ => true | _ => false end.

(** Case analysis of a parser run. *)
Ltac parse_inv H :=
  repeat match type of H with
  | context [match ?x with _ => _ end] => destruct x eqn:?; try discriminate H
  end.

Lemma Deserialize_class o i n op :
  TcpOptions.Deserialize o i = Ok (n, op) -> is_unknown op = is_unknown o.
Proof.
  unfold TcpOptions.Deserialize. unfold_options. unfold ns_abort_if. cbv [mbind res_bind].
  destruct o; intros H; parse_inv H; by simplify_eq.
Qed.

Lemma known_size_pos o : is_unknown o = false -> 1 <= TcpOptions.GetSerializedSize o.
Proof.
  destruct o as [| | | | |l| | |]; cbn; intros; try done. unfold GetNumSackBlocks.
  pose proof (zlen_nonneg l). lia.
Qed.

(** What [Deserialize] accepts has the size it claims, which is positive
    unless the option is of that form. *)
Lemma Deserialize_progress kind rest n op :
  TcpOptions.Deserialize (if IsKindKnown kind then CreateOption kind else CreateOption UNKNOWN)
    (kind :: rest) = Ok (n, op) ->
  n = TcpOptions.GetSerializedSize op ->
  1 <= n \/ zero_length_option (kind :: rest).
Proof.
  intros H ->. pose proof (Deserialize_class _ _ _ _ H) as Hc.
  destruct (IsKindKnown kind) eqn:Hk.
  - left. apply known_size_pos. rewrite Hc. clear H Hc.
    apply bool_decide_eq_true in Hk. rewrite list_elem_of_In in Hk. simpl in Hk.
    repeat destruct Hk as [<-|Hk]; done.
  - change (CreateOption UNKNOWN) with (TcpOptionUnknown 255 0 []) in H.
    unfold TcpOptions.Deserialize in H. unfold_options. cbv [mbind res_bind] in H. cbn [ReadU8] in H.
    destruct rest as [|size rest]; [done|]. cbn [ReadU8] in H.
    destruct (Z.ltb_spec size 2); cbn [orb] in H.
    + apply Ok_inj in H. injection H as E <-. cbn in E. right.
      exists kind, rest. by subst size.
    + left. destruct (40 <? size).
      { apply Ok_inj in H. injection H as E <-. cbn in E. lia. }
      destruct (ReadN _ _) as [[c r]|f]; [|done]. apply Ok_inj in H. injection H as <-. cbn. lia.
Qed.

(** The loop ends within [optionLen] iterations on every input with no such
    option at or after the position it starts from. *)
Lemma read_options_ends fuel optionLen i opts optsLen :
  0 <= optionLen < Z.of_nat fuel ->
  (forall n, ~ zero_length_option (drop n i)) ->
  read_options fuel optionLen i opts optsLen <> None.
Proof.
  revert optionLen i opts optsLen.
  induction fuel as [|fuel IH]; intros optionLen i opts optsLen Hf Hz; [lia|]. cbn [read_options].
  destruct (optionLen =? 0); [done|]. destruct i as [|kind rest]; [done|]. cbn [PeekU8].
  cbv zeta. destruct (TcpOptions.Deserialize _ _) as [[n op]|f] eqn:Ed; [|done].
  destruct (Z.eqb_spec n (TcpOptions.GetSerializedSize op)) as [En|]; [|done]. cbn [negb].
  destruct (Deserialize_progress _ _ _ _ Ed En) as [Hn|Hbad]; [|by destruct (Hz 0%nat)].
  destruct (Z.leb_spec n optionLen); [|done].
  destruct (Next _ _) as [i'|f] eqn:EN; [|done].
  destruct (GetKind op =? END); [by destruct (_ <=? _)|].
  apply IH; [lia|]. intros k. unfold Next, ns_assert in EN. destruct (n <=? _); [|done].
  apply Ok_inj in EN. subst i'. unfold zdrop. rewrite drop_drop. apply Hz.
Qed.

(** C32. Deserialize ends, within 41 iterations of its option loop, on every
    buffer in which no position after the fixed header holds an option of
    unknown kind with a zero length byte. *)
Theorem header_deserialize_ends h start :
  (forall n, (20 <= n)%nat -> ~ zero_length_option (drop n start)) ->
  exists r, Deserialize 41 h start = Some r.
Proof.
  intros Hz. unfold Deserialize. destruct (read_fixed h start) as [[h' i]|f] eqn:Er; [|eauto].
  cbv zeta. destruct (Z.ltb_spec m_maxOptionsLen (u32 ((m_length h' - 5) * 4))) as [|Hle]; [eauto|].
  unfold m_maxOptionsLen in Hle. pose proof (u32_range ((m_length h' - 5) * 4)) as Hr. unfold is_u32 in Hr.
  assert (i = drop 20 start) as ->.
  { unfold read_fixed, Next, ns_assert in Er. cbv [mbind res_bind] in Er.
    do 12 (destruct start as [|? start]; [discriminate Er|]). cbn in Er.
    destruct start as [|? [|? [|? [|? start]]]]; try discriminate Er. cbn in Er.
    destruct (Z.leb_spec 2 (zlen start)) as [Hs|]; [|discriminate Er].
    destruct start as [|c0 [|c1 start]]; [done|done|].
    change (zdrop 2 (c0 :: c1 :: start)) with start in Er.
    destruct start as [|? [|? start]]; [discriminate Er|discriminate Er|]. cbn in Er.
    apply Ok_inj in Er. injection Er as _ <-. done. }
  destruct (read_options _ _ _ _ _) as [[[opts l]|f]|] eqn:Eo; [eauto|eauto|].
  exfalso. refine (read_options_ends _ _ _ _ _ _ _ Eo); [lia|].
  intros n. rewrite drop_drop. apply Hz. lia.
Qed.

Lemma header_deserialize_ends_witness :
  exists r, Deserialize 41 TcpHeader_new (repeat 1 24) = Some r.
Proof.
  apply header_deserialize_ends. intros n _ (kind & rest & E & Hk).
  apply (f_equal (lookup 1%nat)) in E. rewrite lookup_drop in E. cbn [lookup] in E.
  assert (repeat 1 24 !! (n + 1)%nat = Some 0) as E' by exact E.
  do 24 (destruct n as [|n]; [discriminate E'|]). discriminate E'.
Defined.

(** C36. On an option of unknown kind with a zero length byte, at the start
    of the options of any header that announces options, the option loop never
    ends: the option is accepted with size zero and read again. *)
Theorem header_zero_length_option_diverges fuel optionLen kind rest opts optsLen :
  0 < optionLen -> IsKindKnown kind = false ->
  read_options fuel optionLen (kind :: 0 :: rest) opts optsLen = None.
Proof.
  intros Hl Hk. assert ((GetKind (TcpOptionUnknown kind 0 []) =? END) = false) as He.
  { apply Z.eqb_neq. cbn. intros ->. discriminate Hk. }
  revert opts optsLen. induction fuel as [|fuel IH]; intros opts optsLen.
  { cbn. by destruct (Z.eqb_spec optionLen 0); [lia|]. }
  cbn [read_options]. destruct (Z.eqb_spec optionLen 0); [lia|]. cbn [PeekU8]. rewrite Hk.
  cbv zeta. change (CreateOption UNKNOWN) with (TcpOptionUnknown 255 0 []).
  rewrite (eq_refl : TcpOptions.Deserialize (TcpOptionUnknown 255 0 []) (kind :: 0 :: rest)
    = Ok (0, TcpOptionUnknown kind 0 [])).
  cbn [TcpOptions.GetSerializedSize]. change (negb (0 =? 0)) with false. cbn iota.
  destruct (Z.leb_spec 0 optionLen); [|lia].
  rewrite (Next_app [] (kind :: 0 :: rest) 0 eq_refl : Next (kind :: 0 :: rest) 0 = _).
  rewrite He, Z.sub_0_r. apply IH.
Qed.

Lemma header_zero_length_option_diverges_witness :
  0 < 4 /\ read_options 1000 4 [7; 0; 0; 0] [] 0 = None.
Proof.
  split; [lia|]. apply header_zero_length_option_diverges; [lia|reflexivity].
Defined.
