(* ===== verification/TxBuffer.v ===== *)
(** The send buffer and its SACK scoreboard:
    src/internet/model/tcp-tx-buffer.{h,cc} and tcp-tx-item.{h,cc}.

    An item is the object a [TcpTxItem*] points to; its [m_id] is the identity
    of its list node, which is what a list iterator denotes.  [m_highestSack]
    is such an iterator, [None] for [m_sentList.end()], with its sequence
    number.  A pointer returned by the buffer is an identity too: the object
    is the one of that identity in the lists.  The callbacks that the socket
    passes to DiscardUpTo and Update are functions that thread a state. *)
From Stdlib Require Import ZArith Lia Bool List.
From stdpp Require Import base list.
From S2P Require Import Prelude SeqNum RxBuffer.

(** Time::Max(), in nanoseconds. *)
Definition TimeMax : Z := 2 ^ 63 - 1.

Record RateInformation := mkRateInfo {
  m_delivered : Z;
  m_deliveredTime : Z;
  m_firstSent : Z;
  m_isAppLimited : bool;
}.

#[export] Instance eta_RateInformation : Settable RateInformation := fun r =>
  mkRateInfo (m_delivered r) (m_deliveredTime r) (m_firstSent r) (m_isAppLimited r).

Definition RateInformation_new : RateInformation := mkRateInfo 0 TimeMax TimeMax false.

Record TcpTxItem := mkItem {
  m_id : Z;
  m_startSeq : Z;
  m_packet : bytes;
  m_lost : bool;
  m_retrans : bool;
  m_sacked : bool;
  m_lastSent : Z;
  m_rateInfo : RateInformation;
}.

#[export] Instance eta_TcpTxItem : Settable TcpTxItem := fun r =>
  mkItem (m_id r) (m_startSeq r) (m_packet r) (m_lost r) (m_retrans r) (m_sacked r)
    (m_lastSent r) (m_rateInfo r).

Definition TcpTxItem_new (id : Z) : TcpTxItem :=
  mkItem id 0 [] false false false TimeMax RateInformation_new.

Definition GetSeqSize (t : TcpTxItem) : Z :=
  if 0 <? GetSize (m_packet t) then GetSize (m_packet t) else 1.

Record TcpTxBuffer := mkTx {
  m_appList : list TcpTxItem;
  m_sentList : list TcpTxItem;
  m_maxBuffer : Z;
  m_size : Z;
  m_sentSize : Z;
  m_firstByteSeq : Z;
  m_highestSack : option Z * Z;
  m_lostOut : Z;
  m_sackedOut : Z;
  m_retransOut : Z;           (* the class's m_retrans *)
  m_dupAckThresh : Z;
  m_segmentSize : Z;
  m_renoSack : bool;
  m_sackEnabled : bool;
  m_nextId : Z;               (* the identity of the next node allocated *)
}.

#[export] Instance eta_TcpTxBuffer : Settable TcpTxBuffer := fun r =>
  mkTx (m_appList r) (m_sentList r) (m_maxBuffer r) (m_size r) (m_sentSize r)
    (m_firstByteSeq r) (m_highestSack r) (m_lostOut r) (m_sackedOut r) (m_retransOut r)
    (m_dupAckThresh r) (m_segmentSize r) (m_renoSack r) (m_sackEnabled r) (m_nextId r).

Definition TcpTxBuffer_new (n : Z) : TcpTxBuffer :=
  mkTx [] [] 32768 0 0 n (None, 0) 0 0 0 0 0 false true 0.

(** *** Accessors *)

Definition HeadSequence (b : TcpTxBuffer) : Z := m_firstByteSeq b.
Definition TailSequence (b : TcpTxBuffer) : Z := seq_add (m_firstByteSeq b) (m_size b).
Definition Size (b : TcpTxBuffer) : Z := m_size b.
Definition MaxBufferSize (b : TcpTxBuffer) : Z := m_maxBuffer b.
Definition SetMaxBufferSize (b : TcpTxBuffer) (n : Z) : TcpTxBuffer := b <| m_maxBuffer := n |>.
Definition IsSackEnabled (b : TcpTxBuffer) : bool := m_sackEnabled b.
Definition SetSackEnabled (b : TcpTxBuffer) (e : bool) : TcpTxBuffer := b <| m_sackEnabled := e |>.
Definition Available (b : TcpTxBuffer) : Z := u32 (m_maxBuffer b - m_size b).
Definition SetDupAckThresh (b : TcpTxBuffer) (n : Z) : TcpTxBuffer := b <| m_dupAckThresh := n |>.
Definition SetSegmentSize (b : TcpTxBuffer) (n : Z) : TcpTxBuffer := b <| m_segmentSize := n |>.
Definition GetRetransmitsCount (b : TcpTxBuffer) : Z := m_retransOut b.
Definition GetLost (b : TcpTxBuffer) : Z := m_lostOut b.
Definition GetSacked (b : TcpTxBuffer) : Z := m_sackedOut b.

(** The node a write through a [TcpTxItem*] reaches. *)
Definition update_item (id : Z) (f : TcpTxItem -> TcpTxItem) (l : list TcpTxItem) : list TcpTxItem :=
  map (fun t => if m_id t =? id then f t else t) l.

Definition find_item (id : Z) (l : list TcpTxItem) : option TcpTxItem :=
  List.find (fun t => m_id t =? id) l.

Definition remove_item (id : Z) (l : list TcpTxItem) : list TcpTxItem :=
  List.filter (fun t => negb (m_id t =? id)) l.

Definition SetHeadSequence (b : TcpTxBuffer) (seq : Z) : res TcpTxBuffer :=
  let b := b <| m_firstByteSeq := seq |> in
  let b := match m_sentList b with
           | h :: t => b <| m_sentList := (h <| m_startSeq := seq |>) :: t |>
           | [] => b
           end in
  ns_assert (bool_decide (length (m_sentList b) = 0%nat)) ;;
  Ok (b <| m_highestSack := (None, 0) |>).

Definition Add (b : TcpTxBuffer) (p : bytes) : bool * TcpTxBuffer :=
  if GetSize p <=? Available b then
    (true,
     if 0 <? GetSize p then
       b <| m_appList ::= fun l => l ++ [(TcpTxItem_new (m_nextId b)) <| m_packet := p |>] |>
         <| m_nextId ::= Z.succ |>
         <| m_size := u32 (m_size b + GetSize p) |>
     else b)
  else (false, b).

Definition SizeFromSequence (b : TcpTxBuffer) (seq : Z) : Z :=
  let lastSeq := TailSequence b in
  if seq_ge lastSeq seq then u32 (seq_diff lastSeq seq) else 0.

(** *** Splitting and merging *)

(** [SplitItems t1 t2 size]: [t1] is the new item. *)
Definition SplitItems (id : Z) (t2 : TcpTxItem) (size : Z) : TcpTxItem * TcpTxItem :=
  ((TcpTxItem_new id) <| m_packet := CreateFragment (m_packet t2) 0 size |>
     <| m_startSeq := m_startSeq t2 |> <| m_sacked := m_sacked t2 |>
     <| m_lastSent := m_lastSent t2 |> <| m_retrans := m_retrans t2 |> <| m_lost := m_lost t2 |>,
   t2 <| m_packet := zdrop size (m_packet t2) |> <| m_startSeq := seq_add (m_startSeq t2) size |>).

(** The merged item and the buffer's retransmitted count. *)
Definition MergeItems (t1 t2 : TcpTxItem) (retransOut : Z) : res (TcpTxItem * Z) :=
  ns_assert (eqb (m_sacked t1) (m_sacked t2)) ;;
  ns_assert (eqb (m_lost t1) (m_lost t2)) ;;
  let '(t1, retransOut) :=
    if negb (eqb (m_retrans t1) (m_retrans t2)) then
      if m_retrans t1
      then (t1 <| m_retrans := false |>, u32 (retransOut - GetSize (m_packet t1)))
      else (t1, u32 (retransOut - GetSize (m_packet t2)))
    else (t1, retransOut) in
  let t1 := if m_lastSent t1 <? m_lastSent t2 then t1 <| m_lastSent := m_lastSent t2 |> else t1 in
  Ok (t1 <| m_packet := m_packet t1 ++ m_packet t2 |>, retransOut).

(** The state that GetPacketFromList changes: the list it is given, the
    retransmitted count and the allocator. *)
Record ListState := mkLS { ls_list : list TcpTxItem; ls_retrans : Z; ls_next : Z }.

(** One walk of the list: [before] are the items already passed, nearest
    first.  The result is the item found, or the list to start again with. *)
Inductive walk_result :=
| Found (id : Z) (st : ListState)
| Again (st : ListState).

Fixpoint walk_list (sent : bool) (firstByteSeq : Z) (before l : list TcpTxItem) (pos : Z)
    (numBytes seq retransOut next : Z) : res walk_result :=
  match l with
  | [] => Err Aborted
  | cur :: rest =>
      let size := GetSize (m_packet cur) in
      ns_assert (negb sent || seq_ge (m_startSeq cur) firstByteSeq) ;;
      if seq_lt seq (seq_add pos size) then
        if seq =? pos then
          if seq_le (seq_add seq numBytes) (seq_add pos size) then
            if numBytes =? size then
              Ok (Found (m_id cur) (mkLS (rev before ++ l) retransOut next))
            else if numBytes <? size then
              let '(first, cur) := SplitItems next cur numBytes in
              Ok (Found next (mkLS (rev before ++ first :: cur :: rest) retransOut (next + 1)))
            else Err NoFuel   (* the loop starts over with nothing changed *)
          else
            match rest with
            | [] => Ok (Found (m_id cur) (mkLS (rev before ++ l) retransOut next))
            | nxt :: rest =>
                '(cur, retransOut) ← MergeItems cur nxt retransOut ;
                Ok (Again (mkLS (rev before ++ cur :: rest) retransOut next))
            end
        else if seq_gt seq pos then
          let '(first, cur) := SplitItems next cur (seq_diff seq pos) in
          Ok (Again (mkLS (rev before ++ first :: cur :: rest) retransOut (next + 1)))
        else Err Aborted
      else walk_list sent firstByteSeq (cur :: before) rest (seq_add pos size) numBytes seq
             retransOut next
  end.

(** Each recursion of GetPacketFromList but the first split merges two items. *)
Fixpoint GetPacketFromList_f (fuel : nat) (sent : bool) (firstByteSeq : Z) (st : ListState)
    (listStartFrom numBytes seq : Z) : res (Z * ListState) :=
  match fuel with
  | O => Err NoFuel
  | S fuel =>
      r ← walk_list sent firstByteSeq [] (ls_list st) listStartFrom numBytes seq
            (ls_retrans st) (ls_next st) ;
      match r with
      | Found id st => Ok (id, st)
      | Again st => GetPacketFromList_f fuel sent firstByteSeq st listStartFrom numBytes seq
      end
  end.

Definition GetPacketFromList (sent : bool) (firstByteSeq : Z) (st : ListState)
    (listStartFrom numBytes seq : Z) : res (Z * ListState) :=
  GetPacketFromList_f (2 + length (ls_list st)) sent firstByteSeq st listStartFrom numBytes seq.

(** *** Segments *)

Definition GetNewSegment (b : TcpTxBuffer) (numBytes : Z) : res (Z * TcpTxBuffer) :=
  let startOfAppList := seq_add (m_firstByteSeq b) (m_sentSize b) in
  '(id, st) ← GetPacketFromList false (m_firstByteSeq b)
                (mkLS (m_appList b) (m_retransOut b) (m_nextId b))
                startOfAppList numBytes startOfAppList ;
  match find_item id (ls_list st) with
  | None => Err AssertFailed
  | Some item =>
      let item := item <| m_startSeq := startOfAppList |> in
      Ok (id, b <| m_appList := remove_item id (ls_list st) |>
                <| m_sentList ::= fun l => l ++ [item] |>
                <| m_sentSize := u32 (m_sentSize b + GetSize (m_packet item)) |>
                <| m_retransOut := ls_retrans st |> <| m_nextId := ls_next st |>)
  end.

(** The bytes that one retransmission at [seq] covers. *)
Fixpoint retransmit_size (l : list TcpTxItem) (seq s : Z) : Z :=
  match l with
  | [] => s
  | it :: l' =>
      if m_startSeq it =? seq then
        match l' with
        | next :: _ =>
            if negb (m_sacked next) && eqb (m_lost it) (m_lost next)
            then Z.min s (u32 (GetSize (m_packet it) + GetSize (m_packet next)))
            else Z.min s (GetSize (m_packet it))
        | [] => Z.min s (GetSize (m_packet it))
        end
      else retransmit_size l' seq s
  end.

Definition GetTransmittedSegment (b : TcpTxBuffer) (numBytes seq : Z) : res (Z * TcpTxBuffer) :=
  ns_assert (seq_ge seq (m_firstByteSeq b)) ;;
  ns_assert (numBytes <=? m_sentSize b) ;;
  ns_assert (negb (bool_decide (length (m_sentList b) = 0%nat))) ;;
  let s := retransmit_size (m_sentList b) seq numBytes in
  '(id, st) ← GetPacketFromList true (m_firstByteSeq b)
                (mkLS (m_sentList b) (m_retransOut b) (m_nextId b)) (m_firstByteSeq b) s seq ;
  match find_item id (ls_list st) with
  | None => Err NullDeref
  | Some item =>
      let '(retransOut, item) :=
        if negb (m_retrans item)
        then (u32 (ls_retrans st + GetSize (m_packet item)), item <| m_retrans := true |>)
        else (ls_retrans st, item) in
      Ok (id, b <| m_sentList := update_item id (fun _ => item) (ls_list st) |>
                <| m_retransOut := retransOut |> <| m_nextId := ls_next st |>)
  end.

(** The common end of CopyFromSequence: the time stamp of the item sent. *)
Definition finish_copy (now : Z) (id : Z) (b : TcpTxBuffer) : res (option TcpTxItem * TcpTxBuffer) :=
  let b := b <| m_sentList ::= update_item id (fun t => t <| m_lastSent := now |>) |> in
  match find_item id (m_sentList b) with
  | None => Err NullDeref
  | Some item =>
      ns_assert (seq_ge (m_startSeq item) (m_firstByteSeq b)) ;;
      Ok (Some item, b)
  end.

(** The returned item, [None] for the null pointer. *)
Fixpoint CopyFromSequence_f (fuel : nat) (now : Z) (b : TcpTxBuffer) (numBytes seq : Z)
  : res (option TcpTxItem * TcpTxBuffer) :=
  match fuel with
  | O => Err NoFuel
  | S fuel =>
      ns_abort_if (seq_gt (m_firstByteSeq b) seq) ;;
      let s := Z.min numBytes (SizeFromSequence b seq) in
      if s =? 0 then Ok (None, b)
      else
        let sentEnd := seq_add (m_firstByteSeq b) (m_sentSize b) in
        if seq_ge sentEnd (seq_add seq s) then
          '(id, b) ← GetTransmittedSegment b s seq ;
          match find_item id (m_sentList b) with
          | None => Err NullDeref
          | Some item => ns_assert (negb (m_sacked item)) ;; finish_copy now id b
          end
        else if seq_le sentEnd seq then
          ns_abort_if (negb (sentEnd =? seq)) ;;
          '(id, b) ← GetNewSegment b s ;
          match find_item id (m_sentList b) with
          | None => Err NullDeref
          | Some item => ns_assert (negb (m_retrans item)) ;; finish_copy now id b
          end
        else if (seq <? u32 (m_firstByteSeq b + m_sentSize b))
             && (u32 (m_firstByteSeq b + m_sentSize b) <? u32 (seq + s)) then
          let amount := u32 (u32 (m_firstByteSeq b + m_sentSize b) - seq) in
          CopyFromSequence_f fuel now b amount seq
        else Err NullDeref   (* outItem is still the null pointer *)
  end.

Definition CopyFromSequence (now : Z) (b : TcpTxBuffer) (numBytes seq : Z)
  : res (option TcpTxItem * TcpTxBuffer) :=
  CopyFromSequence_f 2 now b numBytes seq.

(** *** Scoreboard *)

Definition RemoveFromCounts (b : TcpTxBuffer) (item : TcpTxItem) (size : Z) : res TcpTxBuffer :=
  b ← (if m_sacked item then
         ns_assert (size <=? m_sackedOut b) ;; Ok (b <| m_sackedOut := u32 (m_sackedOut b - size) |>)
       else Ok b) ;
  b ← (if m_retrans item then
         ns_assert (size <=? m_retransOut b) ;; Ok (b <| m_retransOut := u32 (m_retransOut b - size) |>)
       else Ok b) ;
  if m_lost item then
    ns_assert (size <=? m_lostOut b) ;; Ok (b <| m_lostOut := u32 (m_lostOut b - size) |>)
  else Ok b.

Definition IsRetransmittedDataAcked (b : TcpTxBuffer) (ack : Z) : bool :=
  existsb (fun item => (seq_add (m_startSeq item) (GetSize (m_packet item)) =? ack)
                       && negb (m_sacked item) && m_retrans item) (m_sentList b).

Definition MarkHeadAsLost (b : TcpTxBuffer) : TcpTxBuffer :=
  match m_sentList b with
  | [] => b
  | h :: t =>
      let size := GetSize (m_packet h) in
      let '(h, sackedOut) :=
        if m_sacked h then (h <| m_sacked := false |>, u32 (m_sackedOut b - size))
        else (h, m_sackedOut b) in
      let '(h, retransOut) :=
        if m_retrans h then (h <| m_retrans := false |>, u32 (m_retransOut b - size))
        else (h, m_retransOut b) in
      let '(h, lostOut) :=
        if negb (m_lost h) then (h <| m_lost := true |>, u32 (m_lostOut b + size))
        else (h, m_lostOut b) in
      b <| m_sentList := h :: t |> <| m_sackedOut := sackedOut |>
        <| m_retransOut := retransOut |> <| m_lostOut := lostOut |>
  end.

(** SACK the first segment that is not; with the node that was marked. *)
Fixpoint reno_mark (l : list TcpTxItem) : list TcpTxItem * option TcpTxItem :=
  match l with
  | [] => ([], None)
  | it :: l =>
      if m_sacked it then let '(l, r) := reno_mark l in (it :: l, r)
      else (it <| m_sacked := true |> :: l, Some it)
  end.

Definition AddRenoSack (b : TcpTxBuffer) : res TcpTxBuffer :=
  ns_assert (if m_sackEnabled b then 1 <? zlen (m_sentList b) else 0 <? zlen (m_sentList b)) ;;
  let b := b <| m_renoSack := true |> in
  match m_sentList b with
  | [] => Err NullDeref
  | h :: t =>
      let '(t, r) := reno_mark t in
      match r with
      | Some it =>
          Ok (b <| m_sentList := h :: t |>
                <| m_sackedOut := u32 (m_sackedOut b + GetSize (m_packet it)) |>
                <| m_highestSack := (Some (m_id it), m_startSeq it) |>)
      | None => Ok b
      end
  end.

Definition ResetRenoSack (b : TcpTxBuffer) : TcpTxBuffer :=
  b <| m_sackedOut := 0 |>
    <| m_sentList ::= map (fun it => it <| m_sacked := false |>) |>
    <| m_highestSack := (None, 0) |>.

(** Nodes that move to the application list are new nodes of that list. *)
Fixpoint renumber (next : Z) (l : list TcpTxItem) : list TcpTxItem :=
  match l with
  | [] => []
  | it :: l => it <| m_id := next |> :: renumber (next + 1) l
  end.

Definition ResetSentList (b : TcpTxBuffer) : TcpTxBuffer :=
  let moved := map (fun it => it <| m_retrans := false |> <| m_sacked := false |>
                                 <| m_lost := false |>) (m_sentList b) in
  b <| m_appList := renumber (m_nextId b) moved ++ m_appList b |>
    <| m_nextId := m_nextId b + zlen moved |>
    <| m_sentList := [] |> <| m_sentSize := 0 |> <| m_lostOut := 0 |> <| m_retransOut := 0 |>
    <| m_sackedOut := 0 |> <| m_highestSack := (None, 0) |>.

Definition ResetLastSegmentSent (b : TcpTxBuffer) : TcpTxBuffer :=
  match last (m_sentList b) with
  | None => b
  | Some item =>
      let size := GetSize (m_packet item) in
      b <| m_sentList ::= @removelast _ |>
        <| m_sentSize := u32 (m_sentSize b - size) |>
        <| m_retransOut := if m_retrans item then u32 (m_retransOut b - size) else m_retransOut b |>
        <| m_appList := item <| m_id := m_nextId b |> :: m_appList b |>
        <| m_nextId ::= Z.succ |>
  end.

Definition SetSentListLost (b : TcpTxBuffer) (resetSack : bool) : res TcpTxBuffer :=
  let b := b <| m_retransOut := 0 |> in
  let b :=
    if resetSack then
      b <| m_sackedOut := 0 |> <| m_lostOut := m_sentSize b |> <| m_highestSack := (None, 0) |>
        <| m_sentList ::= map (fun it => it <| m_sacked := false |> <| m_lost := true |>
                                            <| m_retrans := false |>) |>
    else
      let lostOut := fold_left (fun n it =>
          if m_lost it || negb (m_sacked it) then u32 (n + GetSize (m_packet it)) else n)
        (m_sentList b) 0 in
      b <| m_lostOut := lostOut |>
        <| m_sentList ::= map (fun it =>
             it <| m_lost := m_lost it || negb (m_sacked it) |> <| m_retrans := false |>) |> in
  ns_assert (u32 (m_sackedOut b + m_lostOut b) <=? m_sentSize b) ;;
  Ok b.

Definition IsHeadRetransmitted (b : TcpTxBuffer) : res bool :=
  if m_sentSize b =? 0 then Ok false
  else match m_sentList b with h :: _ => Ok (m_retrans h) | [] => Err NullDeref end.

Definition DeleteRetransmittedFlagFromHead (b : TcpTxBuffer) : res TcpTxBuffer :=
  if m_sentSize b =? 0 then Ok b
  else
    match m_sentList b with
    | [] => Err NullDeref
    | h :: t =>
        Ok (if m_retrans h then
              b <| m_sentList := h <| m_retrans := false |> :: t |>
                <| m_retransOut := u32 (m_retransOut b - GetSize (m_packet h)) |>
            else b)
    end.

Definition BytesInFlight (b : TcpTxBuffer) : res Z :=
  ns_assert (u32 (m_sackedOut b + m_lostOut b) <=? m_sentSize b) ;;
  let leftOut := u32 (m_sackedOut b + m_lostOut b) in
  Ok (u32 (u32 (m_sentSize b - leftOut) + m_retransOut b)).

(** The first segment that is lost and not retransmitted, and the first that
    is neither lost nor SACKed nor retransmitted (rule 3). *)
Fixpoint next_seg_scan (l : list TcpTxItem) (pos : Z) (isRecovery : bool) (rule3 : Z) (valid : bool)
  : option Z * Z * bool :=
  match l with
  | [] => (None, rule3, valid)
  | item :: l =>
      let next := seq_add pos (GetSize (m_packet item)) in
      if negb (m_retrans item) && negb (m_sacked item) then
        if m_lost item then (Some pos, rule3, valid)
        else if (rule3 =? 0) && isRecovery then next_seg_scan l next isRecovery pos true
        else next_seg_scan l next isRecovery rule3 valid
      else next_seg_scan l next isRecovery rule3 valid
  end.

(** The sequence range to send next; [rWnd] is what the window callback returns. *)
Definition NextSeg (b : TcpTxBuffer) (rWnd : Z) (isRecovery : bool) : option (Z * Z) :=
  let '(lost, rule3, valid) := next_seg_scan (m_sentList b) (m_firstByteSeq b) isRecovery 0 false in
  match lost with
  | Some seq => Some (seq, seq_add seq (m_segmentSize b))
  | None =>
      let sentEnd := seq_add (m_firstByteSeq b) (m_sentSize b) in
      if 0 <? SizeFromSequence b sentEnd then
        if m_sentSize b <=? rWnd
        then Some (sentEnd, seq_add sentEnd (Z.min (m_segmentSize b) (u32 (rWnd - m_sentSize b))))
        else None
      else if valid then Some (rule3, seq_add rule3 (m_segmentSize b))
      else None
  end.

Fixpoint is_lost_scan (l : list TcpTxItem) (pos seq : Z) : bool :=
  match l with
  | [] => false
  | it :: l =>
      let next := seq_add pos (GetSize (m_packet it)) in
      if seq_ge pos seq then
        if m_lost it then true else if m_sacked it then false else is_lost_scan l next seq
      else is_lost_scan l next seq
  end.

Definition IsLost (b : TcpTxBuffer) (seq : Z) : bool :=
  if seq_ge seq (snd (m_highestSack b)) then false
  else is_lost_scan (m_sentList b) (m_firstByteSeq b) seq.

(** *** Lost segments *)

(** The sent list around the node of an iterator. *)
Fixpoint split_at (id : Z) (l : list TcpTxItem) : option (list TcpTxItem * list TcpTxItem) :=
  match l with
  | [] => None
  | it :: t =>
      if m_id it =? id then Some ([], l)
      else match split_at id t with Some (pre, post) => Some (it :: pre, post) | None => None end
  end.

(** The backward walk, over the items from the iterator down to the second
    one; the result is in list order. *)
Fixpoint mark_lost_back (thresh : Z) (l acc : list TcpTxItem) (sacked lostOut : Z)
  : list TcpTxItem * Z * Z :=
  match l with
  | [] => (acc, sacked, lostOut)
  | item :: l =>
      let sacked := if m_sacked item then u32 (sacked + 1) else sacked in
      if (thresh <=? sacked) && negb (m_sacked item) && negb (m_lost item) then
        mark_lost_back thresh l (item <| m_lost := true |> :: acc) sacked
          (u32 (lostOut + GetSize (m_packet item)))
      else mark_lost_back thresh l (item :: acc) sacked lostOut
  end.

Definition UpdateLostCount (b : TcpTxBuffer) : res TcpTxBuffer :=
  match m_sentList b with
  | [] => if m_dupAckThresh b <=? 0 then Err NullDeref else Ok b
  | h :: t =>
      '(t, sacked, lostOut) ←
        match fst (m_highestSack b) with
        | None => Err NullDeref
        | Some id =>
            if m_id h =? id then Ok (t, 0, m_lostOut b)
            else
              match split_at id t with
              | Some (pre, it :: post) =>
                  Ok (mark_lost_back (m_dupAckThresh b) (it :: rev pre) post 0 (m_lostOut b))
              | _ => Err NullDeref
              end
        end ;
      let '(h, lostOut) :=
        if (m_dupAckThresh b <=? sacked) && negb (m_lost h)
        then (h <| m_lost := true |>, u32 (lostOut + GetSize (m_packet h)))
        else (h, lostOut) in
      Ok (b <| m_sentList := h :: t |> <| m_lostOut := lostOut |>)
  end.

(** The RFC 6675 reference counts of the class. *)
Fixpoint lost_rfc_scan (b : TcpTxBuffer) (l : list TcpTxItem) (pos count bts : Z) : bool :=
  match l with
  | [] => false
  | item :: l =>
      let size := GetSize (m_packet item) in
      let '(count, bts) := if m_sacked item then (u32 (count + 1), u32 (bts + size)) else (count, bts) in
      if m_sacked item && ((m_dupAckThresh b <=? count)
           || (u32 (u32 (m_dupAckThresh b - 1) * m_segmentSize b) <? bts)) then true
      else if seq_ge pos (snd (m_highestSack b)) then m_lost item && negb (m_retrans item)
      else lost_rfc_scan b l (seq_add pos size) count bts
  end.

Definition IsLostRFC (b : TcpTxBuffer) (seq : Z) (segment : list TcpTxItem) : bool :=
  match segment with
  | it :: _ => if m_sacked it then false else lost_rfc_scan b segment seq 0 0
  | [] => false
  end.

(** The sum of the packets of the items that satisfy [f]. *)
Definition sumf (f : TcpTxItem -> bool) (l : list TcpTxItem) : Z :=
  foldr (fun t n => (if f t then zlen (m_packet t) else 0) + n) 0 l.

Fixpoint rfc_scan (b : TcpTxBuffer) (l : list TcpTxItem) (pos : Z) (acc : Z * Z * Z * Z * Z)
  : Z * Z * Z * Z * Z :=
  match l with
  | [] => acc
  | item :: t =>
      let sz := GetSize (m_packet item) in
      let '(size, lostOut, retrans, sackedOut, totalSize) := acc in
      let totalSize := u32 (totalSize + sz) in
      let '(size, lostOut, sackedOut) :=
        if negb (m_sacked item) then
          let isLost := IsLostRFC b pos l in
          (if negb isLost then u32 (size + sz) else if m_retrans item then u32 (size + sz) else size,
           if isLost then u32 (lostOut + sz) else lostOut, sackedOut)
        else (size, lostOut, u32 (sackedOut + sz)) in
      let retrans := if m_retrans item then u32 (retrans + sz) else retrans in
      rfc_scan b t (seq_add pos sz) (size, lostOut, retrans, sackedOut, totalSize)
  end.

Definition BytesInFlightRFC (b : TcpTxBuffer) : res Z :=
  let '(size, lostOut, retrans, sackedOut, totalSize) :=
    rfc_scan b (m_sentList b) (m_firstByteSeq b) (0, 0, 0, 0, 0) in
  ns_assert (lostOut =? m_lostOut b) ;;
  ns_assert (retrans =? m_retransOut b) ;;
  ns_assert (sackedOut =? m_sackedOut b) ;;
  ns_assert (totalSize =? m_sentSize b) ;;
  Ok size.

(** *** Acknowledgement and SACK processing

    [cb] is the callback of the socket, over its state [R]; it may change the
    item it is given. *)

Section Callback.
Context {R : Type} (cb : R -> TcpTxItem -> R * TcpTxItem).

(** [while (m_size > 0 && offset > 0)]: each iteration removes an item or is
    the last one. *)
Fixpoint discard_loop (fuel : nat) (now : Z) (b : TcpTxBuffer) (offset : Z) (r : R)
  : res (TcpTxBuffer * R) :=
  if negb ((0 <? m_size b) && (0 <? offset)) then Ok (b, r)
  else
    match fuel with
    | O => Err NoFuel
    | S fuel =>
        b ← match m_sentList b with
            | [] =>
                '(p, b) ← CopyFromSequence now b offset (m_firstByteSeq b) ;
                match p with
                | None => Err NullDeref
                | Some _ => ns_assert (negb (bool_decide (length (m_sentList b) = 0%nat))) ;; Ok b
                end
            | _ => Ok b
            end ;
        match m_sentList b with
        | [] => Err NullDeref
        | item :: rest =>
            let pktSize := GetSize (m_packet item) in
            ns_assert (m_startSeq item =? m_firstByteSeq b) ;;
            if pktSize <=? offset then
              let b := b <| m_size := u32 (m_size b - pktSize) |>
                         <| m_sentSize := u32 (m_sentSize b - pktSize) |>
                         <| m_firstByteSeq := seq_add (m_firstByteSeq b) pktSize |> in
              b ← RemoveFromCounts b item pktSize ;
              let b := b <| m_sentList := rest |> in
              let '(r, _) := cb r item in
              discard_loop fuel now b (u32 (offset - pktSize)) r
            else
              let pktSize := u32 (pktSize - offset) in
              let item := item <| m_packet := CreateFragment (m_packet item) offset pktSize |>
                               <| m_startSeq := seq_add (m_startSeq item) offset |> in
              let b := b <| m_sentList := item :: rest |>
                         <| m_size := u32 (m_size b - offset) |>
                         <| m_sentSize := u32 (m_sentSize b - offset) |>
                         <| m_firstByteSeq := seq_add (m_firstByteSeq b) offset |> in
              b ← RemoveFromCounts b item offset ;
              Ok (b, r)
        end
    end.

Definition discard_fuel (b : TcpTxBuffer) : nat := S (length (m_sentList b) + length (m_appList b)).

(** The part of DiscardUpTo after the loop: a SACKed head is an error of the
    Reno emulation, which is moved to another segment. *)
Definition discard_finish (b : TcpTxBuffer) (seq : Z) : res TcpTxBuffer :=
  let b := if m_size b =? 0 then b <| m_firstByteSeq := seq |> else b in
  b ← match m_sentList b with
      | [] => Ok b
      | head :: rest =>
          b ← (if m_sacked head then
                 ns_assert (negb (m_lost head)) ;;
                 let b := b <| m_sentList := head <| m_sacked := false |> :: rest |>
                            <| m_sackedOut := u32 (m_sackedOut b - GetSize (m_packet head)) |> in
                 b ← AddRenoSack b ;
                 Ok (MarkHeadAsLost b)
               else Ok b) ;
          ns_assert (m_startSeq head =? seq) ;;
          Ok b
      end ;
  let b := if seq_le (snd (m_highestSack b)) (m_firstByteSeq b)
           then b <| m_highestSack := (None, 0) |> else b in
  ns_assert (seq_ge (m_firstByteSeq b) seq) ;;
  ns_assert (u32 (m_sackedOut b + m_lostOut b) <=? m_sentSize b) ;;
  Ok b.

Definition DiscardUpTo (now : Z) (b : TcpTxBuffer) (seq : Z) (r : R) : res (TcpTxBuffer * R) :=
  if seq_ge (m_firstByteSeq b) seq then Ok (b, r)
  else
    let offset := u32 (seq_diff seq (m_firstByteSeq b)) in
    '(b, r) ← discard_loop (discard_fuel b) now b offset r ;
    b ← discard_finish b seq ;
    Ok (b, r).

(** What the loop over the sent list changes besides the items. *)
Record Scoreboard := mkSB {
  sb_lost : Z;
  sb_sacked : Z;
  sb_highest : option Z * Z;
  sb_bytes : Z;      (* bytesSacked *)
  sb_cb : R;
}.

Definition sack_item (item : TcpTxItem) (pos : Z) (s : Scoreboard) : TcpTxItem * Scoreboard :=
  let size := GetSize (m_packet item) in
  let lostOut := if m_lost item then u32 (sb_lost s - size) else sb_lost s in
  let item := item <| m_lost := false |> <| m_sacked := true |> in
  let highest :=
    match fst (sb_highest s) with
    | None => (Some (m_id item), pos)
    | Some _ =>
        if seq_le (snd (sb_highest s)) (seq_add pos size) then (Some (m_id item), pos)
        else sb_highest s
    end in
  let '(r, item) := cb (sb_cb s) item in
  (item, mkSB lostOut (u32 (sb_sacked s + size)) highest (u32 (sb_bytes s + size)) r).

(** The walk of the sent list for one block. *)
Fixpoint update_block (blk : Z * Z) (l : list TcpTxItem) (pos : Z) (s : Scoreboard)
  : res (list TcpTxItem * Scoreboard) :=
  match l with
  | [] => Ok ([], s)
  | item :: rest =>
      let next := seq_add pos (GetSize (m_packet item)) in
      if seq_ge pos (fst blk) && seq_le next (snd blk) then
        if m_sacked item then
          ns_assert (negb (m_lost item)) ;;
          '(rest, s) ← update_block blk rest next s ;
          Ok (item :: rest, s)
        else
          let '(item, s) := sack_item item pos s in
          '(rest, s) ← update_block blk rest next s ;
          Ok (item :: rest, s)
      else if seq_gt next (snd blk) then Ok (l, s)
      else
        '(rest, s) ← update_block blk rest next s ;
        Ok (item :: rest, s)
  end.

(** The walk of the blocks; [true]: a block starts beyond the sent data, and
    Update returns at once. *)
Fixpoint update_blocks (blks : list (Z * Z)) (first sentEnd : Z) (l : list TcpTxItem) (s : Scoreboard)
  : res (bool * list TcpTxItem * Scoreboard) :=
  match blks with
  | [] => Ok (false, l, s)
  | blk :: blks =>
      if seq_lt sentEnd (fst blk) then Ok (true, l, s)
      else
        '(l, s) ← update_block blk l first s ;
        update_blocks blks first sentEnd l s
  end.

Definition Update (b : TcpTxBuffer) (blks : list (Z * Z)) (r : R) : res (Z * TcpTxBuffer * R) :=
  '(early, l, s) ← update_blocks blks (m_firstByteSeq b) (seq_add (m_firstByteSeq b) (m_sentSize b))
                     (m_sentList b) (mkSB (m_lostOut b) (m_sackedOut b) (m_highestSack b) 0 r) ;
  let b := b <| m_sentList := l |> <| m_lostOut := sb_lost s |> <| m_sackedOut := sb_sacked s |>
             <| m_highestSack := sb_highest s |> in
  if (early : bool) then Ok (sb_bytes s, b, sb_cb s)
  else
    b ← (if 0 <? sb_bytes s then
           ns_assert (negb (bool_decide (fst (m_highestSack b) = None))) ;;
           UpdateLostCount b
         else Ok b) ;
    match m_sentList b with
    | [] => Err NullDeref
    | h :: _ =>
        ns_assert (negb (m_sacked h)) ;;
        ns_assert (u32 (m_sackedOut b + m_lostOut b) <=? m_sentSize b) ;;
        Ok (sb_bytes s, b, sb_cb s)
    end.

End Callback.
