(* ===== verification/TxBufferSpec.v ===== *)
(** What the send buffer promises: the bytes it holds are the unacknowledged
    part of the stream, the counters of the scoreboard are the sums over the
    sent items, and every operation keeps both.

    Sequence numbers are unwrapped positions here: [P] is the position of the
    first byte, and the code's numbers are their [u32]. *)
From Stdlib Require Import ZArith Lia Bool List.
From stdpp Require Import base list.
From S2P Require Import Prelude SeqNum RxBuffer TxBuffer.

Definition bytes_of (l : list TcpTxItem) : bytes := concat (map m_packet l).
Definition total (l : list TcpTxItem) : Z := sumf (fun _ => true) l.

(** Items with data, at consecutive positions. *)
Fixpoint starts (pos : Z) (l : list TcpTxItem) : Prop :=
  match l with
  | [] => True
  | t :: l => m_startSeq t = u32 pos /\ 0 < zlen (m_packet t) /\ starts (pos + zlen (m_packet t)) l
  end.

(** Never sent: no flag is set. *)
Definition clean (t : TcpTxItem) : Prop :=
  0 < zlen (m_packet t) /\ m_lost t = false /\ m_retrans t = false /\ m_sacked t = false.

Definition ids_ok (next : Z) (l : list TcpTxItem) : Prop :=
  NoDup (map m_id l) /\ Forall (fun t => m_id t < next) l.

(** [m_highestSack] denotes a SACKed item of the sent list. *)
Definition highest_ok (sent : list TcpTxItem) (h : option Z * Z) : Prop :=
  match fst h with
  | None => True
  | Some id => exists x, x ∈ sent /\ m_id x = id /\ m_sacked x = true /\ snd h = m_startSeq x
  end.

(** The scoreboard counters of a sent list. *)
Record counts_ok (b : TcpTxBuffer) : Prop := {
  ck_lost : m_lostOut b = sumf m_lost (m_sentList b);
  ck_sacked : m_sackedOut b = sumf m_sacked (m_sentList b);
  ck_retrans : m_retransOut b = sumf m_retrans (m_sentList b);
  ck_excl : Forall (fun t => m_sacked t = true -> m_lost t = false) (m_sentList b);
}.

Definition head_ok (l : list TcpTxItem) : Prop :=
  match l with h :: _ => m_sacked h = false | [] => True end.

(** The invariant; inside DiscardUpTo ([strict] false) the head may be SACKed
    and the item of [m_highestSack] may be gone. *)
Record tx_inv (strict : bool) (P : Z) (b : TcpTxBuffer) : Prop := {
  tx_first : m_firstByteSeq b = u32 P;
  tx_starts : starts P (m_sentList b);
  tx_app : Forall clean (m_appList b);
  tx_sent : m_sentSize b = total (m_sentList b);
  tx_size : m_size b = total (m_sentList b) + total (m_appList b);
  tx_max : m_size b <= m_maxBuffer b <= 2 ^ 30;
  tx_counts : counts_ok b;
  tx_head : strict = true -> head_ok (m_sentList b);
  tx_ids : ids_ok (m_nextId b) (m_sentList b ++ m_appList b);
  tx_high : strict = true -> highest_ok (m_sentList b) (m_highestSack b);
}.

Abbreviation tx_ok := (tx_inv true).

(** ** Sums *)

Lemma sumf_app f l k : sumf f (l ++ k) = sumf f l + sumf f k.
Proof. induction l as [|t l IH]; simpl; [done|]. rewrite IH. lia. Qed.

Lemma sumf_cons f t l : sumf f (t :: l) = (if f t then zlen (m_packet t) else 0) + sumf f l.
Proof. done. Qed.

Lemma sumf_bounds f l : 0 <= sumf f l <= total l.
Proof.
  unfold total. induction l as [|t l IH]; simpl; [lia|].
  pose proof (zlen_nonneg (m_packet t)). destruct (f t); lia.
Qed.

Lemma sumf_excl l : Forall (fun t => m_sacked t = true -> m_lost t = false) l ->
  sumf m_sacked l + sumf m_lost l <= total l.
Proof.
  unfold total. induction 1 as [|t l Ht Hl IH]; simpl; [lia|].
  pose proof (zlen_nonneg (m_packet t)). destruct (m_sacked t); [rewrite Ht by done|destruct (m_lost t)]; lia.
Qed.

Lemma tot_cons t l : total (t :: l) = zlen (m_packet t) + total l.
Proof. done. Qed.

Lemma tot_app l k : total (l ++ k) = total l + total k.
Proof. apply sumf_app. Qed.

Lemma tot_nonneg l : 0 <= total l.
Proof. apply (sumf_bounds (fun _ => true)). Qed.

Lemma bytes_of_app l k : bytes_of (l ++ k) = bytes_of l ++ bytes_of k.
Proof. unfold bytes_of. by rewrite map_app, concat_app. Qed.

Lemma bytes_of_cons t l : bytes_of (t :: l) = m_packet t ++ bytes_of l.
Proof. done. Qed.

Lemma bytes_of_len l : zlen (bytes_of l) = total l.
Proof.
  induction l as [|t l IH]; [done|]. rewrite bytes_of_cons, zlen_app, IH. done.
Qed.

Create Rewrite HintDb tx.
#[export] Hint Rewrite sumf_app sumf_cons tot_cons tot_app bytes_of_app bytes_of_cons : tx.

Lemma starts_app pos l k : starts pos (l ++ k) <-> starts pos l /\ starts (pos + total l) k.
Proof.
  revert pos. induction l as [|t l IH]; intros pos; cbn [starts app].
  - rewrite Z.add_0_r. tauto.
  - rewrite IH, tot_cons, Z.add_assoc. tauto.
Qed.

Lemma sumf_clean f l : Forall clean l ->
  (forall t, clean t -> f t = false) -> sumf f l = 0.
Proof. intros H Hf. induction H as [|t l Ht Hl IH]; simpl; [done|]. by rewrite Hf, IH. Qed.

(** ** Items that differ in their time stamps only *)

Definition same_item (t t' : TcpTxItem) : Prop :=
  m_id t' = m_id t /\ m_startSeq t' = m_startSeq t /\ m_packet t' = m_packet t
  /\ m_lost t' = m_lost t /\ m_retrans t' = m_retrans t /\ m_sacked t' = m_sacked t.

#[export] Instance same_item_refl : Reflexive same_item.
Proof. intros t. by repeat split. Qed.

Lemma same_middle pre t t' post :
  same_item t t' -> Forall2 same_item (pre ++ t :: post) (pre ++ t' :: post).
Proof.
  assert (forall l, Forall2 same_item l l) as Hr by (induction l; by constructor).
  intros Ht. apply Forall2_app; [apply Hr|]. constructor; [done|apply Hr].
Qed.

Lemma same_sumf f l l' : (forall t t', same_item t t' -> f t' = f t) ->
  Forall2 same_item l l' -> sumf f l' = sumf f l.
Proof.
  intros Hf. induction 1 as [|t t' k k' Ht Hk IH]; simpl; [done|]. rewrite IH, (Hf t t') by done.
  by destruct Ht as (_ & _ & -> & _).
Qed.

Lemma same_total l l' : Forall2 same_item l l' -> total l' = total l.
Proof. by apply same_sumf. Qed.

Lemma same_bytes l l' : Forall2 same_item l l' -> bytes_of l' = bytes_of l.
Proof.
  induction 1 as [|t t' k k' Ht Hk IH]; [done|]. rewrite !bytes_of_cons, IH.
  by destruct Ht as (_ & _ & -> & _).
Qed.

Lemma same_ids l l' : Forall2 same_item l l' -> map m_id l' = map m_id l.
Proof. induction 1 as [|t t' k k' Ht Hk IH]; simpl; [done|]. rewrite IH. by destruct Ht as (-> & _). Qed.

Lemma same_starts l l' pos : Forall2 same_item l l' -> starts pos l -> starts pos l'.
Proof.
  intros H. revert pos. induction H as [|t t' k k' Ht Hk IH]; simpl; [done|]. intros pos.
  destruct Ht as (_ & -> & -> & _). intros (? & ? & ?). repeat split; try done. by apply IH.
Qed.

Lemma same_lost l l' : Forall2 same_item l l' -> sumf m_lost l' = sumf m_lost l.
Proof. intros H. apply same_sumf; [|done]. by intros t t' (_ & _ & _ & -> & _). Qed.

Lemma same_sacked l l' : Forall2 same_item l l' -> sumf m_sacked l' = sumf m_sacked l.
Proof. intros H. apply same_sumf; [|done]. by intros t t' (_ & _ & _ & _ & _ & ->). Qed.

Lemma same_retrans l l' : Forall2 same_item l l' -> sumf m_retrans l' = sumf m_retrans l.
Proof. intros H. apply same_sumf; [|done]. by intros t t' (_ & _ & _ & _ & -> & _). Qed.

Lemma same_elem l l' x : Forall2 same_item l l' -> x ∈ l -> exists x', x' ∈ l' /\ same_item x x'.
Proof.
  induction 1 as [|t t' k k' Ht Hk IH]; intros Hx; [by apply elem_of_nil in Hx|].
  apply elem_of_cons in Hx as [->|Hx]; [exists t'; split; [by left|done]|].
  destruct (IH Hx) as (x' & Hx' & Hs). exists x'. split; [by right|done].
Qed.

Lemma same_highest l l' h : Forall2 same_item l l' -> highest_ok l h -> highest_ok l' h.
Proof.
  unfold highest_ok. destruct (fst h) as [id|]; [|done]. intros H (x & Hx & E1 & E2 & E3).
  destruct (same_elem _ _ x H Hx) as (x' & Hx' & (F1 & F2 & _ & _ & _ & F6)).
  exists x'. by rewrite F1, F2, F6.
Qed.

(** The invariant does not read time stamps. *)
Lemma tx_ok_same P b l' :
  tx_ok P b -> Forall2 same_item (m_sentList b) l' -> tx_ok P (b <| m_sentList := l' |>).
Proof.
  intros [] H. destruct tx_counts0. specialize (tx_head0 eq_refl). specialize (tx_high0 eq_refl). split; rec_simpl; rewrite ?(same_total _ _ H); try done.
  - by apply (same_starts (m_sentList b)).
  - split; rec_simpl; rewrite ?(same_lost _ _ H), ?(same_sacked _ _ H), ?(same_retrans _ _ H); try done.
    clear -H ck_excl0. induction H as [|t t' k k' Ht Hk IH]; [done|].
    apply Forall_cons in ck_excl0 as [H1 H2]. apply Forall_cons; split; [|by apply IH].
    by destruct Ht as (_ & _ & _ & -> & _ & ->).
  - intros _. destruct H as [|t t' k k' Ht Hk]; [done|]. simpl in *. by destruct Ht as (_ & _ & _ & _ & _ & ->).
  - destruct tx_ids0 as [Hn Hf]. split.
    + by rewrite map_app, (same_ids _ _ H), <- map_app.
    + rewrite <- (Forall_map m_id (fun i => i < m_nextId b)) in *.
      by rewrite map_app, (same_ids _ _ H), <- map_app.
  - intros _. by apply (same_highest (m_sentList b)).
Qed.

Lemma update_item_same id f l : (forall t, same_item t (f t)) -> Forall2 same_item l (update_item id f l).
Proof.
  intros Hf. unfold update_item. induction l as [|t l IH]; simpl; constructor; [|done].
  destruct (_ =? _); [apply Hf|reflexivity].
Qed.

(** ** Taking data from a list *)

Lemma CreateFragment_0 p n : CreateFragment p 0 n = ztake n p.
Proof. done. Qed.

Lemma ids_ok_split next pre x post :
  ids_ok next (pre ++ x :: post) ->
  forall t, m_id t = m_id x -> ids_ok next (pre ++ t :: post).
Proof.
  intros [Hn Hf] t Ht. split.
  - rewrite map_app in *. simpl in *. by rewrite Ht.
  - rewrite Forall_app, Forall_cons in *. rewrite Ht. done.
Qed.

Lemma ids_ok_insert next pre post t :
  ids_ok next (pre ++ post) -> m_id t = next -> ids_ok (next + 1) (pre ++ t :: post).
Proof.
  intros [Hn Hf] Ht. split.
  - rewrite map_app in *. cbn [map]. rewrite Ht.
    assert (next ∉ map m_id pre ++ map m_id post) as Hx.
    { rewrite <- map_app. intros Hin. apply list_elem_of_In, in_map_iff in Hin as (y & E & Hy).
      rewrite <- list_elem_of_In in Hy. rewrite Forall_forall in Hf. specialize (Hf y Hy). lia. }
    apply NoDup_app in Hn as (H1 & H2 & H3). apply NoDup_app.
    rewrite not_elem_of_app in Hx. destruct Hx as [Hx1 Hx2]. split_and!; [done| |].
    + intros y Hy Hin. apply elem_of_cons in Hin as [->|Hin]; [done|]. by apply (H2 y).
    + by apply NoDup_cons.
  - rewrite Forall_app, Forall_cons in *. destruct Hf as [H1 H2]. split_and!; [|lia|];
      eapply Forall_impl; eauto; simpl; intros; lia.
Qed.

Lemma ids_ok_remove next pre x post :
  ids_ok next (pre ++ x :: post) -> ids_ok next (pre ++ post).
Proof.
  intros [Hn Hf]. split.
  - rewrite map_app in *. simpl in *. apply NoDup_app in Hn as (H1 & H2 & H3).
    apply NoDup_cons in H3 as [_ H3]. apply NoDup_app. split_and!; [done| |done].
    intros y Hy Hin. apply (H2 y Hy). by right.
  - rewrite Forall_app, Forall_cons in *. tauto.
Qed.

Lemma find_item_middle pre x post :
  NoDup (map m_id (pre ++ x :: post)) -> find_item (m_id x) (pre ++ x :: post) = Some x.
Proof.
  unfold find_item. induction pre as [|y pre IH]; cbn [app map List.find]; intros Hn.
  - by rewrite Z.eqb_refl.
  - apply NoDup_cons in Hn as [Hy Hn]. destruct (Z.eqb_spec (m_id y) (m_id x)) as [E|]; [|by apply IH].
    exfalso. apply Hy. rewrite E, map_app. apply elem_of_app. right. by left.
Qed.

Lemma update_item_middle pre x post f :
  NoDup (map m_id (pre ++ x :: post)) -> update_item (m_id x) f (pre ++ x :: post) = pre ++ f x :: post.
Proof.
  unfold update_item. induction pre as [|y pre IH]; cbn [app map]; intros Hn.
  - rewrite Z.eqb_refl. f_equal. apply NoDup_cons in Hn as [Hy _].
    induction post as [|z post IHp]; [done|]. cbn [map] in *.
    destruct (Z.eqb_spec (m_id z) (m_id x)) as [E|]; [exfalso; apply Hy; rewrite E; by left|].
    f_equal. apply IHp. intros Hin. apply Hy. by right.
  - apply NoDup_cons in Hn as [Hy Hn]. destruct (Z.eqb_spec (m_id y) (m_id x)) as [E|].
    + exfalso. apply Hy. rewrite E, map_app. apply elem_of_app. right. by left.
    + f_equal. by apply IH.
Qed.

Lemma remove_item_head x l : NoDup (map m_id (x :: l)) -> remove_item (m_id x) (x :: l) = l.
Proof.
  unfold remove_item. cbn [List.filter map]. rewrite Z.eqb_refl. cbn [negb]. intros Hn.
  apply NoDup_cons in Hn as [Hx _]. induction l as [|y l IH]; [done|]. cbn [List.filter map] in *.
  destruct (Z.eqb_spec (m_id y) (m_id x)) as [E|]; [exfalso; apply Hx; rewrite E; by left|].
  cbn [negb]. f_equal. apply IH. intros Hin. apply Hx. by right.
Qed.

Lemma MergeItems_ok t1 t2 R K :
  m_sacked t1 = m_sacked t2 -> m_lost t1 = m_lost t2 -> 0 <= K -> R < 2 ^ 32 ->
  R = K + ((if m_retrans t1 then zlen (m_packet t1) else 0)
           + (if m_retrans t2 then zlen (m_packet t2) else 0)) ->
  exists t, MergeItems t1 t2 R = Ok (t, K + (if m_retrans t then zlen (m_packet t) else 0))
  /\ m_id t = m_id t1 /\ m_startSeq t = m_startSeq t1 /\ m_packet t = m_packet t1 ++ m_packet t2
  /\ m_sacked t = m_sacked t1 /\ m_lost t = m_lost t1
  /\ m_retrans t = m_retrans t1 && m_retrans t2.
Proof.
  intros Es El HK Hlt ->. unfold MergeItems. rewrite Es, El, !eqb_reflx. res_step.
  pose proof (zlen_nonneg (m_packet t1)). pose proof (zlen_nonneg (m_packet t2)). unfold GetSize.
  destruct (m_retrans t1) eqn:E1, (m_retrans t2) eqn:E2; simpl eqb; cbn iota beta; cbn [negb];
    rec_simpl; destruct (m_lastSent t1 <? m_lastSent t2); rec_simpl;
    match goal with |- exists t, Ok (?x, _) = _ /\ _ => exists x end;
    (split; [|split_and!; rec_simpl; rewrite ?E1, ?E2; done]);
    rec_simpl; unfold GetSize; rewrite ?E1, ?E2, ?zlen_app; do 2 f_equal;
    rewrite ?u32_small by (unfold is_u32; lia); lia.
Qed.

(** A walk of the list from the item that starts at the requested position. *)
Lemma walk_here sent F before cur rest A n R next :
  (sent = true -> seq_ge (m_startSeq cur) F = true) ->
  0 < zlen (m_packet cur) <= 2 ^ 30 -> 0 < n <= 2 ^ 30 ->
  walk_list sent F before (cur :: rest) (u32 A) n (u32 A) R next
  = let size := zlen (m_packet cur) in
    if n =? size then Ok (Found (m_id cur) (mkLS (rev before ++ cur :: rest) R next))
    else if n <? size then
      Ok (Found next (mkLS (rev before ++ fst (SplitItems next cur n)
                            :: snd (SplitItems next cur n) :: rest) R (next + 1)))
    else match rest with
         | [] => Ok (Found (m_id cur) (mkLS (rev before ++ cur :: rest) R next))
         | nxt :: rest =>
             '(cur, R) ← MergeItems cur nxt R ; Ok (Again (mkLS (rev before ++ cur :: rest) R next))
         end.
Proof.
  intros Hs Hc Hn. cbn [walk_list]. unfold GetSize.
  assert (negb sent || seq_ge (m_startSeq cur) F = true) as -> by (destruct sent; [rewrite Hs|]; done).
  res_step. rewrite Z.eqb_refl. seqw.
  destruct (Z.ltb_spec A (A + zlen (m_packet cur))); [|lia].
  destruct (Z.leb_spec (A + n) (A + zlen (m_packet cur))).
  - destruct (Z.eqb_spec n (zlen (m_packet cur))); [done|].
    by destruct (Z.ltb_spec n (zlen (m_packet cur))); [|lia].
  - destruct (Z.eqb_spec n (zlen (m_packet cur))); [lia|].
    by destruct (Z.ltb_spec n (zlen (m_packet cur))); [lia|].
Qed.

Lemma Split_fields next cur n : 0 < n < zlen (m_packet cur) ->
  m_packet (fst (SplitItems next cur n)) = ztake n (m_packet cur)
  /\ m_packet (snd (SplitItems next cur n)) = zdrop n (m_packet cur)
  /\ zlen (m_packet (fst (SplitItems next cur n))) = n
  /\ zlen (m_packet (snd (SplitItems next cur n))) = zlen (m_packet cur) - n.
Proof.
  intros H. unfold SplitItems, CreateFragment. simpl fst. simpl snd. rec_simpl.
  change (zdrop 0 (m_packet cur)) with (m_packet cur).
  rewrite zlen_take, zlen_drop by lia. split_and!; [done|done|lia|lia].
Qed.

Lemma Split_sums next cur n : 0 < n < zlen (m_packet cur) ->
  let l := [fst (SplitItems next cur n); snd (SplitItems next cur n)] in
  sumf m_retrans l = sumf m_retrans [cur] /\ sumf m_lost l = sumf m_lost [cur].
Proof.
  intros H l. destruct (Split_fields next cur n H) as (_ & _ & L1 & L2). unfold l.
  rewrite !sumf_cons, L1, L2.
  change (m_retrans (fst (SplitItems next cur n))) with (m_retrans cur).
  change (m_retrans (snd (SplitItems next cur n))) with (m_retrans cur).
  change (m_lost (fst (SplitItems next cur n))) with (m_lost cur).
  change (m_lost (snd (SplitItems next cur n))) with (m_lost cur).
  cbn [sumf foldr]. destruct (m_retrans cur), (m_lost cur); lia.
Qed.

Lemma ztake_app_le {A} n (l k : list A) : 0 <= n <= zlen l -> ztake n (l ++ k) = ztake n l.
Proof. intros H. unfold ztake, zlen in *. rewrite take_app_le; [done|lia]. Qed.

Lemma ztake_drop {A} n (l : list A) : ztake n l ++ zdrop n l = l.
Proof. apply take_drop. Qed.

Lemma ztake_all {A} (l : list A) : ztake (zlen l) l = l.
Proof. unfold ztake, zlen. rewrite Nat2Z.id. by apply take_ge. Qed.

(** The first [n] bytes of a list of items never sent, as one item. *)
Lemma get_front fuel F pre l R next A n :
  Forall clean l -> ids_ok next (pre ++ l) -> 0 < n <= total l -> total l <= 2 ^ 30 ->
  0 <= R < 2 ^ 32 -> (length l < fuel)%nat ->
  exists item rest next',
    GetPacketFromList_f fuel false F (mkLS l R next) (u32 A) n (u32 A)
    = Ok (m_id item, mkLS (item :: rest) R next')
  /\ Forall clean (item :: rest) /\ m_packet item = ztake n (bytes_of l)
  /\ bytes_of (item :: rest) = bytes_of l
  /\ ids_ok next' (pre ++ item :: rest) /\ next <= next'.
Proof.
  revert l R next. induction fuel as [|fuel IH]; intros l R next Hc Hi Hn Ht HR Hf; [lia|].
  destruct l as [|cur rest]; [cbn in Hn; lia|].
  apply Forall_cons in Hc as [Hcur Hrest]. pose proof Hcur as (Hpos & El & Er & Es).
  rewrite tot_cons in *. pose proof (tot_nonneg rest).
  cbn [GetPacketFromList_f ls_list ls_retrans ls_next].
  rewrite walk_here by (try done; lia). cbv zeta. cbn [rev app].
  destruct (Z.eqb_spec n (zlen (m_packet cur))) as [->|Hne].
  { res_step. exists cur, rest, next. split_and!; try done; [by constructor|].
    rewrite bytes_of_cons, ztake_app_le by lia. by rewrite ztake_all. }
  destruct (Z.ltb_spec n (zlen (m_packet cur))) as [Hlt|Hge].
  - res_step. destruct (Split_fields next cur n ltac:(lia)) as (E1 & E2 & L1 & L2).
    exists (fst (SplitItems next cur n)), (snd (SplitItems next cur n) :: rest), (next + 1).
    assert (m_id (fst (SplitItems next cur n)) = next) as Eid by done.
    split_and!; [by rewrite Eid| | | | |lia].
    + repeat (apply Forall_cons; split); [..|done]; unfold clean; rewrite ?L1, ?L2; repeat split; try done; lia.
    + rewrite E1, bytes_of_cons, ztake_app_le by lia. done.
    + rewrite !bytes_of_cons, E1, E2, app_assoc, ztake_drop. done.
    + apply ids_ok_insert; [|done].
      by apply (ids_ok_split _ _ cur).
  - destruct rest as [|nxt rest]; [cbn in Hn; lia|].
    apply Forall_cons in Hrest as [Hnxt Hrest]. pose proof Hnxt as (Hpos' & El' & Er' & Es').
    destruct (MergeItems_ok cur nxt R R) as (t & -> & Et1 & Et2 & Et3 & Et4 & Et5 & Et6);
      [congruence|congruence|lia|lia|rewrite Er, Er'; lia|].
    res_step. rewrite Et6, Er, Z.add_0_r. rewrite tot_cons in *. cbn [length] in Hf.
    assert (ids_ok next (pre ++ t :: rest)) as Hi'.
    { apply (ids_ok_split _ _ cur); [|done].
      replace (pre ++ cur :: nxt :: rest) with ((pre ++ [cur]) ++ nxt :: rest) in Hi
        by (by rewrite <- app_assoc).
      apply ids_ok_remove in Hi. by rewrite <- app_assoc in Hi. }
    destruct (IH (t :: rest) R next) as (item & rest' & next' & -> & H1 & H2 & H3 & H4 & H5);
      [|done|rewrite tot_cons, Et3, zlen_app; lia|rewrite tot_cons, Et3, zlen_app; lia
       |lia|cbn [length]; lia|].
    { apply Forall_cons; split; [|done]. unfold clean. rewrite Et3, zlen_app, Et4, Et5, Et6, Er.
      repeat split; try done; lia. }
    exists item, rest', next'. split_and!; try done.
    + rewrite H2, !bytes_of_cons, Et3, app_assoc. done.
    + rewrite H3, !bytes_of_cons, Et3, app_assoc. done.
Qed.

(** ** New data *)

(** The unacknowledged stream the buffer holds. *)
Definition content (b : TcpTxBuffer) : bytes := bytes_of (m_sentList b ++ m_appList b).

Lemma content_len s P b : tx_inv s P b -> zlen (content b) = m_size b.
Proof. intros []. unfold content. by rewrite bytes_of_len, tot_app. Qed.

Lemma tx_bounds P b : tx_ok P b ->
  0 <= total (m_sentList b) /\ 0 <= total (m_appList b)
  /\ total (m_sentList b) + total (m_appList b) <= 2 ^ 30.
Proof. intros []. repeat split; try apply tot_nonneg. lia. Qed.

Lemma SizeFromSequence_ok P b Q : tx_ok P b -> P <= Q <= P + m_size b ->
  SizeFromSequence b (u32 Q) = P + m_size b - Q.
Proof.
  intros H HQ. pose proof (tx_bounds P b H). pose proof H as []. unfold SizeFromSequence, TailSequence.
  rewrite tx_first0. seqw. destruct (Z.leb_spec Q (P + m_size b)); [|lia].
  seqw. apply u32_small. unfold is_u32. lia.
Qed.

Lemma sumf_one f t l : sumf f (l ++ [t]) = sumf f l + (if f t then zlen (m_packet t) else 0).
Proof. rewrite sumf_app, sumf_cons. simpl. lia. Qed.

Lemma highest_ok_mono l l' h :
  (forall x, x ∈ l -> m_sacked x = true -> x ∈ l') -> highest_ok l h -> highest_ok l' h.
Proof.
  unfold highest_ok. destruct (fst h); [|done]. intros H (x & Hx & E1 & E2 & E3). exists x. auto.
Qed.

Lemma GetNewSegment_ok P b n :
  tx_ok P b -> 0 < n <= total (m_appList b) ->
  exists item b', GetNewSegment b n = Ok (m_id item, b') /\ tx_ok P b'
  /\ m_sentList b' = m_sentList b ++ [item] /\ clean item
  /\ m_packet item = ztake n (bytes_of (m_appList b))
  /\ m_startSeq item = u32 (P + total (m_sentList b))
  /\ content b' = content b /\ m_size b' = m_size b /\ m_maxBuffer b' = m_maxBuffer b
  /\ m_segmentSize b' = m_segmentSize b.
Proof.
  intros H Hn. pose proof (tx_bounds P b H). pose proof H as []. pose proof tx_counts0 as [].
  unfold GetNewSegment, GetPacketFromList. rewrite tx_first0, tx_sent0. seqw. cbn [ls_list].
  pose proof (sumf_bounds m_retrans (m_sentList b)).
  destruct (get_front (2 + length (m_appList b)) (u32 P) (m_sentList b) (m_appList b)
    (m_retransOut b) (m_nextId b) (P + total (m_sentList b)) n)
    as (item & rest & next' & -> & Hc & Hp & Hb & Hi & Hle); [done|done|lia|lia|lia|lia|].
  res_step. cbn [ls_list ls_retrans ls_next].
  pose proof Hc as [Hci Hcr]%Forall_cons. pose proof Hci as (Hpos & Hfl & Hfr & Hfs).
  assert (NoDup (map m_id (item :: rest))) as Hnd
    by (destruct Hi as [Hi _]; rewrite map_app in Hi; by apply NoDup_app in Hi as (_ & _ & ?)).
  rewrite (find_item_middle [] item rest Hnd : find_item (m_id item) (item :: rest) = _).
  rewrite remove_item_head by done.
  eexists (item <| m_startSeq := u32 (P + total (m_sentList b)) |>), _. split; [reflexivity|].
  assert (total (item :: rest) = total (m_appList b)) as Htot by (by rewrite <- !bytes_of_len, Hb).
  rewrite tot_cons in Htot. pose proof (tot_nonneg rest).
  split; [|rec_simpl; split_and!; try done].
  - split; rec_simpl; try done.
    + apply starts_app. split; [done|]. by repeat split.
    + unfold GetSize. rewrite tot_app, tot_cons. rec_simpl. rewrite Z.add_0_r.
      apply u32_small. unfold is_u32. lia.
    + rewrite tot_app, tot_cons. rec_simpl. lia.
    + split; rec_simpl; rewrite ?sumf_one; rec_simpl; rewrite ?Hfl, ?Hfr, ?Hfs, ?Z.add_0_r; try done.
      apply Forall_app. split; [done|]. by apply Forall_cons.
    + intros _. specialize (tx_head0 eq_refl). destruct (m_sentList b); done.
    + rewrite <- app_assoc. cbn [app]. apply (ids_ok_split _ _ item); [done|reflexivity].
    + intros _. eapply highest_ok_mono; [|by apply tx_high0]. intros x Hx _. apply elem_of_app. by left.
  - unfold content. rec_simpl. rewrite <- app_assoc, !bytes_of_app. cbn [app].
    rewrite <- Hb, !bytes_of_cons. rec_simpl. by rewrite <- !app_assoc.
Qed.

(** The time stamp of the item sent. *)
Definition stamped (now : Z) (t : TcpTxItem) : TcpTxItem := t <| m_lastSent := now |>.

Lemma finish_copy_ok P b now pre item post :
  tx_ok P b -> m_sentList b = pre ++ item :: post ->
  exists b', finish_copy now (m_id item) b = Ok (Some (stamped now item), b')
  /\ tx_ok P b' /\ content b' = content b
  /\ m_sentList b' = pre ++ stamped now item :: post /\ m_appList b' = m_appList b
  /\ m_size b' = m_size b /\ m_retransOut b' = m_retransOut b /\ m_segmentSize b' = m_segmentSize b.
Proof.
  intros H El. pose proof (tx_bounds P b H). pose proof H as [].
  assert (NoDup (map m_id (pre ++ item :: post))) as Hnd.
  { destruct tx_ids0 as [Hi _]. rewrite El, map_app in Hi. by apply NoDup_app in Hi as (? & _). }
  assert (Forall2 same_item (m_sentList b) (pre ++ stamped now item :: post)) as Hsame.
  { rewrite El. by apply same_middle. }
  pose proof (tx_ok_same P b _ H Hsame) as H'.
  exists (b <| m_sentList := pre ++ stamped now item :: post |>). unfold finish_copy. cbv zeta.
  assert (b <| m_sentList ::= update_item (m_id item) (fun t => t <| m_lastSent := now |>) |>
          = b <| m_sentList := pre ++ stamped now item :: post |>) as ->.
  { unfold set_field. f_equal. rewrite El. by apply (update_item_middle pre item post). }
  change (m_sentList (b <| m_sentList := ?l |>)) with l.
  assert (find_item (m_id item) (pre ++ stamped now item :: post) = Some (stamped now item)) as ->.
  { apply (find_item_middle pre (stamped now item) post). by rewrite map_app in *. }
  rewrite El in tx_starts0. apply starts_app in tx_starts0 as (_ & Hst & _).
  assert (seq_ge (m_startSeq (stamped now item))
            (m_firstByteSeq (b <| m_sentList := pre ++ stamped now item :: post |>)) = true) as ->.
  { unfold set_field. simpl. rewrite Hst, tx_first0. pose proof (tot_nonneg pre).
    rewrite El, tot_app in *. pose proof (tot_nonneg (item :: post)). seqw. lia. }
  cbn [ns_assert]. res_step. split_and!; try done.
  unfold content. rec_simpl. by rewrite !(bytes_of_app _ (m_appList b)), (same_bytes _ _ Hsame).
Qed.

Lemma tx_copy_new_ok P b now numBytes :
  tx_ok P b -> 0 < numBytes < 2 ^ 31 -> 0 < total (m_appList b) ->
  exists item b',
    CopyFromSequence now b numBytes (u32 (P + total (m_sentList b))) = Ok (Some item, b')
  /\ tx_ok P b' /\ content b' = content b
  /\ m_packet item = ztake numBytes (zdrop (total (m_sentList b)) (content b))
  /\ m_startSeq item = u32 (P + total (m_sentList b)) /\ m_lastSent item = now
  /\ m_sentList b' = m_sentList b ++ [item]
  /\ m_retrans item = false /\ m_lost item = false /\ m_sacked item = false
  /\ m_segmentSize b' = m_segmentSize b.
Proof.
  intros H Hn Ha. pose proof (tx_bounds P b H). pose proof H as [].
  unfold CopyFromSequence. cbn [CopyFromSequence_f].
  rewrite tx_first0, (SizeFromSequence_ok P) by (auto; lia). rewrite tx_sent0.
  replace (P + m_size b - (P + total (m_sentList b))) with (total (m_appList b)) by lia.
  set (s := Z.min numBytes (total (m_appList b))). assert (0 < s <= total (m_appList b)) as Hs by lia.
  seqw. destruct (Z.ltb_spec (P + total (m_sentList b)) P); [lia|]. cbn [ns_abort_if]. res_step.
  destruct (Z.eqb_spec s 0); [lia|]. cbv zeta.
  destruct (Z.leb_spec (P + total (m_sentList b) + s) (P + total (m_sentList b))); [lia|].
  rewrite Z.leb_refl, Z.eqb_refl. cbn [negb ns_abort_if]. res_step.
  destruct (GetNewSegment_ok P b s H Hs) as (item & b' & -> & Hb' & El & (Hpos & Hfl & Hfr & Hfs) & Ep & Est & Ec & Esz & _ & Eseg).
  res_step. pose proof Hb' as [].
  assert (NoDup (map m_id (m_sentList b ++ [item]))) as Hnd.
  { destruct tx_ids1 as [Hi _]. rewrite El, map_app in Hi. by apply NoDup_app in Hi as (? & _). }
  rewrite El. rewrite (find_item_middle (m_sentList b) item []) by done.
  rewrite Hfr. cbn [negb ns_assert]. res_step.
  destruct (finish_copy_ok P b' now _ _ _ Hb' El) as (b'' & -> & Hb'' & Ec' & El' & _ & _ & _ & Eseg').
  exists (stamped now item), b''. split_and!; try done; [congruence| |congruence].
  change (m_packet (stamped now item)) with (m_packet item).
  rewrite Ep. unfold content. rewrite bytes_of_app. unfold s.
  unfold zdrop. rewrite drop_app_length' by (rewrite <- bytes_of_len; unfold zlen; lia).
  destruct (Z.min_spec numBytes (total (m_appList b))) as [[? ->]|[? ->]]; [done|].
  rewrite <- bytes_of_len at 1. rewrite ztake_all. unfold ztake. rewrite take_ge; [done|].
  pose proof (bytes_of_len (m_appList b)). unfold zlen in *. lia.
Qed.

(** C25. Sending new data: CopyFromSequence at the end of the sent data moves
    the next [min numBytes available] bytes of the application's data to the
    sent list, as one segment with the right sequence number, and keeps the
    bytes held, the counters and the invariant. *)
Theorem tx_copy_new P b now numBytes :
  tx_ok P b -> 0 < numBytes < 2 ^ 31 -> 0 < total (m_appList b) ->
  exists item b',
    CopyFromSequence now b numBytes (u32 (P + total (m_sentList b))) = Ok (Some item, b')
  /\ tx_ok P b' /\ content b' = content b
  /\ m_packet item = ztake numBytes (zdrop (total (m_sentList b)) (content b))
  /\ m_startSeq item = u32 (P + total (m_sentList b)) /\ m_lastSent item = now
  /\ m_sentList b' = m_sentList b ++ [item]
  /\ m_retrans item = false.
Proof.
  intros H Hn Ha. destruct (tx_copy_new_ok P b now numBytes H Hn Ha) as (item & b' & Hc).
  exists item, b'. tauto.
Qed.

(** ** Retransmission *)

(** A part of the sent list is cut differently; it holds the same bytes with
    the same SACK and loss flags. *)
Lemma tx_ok_replace P b pre old new post next :
  tx_ok P b -> m_sentList b = pre ++ old ++ post -> old <> [] -> new <> [] ->
  bytes_of new = bytes_of old -> starts (P + total pre) new ->
  sumf m_lost new = sumf m_lost old ->
  Forall (fun t => m_sacked t = false) old -> Forall (fun t => m_sacked t = false) new ->
  ids_ok next (pre ++ new ++ post ++ m_appList b) ->
  tx_ok P (b <| m_sentList := pre ++ new ++ post |>
             <| m_retransOut := m_retransOut b - sumf m_retrans old + sumf m_retrans new |>
             <| m_nextId := next |>).
Proof.
  intros [] El Hold Hnew Hb Hst Hlost Hso Hsn Hi. destruct tx_counts0.
  specialize (tx_head0 eq_refl). specialize (tx_high0 eq_refl).
  assert (total new = total old) as Ht by (by rewrite <- !bytes_of_len, Hb).
  assert (forall l, Forall (fun t => m_sacked t = false) l -> sumf m_sacked l = 0) as Hsum.
  { induction 1 as [|t l E _ IH]; [done|]. by rewrite sumf_cons, E, IH. }
  rewrite El in *. rewrite !sumf_app in *. rewrite !tot_app in *.
  split; rec_simpl; rewrite ?tot_app, ?Ht; try done.
  - rewrite !starts_app in *. rewrite Ht. tauto.
  - split; rec_simpl; rewrite ?sumf_app, ?(Hsum old), ?(Hsum new) in * by done; try lia.
    rewrite !Forall_app in *. split_and!; try tauto.
    eapply Forall_impl; [exact Hsn|]. intros t E. simpl. congruence.
  - intros _. destruct pre as [|p pre]; [|done]. destruct new as [|t new]; [done|]. simpl.
    by apply Forall_cons in Hsn as [? _].
  - by rewrite <- !app_assoc.
  - intros _. eapply highest_ok_mono; [|exact tx_high0]. intros x. rewrite !elem_of_app.
    intros [?|[Hx|?]] Hsk; [auto| |auto]. rewrite Forall_forall in Hso. specialize (Hso x Hx). congruence.
Qed.

Lemma walk_prefix F pre l A before n Q R next :
  starts A pre -> F <= A -> A + total pre <= Q -> Q - F <= 2 ^ 30 ->
  walk_list true (u32 F) before (pre ++ l) (u32 A) n (u32 Q) R next
  = walk_list true (u32 F) (rev pre ++ before) l (u32 (A + total pre)) n (u32 Q) R next.
Proof.
  revert A before. induction pre as [|t pre IH]; intros A before Hst HF HQ Hb.
  { unfold total. simpl. by rewrite Z.add_0_r. }
  destruct Hst as (E & Hpos & Hst). rewrite tot_cons in *. pose proof (tot_nonneg pre).
  cbn [app walk_list rev]. rewrite E. unfold GetSize. seqw.
  destruct (Z.leb_spec F A); [|lia]. cbn [negb orb ns_assert]. res_step.
  destruct (Z.ltb_spec Q (A + zlen (m_packet t))); [lia|].
  rewrite IH by (auto; lia). by rewrite Z.add_assoc, <- app_assoc.
Qed.

Lemma retransmit_size_at A pre x post n :
  starts A (pre ++ x :: post) -> total pre <= 2 ^ 30 ->
  retransmit_size (pre ++ x :: post) (u32 (A + total pre)) n
  = match post with
    | next :: _ =>
        if negb (m_sacked next) && eqb (m_lost x) (m_lost next)
        then Z.min n (u32 (GetSize (m_packet x) + GetSize (m_packet next)))
        else Z.min n (GetSize (m_packet x))
    | [] => Z.min n (GetSize (m_packet x))
    end.
Proof.
  revert A. induction pre as [|t pre IH]; intros A Hst Ht.
  - destruct Hst as (E & _). unfold total. simpl. by rewrite E, Z.add_0_r, Z.eqb_refl.
  - cbn [app] in *. destruct Hst as (E & Hpos & Hst). rewrite tot_cons in *.
    pose proof (tot_nonneg pre). cbn [retransmit_size]. rewrite E. seqw.
    destruct (Z.eqb_spec A (A + (zlen (m_packet t) + total pre))); [lia|].
    rewrite Z.add_assoc. apply IH; [done|lia].
Qed.

(** How GetPacketFromList cuts the sent list at a position where an item
    starts: [old] is replaced by [item :: extra]. *)
Lemma get_sent P b pre x post k :
  tx_ok P b -> m_sentList b = pre ++ x :: post -> m_sacked x = false ->
  0 < k -> (k <= zlen (m_packet x) \/ exists nxt post', post = nxt :: post'
    /\ m_sacked nxt = false /\ m_lost x = m_lost nxt
    /\ zlen (m_packet x) < k <= zlen (m_packet x) + zlen (m_packet nxt)) ->
  exists old rest item extra next',
    let R' := m_retransOut b - sumf m_retrans old + sumf m_retrans (item :: extra) in
    x :: post = old ++ rest /\ old <> [] /\ Forall (fun t => m_sacked t = false) old
  /\ GetPacketFromList true (u32 P) (mkLS (m_sentList b) (m_retransOut b) (m_nextId b))
       (u32 P) k (u32 (P + total pre))
     = Ok (m_id item, mkLS (pre ++ (item :: extra) ++ rest) R' next')
  /\ bytes_of (item :: extra) = bytes_of old /\ m_packet item = ztake k (bytes_of old)
  /\ zlen (m_packet item) = k
  /\ starts (P + total pre) (item :: extra)
  /\ sumf m_lost (item :: extra) = sumf m_lost old
  /\ Forall (fun t => m_sacked t = false) (item :: extra)
  /\ ids_ok next' (pre ++ (item :: extra) ++ rest ++ m_appList b).
Proof.
  intros H El Hx Hk Hcase. pose proof (tx_bounds P b H) as Hb. pose proof H as []. destruct tx_counts0.
  rewrite El in *. rewrite tot_app, tot_cons in *. pose proof (tot_nonneg pre). pose proof (tot_nonneg post).
  pose proof (tot_nonneg (m_appList b)).
  apply starts_app in tx_starts0 as [Hpre (Hsx & Hpos & Hpost)]. rewrite <- app_assoc in tx_ids0. cbn [app] in tx_ids0.
  assert (forall fuel l R next, GetPacketFromList_f (S fuel) true (u32 P) (mkLS (pre ++ l) R next)
            (u32 P) k (u32 (P + total pre))
          = r ← walk_list true (u32 P) (rev pre) l (u32 (P + total pre)) k (u32 (P + total pre)) R next ;
            match r with
            | Found id st => Ok (id, st)
            | Again st => GetPacketFromList_f fuel true (u32 P) st (u32 P) k (u32 (P + total pre))
            end) as Hrun.
  { intros fuel l R next. cbn [GetPacketFromList_f ls_list ls_retrans ls_next].
    rewrite walk_prefix by (auto; lia). by rewrite app_nil_r. }
  assert (forall y, m_startSeq y = u32 (P + total pre) -> true = true -> seq_ge (m_startSeq y) (u32 P) = true)
    as Hge by (intros y -> _; seqw; lia).
  unfold GetPacketFromList. cbn [ls_list]. rewrite (Hrun (S (length (pre ++ x :: post)))).
  assert (k <= 2 ^ 30) as Hk30.
  { destruct Hcase as [|(nxt & post' & -> & _ & _ & ?)]; [lia|].
    rewrite tot_cons in *. pose proof (tot_nonneg post'). lia. }
  rewrite walk_here by (auto; lia).
  cbv zeta. rewrite rev_involutive.
  destruct (Z.eqb_spec k (zlen (m_packet x))) as [->|Hne].
  { exists [x], post, x, [], (m_nextId b). res_step. cbn [app].
    rewrite bytes_of_cons. rewrite app_nil_r, ztake_all.
    split_and!; try done; [by repeat constructor| |by repeat constructor].
    do 3 f_equal. lia. }
  destruct (Z.ltb_spec k (zlen (m_packet x))) as [Hlt|Hge'].
  - destruct (Split_fields (m_nextId b) x k ltac:(lia)) as (E1 & E2 & L1 & L2).
    destruct (Split_sums (m_nextId b) x k ltac:(lia)) as [Er Els].
    set (t1 := fst (SplitItems (m_nextId b) x k)) in *. set (t2 := snd (SplitItems (m_nextId b) x k)) in *.
    exists [x], post, t1, [t2], (m_nextId b + 1). res_step. cbn [app].
    rewrite !bytes_of_cons, E1, E2, !app_nil_r, ztake_drop.
    split_and!; try done.
    + by repeat constructor.
    + do 3 f_equal. rewrite Er. lia.
    + split; [done|]. split; [lia|]. split; [|split; [lia|done]].
      unfold t2, SplitItems. rec_simpl. by rewrite Hsx, add32_wrap, L1.
    + by repeat constructor.
    + apply ids_ok_insert; [|done]. by apply (ids_ok_split _ _ x).
  - destruct Hcase as [|(nxt & post' & -> & Hsn & Hlost & Hk2)]; [lia|].
    pose proof (sumf_bounds m_retrans pre). pose proof (sumf_bounds m_retrans post').
    rewrite !sumf_app, !sumf_cons in ck_retrans0.
    destruct (MergeItems_ok x nxt (m_retransOut b) (sumf m_retrans pre + sumf m_retrans post'))
      as (t & -> & Et1 & Et2 & Et3 & Et4 & Et5 & Et6);
      [congruence|congruence|lia| |lia|].
    { rewrite tot_cons in *. destruct (m_retrans x), (m_retrans nxt); lia. }
    res_step. rewrite tot_cons in *. pose proof (tot_nonneg post').
    rewrite (Hrun (length (pre ++ x :: nxt :: post'))).
    destruct Hpost as (_ & Hpn & _).
    rewrite walk_here; [|intros _; apply Hge; [congruence|done]|rewrite Et3, zlen_app; lia|lia].
    cbv zeta. rewrite rev_involutive.
    assert (starts (P + total pre) [t]) as Hst by (split; [congruence|]; rewrite Et3, zlen_app; split; [lia|done]).
    assert (ids_ok (m_nextId b) (pre ++ t :: post' ++ m_appList b)) as Hi.
    { apply (ids_ok_split _ _ x); [|done].
      assert (ids_ok (m_nextId b) ((pre ++ [x]) ++ nxt :: post' ++ m_appList b)) as Hi
        by (by rewrite <- app_assoc).
      apply ids_ok_remove in Hi. by rewrite <- app_assoc in Hi. }
    assert (sumf m_lost [t] = sumf m_lost [x; nxt]) as Hl.
    { rewrite !sumf_cons, Et3, Et5, zlen_app, Hlost. destruct (m_lost nxt); cbn; lia. }
    destruct (Z.eqb_spec k (zlen (m_packet t))) as [->|Hne'].
    + exists [x; nxt], post', t, [], (m_nextId b). cbn [app]. rewrite !bytes_of_cons, !app_nil_r.
      rewrite <- Et3, ztake_all. split_and!; try done.
      * by repeat constructor.
      * res_step. do 3 f_equal. rewrite !sumf_cons. change (sumf m_retrans []) with 0. lia.
      * repeat constructor. congruence.
    + rewrite Et3, zlen_app in Hne' |- *.
      destruct (Z.ltb_spec k (zlen (m_packet x) + zlen (m_packet nxt))) as [Hlt'|]; [|lia].
      destruct (Split_fields (m_nextId b) t k ltac:(rewrite Et3, zlen_app; lia)) as (E1 & E2 & L1 & L2).
      destruct (Split_sums (m_nextId b) t k ltac:(rewrite Et3, zlen_app; lia)) as [Er Els].
      set (t1 := fst (SplitItems (m_nextId b) t k)) in *. set (t2 := snd (SplitItems (m_nextId b) t k)) in *.
      exists [x; nxt], post', t1, [t2], (m_nextId b + 1). cbn [app].
      rewrite !bytes_of_cons, E1, E2, !app_nil_r, ztake_drop, <- Et3. split_and!; try done.
      * by repeat constructor.
      * res_step. do 3 f_equal. rewrite Er, !sumf_cons. change (sumf m_retrans []) with 0. rewrite Et3, zlen_app. lia.
      * split; [unfold t1, SplitItems; rec_simpl; congruence|]. split; [lia|].
        split; [|split; [rewrite L2, Et3, zlen_app; lia|done]].
        unfold t2, SplitItems. rec_simpl. by rewrite Et2, Hsx, add32_wrap, L1.
      * congruence.
      * apply Forall_cons; split; [|apply Forall_cons; split; [|done]];
          unfold t1, t2, SplitItems; rec_simpl; congruence.
      * apply ids_ok_insert; [|done]. by apply (ids_ok_split _ _ t).
Qed.

Lemma GetTransmittedSegment_ok P b pre x post n :
  tx_ok P b -> m_sentList b = pre ++ x :: post -> m_sacked x = false ->
  0 < n <= total (x :: post) ->
  exists item tail b', GetTransmittedSegment b n (u32 (P + total pre)) = Ok (m_id item, b')
  /\ tx_ok P b' /\ m_sentList b' = pre ++ item :: tail /\ m_appList b' = m_appList b
  /\ bytes_of (item :: tail) = bytes_of (x :: post)
  /\ m_packet item = ztake (zlen (m_packet item)) (bytes_of (x :: post))
  /\ 0 < zlen (m_packet item) <= n
  /\ m_retrans item = true /\ m_sacked item = false /\ m_startSeq item = u32 (P + total pre)
  /\ m_size b' = m_size b.
Proof.
  intros H El Hx Hn. pose proof (tx_bounds P b H). pose proof H as [].
  unfold GetTransmittedSegment. rewrite tx_first0, tx_sent0.
  rewrite El in *. rewrite tot_app in *. pose proof (tot_nonneg pre). pose proof (tot_nonneg (x :: post)).
  seqw. destruct (Z.leb_spec P (P + total pre)); [|lia].
  destruct (Z.leb_spec n (total pre + total (x :: post))); [|lia]. cbn [ns_assert]. res_step.
  assert (negb (bool_decide (length (pre ++ x :: post) = 0%nat)) = true) as ->
    by (rewrite bool_decide_false; [done|rewrite length_app; simpl; lia]).
  cbn [ns_assert]. res_step. rewrite retransmit_size_at by (auto; lia). unfold GetSize.
  pose proof tx_starts0 as (_ & Hpx)%starts_app. destruct Hpx as (Hsx & Hpx & Hpp).
  rewrite tot_cons in *.
  set (k := match post with
            | [] => n `min` zlen (m_packet x)
            | next :: _ => if negb (m_sacked next) && eqb (m_lost x) (m_lost next)
                           then n `min` u32 (zlen (m_packet x) + zlen (m_packet next))
                           else n `min` zlen (m_packet x)
            end).
  assert (0 < k <= n /\ (k <= zlen (m_packet x) \/ exists nxt post', post = nxt :: post'
    /\ m_sacked nxt = false /\ m_lost x = m_lost nxt
    /\ zlen (m_packet x) < k <= zlen (m_packet x) + zlen (m_packet nxt))) as [Hk Hcase].
  { unfold k. destruct post as [|nxt post']; [lia|]. rewrite tot_cons in *.
    pose proof (tot_nonneg post'). pose proof (zlen_nonneg (m_packet nxt)).
    rewrite u32_small by (unfold is_u32; lia).
    destruct (m_sacked nxt) eqn:Esn; cbn [negb andb]; [lia|].
    destruct (eqb (m_lost x) (m_lost nxt)) eqn:Ee; [|lia]. apply eqb_prop in Ee.
    split; [lia|]. destruct (Z.le_gt_cases (n `min` (zlen (m_packet x) + zlen (m_packet nxt))) (zlen (m_packet x)));
      [by left|]. right. exists nxt, post'. split_and!; try done; lia. }
  clearbody k. rewrite <- El.
  destruct (get_sent P b pre x post k H El Hx) as (old & rest & item & extra & next' & Esplit & Hold & Hso & -> & Hb & Hp & Hl & Hst & Hlost & Hns & Hids);
    [lia|done|].
  res_step. cbn [ls_list ls_retrans ls_next]. rewrite Esplit in El.
  pose proof (tx_ok_replace P b pre old (item :: extra) rest next' H El Hold ltac:(done) Hb Hst Hlost Hso Hns Hids) as Hb1.
  set (b1 := b <| m_sentList := _ |> <| m_retransOut := _ |> <| m_nextId := next' |>) in Hb1.
  assert (NoDup (map m_id (pre ++ item :: extra ++ rest))) as Hnd.
  { destruct Hids as [Hi _]. rewrite !app_assoc, map_app in Hi. apply NoDup_app in Hi as (Hi & _).
    by rewrite <- app_assoc in Hi. }
  cbn [app]. rewrite (find_item_middle pre item (extra ++ rest)) by done.
  set (it' := item <| m_retrans := true |>).
  assert (tx_ok P (b1 <| m_sentList := pre ++ [it'] ++ (extra ++ rest) |>
    <| m_retransOut := m_retransOut b1 - sumf m_retrans [item] + sumf m_retrans [it'] |>
    <| m_nextId := next' |>)) as Hb2.
  { apply (tx_ok_replace P b1 pre [item] [it'] (extra ++ rest) next' Hb1); try done.
    - destruct Hst as (Hs & Hpos & _). by repeat split.
    - by apply Forall_cons in Hns as [? _]; apply Forall_cons.
    - by apply Forall_cons in Hns as [? _]; apply Forall_cons.
    - cbn [app] in Hids |- *. rewrite <- app_assoc. by apply (ids_ok_split _ _ item). }
  assert (forall l, l = pre ++ it' :: extra ++ rest ->
    m_retransOut b1 - sumf m_retrans [item] + sumf m_retrans [it']
    = (if negb (m_retrans item) then u32 (m_retransOut b1 + zlen (m_packet item)) else m_retransOut b1)) as Hret.
  { intros l _. rewrite !sumf_cons. change (sumf m_retrans []) with 0.
    change (m_retrans it') with true. change (m_packet it') with (m_packet item).
    pose proof (zlen_nonneg (m_packet item)). destruct Hb1 as [_ _ _ ? ? ? [_ _ Hr _] _ _ _].
    pose proof (sumf_bounds m_retrans (m_sentList b1)). pose proof (tot_nonneg (m_appList b1)).
    assert (total (m_sentList b1) <= 2 ^ 30) by lia. rewrite <- Hr in *.
    destruct (m_retrans item); cbn [negb]; [lia|]. rewrite u32_small; [lia|].
    unfold is_u32. rewrite Hl. lia. }
  specialize (Hret _ eq_refl).
  exists it', (extra ++ rest), (b1 <| m_sentList := pre ++ [it'] ++ (extra ++ rest) |>
    <| m_retransOut := m_retransOut b1 - sumf m_retrans [item] + sumf m_retrans [it'] |>
    <| m_nextId := next' |>).
  split.
  { rewrite Hret. destruct (negb (m_retrans item)) eqn:En; cbn iota.
    - rewrite (update_item_middle pre item (extra ++ rest)) by done. done.
    - rewrite (update_item_middle pre item (extra ++ rest)) by done.
      apply negb_false_iff in En. assert (it' = item) as -> by (unfold it'; destruct item; rec_simpl; congruence).
      done. }
  split; [done|]. split; [done|]. split; [done|].
  change (m_packet it') with (m_packet item).
  assert (bytes_of (it' :: extra ++ rest) = bytes_of (x :: post)) as Eb.
  { rewrite Esplit, bytes_of_app, <- Hb. rewrite !bytes_of_cons, bytes_of_app, <- app_assoc. done. }
  split_and!; try done; [|lia|lia| |by destruct Hst].
  - rewrite <- Eb, bytes_of_cons. change (m_packet it') with (m_packet item).
    rewrite ztake_app_le by lia. by rewrite ztake_all.
  - by apply Forall_cons in Hns as [? _].
Qed.

(** The head of CopyFromSequence_f at a position [Q] of the buffer. *)
Lemma copy_at P b now n Q fuel :
  tx_ok P b -> P <= Q -> 0 < n < 2 ^ 31 -> Q < P + m_size b ->
  CopyFromSequence_f (S fuel) now b n (u32 Q)
  = let s := Z.min n (P + m_size b - Q) in
    let sentEnd := P + total (m_sentList b) in
    if Q + s <=? sentEnd then
      '(id, b) ← GetTransmittedSegment b s (u32 Q) ;
      match find_item id (m_sentList b) with
      | None => Err NullDeref
      | Some item => ns_assert (negb (m_sacked item)) ;; finish_copy now id b
      end
    else if sentEnd <=? Q then
      ns_abort_if (negb (sentEnd =? Q)) ;;
      '(id, b) ← GetNewSegment b s ;
      match find_item id (m_sentList b) with
      | None => Err NullDeref
      | Some item => ns_assert (negb (m_retrans item)) ;; finish_copy now id b
      end
    else if (u32 Q <? u32 sentEnd) && (u32 sentEnd <? u32 (Q + s)) then
      CopyFromSequence_f fuel now b (u32 (sentEnd - Q)) (u32 Q)
    else Err NullDeref.
Proof.
  intros H HQ Hn Hlt. pose proof (tx_bounds P b H). pose proof H as [].
  cbn [CopyFromSequence_f]. rewrite tx_first0, (SizeFromSequence_ok P) by (auto; lia).
  rewrite tx_sent0. cbv zeta. set (s := Z.min n (P + m_size b - Q)).
  assert (0 < s <= 2 ^ 30) by lia.
  rewrite (u32_add_l P), (u32_add_l Q), u32_sub_l, u32_sub_r. seqw.
  destruct (Z.ltb_spec Q P); [lia|]. cbn [ns_abort_if]. res_step.
  destruct (Z.eqb_spec s 0); [lia|]. done.
Qed.

Lemma u32_add_small x d : 0 <= d -> u32 x + d < 2 ^ 32 -> u32 (x + d) = u32 x + d.
Proof.
  intros Hd Hlt. pose proof (u32_range x) as Hx. unfold is_u32 in Hx.
  rewrite <- u32_add_l. apply u32_small. unfold is_u32. lia.
Qed.

Lemma tx_copy_retransmit_ok P b now pre x post numBytes :
  tx_ok P b -> m_sentList b = pre ++ x :: post -> m_sacked x = false -> 0 < numBytes < 2 ^ 31 ->
  (numBytes <= total (x :: post) \/ u32 (P + total pre) + numBytes < 2 ^ 32) ->
  exists item b' tail,
    CopyFromSequence now b numBytes (u32 (P + total pre)) = Ok (Some item, b')
  /\ tx_ok P b' /\ content b' = content b
  /\ 0 < zlen (m_packet item) <= numBytes
  /\ m_packet item = ztake (zlen (m_packet item)) (zdrop (total pre) (content b))
  /\ m_startSeq item = u32 (P + total pre) /\ m_lastSent item = now /\ m_retrans item = true
  /\ m_sentList b' = pre ++ item :: tail /\ m_appList b' = m_appList b.
Proof.
  intros H El Hx Hn Hwrap. pose proof (tx_bounds P b H) as Hbd. pose proof H as [].
  set (Q := P + total pre) in *. pose proof (tot_nonneg pre).
  assert (total (m_sentList b) = total pre + total (x :: post)) as Et by (by rewrite El, tot_app).
  pose proof tx_starts0 as Hst. rewrite El in Hst. apply starts_app in Hst as (_ & _ & Hpx & _).
  assert (0 < total (x :: post)) by (rewrite tot_cons; pose proof (tot_nonneg post); lia).
  assert (forall k, 0 < k <= total (x :: post) -> k <= numBytes ->
    exists item b' tail,
      ('(id, b) ← GetTransmittedSegment b k (u32 Q) ;
       match find_item id (m_sentList b) with
       | None => Err NullDeref
       | Some item => ns_assert (negb (m_sacked item)) ;; finish_copy now id b
       end) = Ok (Some item, b')
      /\ tx_ok P b' /\ content b' = content b
      /\ 0 < zlen (m_packet item) <= numBytes
      /\ m_packet item = ztake (zlen (m_packet item)) (zdrop (total pre) (content b))
      /\ m_startSeq item = u32 Q /\ m_lastSent item = now /\ m_retrans item = true
      /\ m_sentList b' = pre ++ item :: tail /\ m_appList b' = m_appList b) as Hrun.
  { intros k Hk Hkn.
    destruct (GetTransmittedSegment_ok P b pre x post k H El Hx Hk)
      as (item & tail & b1 & Eg & Hb1 & El1 & Ea1 & Eb & Ep & Hl & Hr & Hs & Hss & Esz).
    fold Q in Eg, Hss. rewrite Eg. res_step.
    assert (NoDup (map m_id (pre ++ item :: tail))) as Hnd.
    { destruct Hb1 as [_ _ _ _ _ _ _ _ [Hi _] _]. rewrite El1, map_app in Hi. by apply NoDup_app in Hi as (? & _). }
    rewrite El1, (find_item_middle pre item tail) by done. rewrite Hs. cbn [negb ns_assert]. res_step.
    destruct (finish_copy_ok P b1 now pre item tail Hb1 El1) as (b2 & -> & Hb2 & Ec & El2 & Ea2 & _).
    exists (stamped now item), b2, tail. change (m_packet (stamped now item)) with (m_packet item).
    assert (content b1 = content b) as Ec1.
    { unfold content. rewrite El1, El, Ea1, !bytes_of_app. by rewrite Eb. }
    split_and!; try done; [congruence|lia|lia| |congruence].
    unfold content. rewrite El. unfold zdrop. rewrite <- !app_assoc, bytes_of_app.
    rewrite drop_app_length' by (rewrite <- bytes_of_len; unfold zlen; lia).
    cbn [app]. rewrite app_comm_cons, bytes_of_app, ztake_app_le; [done|].
    split; [lia|]. rewrite bytes_of_len. lia. }
  unfold CopyFromSequence. rewrite (copy_at P) by (auto; unfold Q; lia). cbv zeta.
  set (s := Z.min numBytes (P + m_size b - Q)).
  destruct (Z.leb_spec (Q + s) (P + total (m_sentList b))).
  { apply Hrun; unfold s, Q in *; lia. }
  destruct (Z.leb_spec (P + total (m_sentList b)) Q); [unfold Q in *; lia|].
  destruct Hwrap as [Hle|Hwrap]; [unfold s, Q in *; lia|].
  set (d := P + total (m_sentList b) - Q).
  assert (0 < d < s) as Hd by (unfold d, s, Q in *; lia).
  replace (P + total (m_sentList b)) with (Q + d) by (unfold d; lia).
  rewrite (u32_add_small Q d), (u32_add_small Q s) by (unfold s in *; lia).
  destruct (Z.ltb_spec (u32 Q) (u32 Q + d)); [|lia].
  destruct (Z.ltb_spec (u32 Q + d) (u32 Q + s)); [|lia]. cbn [andb].
  replace (Q + d - Q) with d by lia. rewrite (u32_small d) by (unfold is_u32, d, Q in *; lia).
  rewrite (copy_at P) by (auto; unfold d, s, Q in *; lia). cbv zeta.
  rewrite (Z.min_l d) by (unfold d, Q; lia).
  destruct (Z.leb_spec (Q + d) (P + total (m_sentList b))); [|unfold d in *; lia].
  apply Hrun; unfold d, s, Q in *; lia.
Qed.

(** C26. Retransmission: CopyFromSequence at the start of a sent item that is
    not SACKed returns at least one and at most [numBytes] of the bytes of the
    stream at that position, marked as retransmitted and time-stamped, and
    keeps the bytes held and the invariant, so that every counter of the
    scoreboard stays the sum over the items.  Where the request extends over
    the end of the sent data, it must not wrap around the sequence space. *)
Theorem tx_copy_retransmit P b now pre x post numBytes :
  tx_ok P b -> m_sentList b = pre ++ x :: post -> m_sacked x = false -> 0 < numBytes < 2 ^ 31 ->
  (numBytes <= total (x :: post) \/ u32 (P + total pre) + numBytes < 2 ^ 32) ->
  exists item b' tail,
    CopyFromSequence now b numBytes (u32 (P + total pre)) = Ok (Some item, b')
  /\ tx_ok P b' /\ content b' = content b
  /\ 0 < zlen (m_packet item) <= numBytes
  /\ m_packet item = ztake (zlen (m_packet item)) (zdrop (total pre) (content b))
  /\ m_startSeq item = u32 (P + total pre) /\ m_lastSent item = now /\ m_retrans item = true
  /\ m_sentList b' = pre ++ item :: tail.
Proof.
  intros H El Hx Hn Hw. destruct (tx_copy_retransmit_ok P b now pre x post numBytes H El Hx Hn Hw)
    as (item & b' & tail & E & H' & Ec & Hz & Ep & Es & Et & Er & El' & _).
  by exists item, b', tail.
Qed.

(** C37. Where such a request does wrap around the sequence space, the code
    compares truncated sums, no branch applies, and the null pointer [outItem]
    is dereferenced. *)
Theorem tx_copy_partial_wrap P b now Q numBytes :
  tx_ok P b -> P <= Q < P + total (m_sentList b) -> numBytes < 2 ^ 31 ->
  P + total (m_sentList b) < Q + Z.min numBytes (P + m_size b - Q) ->
  2 ^ 32 <= u32 Q + Z.min numBytes (P + m_size b - Q) ->
  CopyFromSequence now b numBytes (u32 Q) = Err NullDeref.
Proof.
  intros H HQ Hn Hpart Hwrap. pose proof (tx_bounds P b H) as Hbd. pose proof H as [].
  unfold CopyFromSequence. rewrite (copy_at P) by (auto; lia). cbv zeta.
  set (s := Z.min numBytes (P + m_size b - Q)) in *.
  destruct (Z.leb_spec (Q + s) (P + total (m_sentList b))); [lia|].
  destruct (Z.leb_spec (P + total (m_sentList b)) Q); [lia|].
  pose proof (u32_range Q) as Hq. unfold is_u32 in Hq.
  assert (u32 (Q + s) = u32 Q + s - 2 ^ 32) as Es.
  { rewrite <- u32_add_l. unfold u32 at 1. rewrite <- (Z_mod_plus_full _ (-1)), Z.mod_small; lia. }
  set (d := P + total (m_sentList b) - Q). assert (0 < d < s) by (unfold d; lia).
  replace (P + total (m_sentList b)) with (Q + d) by (unfold d; lia).
  destruct (Z.ltb_spec (u32 Q) (u32 (Q + d))) as [H3|]; [|done].
  destruct (Z.ltb_spec (u32 (Q + d)) (u32 (Q + s))); [lia|]. done.
Qed.

(** ** The scoreboard operations change flags and counters only *)

Definition same_data (t t' : TcpTxItem) : Prop :=
  m_id t' = m_id t /\ m_startSeq t' = m_startSeq t /\ m_packet t' = m_packet t.

Record same_frame (b b' : TcpTxBuffer) : Prop := {
  sf_sent : Forall2 same_data (m_sentList b) (m_sentList b');
  sf_app : m_appList b' = m_appList b;
  sf_max : m_maxBuffer b' = m_maxBuffer b;
  sf_size : m_size b' = m_size b;
  sf_sentSize : m_sentSize b' = m_sentSize b;
  sf_first : m_firstByteSeq b' = m_firstByteSeq b;
  sf_next : m_nextId b' = m_nextId b;
}.

#[export] Instance same_data_refl : Reflexive same_data.
Proof. by intros t. Qed.

Lemma data_refl l : Forall2 same_data l l.
Proof. induction l; by constructor. Qed.

Lemma data_trans l1 l2 l3 : Forall2 same_data l1 l2 -> Forall2 same_data l2 l3 -> Forall2 same_data l1 l3.
Proof.
  intros H. revert l3. induction H as [|x y k1 k2 (E1 & E2 & E3) Hk IH]; intros l3 H3.
  - apply Forall2_nil_inv_l in H3 as ->. constructor.
  - apply Forall2_cons_inv_l in H3 as (z & k3 & (F1 & F2 & F3) & Hz & ->).
    constructor; [repeat split; congruence|by apply IH].
Qed.

Lemma data_map f l : (forall t, same_data t (f t)) -> Forall2 same_data l (map f l).
Proof. intros Hf. induction l; simpl; constructor; auto. Qed.

Lemma data_total l l' : Forall2 same_data l l' -> total l' = total l.
Proof.
  induction 1 as [|t t' k k' (_ & _ & E) Hk IH]; [done|]. by rewrite !tot_cons, E, IH.
Qed.

Lemma data_bytes l l' : Forall2 same_data l l' -> bytes_of l' = bytes_of l.
Proof.
  induction 1 as [|t t' k k' (_ & _ & E) Hk IH]; [done|]. by rewrite !bytes_of_cons, E, IH.
Qed.

Lemma data_ids l l' : Forall2 same_data l l' -> map m_id l' = map m_id l.
Proof. induction 1 as [|t t' k k' (E & _ & _) Hk IH]; [done|]. simpl. by rewrite E, IH. Qed.

Lemma data_starts l l' pos : Forall2 same_data l l' -> starts pos l -> starts pos l'.
Proof.
  intros H. revert pos. induction H as [|t t' k k' (_ & E1 & E2) Hk IH]; [done|]. simpl. intros pos.
  rewrite E1, E2. intros (? & ? & ?). auto.
Qed.

Lemma frame_content b b' : same_frame b b' -> content b' = content b.
Proof. intros []. unfold content. by rewrite !bytes_of_app, sf_app0, (data_bytes _ _ sf_sent0). Qed.

Lemma tx_inv_flags s s' P b b' :
  tx_inv s P b -> same_frame b b' -> counts_ok b' ->
  (s' = true -> head_ok (m_sentList b')) ->
  (s' = true -> highest_ok (m_sentList b') (m_highestSack b')) ->
  tx_inv s' P b'.
Proof.
  intros [] [] Hc Hh Hs. pose proof (data_total _ _ sf_sent0) as Ht.
  split; rewrite ?sf_app0, ?sf_max0, ?sf_size0, ?sf_sentSize0, ?sf_first0, ?sf_next0, ?Ht; auto.
  - by apply (data_starts (m_sentList b)).
  - destruct tx_ids0 as [Hn Hf]. split.
    + by rewrite map_app, (data_ids _ _ sf_sent0), <- map_app.
    + rewrite <- (Forall_map m_id (fun i => i < m_nextId b)) in *.
      by rewrite map_app, (data_ids _ _ sf_sent0), <- map_app.
Qed.

(** Bounds on the counters: they never wrap. *)
Lemma counts_bounds s P b : tx_inv s P b ->
  0 <= m_lostOut b /\ 0 <= m_sackedOut b /\ 0 <= m_retransOut b <= m_sentSize b
  /\ m_sackedOut b + m_lostOut b <= m_sentSize b /\ m_sentSize b <= 2 ^ 30.
Proof.
  intros []. destruct tx_counts0. rewrite ck_lost0, ck_sacked0, ck_retrans0, tx_sent0.
  pose proof (sumf_bounds m_lost (m_sentList b)). pose proof (sumf_bounds m_sacked (m_sentList b)).
  pose proof (sumf_bounds m_retrans (m_sentList b)). pose proof (sumf_excl _ ck_excl0).
  pose proof (tot_nonneg (m_appList b)). lia.
Qed.

Lemma head_bounds t l f : 0 <= (if f t : bool then zlen (m_packet t) else 0) <= sumf f (t :: l).
Proof.
  rewrite sumf_cons. pose proof (sumf_bounds f l). pose proof (zlen_nonneg (m_packet t)).
  destruct (f t); lia.
Qed.

(** A change of the head's flags. *)
Lemma frame_head b b' h h' t :
  m_sentList b = h :: t -> m_sentList b' = h' :: t -> same_data h h' ->
  m_appList b' = m_appList b -> m_maxBuffer b' = m_maxBuffer b -> m_size b' = m_size b ->
  m_sentSize b' = m_sentSize b -> m_firstByteSeq b' = m_firstByteSeq b ->
  m_nextId b' = m_nextId b -> same_frame b b'.
Proof. intros E E' Hd. intros. split; try done. rewrite E, E'. constructor; [done|apply data_refl]. Qed.

Lemma highest_ok_tail h h' t hs :
  m_sacked h = false -> highest_ok (h :: t) hs -> highest_ok (h' :: t) hs.
Proof.
  intros Hs. apply highest_ok_mono. intros x Hx Hxs. apply elem_of_cons in Hx as [->|Hx]; [congruence|].
  by right.
Qed.

Lemma MarkHeadAsLost_ok s P b :
  tx_inv s P b -> head_ok (m_sentList b) ->
  same_frame b (MarkHeadAsLost b) /\ tx_inv s P (MarkHeadAsLost b)
  /\ head_ok (m_sentList (MarkHeadAsLost b))
  /\ m_highestSack (MarkHeadAsLost b) = m_highestSack b
  /\ (forall hs, highest_ok (m_sentList b) hs -> highest_ok (m_sentList (MarkHeadAsLost b)) hs).
Proof.
  intros H Hhead. pose proof (counts_bounds s P b H) as Hcb. pose proof H as []. destruct tx_counts0.
  unfold MarkHeadAsLost. destruct (m_sentList b) as [|h t] eqn:El.
  { split; [split; rewrite ?El; done|]. by rewrite El. }
  simpl in Hhead. rename Hhead into tx_head1. rewrite tx_head1. unfold GetSize.
  pose proof (head_bounds h t m_retrans) as Hr. rewrite <- ck_retrans0 in Hr.
  pose proof (zlen_nonneg (m_packet h)). rewrite tot_cons in *. pose proof (tot_nonneg t).
  pose proof (sumf_bounds m_lost t). pose proof (tot_nonneg (m_appList b)).
  apply Forall_cons in ck_excl0 as [Hex Hext]. rewrite sumf_cons in *.
  assert (forall hs h', highest_ok (h :: t) hs -> highest_ok (h' :: t) hs) as Hht
    by (intros hs h'; by apply highest_ok_tail).
  assert (forall b' h', m_sentList b' = h' :: t -> m_sacked h' = false ->
    same_frame b b' -> counts_ok b' -> m_highestSack b' = m_highestSack b ->
    same_frame b b' /\ tx_inv s P b' /\ head_ok (m_sentList b') /\ m_highestSack b' = m_highestSack b
    /\ (forall hs, highest_ok (h :: t) hs -> highest_ok (m_sentList b') hs)) as Hboth.
  { intros b' h' El' Hs' Hf Hc Hhi. rewrite El'. split_and!; try done; [|intros hs; apply Hht].
    eapply (tx_inv_flags s); [done|done|done|by rewrite El'|]. intros E. rewrite El', Hhi.
    apply Hht. by apply tx_high0. }
  destruct (m_retrans h) eqn:Er, (m_lost h) eqn:Elo; cbn [negb]; rec_simpl; rewrite ?Elo; cbn [negb];
    cbn iota beta; (eapply Hboth; [reflexivity|rec_simpl; done
      |eapply frame_head; [exact El|reflexivity|by repeat split|reflexivity..]| |reflexivity]);
    (split; rec_simpl; rewrite ?sumf_cons; rec_simpl; rewrite ?Er, ?Elo, ?tx_head1 in *;
       rewrite ?u32_small by (unfold is_u32; lia); try lia;
       apply Forall_cons; split; [rec_simpl; congruence|exact Hext]).
Qed.

Lemma sumf_map f g l : (forall t, m_packet (g t) = m_packet t) ->
  sumf f (map g l) = sumf (fun t => f (g t)) l.
Proof. intros Hg. induction l as [|t l IH]; [done|]. cbn [map]. by rewrite !sumf_cons, IH, Hg. Qed.

Lemma sumf_false f l : (forall t, f t = false) -> sumf f l = 0.
Proof. intros Hf. induction l as [|t l IH]; [done|]. by rewrite sumf_cons, Hf, IH. Qed.

Lemma sumf_ext f g l : (forall t, f t = g t) -> sumf f l = sumf g l.
Proof. intros Hf. induction l as [|t l IH]; [done|]. by rewrite !sumf_cons, Hf, IH. Qed.

Lemma fold_sum (f : TcpTxItem -> bool) l n :
  0 <= n -> n + total l < 2 ^ 32 ->
  fold_left (fun (n : Z) (it : TcpTxItem) => if f it then u32 (n + GetSize (m_packet it)) else n) l n = n + sumf f l.
Proof.
  revert n. induction l as [|t l IH]; intros n Hn Hlt; [cbn; lia|].
  rewrite tot_cons in Hlt. pose proof (tot_nonneg l). pose proof (zlen_nonneg (m_packet t)).
  cbn [fold_left]. rewrite sumf_cons. destruct (f t).
  - unfold GetSize at 2. rewrite u32_small by (unfold is_u32; lia). rewrite IH; lia.
  - rewrite IH; lia.
Qed.

Lemma SetSentListLost_ok P b resetSack :
  tx_ok P b ->
  exists b', SetSentListLost b resetSack = Ok b' /\ same_frame b b' /\ tx_ok P b'
  /\ m_retransOut b' = 0
  /\ m_sackedOut b' + m_lostOut b' = m_sentSize b'
  /\ m_sackedOut b' = (if resetSack then 0 else m_sackedOut b).
Proof.
  intros H. pose proof (counts_bounds true P b H) as Hcb. pose proof H as []. destruct tx_counts0.
  specialize (tx_head0 eq_refl). specialize (tx_high0 eq_refl).
  assert (0 <= m_sackedOut b + (m_sentSize b - m_sackedOut b) <= m_sentSize b) by lia.
  unfold SetSentListLost. destruct resetSack.
  - set (b' := _ <| m_sentList ::= _ |>).
    assert (m_sentList b' = map (fun it => it <| m_sacked := false |> <| m_lost := true |>
                                              <| m_retrans := false |>) (m_sentList b)) as El by done.
    assert (same_frame b b') as Hf by (split; try done; rewrite El; by apply data_map).
    assert (tx_ok P b') as Hb'.
    { eapply (tx_inv_flags true); [done|done| | |].
      - split; rewrite El, ?sumf_map by done.
        + change (m_lostOut b') with (m_sentSize b). rewrite tx_sent0. done.
        + symmetry. by apply sumf_false.
        + symmetry. by apply sumf_false.
        + apply Forall_map, Forall_true. done.
      - intros _. rewrite El. by destruct (m_sentList b).
      - intros _. done. }
    exists b'. change (m_sackedOut b') with 0. change (m_lostOut b') with (m_sentSize b).
    change (m_sentSize b') with (m_sentSize b). cbn [ns_assert]. rewrite Z.add_0_l, u32_small by (unfold is_u32; lia).
    rewrite Z.leb_refl. res_step. split_and!; try done.
  - rewrite fold_sum; [|lia|rec_simpl; lia].
    set (f := fun it => m_lost it || negb (m_sacked it)).
    set (b' := _ <| m_sentList ::= _ |>).
    assert (m_sentList b' = map (fun it => it <| m_lost := f it |> <| m_retrans := false |>) (m_sentList b)) as El by done.
    assert (same_frame b b') as Hf by (split; try done; rewrite El; by apply data_map).
    assert (m_lostOut b' = sumf f (m_sentList b)) as Elo by done.
    assert (sumf m_sacked (m_sentList b) + sumf f (m_sentList b) = total (m_sentList b)) as Esum.
    { clear -ck_excl0. unfold f. induction ck_excl0 as [|t l Ht Hl IH]; [done|].
      rewrite !sumf_cons, tot_cons. destruct (m_sacked t); [rewrite Ht by done|destruct (m_lost t)]; cbn; lia. }
    assert (tx_ok P b') as Hb'.
    { eapply (tx_inv_flags true); [done|done| | |].
      - split; rewrite El, ?sumf_map by done; try done.
        + symmetry. by apply sumf_false.
        + clear -ck_excl0. unfold f. induction ck_excl0 as [|t l Ht Hl IH]; [constructor|]. cbn [map].
          apply Forall_cons; split; [|done]. rec_simpl. intros Es. rewrite Es, Ht; done.
      - intros _. rewrite El. by destruct (m_sentList b).
      - intros _. change (m_highestSack b') with (m_highestSack b). revert tx_high0. unfold highest_ok.
        destruct (fst _); [|done]. intros (x & Hx & E1 & E2 & E3). rewrite El.
        exists (x <| m_lost := f x |> <| m_retrans := false |>). split_and!; try done.
        apply list_elem_of_In, in_map_iff. exists x. by rewrite <- list_elem_of_In. }
    exists b'. change (m_sackedOut b') with (m_sackedOut b). rewrite Elo.
    change (m_sentSize b') with (m_sentSize b). rewrite u32_small by (unfold is_u32; lia).
    destruct (Z.leb_spec (m_sackedOut b + sumf f (m_sentList b)) (m_sentSize b)); [|lia].
    cbn [ns_assert]. res_step. split_and!; try done. lia.
Qed.

Lemma ResetRenoSack_ok P b : tx_ok P b ->
  same_frame b (ResetRenoSack b) /\ tx_ok P (ResetRenoSack b).
Proof.
  intros H. pose proof H as []. destruct tx_counts0.
  set (f := fun it : TcpTxItem => it <| m_sacked := false |>).
  assert (m_sentList (ResetRenoSack b) = map f (m_sentList b)) as El by done.
  assert (same_frame b (ResetRenoSack b)) as Hf by (split; try done; rewrite El; by apply data_map).
  split; [done|]. eapply (tx_inv_flags true); [done|done| | |done].
  - split; rewrite El, ?sumf_map by done; try done.
    + symmetry. by apply sumf_false.
    + apply Forall_map, Forall_true. done.
  - intros _. rewrite El. by destruct (m_sentList b).
Qed.

Lemma DeleteRetransmittedFlagFromHead_ok P b : tx_ok P b ->
  exists b', DeleteRetransmittedFlagFromHead b = Ok b' /\ same_frame b b' /\ tx_ok P b'.
Proof.
  intros H. pose proof (counts_bounds true P b H) as Hcb. pose proof H as []. destruct tx_counts0.
  specialize (tx_head0 eq_refl). specialize (tx_high0 eq_refl).
  assert (same_frame b b) as Hrefl by (split; try done; apply data_refl).
  unfold DeleteRetransmittedFlagFromHead. destruct (Z.eqb_spec (m_sentSize b) 0) as [E|E]; [eauto|].
  destruct (m_sentList b) as [|h t] eqn:El; [by rewrite tx_sent0 in E|].
  destruct (m_retrans h) eqn:Er; [|eauto].
  pose proof (head_bounds h t m_retrans) as Hr. rewrite <- ck_retrans0, Er in Hr. unfold GetSize.
  eexists. split; [reflexivity|]. apply Forall_cons in ck_excl0 as [Hex Hext]. rewrite sumf_cons in *.
  set (b' := b <| m_sentList := _ |> <| m_retransOut := _ |>).
  assert (same_frame b b') as Hf by (eapply frame_head; [exact El|reflexivity|by repeat split|reflexivity..]).
  split; [done|]. eapply (tx_inv_flags true); [done|done| | |].
  - split; rec_simpl; rewrite ?sumf_cons; rec_simpl; rewrite ?Er in *;
      rewrite ?u32_small by (unfold is_u32; lia); try lia. by apply Forall_cons.
  - intros _. done.
  - intros _. eapply highest_ok_tail; [|exact tx_high0]. exact tx_head0.
Qed.

(** The mark that AddRenoSack sets. *)
Lemma reno_mark_ok l :
  match reno_mark l with
  | (l', None) => l' = l
  | (l', Some it) => exists pre post, l = pre ++ it :: post
      /\ l' = pre ++ it <| m_sacked := true |> :: post /\ m_sacked it = false
  end.
Proof.
  induction l as [|t l IH]; [done|]. cbn [reno_mark].
  destruct (m_sacked t) eqn:Es; [|by exists [], l].
  destruct (reno_mark l) as [l' [it|]]; [|by rewrite IH].
  destruct IH as (pre & post & -> & -> & E). by exists (t :: pre), post.
Qed.

Lemma data_middle pre t t' post : same_data t t' -> Forall2 same_data (pre ++ t :: post) (pre ++ t' :: post).
Proof. intros. apply Forall2_app; [apply data_refl|]. constructor; [done|apply data_refl]. Qed.

(** A Reno SACK: the first segment after the head that is not marked. *)
Lemma AddRenoSack_ok P b h t :
  tx_inv false P b -> m_sentList b = h :: t -> m_sacked h = false ->
  (m_sackEnabled b = true -> t <> []) -> Forall (fun x => m_lost x = false) t ->
  exists b', AddRenoSack b = Ok b' /\ same_frame b b' /\ tx_inv false P b'
  /\ (exists t', m_sentList b' = h :: t')
  /\ (m_highestSack b' = m_highestSack b /\ m_sentList b' = m_sentList b
      \/ highest_ok (m_sentList b') (m_highestSack b')).
Proof.
  intros H El Hh Hse Hnl. pose proof (counts_bounds false P b H) as Hcb. pose proof H as []. destruct tx_counts0.
  unfold AddRenoSack.
  assert ((if m_sackEnabled b then 1 <? zlen (m_sentList b) else 0 <? zlen (m_sentList b)) = true) as ->.
  { rewrite El, zlen_cons. pose proof (zlen_nonneg t). destruct (m_sackEnabled b); [|lia].
    destruct t; [by destruct Hse|]. rewrite zlen_cons. pose proof (zlen_nonneg t0). lia. }
  cbn [ns_assert]. res_step. change (m_sentList (b <| m_renoSack := true |>)) with (m_sentList b). rewrite El.
  pose proof (reno_mark_ok t) as Hm. destruct (reno_mark t) as [t' [it|]].
  - destruct Hm as (pre & post & -> & -> & Es). eexists. split; [reflexivity|].
    set (b' := _ <| m_highestSack := _ |>). set (it' := it <| m_sacked := true |>) in *.
    assert (m_sentList b' = (h :: pre) ++ it' :: post) as El' by done.
    rewrite El in *. change (h :: pre ++ it :: post) with ((h :: pre) ++ it :: post) in *.
    assert (same_frame b b') as Hf.
    { split; try done. rewrite El, El'. by apply data_middle. }
    split; [done|]. split; [|split; [by exists (pre ++ it' :: post)|]].
    + eapply (tx_inv_flags false); [done|done| |done|done].
      apply Forall_app in Hnl as [_ [Hli _]%Forall_cons].
      revert ck_lost0 ck_sacked0 ck_retrans0 ck_excl0 El' tx_sent0 tx_size0.
      generalize (h :: pre) as A. intros A El2 Es2 Er2 Ex2 El' Et2 Ets2.
      rewrite ?sumf_app, ?sumf_cons in El2, Es2, Er2. rewrite Es in Es2.
      rewrite tot_app, tot_cons in Et2, Ets2. apply Forall_app in Ex2 as [Ex2 [Ex3 Ex4]%Forall_cons].
      pose proof (sumf_bounds m_sacked A). pose proof (sumf_bounds m_sacked post).
      pose proof (tot_nonneg (m_appList b)). pose proof (zlen_nonneg (m_packet it)).
      assert (m_sackedOut b' = m_sackedOut b + zlen (m_packet it)) as Eb
        by (change (u32 (m_sackedOut b + zlen (m_packet it)) = m_sackedOut b + zlen (m_packet it));
            apply u32_small; unfold is_u32; lia).
      split; rewrite El', ?sumf_app, ?sumf_cons; try done.
      * rewrite Eb. change (m_sacked it') with true. change (m_packet it') with (m_packet it). cbn iota. lia.
      * apply Forall_app. split; [done|]. apply Forall_cons. split; [by intros _|done].
    + right. unfold highest_ok. cbn [fst]. change (m_highestSack b') with (Some (m_id it), m_startSeq it).
      exists it'. split_and!; try done. rewrite El'. apply elem_of_app. right. by left.
  - subst t'. eexists. split; [reflexivity|].
    split; [split; try done; apply data_refl|]. split; [|split; [by exists t|by left]].
    destruct H. split; done.
Qed.

Lemma Add_ok P b p : tx_ok P b ->
  let r := Add b p in
  tx_ok P (snd r) /\ m_sentList (snd r) = m_sentList b
  /\ (fst r = true /\ zlen p <= m_maxBuffer b - m_size b /\ content (snd r) = content b ++ p
      \/ fst r = false /\ m_maxBuffer b - m_size b < zlen p /\ snd r = b).
Proof.
  intros H. pose proof (tx_bounds P b H). pose proof H as []. unfold Add, Available, GetSize.
  rewrite u32_small by (unfold is_u32; lia).
  destruct (Z.leb_spec (zlen p) (m_maxBuffer b - m_size b)); cbn [fst snd]; [|split; [done|]; split; [done|]; by right].
  pose proof (zlen_nonneg p). destruct (Z.ltb_spec 0 (zlen p)) as [Hp|Hp].
  - rewrite u32_small by (unfold is_u32; lia).
    set (t := (TcpTxItem_new (m_nextId b)) <| m_packet := p |>).
    set (b' := b <| m_appList ::= _ |> <| m_nextId ::= _ |> <| m_size := _ |>).
    assert (m_appList b' = m_appList b ++ [t]) as Ea by done.
    split; [|split; [done|]].
    + split; rewrite ?Ea; try done.
      * apply Forall_app. split; [done|]. apply Forall_cons. split; [|done]. by repeat split.
      * rewrite tot_app, tot_cons. change (m_packet t) with p. change (total []) with 0.
        change (m_size b') with (m_size b + zlen p). change (m_sentList b') with (m_sentList b). lia.
      * change (m_size b') with (m_size b + zlen p). change (m_maxBuffer b') with (m_maxBuffer b). lia.
      * by destruct tx_counts0; split.
      * change (m_nextId b') with (m_nextId b + 1). rewrite app_assoc.
        apply ids_ok_insert; [by rewrite app_nil_r|done].
    + left. split_and!; try done. unfold content. rewrite Ea. change (m_sentList b') with (m_sentList b).
      rewrite app_assoc, bytes_of_app. f_equal. unfold bytes_of. simpl. by rewrite app_nil_r.
  - split; [done|]. split; [done|]. left. split_and!; try done.
    assert (p = []) as -> by (destruct p; [done|]; rewrite zlen_cons in Hp; pose proof (zlen_nonneg p); lia).
    by rewrite app_nil_r.
Qed.

(** ** Cumulative acknowledgement *)

Definition count_of (f : TcpTxItem -> bool) (t : TcpTxItem) (n : Z) : Z := if f t then n else 0.

Definition uncounted (b : TcpTxBuffer) (t : TcpTxItem) (n : Z) : TcpTxBuffer :=
  b <| m_sackedOut := m_sackedOut b - count_of m_sacked t n |>
    <| m_retransOut := m_retransOut b - count_of m_retrans t n |>
    <| m_lostOut := m_lostOut b - count_of m_lost t n |>.

Lemma RemoveFromCounts_ok b t n :
  0 <= n -> count_of m_sacked t n <= m_sackedOut b < 2 ^ 32 ->
  count_of m_retrans t n <= m_retransOut b < 2 ^ 32 ->
  count_of m_lost t n <= m_lostOut b < 2 ^ 32 ->
  RemoveFromCounts b t n = Ok (uncounted b t n).
Proof.
  unfold RemoveFromCounts, uncounted, count_of, is_u32. intros Hn Hs Hr Hl. destruct b. rec_simpl.
  destruct (m_sacked t); rec_simpl;
    [destruct (Z.leb_spec n m_sackedOut); [|lia]; cbn [ns_assert]; res_step; rec_simpl|];
    (destruct (m_retrans t); rec_simpl;
     [destruct (Z.leb_spec n m_retransOut); [|lia]; cbn [ns_assert]; res_step; rec_simpl|];
     (destruct (m_lost t); rec_simpl;
      [destruct (Z.leb_spec n m_lostOut); [|lia]; cbn [ns_assert]; res_step; rec_simpl|]));
    rewrite ?u32_small by (unfold is_u32; lia); rewrite ?Z.sub_0_r; done.
Qed.

(** What the iterator [m_highestSack] may be inside DiscardUpTo: its item was
    removed or cut since position [P0]. *)
Definition highest_stale (P0 P : Z) (b : TcpTxBuffer) : Prop :=
  highest_ok (m_sentList b) (m_highestSack b)
  \/ exists q, snd (m_highestSack b) = u32 q /\ P0 <= q <= P.

(** [d] bytes of the first item are acknowledged. *)
Lemma cut_head P b t rest d b' :
  tx_inv false P b -> m_sentList b = t :: rest -> 0 < d <= zlen (m_packet t) ->
  m_sentList b' = (if d <? zlen (m_packet t)
                   then [t <| m_packet := zdrop d (m_packet t) |> <| m_startSeq := u32 (P + d) |>] else [])
                  ++ rest ->
  m_appList b' = m_appList b -> m_maxBuffer b' = m_maxBuffer b -> m_nextId b' = m_nextId b ->
  m_size b' = m_size b - d -> m_sentSize b' = m_sentSize b - d -> m_firstByteSeq b' = u32 (P + d) ->
  m_sackedOut b' = m_sackedOut b - count_of m_sacked t d ->
  m_retransOut b' = m_retransOut b - count_of m_retrans t d ->
  m_lostOut b' = m_lostOut b - count_of m_lost t d ->
  tx_inv false (P + d) b' /\ content b' = zdrop d (content b).
Proof.
  intros [] El Hd El' Ea Em En Esz Ess Ef Eks Ekr Ekl. destruct tx_counts0. rewrite El in *.
  destruct tx_starts0 as (Hs & Hpos & Hst). rewrite tot_cons, sumf_cons in *.
  apply Forall_cons in ck_excl0 as [Hex Hext]. unfold count_of in *. cbn [app] in tx_ids0.
  split.
  - destruct (Z.ltb_spec d (zlen (m_packet t))) as [Hlt|Hge].
    + split; rewrite ?El', ?Ea, ?Em, ?En, ?Esz, ?Ess, ?Ef; cbn [app]; rewrite ?tot_cons; rec_simpl;
        rewrite ?zlen_drop by lia; try done; try lia.
      * split_and!; [done|lia|]. by replace (P + d + Z.max 0 (zlen (m_packet t) - d)) with (P + zlen (m_packet t)) by lia.
      * split; rewrite ?El'; cbn [app]; rewrite ?sumf_cons; rec_simpl; rewrite ?zlen_drop by lia;
          [destruct (m_lost t)|destruct (m_sacked t)|destruct (m_retrans t)|by apply Forall_cons]; lia.
      * apply (ids_ok_split _ [] t); done.
    + assert (d = zlen (m_packet t)) as -> by lia. cbn [app] in El'.
      split; rewrite ?El', ?Ea, ?Em, ?En, ?Esz, ?Ess, ?Ef; try done; try lia.
      * split; rewrite ?El'; [destruct (m_lost t)|destruct (m_sacked t)|destruct (m_retrans t)|done]; lia.
      * by apply (ids_ok_remove _ [] t).
  - unfold content. rewrite El', Ea, El. cbn [app]. rewrite bytes_of_cons.
    destruct (Z.ltb_spec d (zlen (m_packet t))) as [Hlt|Hge]; cbn [app].
    + rewrite bytes_of_cons. rec_simpl. unfold zdrop, zlen in *. rewrite drop_app_le; [done|lia].
    + assert (d = zlen (m_packet t)) as -> by lia. unfold zdrop, zlen. by rewrite Nat2Z.id, drop_app_length.
Qed.

Lemma zdrop_trivial {A} n (l : list A) : zlen l = 0 \/ n <= 0 -> zdrop n l = l.
Proof.
  intros [E|E]; unfold zdrop.
  - destruct l; [by rewrite drop_nil|]. unfold zlen in E. simpl in E. lia.
  - by replace (Z.to_nat n) with 0%nat by lia.
Qed.

(** Position [U] is inside a SACKed item of the list, or its start. *)
Definition sack_at (U P : Z) (l : list TcpTxItem) : Prop :=
  exists pre x post, l = pre ++ x :: post /\ m_sacked x = true
  /\ P + total pre <= U < P + total pre + zlen (m_packet x).

(** What remains of a sent list [l] at [P] after an acknowledgement of [U]. *)
Definition remains (U P : Z) (l l' : list TcpTxItem) : Prop :=
  (forall x, x ∈ tl l' -> x ∈ tl l)
  /\ match l' with h :: _ => m_sacked h = true -> sack_at U P l | [] => True end.

Section Discard.
Context {R : Type} (cb : R -> TcpTxItem -> R * TcpTxItem).

Lemma discard_loop_ok now U P0 fuel : forall P b r,
  tx_inv false P b -> P0 <= P <= U -> U <= P0 + 2 ^ 30 ->
  (U <= P + total (m_sentList b) \/ m_appList b = []) ->
  highest_stale P0 P b -> (length (m_sentList b) < fuel)%nat ->
  exists P' b' r', discard_loop cb fuel now b (U - P) r = Ok (b', r')
  /\ tx_inv false P' b' /\ highest_stale P0 P' b' /\ content b' = zdrop (U - P) (content b)
  /\ P <= P' <= U /\ (P' = U \/ m_size b' = 0)
  /\ m_appList b' = m_appList b /\ m_sackEnabled b' = m_sackEnabled b
  /\ remains U P (m_sentList b) (m_sentList b').
Proof.
  induction fuel as [|fuel IH]; intros P b r H HP HU Hpart Hhigh Hf; [lia|].
  pose proof H as []. pose proof (counts_bounds false P b H) as Hcb.
  pose proof (tot_nonneg (m_sentList b)). pose proof (tot_nonneg (m_appList b)).
  cbn [discard_loop].
  destruct ((0 <? m_size b) && (0 <? U - P)) eqn:Eg; cbn [negb].
  2: { exists P, b, r. apply andb_false_iff in Eg. pose proof (content_len false P b H) as Hc.
    rewrite zdrop_trivial by lia. split_and!; try done; try lia. split; [done|].
    destruct (m_sentList b) as [|h t]; [done|]. intros Hs. exists [], h, t.
    destruct tx_starts0 as (_ & Hpos & _). change (total []) with 0.
    rewrite tot_cons in *. pose proof (tot_nonneg t). split_and!; try done; lia. }
  apply andb_true_iff in Eg as [Hsz%Z.ltb_lt Hoff%Z.ltb_lt].
  destruct (m_sentList b) as [|item rest] eqn:El.
  { rewrite tx_size0 in Hsz. change (total []) with 0 in *. destruct Hpart as [?|Ea]; [lia|].
    rewrite Ea in Hsz. change (total []) with 0 in Hsz. lia. }
  res_step. rewrite El. destruct tx_starts0 as (Est & Hpos & Hst). rewrite Est, tx_first0, Z.eqb_refl.
  cbn [ns_assert]. res_step. unfold GetSize. rewrite tot_cons in *. pose proof (tot_nonneg rest).
  destruct tx_counts0. rewrite El in *.
  pose proof (head_bounds item rest m_lost). pose proof (head_bounds item rest m_sacked).
  pose proof (head_bounds item rest m_retrans).
  set (d := Z.min (U - P) (zlen (m_packet item))).
  assert (forall f, 0 <= count_of f item d <= (if f item then zlen (m_packet item) else 0)) as Hco
    by (intros f; unfold count_of; destruct (f item); lia).
  pose proof (Hco m_lost). pose proof (Hco m_sacked). pose proof (Hco m_retrans).
  assert (m_sackedOut b < 2 ^ 32 /\ m_retransOut b < 2 ^ 32 /\ m_lostOut b < 2 ^ 32) as Hlt32 by lia.
  assert (forall b', m_sentList b' = (if d <? zlen (m_packet item)
                   then [item <| m_packet := zdrop d (m_packet item) |> <| m_startSeq := u32 (P + d) |>] else [])
                  ++ rest -> m_highestSack b' = m_highestSack b -> highest_stale P0 (P + d) b') as Hstale.
  { intros b' El' Eh. unfold highest_stale in *. rewrite Eh. destruct Hhigh as [Hh|(q & Eq & Hq)].
    2: { right. exists q. split; [done|lia]. }
    rewrite El', El in *. unfold highest_ok in *. destruct (fst (m_highestSack b)) as [id|]; [|by left].
    destruct Hh as (x & Hx & E1 & E2 & E3). apply elem_of_cons in Hx as [->|Hx].
    - right. exists P. split; [congruence|lia].
    - left. exists x. split_and!; try done. apply elem_of_app. by right. }
  destruct (Z.leb_spec (zlen (m_packet item)) (U - P)) as [Hge|Hlt].
  - assert (d = zlen (m_packet item)) as Ed by lia. rewrite <- Ed in *.
    rewrite RemoveFromCounts_ok by (rec_simpl; lia). res_step.
    destruct (cb r item) as [r' item'].
    set (b1 := (uncounted _ item d) <| m_sentList := rest |>).
    destruct (Z.ltb_spec d d); [lia|].
    destruct (cut_head P b item rest d b1) as [Hb1 Hc1]; try done.
    { lia. }
    { rewrite <- Ed. destruct (Z.ltb_spec d d); [lia|]. done. }
    { change (m_size b1) with (u32 (m_size b - d)). apply u32_small. unfold is_u32. lia. }
    { change (m_sentSize b1) with (u32 (m_sentSize b - d)). apply u32_small. unfold is_u32. lia. }
    { change (m_firstByteSeq b1) with (seq_add (u32 P) d). apply add32_wrap. }
    rewrite u32_small by (unfold is_u32; lia).
    replace (U - P - d) with (U - (P + d)) by lia.
    destruct (IH (P + d) b1 r') as (P' & b' & r'' & -> & Hb' & Hs' & Hc' & HP' & Hend & Ea' & Ee' & Em'); try done; try lia.
    { destruct Hpart; [left|right]; [|done]. change (m_sentList b1) with rest. lia. }
    { by apply Hstale. }
    { cbn [length] in Hf. change (m_sentList b1) with rest. lia. }
    exists P', b', r''. split_and!; try done; try lia.
    { rewrite Hc', Hc1. unfold zdrop. rewrite drop_drop. f_equal. lia. }
    change (m_sentList b1) with rest in Em'. destruct Em' as [Hm1 Hm2]. split.
    { intros x Hx. specialize (Hm1 x Hx). destruct rest as [|y rest]; [by apply elem_of_nil in Hm1|]. by right. }
    destruct (m_sentList b') as [|h t]; [done|]. intros Hs.
    destruct (Hm2 Hs) as (pre & x & post & -> & Hx & Hr). exists (item :: pre), x, post.
    rewrite tot_cons, <- Ed, Z.add_assoc. done.
  - assert (d = U - P) as Ed by lia. rewrite <- Ed in *.
    rewrite (u32_small (zlen (m_packet item) - d)) by (unfold is_u32; lia).
    assert (CreateFragment (m_packet item) d (zlen (m_packet item) - d) = zdrop d (m_packet item)) as ->.
    { unfold CreateFragment, ztake, zdrop. apply take_ge. rewrite length_drop. unfold zlen. lia. }
    rewrite RemoveFromCounts_ok by (rec_simpl; unfold count_of in *; rec_simpl; lia). res_step.
    set (b1 := uncounted _ _ d).
    assert (m_sentList b1 = (item <| m_packet := zdrop d (m_packet item) |> <| m_startSeq := u32 (P + d) |>) :: rest) as El1.
    { change (m_sentList b1) with (item <| m_packet := zdrop d (m_packet item) |>
        <| m_startSeq := seq_add (u32 P) d |> :: rest). by rewrite add32_wrap. }
    destruct (Z.ltb_spec d (zlen (m_packet item))); [|lia].
    destruct (cut_head P b item rest d b1) as [Hb1 Hc1]; try done.
    { lia. }
    { rewrite El1. destruct (Z.ltb_spec d (zlen (m_packet item))); [|lia]. done. }
    { change (m_size b1) with (u32 (m_size b - d)). apply u32_small. unfold is_u32. lia. }
    { change (m_sentSize b1) with (u32 (m_sentSize b - d)). apply u32_small. unfold is_u32. lia. }
    { change (m_firstByteSeq b1) with (seq_add (u32 P) d). apply add32_wrap. }
    exists (P + d), b1, r. split_and!; try done; try lia; [by apply Hstale|].
    rewrite El1. split; [done|]. intros Hs. exists [], item, rest. change (total []) with 0.
    split_and!; try done; lia.
Qed.

Definition reno_room (b : TcpTxBuffer) : Prop :=
  match m_sentList b with
  | h :: t => m_sacked h = true ->
      (m_sackEnabled b = true -> t <> []) /\ Forall (fun x => m_lost x = false) t
  | [] => True
  end.

Lemma discard_finish_ok P0 P U b :
  tx_inv false P b -> highest_stale P0 P b -> P0 <= P <= U -> U <= P0 + 2 ^ 30 ->
  (P = U \/ m_size b = 0) -> reno_room b ->
  exists b', discard_finish b (u32 U) = Ok b' /\ tx_ok U b' /\ content b' = content b
  /\ m_appList b' = m_appList b.
Proof.
  intros H Hst HP HU Hend Hroom. unfold discard_finish. cbv zeta.
  set (b1 := if m_size b =? 0 then b <| m_firstByteSeq := u32 U |> else b).
  assert (tx_inv false U b1 /\ highest_stale P0 U b1 /\ m_sentList b1 = m_sentList b
    /\ m_appList b1 = m_appList b /\ m_sackEnabled b1 = m_sackEnabled b)
    as (H1 & Hst1 & El1 & Ea1 & Ee1).
  { assert (highest_stale P0 U b) as Hst' by (destruct Hst as [?|(q & ? & ?)]; [by left|right; exists q; split; [done|lia]]).
    unfold b1. destruct (Z.eqb_spec (m_size b) 0) as [E|E].
    - split_and!; try done. destruct H. pose proof (tot_nonneg (m_appList b)).
      pose proof (tot_nonneg (m_sentList b)). destruct (m_sentList b) as [|t l] eqn:El.
      + destruct tx_counts0. split; rec_simpl; rewrite ?El; try done. by split; rec_simpl; rewrite ?El in *.
      + destruct tx_starts0 as (_ & Hpos & _). rewrite tot_cons in *. pose proof (tot_nonneg l). lia.
    - assert (P = U) as -> by lia. done. }
  assert (content b1 = content b) as Ec1 by (unfold content; by rewrite El1, Ea1).
  assert (reno_room b1) as Hroom1 by (unfold reno_room in *; by rewrite El1, Ee1).
  rewrite <- Ec1, <- Ea1. clearbody b1. clear b H Hst Hend Hroom El1 Ea1 Ee1 Ec1.
  assert (exists b2,
    match m_sentList b1 with
    | [] => Ok b1
    | head :: rest =>
        b ← (if m_sacked head then
               ns_assert (negb (m_lost head)) ;;
               b ← AddRenoSack (b1 <| m_sentList := head <| m_sacked := false |> :: rest |>
                           <| m_sackedOut := u32 (m_sackedOut b1 - GetSize (m_packet head)) |>) ;
               Ok (MarkHeadAsLost b)
             else Ok b1) ;
        ns_assert (m_startSeq head =? u32 U) ;; Ok b
    end = Ok b2
    /\ same_frame b1 b2 /\ tx_inv false U b2 /\ head_ok (m_sentList b2) /\ highest_stale P0 U b2)
    as (b2 & -> & Hf2 & H2 & Hh2 & Hst2).
  { pose proof (counts_bounds false U b1 H1) as Hcb. pose proof H1 as []. destruct tx_counts0.
    destruct (m_sentList b1) as [|head rest] eqn:El.
    { exists b1. rewrite El. split_and!; try done. }
    destruct tx_starts0 as (Est & Hpos & Hstr). rewrite Est, Z.eqb_refl. cbn [ns_assert].
    unfold reno_room in Hroom1. rewrite El in Hroom1. destruct (m_sacked head) eqn:Es.
    2: { exists b1. res_step. rewrite El. split_and!; try done. }
    destruct (Hroom1 eq_refl) as [Hr1 Hr2]. apply Forall_cons in ck_excl0 as [Hex Hext].
    rewrite (Hex Es). cbn [negb ns_assert]. res_step.
    pose proof (head_bounds head rest m_sacked) as Hb. rewrite Es, <- ck_sacked0 in Hb.
    set (b' := b1 <| m_sentList := _ |> <| m_sackedOut := _ |>). set (h' := head <| m_sacked := false |>) in *.
    assert (m_sackedOut b' = m_sackedOut b1 - zlen (m_packet head)) as Ek
      by (apply u32_small; unfold is_u32, GetSize; lia).
    assert (same_frame b1 b') as Hf1 by (eapply frame_head; [exact El|reflexivity|by repeat split|reflexivity..]).
    assert (tx_inv false U b') as Hb'.
    { eapply (tx_inv_flags false); [done|done| |done|done]. rewrite !sumf_cons in *. rewrite Es in ck_sacked0.
      split; [exact ck_lost0| |exact ck_retrans0|].
      - rewrite Ek. change (m_sentList b') with (h' :: rest). rewrite sumf_cons. change (m_sacked h') with false.
        cbn iota in *. lia.
      - change (m_sentList b') with (h' :: rest). by apply Forall_cons. }
    destruct (AddRenoSack_ok U b' h' rest Hb' eq_refl eq_refl Hr1 Hr2)
      as (b2 & -> & Hf2 & H2 & (t2 & El2) & Hhi). res_step.
    destruct (MarkHeadAsLost_ok false U b2 H2) as (Hf3 & H3 & Hh3 & Ehi3 & Hmono); [by rewrite El2|].
    exists (MarkHeadAsLost b2). split; [done|].
    split; [|split; [done|split; [done|]]].
    - destruct Hf1, Hf2, Hf3. split; try congruence.
      eapply data_trans; [eassumption|]. by eapply data_trans.
    - unfold highest_stale. rewrite Ehi3. destruct Hhi as [[Ehi El3]|Hhi]; [|left; by apply Hmono].
      rewrite Ehi. change (m_highestSack b') with (m_highestSack b1).
      destruct Hst1 as [Hh|]; [|by right]. rewrite El in Hh. unfold highest_ok in Hh.
      destruct (fst (m_highestSack b1)) as [id|] eqn:Ef; [|left; unfold highest_ok; by rewrite Ef].
      destruct Hh as (x & Hx & E1 & E2 & E3). apply elem_of_cons in Hx as [->|Hx].
      + right. exists U. split; [congruence|lia].
      + left. apply Hmono. rewrite El3. unfold highest_ok. rewrite Ef. exists x. split_and!; try done.
        by right. }
  res_step. set (b3 := if seq_le _ _ then _ else _). pose proof (counts_bounds false U b2 H2) as Hcb.
  pose proof (tx_first _ _ _ H2) as Ef.
  assert (same_frame b2 b3 /\ tx_ok U b3) as [Hf3 H3].
  { assert (same_frame b2 b3) as Hf3
      by (unfold b3; destruct (seq_le _ _); split; try done; apply data_refl).
    split; [done|]. assert (m_sentList b3 = m_sentList b2) as El3 by (unfold b3; by destruct (seq_le _ _)).
    eapply (tx_inv_flags false true); [exact H2|done| | |].
    - destruct H2. destruct tx_counts0. unfold b3. destruct (seq_le _ _); by split.
    - by rewrite El3.
    - intros _. rewrite El3. unfold b3. destruct Hst2 as [Hh|(q & Eq & Hq)].
      + by destruct (seq_le _ _).
      + rewrite Eq, Ef. seqw. by destruct (Z.leb_spec q U); [|lia]. }
  exists b3. rewrite (tx_first _ _ _ H3). seqw. rewrite Z.leb_refl. cbn [ns_assert]. res_step.
  pose proof (counts_bounds true U b3 H3). rewrite u32_small by (unfold is_u32; lia).
  destruct (Z.leb_spec (m_sackedOut b3 + m_lostOut b3) (m_sentSize b3)); [|lia]. cbn [ns_assert]. res_step.
  split; [done|]. split; [done|]. split; [by rewrite (frame_content _ _ Hf3), (frame_content _ _ Hf2)|].
  destruct Hf2, Hf3. congruence.
Qed.

Lemma tx_discard_ok now P U b r :
  tx_ok P b -> P < U <= P + 2 ^ 30 ->
  (U <= P + total (m_sentList b) \/ m_appList b = []) ->
  (~ sack_at U P (m_sentList b)
   \/ m_sackEnabled b = false /\ Forall (fun x => m_lost x = false) (tl (m_sentList b))) ->
  exists b' r', DiscardUpTo cb now b (u32 U) r = Ok (b', r')
  /\ tx_ok U b' /\ content b' = zdrop (U - P) (content b)
  /\ m_appList b' = m_appList b.
Proof.
  intros H HU Hpart Hsack. pose proof H as []. unfold DiscardUpTo. rewrite tx_first0. seqw.
  destruct (Z.leb_spec U P); [lia|]. rewrite (u32_small (U - P)) by (unfold is_u32; lia).
  assert (tx_inv false P b) as Hw by (by destruct H; split).
  destruct (discard_loop_ok now U P (discard_fuel b) P b r Hw) as (P' & b1 & r' & -> & H1 & Hst & Hc & HP' & Hend & Ea & Ee & Hrem);
    [lia|lia|done|left; by apply tx_high0|unfold discard_fuel; lia|].
  res_step. destruct (discard_finish_ok P P' U b1 H1 Hst) as (b2 & -> & H2 & Hc2 & Ea2); try done; try lia.
  - unfold reno_room. destruct Hrem as [Hr1 Hr2]. destruct (m_sentList b1) as [|h t]; [done|].
    intros Hs. specialize (Hr2 Hs). destruct Hsack as [Hno|[Hoff Hlost]]; [done|].
    split; [congruence|]. rewrite Forall_forall in Hlost |- *. intros x Hx. apply Hlost. by apply Hr1.
  - res_step. exists b2, r'. split_and!; try done; congruence.
Qed.

(** C24. Cumulative acknowledgement: DiscardUpTo a position [U] drops exactly
    the bytes before [U] from the buffer, and re-establishes the invariant at
    [U], whatever splits it makes; no assertion fails.  [U] is in the sent
    data, or beyond everything the buffer holds (the acknowledgement of a FIN).
    A SACKed segment at [U] is only possible when SACK is off and the SACKs
    were guessed from duplicate acknowledgements. *)
Theorem tx_discard now P U b r :
  tx_ok P b -> P < U <= P + 2 ^ 30 ->
  (U <= P + total (m_sentList b) \/ m_appList b = []) ->
  (~ sack_at U P (m_sentList b)
   \/ m_sackEnabled b = false /\ Forall (fun x => m_lost x = false) (tl (m_sentList b))) ->
  exists b' r', DiscardUpTo cb now b (u32 U) r = Ok (b', r')
  /\ tx_ok U b' /\ content b' = zdrop (U - P) (content b)
  /\ m_appList b' = m_appList b.
Proof. exact (tx_discard_ok now P U b r). Qed.
End Discard.

(** ** Selective acknowledgement *)

(** [l'] is [l] with the SACK flag set on the items that [c] covers, [c]
    being given the position and the size of an item. *)
Fixpoint marked (c : Z -> Z -> bool) (pos : Z) (l l' : list TcpTxItem) : Prop :=
  match l, l' with
  | [], [] => True
  | t :: l, t' :: l' =>
      let cov := c pos (zlen (m_packet t)) in
      same_data t t' /\ m_retrans t' = m_retrans t /\ m_sacked t' = m_sacked t || cov
      /\ m_lost t' = m_lost t && negb cov
      /\ marked c (pos + zlen (m_packet t)) l l'
  | _, _ => False
  end.

(** An option block, as unwrapped positions, covers an item. *)
Definition covers (blk : Z * Z) (pos size : Z) : bool := (fst blk <=? pos) && (pos + size <=? snd blk).

Lemma marked_none c pos l :
  (forall p n, pos <= p -> 0 <= n -> c p n = false) -> marked c pos l l.
Proof.
  revert pos. induction l as [|t l IH]; intros pos Hc; [done|]. pose proof (zlen_nonneg (m_packet t)).
  cbn [marked]. rewrite Hc, orb_false_r, andb_true_r by lia. split_and!; try done. apply IH.
  intros p n Hp Hn. apply Hc; lia.
Qed.

Lemma marked_ext c c' pos l l' : (forall p n, c p n = c' p n) -> marked c pos l l' -> marked c' pos l l'.
Proof.
  intros He. revert pos l'. induction l as [|t l IH]; intros pos [|t' l'] H; try done.
  cbn [marked] in *. rewrite He in H. destruct H as (H1 & H2 & H3 & H4 & H5). split_and!; try done. by apply IH.
Qed.

Lemma marked_data c pos l l' : marked c pos l l' -> Forall2 same_data l l'.
Proof.
  revert pos l'. induction l as [|t l IH]; intros pos [|t' l'] H; try done.
  destruct H as (H1 & _ & _ & _ & H2). constructor; [done|]. by eapply IH.
Qed.

Lemma marked_retrans c pos l l' : marked c pos l l' -> sumf m_retrans l' = sumf m_retrans l.
Proof.
  revert pos l'. induction l as [|t l IH]; intros pos [|t' l'] H; try done.
  destruct H as ((_ & _ & E) & Er & _ & _ & H2). rewrite !sumf_cons, E, Er. by rewrite (IH _ _ H2).
Qed.

Lemma marked_excl c pos l l' : marked c pos l l' ->
  Forall (fun t => m_sacked t = true -> m_lost t = false) l ->
  Forall (fun t => m_sacked t = true -> m_lost t = false) l'.
Proof.
  revert pos l'. induction l as [|t l IH]; intros pos [|t' l'] H Hx; try done.
  destruct H as (_ & _ & Es & El & H2). apply Forall_cons in Hx as [Hx Hl].
  apply Forall_cons. split; [|by eapply IH]. rewrite Es, El.
  destruct (m_sacked t), (c _ _); simpl; try done; intros _; rewrite ?Hx by done; by rewrite ?andb_false_r.
Qed.

Lemma marked_compose c1 c2 pos l1 l2 l3 :
  marked c1 pos l1 l2 -> marked c2 pos l2 l3 ->
  marked (fun p n => c1 p n || c2 p n) pos l1 l3.
Proof.
  revert pos l2 l3. induction l1 as [|t1 l1 IH]; intros pos [|t2 l2] [|t3 l3] H1 H2; try done.
  destruct H1 as ((A1 & A2 & A3) & A4 & A5 & A6 & A7). destruct H2 as ((B1 & B2 & B3) & B4 & B5 & B6 & B7).
  rewrite A3 in *. cbn [marked]. split_and!; [repeat split; congruence|congruence| | |by eapply IH].
  - by rewrite B5, A5, orb_assoc.
  - by rewrite B6, A6, negb_orb, andb_assoc.
Qed.

Lemma marked_elem c pos l l' x : marked c pos l l' -> x ∈ l ->
  exists x', x' ∈ l' /\ same_data x x' /\ (m_sacked x = true -> m_sacked x' = true).
Proof.
  revert pos l'. induction l as [|t l IH]; intros pos [|t' l'] H Hx; try done; [by apply elem_of_nil in Hx|].
  destruct H as (Hd & _ & Es & _ & H2). apply elem_of_cons in Hx as [->|Hx].
  - exists t'. split; [by left|]. split; [done|]. intros E. by rewrite Es, E.
  - destruct (IH _ _ H2 Hx) as (x' & ? & ? & ?). exists x'. split; [by right|done].
Qed.

Lemma marked_highest c pos l l' hs : marked c pos l l' -> highest_ok l hs -> highest_ok l' hs.
Proof.
  unfold highest_ok. destruct (fst hs) as [id|]; [|done]. intros H (x & Hx & E1 & E2 & E3).
  destruct (marked_elem _ _ _ _ _ H Hx) as (x' & Hx' & (F1 & F2 & _) & Hs).
  exists x'. split_and!; [done|congruence|auto|congruence].
Qed.

(** *** Inferring losses: the reference.  An item that is not SACKed is lost
    when at least [thresh] items are SACKed from it up to the highest SACK. *)

Definition nsacked (l : list TcpTxItem) : Z := zlen (List.filter m_sacked l).

Definition mark_lost (c : bool) (t : TcpTxItem) : TcpTxItem :=
  if c && negb (m_sacked t) && negb (m_lost t) then t <| m_lost := true |> else t.

Fixpoint mark_pre (thresh k : Z) (l : list TcpTxItem) : list TcpTxItem :=
  match l with
  | [] => []
  | t :: rest => mark_lost (thresh <=? k + nsacked (t :: rest)) t :: mark_pre thresh k rest
  end.

Definition infer_lost (thresh : Z) (highest : option Z) (l : list TcpTxItem) : list TcpTxItem :=
  match highest with
  | None => l
  | Some id =>
      match split_at id l with
      | Some (pre, it :: post) => mark_pre thresh 0 (pre ++ [it]) ++ post
      | _ => l
      end
  end.

Lemma nsacked_cons t l : nsacked (t :: l) = (if m_sacked t then 1 else 0) + nsacked l.
Proof. unfold nsacked. cbn [List.filter]. destruct (m_sacked t); [apply zlen_cons|done]. Qed.

Lemma nsacked_bounds l : 0 <= nsacked l <= zlen l.
Proof.
  unfold nsacked, zlen. pose proof (filter_length_le m_sacked l). lia.
Qed.

Lemma nsacked_app l k : nsacked (l ++ k) = nsacked l + nsacked k.
Proof. unfold nsacked. by rewrite List.filter_app, zlen_app. Qed.

Lemma mark_pre_snoc thresh k l x :
  mark_pre thresh k (l ++ [x]) =
  mark_pre thresh (k + nsacked [x]) l ++ [mark_lost (thresh <=? k + nsacked [x]) x].
Proof.
  revert k. induction l as [|t l IH]; intros k; [done|]. cbn [mark_pre app]. rewrite IH.
  rewrite (app_comm_cons l [x] t), nsacked_app.
  by replace (k + (nsacked (t :: l) + nsacked [x])) with (k + nsacked [x] + nsacked (t :: l)) by lia.
Qed.

Lemma mark_pre_data thresh k l : Forall2 same_data l (mark_pre thresh k l).
Proof.
  induction l as [|t l IH]; cbn [mark_pre]; constructor; [|done].
  unfold mark_lost. by destruct (_ && _ && _).
Qed.

Lemma mark_pre_sacked thresh k l : map m_sacked (mark_pre thresh k l) = map m_sacked l.
Proof.
  induction l as [|t l IH]; [done|]. cbn [mark_pre map]. rewrite IH. unfold mark_lost.
  by destruct (_ && _ && _).
Qed.

Lemma sumf_mark_lost c t l : sumf m_lost (mark_lost c t :: l)
  = (if c && negb (m_sacked t) && negb (m_lost t) then zlen (m_packet t) else 0) + sumf m_lost (t :: l).
Proof.
  rewrite !sumf_cons. unfold mark_lost. destruct (c && _ && _) eqn:E; [|lia]. rec_simpl.
  destruct (m_lost t); [by rewrite andb_false_r in E|]. lia.
Qed.

(** The backward walk computes the reference, and counts what it marks. *)
Lemma mark_lost_back_ok thresh pre : forall acc k L,
  0 <= k -> k + zlen pre < 2 ^ 32 -> 0 <= L -> L + total pre < 2 ^ 32 ->
  mark_lost_back thresh (rev pre) acc k L
  = (mark_pre thresh k pre ++ acc, k + nsacked pre,
     L + sumf m_lost (mark_pre thresh k pre) - sumf m_lost pre).
Proof.
  induction pre as [|x pre IH] using rev_ind; intros acc k L Hk Hn HL Ht.
  { cbn. rewrite Z.add_0_r. f_equal. lia. }
  rewrite tot_app, zlen_app in *. rewrite tot_cons in Ht. change (total []) with 0 in Ht.
  rewrite zlen_cons, zlen_nil in Hn. pose proof (zlen_nonneg (m_packet x)). pose proof (tot_nonneg pre).
  pose proof (zlen_nonneg pre).
  rewrite rev_app_distr. cbn [rev app mark_lost_back]. rewrite mark_pre_snoc, nsacked_app, !sumf_app.
  rewrite sumf_mark_lost.
  assert ((if m_sacked x then u32 (k + 1) else k) = k + nsacked [x]) as ->.
  { rewrite nsacked_cons. change (nsacked []) with 0. destruct (m_sacked x); [|lia].
    rewrite u32_small by (unfold is_u32; lia). lia. }
  assert (nsacked [x] <= 1) by apply (nsacked_bounds [x]). pose proof (nsacked_bounds [x]).
  unfold mark_lost. destruct (_ && _ && _); rewrite IH by
    (try rewrite u32_small by (unfold is_u32, GetSize; lia); unfold GetSize in *; lia);
    rewrite <- app_assoc; cbn [app]; (f_equal; [f_equal; lia|]);
    try rewrite u32_small by (unfold is_u32, GetSize; lia); unfold GetSize; lia.
Qed.

Lemma split_at_app id l : (exists x, x ∈ l /\ m_id x = id) ->
  exists pre it post, split_at id l = Some (pre, it :: post) /\ l = pre ++ it :: post /\ m_id it = id.
Proof.
  intros (x & Hx & Ex). induction l as [|t l IH]; [by apply elem_of_nil in Hx|]. cbn [split_at].
  destruct (Z.eqb_spec (m_id t) id) as [E|E]; [by exists [], t, l|].
  apply elem_of_cons in Hx as [->|Hx]; [done|]. destruct (IH Hx) as (pre & it & post & -> & -> & Ei).
  by exists (t :: pre), it, post.
Qed.

Lemma sacked_sumf l l' : Forall2 same_data l l' -> map m_sacked l' = map m_sacked l ->
  sumf m_sacked l' = sumf m_sacked l.
Proof.
  induction 1 as [|t t' k k' (_ & _ & Ht) Hk IH]; [done|]. cbn [map]. intros [= E1 E2].
  by rewrite !sumf_cons, E1, Ht, IH.
Qed.

Lemma mark_pre_retrans thresh k l : sumf m_retrans (mark_pre thresh k l) = sumf m_retrans l.
Proof.
  induction l as [|t l IH]; [done|]. cbn [mark_pre]. rewrite !sumf_cons, IH. unfold mark_lost.
  by destruct (_ && _ && _).
Qed.

Lemma mark_pre_excl thresh k l : Forall (fun t => m_sacked t = true -> m_lost t = false) l ->
  Forall (fun t => m_sacked t = true -> m_lost t = false) (mark_pre thresh k l).
Proof.
  induction 1 as [|t l Ht Hl IH]; cbn [mark_pre]; constructor; [|done].
  unfold mark_lost. destruct (_ && _ && _) eqn:E; [|done]. rec_simpl. intros Es. rewrite Es in E.
  by rewrite andb_false_r in E.
Qed.

Lemma mark_pre_elem thresh k l x : x ∈ l -> m_sacked x = true -> x ∈ mark_pre thresh k l.
Proof.
  intros Hx Es. induction l as [|t l IH]; [done|]. cbn [mark_pre].
  apply elem_of_cons in Hx as [->|Hx]; [|right; by apply IH].
  unfold mark_lost. rewrite Es, andb_false_r. by left.
Qed.

Lemma starts_zlen pos l : starts pos l -> zlen l <= total l.
Proof.
  revert pos. induction l as [|t l IH]; intros pos; [done|]. cbn [starts]. intros (_ & Hp & Hs).
  rewrite zlen_cons, tot_cons. specialize (IH _ Hs). lia.
Qed.

(** [infer_lost] applied to the sent list, as a change of the buffer. *)
Lemma UpdateLostCount_ok P b : tx_ok P b -> fst (m_highestSack b) <> None ->
  exists b', UpdateLostCount b = Ok b' /\ same_frame b b' /\ tx_ok P b'
  /\ m_sentList b' = infer_lost (m_dupAckThresh b) (fst (m_highestSack b)) (m_sentList b)
  /\ m_highestSack b' = m_highestSack b
  /\ sumf m_sacked (m_sentList b') = sumf m_sacked (m_sentList b).
Proof.
  intros H Hne. pose proof (counts_bounds true P b H) as Hcb. pose proof H as [].
  destruct tx_counts0. specialize (tx_high0 eq_refl). specialize (tx_head0 eq_refl).
  unfold highest_ok in tx_high0. destruct (fst (m_highestSack b)) as [id|] eqn:Ehi; [|done].
  destruct tx_high0 as (y & Hy & Ey & Ys & Yq). unfold UpdateLostCount, infer_lost.
  destruct (split_at_app id (m_sentList b)) as (pre & it & post & Es & El & Ei); [by exists y|].
  assert (y = it) as ->.
  { destruct tx_ids0 as [Hn _]. rewrite map_app in Hn. apply NoDup_app in Hn as (Hn & _ & _).
    pose proof (find_item_middle pre it post) as F1. rewrite <- El in F1. specialize (F1 Hn).
    apply list_elem_of_split in Hy as (p1 & p2 & El2).
    pose proof (find_item_middle p1 y p2) as F2. rewrite <- El2 in F2. specialize (F2 Hn).
    rewrite Ei, <- Ey in F1. congruence. }
  pose proof (starts_zlen _ _ tx_starts0) as Hz. rewrite Es, El in *.
  destruct pre as [|h pre]; [simpl in tx_head0; congruence|]. cbn [app] in *.
  assert (m_id h <> id) as Hh.
  { destruct tx_ids0 as [Hn _]. simpl in Hn. apply NoDup_cons in Hn as [Hn _]. intros E.
    apply Hn. rewrite E, <- Ei, !map_app. apply elem_of_app. left. apply elem_of_app. right. by left. }
  destruct (Z.eqb_spec (m_id h) id); [done|]. rewrite Ehi.
  assert (split_at id (pre ++ it :: post) = Some (pre, it :: post)) as ->.
  { cbn [split_at] in Es. destruct (Z.eqb_spec (m_id h) id); [done|].
    destruct (split_at id (pre ++ it :: post)) as [[? ?]|]; [|done]. congruence. }
  change (it :: rev pre) with (rev [it] ++ rev pre). rewrite <- rev_app_distr.
  rewrite tot_cons, zlen_cons in *. replace (pre ++ it :: post) with ((pre ++ [it]) ++ post) in *
    by (by rewrite <- app_assoc).
  set (L := pre ++ [it]) in *. rewrite tot_app, zlen_app in *.
  pose proof (tot_nonneg post). pose proof (tot_nonneg L). pose proof (tot_nonneg (m_appList b)).
  pose proof (zlen_nonneg (m_packet h)). pose proof (zlen_nonneg post).
  change (h :: L ++ post) with ((h :: L) ++ post) in *. rewrite sumf_app, sumf_cons in ck_lost0.
  pose proof (sumf_bounds m_lost L). pose proof (sumf_bounds m_lost post).
  pose proof (sumf_bounds m_lost (mark_pre (m_dupAckThresh b) 0 L)) as Hmb.
  rewrite (data_total _ _ (mark_pre_data (m_dupAckThresh b) 0 L)) in Hmb.
  rewrite mark_lost_back_ok by (destruct (m_lost h); lia). res_step.
  set (T := m_dupAckThresh b) in *. simpl in tx_head0.
  change (mark_pre T 0 (h :: L)) with (mark_lost (T <=? 0 + nsacked (h :: L)) h :: mark_pre T 0 L).
  assert (forall b', b' = b <| m_sentList := mark_pre T 0 (h :: L) ++ post |>
      <| m_lostOut := sumf m_lost (mark_pre T 0 (h :: L) ++ post) |> ->
    same_frame b b' /\ tx_ok P b' /\ m_sentList b' = mark_pre T 0 (h :: L) ++ post
    /\ m_highestSack b' = m_highestSack b /\ sumf m_sacked (m_sentList b') = sumf m_sacked ((h :: L) ++ post))
    as Hfin.
  { intros b' ->. assert (Forall2 same_data ((h :: L) ++ post) (mark_pre T 0 (h :: L) ++ post)) as Hd
      by (apply Forall2_app; [apply mark_pre_data|apply data_refl]).
    assert (sumf m_sacked (mark_pre T 0 (h :: L) ++ post) = sumf m_sacked ((h :: L) ++ post)) as Hsk
      by (apply sacked_sumf; [done|by rewrite !map_app, mark_pre_sacked]).
    match goal with |- same_frame b ?x /\ _ => assert (same_frame b x) as Hf
      by (split; try done; rewrite El; exact Hd) end.
    split; [done|]. split_and!; try done. eapply tx_inv_flags; [exact H|exact Hf| | |].
    - split; rec_simpl; try done.
      + rewrite ck_sacked0. by rewrite <- Hsk.
      + rewrite ck_retrans0. rewrite !sumf_app, mark_pre_retrans. unfold mark_lost.
        destruct (_ && _ && _); reflexivity.
      + apply (Forall_app _ (h :: L) post) in ck_excl0 as [Hx1 Hx2].
        apply (Forall_app _ (mark_pre T 0 (h :: L))). split; [by apply mark_pre_excl|done].
    - intros _. simpl. unfold mark_lost. by destruct (_ && _ && _).
    - intros _. unfold highest_ok. rec_simpl. rewrite Ehi. exists it. split_and!; try done.
      apply (elem_of_app (mark_pre T 0 (h :: L))). left. apply mark_pre_elem; [|done].
      right. apply elem_of_app. right. by left. }
  destruct (Z.eqb_spec (m_id h) id); [done|]. clear Hz. pose proof (sumf_mark_lost (T <=? 0 + nsacked (h :: L)) h (mark_pre T 0 L)) as Esum.
  rewrite (sumf_cons m_lost h), (nsacked_cons h), tx_head0, !Z.add_0_l in *.
  match goal with |- context [let '(h, l) := ?e in _] =>
    assert (e = (mark_lost (T <=? nsacked L) h, sumf m_lost (mark_pre T 0 (h :: L) ++ post))) as -> end.
  { rewrite sumf_app. cbn [mark_pre]. rewrite (nsacked_cons h), tx_head0, !Z.add_0_l, Esum.
    unfold mark_lost, GetSize. rewrite tx_head0. cbn [negb]. rewrite andb_true_r.
    clear Esum. destruct (m_lost h) in *, (T <=? nsacked L); cbn [negb andb]; cbn iota; f_equal; try lia.
    rewrite u32_small by (unfold is_u32; lia). lia. }
  eexists. split; [reflexivity|]. pose proof (Hfin _ eq_refl) as Hf. cbn [mark_pre] in Hf |- *.
  rewrite (nsacked_cons h), tx_head0, !Z.add_0_l in * |- *. exact Hf.
Qed.

Section Sack.
Context {R : Type} (cb : R -> TcpTxItem -> R * TcpTxItem).
Hypothesis cb_same : forall r x, same_item x (snd (cb r x)).

Definition wrap_blk (blk : Z * Z) : Z * Z := (u32 (fst blk), u32 (snd blk)).

Definition sb_range (s : Scoreboard (R := R)) (n : Z) : Prop :=
  0 <= sb_sacked s /\ sb_sacked s + n <= 2 ^ 31 /\ n <= 2 ^ 30
  /\ 0 <= sb_bytes s /\ sb_bytes s + n <= 2 ^ 31.

Lemma update_block_ok P blk l : forall pos s,
  starts pos l -> P <= pos -> pos + total l <= P + 2 ^ 30 ->
  P - 2 ^ 30 < fst blk <= P + 2 ^ 30 -> P - 2 ^ 30 < snd blk <= P + 2 ^ 30 ->
  Forall (fun t => m_sacked t = true -> m_lost t = false) l ->
  sb_range s (total l) -> sumf m_lost l <= sb_lost s <= 2 ^ 30 ->
  exists l' s', update_block cb (wrap_blk blk) l (u32 pos) s = Ok (l', s')
  /\ marked (covers blk) pos l l'
  /\ sb_lost s' = sb_lost s - sumf m_lost l + sumf m_lost l'
  /\ sb_sacked s' = sb_sacked s + sumf m_sacked l' - sumf m_sacked l
  /\ sb_bytes s' = sb_bytes s + sumf m_sacked l' - sumf m_sacked l
  /\ (sb_highest s' = sb_highest s \/ highest_ok l' (sb_highest s') /\ fst (sb_highest s') <> None)
  /\ (sb_bytes s < sb_bytes s' -> fst (sb_highest s') <> None).
Proof.
  induction l as [|t l IH]; intros pos s Hst HP Hmax Hf Hs Hex Hsb Hlo.
  { exists [], s. split_and!; try done; try (cbn; lia). by left. }
  destruct Hst as (Est & Hpos & Hst). apply Forall_cons in Hex as [Hx Hex].
  rewrite tot_cons in *. pose proof (tot_nonneg l). destruct Hsb as (B1 & B2 & B3 & B4 & B5).
  pose proof (sumf_bounds m_lost l). pose proof (sumf_bounds m_sacked l).
  cbn [update_block]. unfold wrap_blk. cbn [fst snd]. unfold GetSize. seqw.
  fold (wrap_blk blk). fold (covers blk pos (zlen (m_packet t))).
  rewrite sumf_cons in Hlo |- *.
  destruct (covers blk pos (zlen (m_packet t))) eqn:Ec.
  - destruct (m_sacked t) eqn:Es.
    + rewrite Hx by done. cbn [negb ns_assert]. res_step.
      destruct (IH (pos + zlen (m_packet t)) s) as (l' & s' & -> & Hm & E1 & E2 & E3 & E4 & E5);
        try done; try lia; [repeat split; lia|rewrite Hx in Hlo by done; lia|].
      res_step. exists (t :: l'), s'. rewrite !sumf_cons, Hx, Es by done.
      split_and!; try done; try lia.
      * cbn [marked]. rewrite Ec, Es, Hx by done. by split_and!.
      * destruct E4 as [?|[Hh ?]]; [by left|right]. split; [|done].
        eapply highest_ok_mono; [|exact Hh]. intros. by right.
    + unfold sack_item. set (t1 := t <| m_lost := false |> <| m_sacked := true |>).
      destruct (cb (sb_cb s) t1) as [r' t2] eqn:Ecb.
      pose proof (cb_same (sb_cb s) t1) as Hsame. rewrite Ecb in Hsame. cbn [snd] in Hsame.
      destruct Hsame as (C1 & C2 & C3 & C4 & C5 & C6). rec_simpl.
      set (hi := match fst (sb_highest s) with None => _ | Some _ => _ end).
      set (s1 := mkSB _ _ hi _ r').
      assert (hi = sb_highest s \/ hi = (Some (m_id t), u32 pos)) as Hhi.
      { unfold hi. destruct (fst (sb_highest s)); [destruct (seq_le _ _)|]; auto. }
      assert (fst hi <> None) as Hne.
      { unfold hi. destruct (fst (sb_highest s)) eqn:E; [destruct (seq_le _ _)|]; cbn; congruence. }
      assert (sb_sacked s1 = sb_sacked s + zlen (m_packet t)) as S1
        by (unfold s1; cbn [sb_sacked]; unfold GetSize; apply u32_small; unfold is_u32; lia).
      assert (sb_bytes s1 = sb_bytes s + zlen (m_packet t)) as S2
        by (unfold s1; cbn [sb_bytes]; unfold GetSize; apply u32_small; unfold is_u32; lia).
      assert (sb_lost s1 = sb_lost s - (if m_lost t then zlen (m_packet t) else 0)) as S3.
      { unfold s1; cbn [sb_lost]. unfold GetSize. destruct (m_lost t); [|lia].
        apply u32_small. unfold is_u32. lia. }
      destruct (IH (pos + zlen (m_packet t)) s1) as (l' & s' & -> & Hm & E1 & E2 & E3 & E4 & E5);
        try done; try lia; [repeat split; lia|destruct (m_lost t); lia|].
      res_step. exists (t2 :: l'), s'.
      change (sb_highest s1) with hi in *.
      assert (m_sacked t2 = true /\ m_lost t2 = false /\ zlen (m_packet t2) = zlen (m_packet t)) as (F1 & F2 & F3)
        by (rewrite C3, C4, C6; done).
      rewrite !sumf_cons, F1, F2, F3, Es. pose proof (sumf_bounds m_sacked l').
      assert (sumf m_sacked l <= sumf m_sacked l') as Hmono.
      { clear -Hm. revert Hm. generalize (pos + zlen (m_packet t)). revert l'.
        induction l as [|a l IHl]; intros [|a' l'] z Hm; try done.
        destruct Hm as ((_ & _ & D3) & _ & D4 & _ & D5). rewrite !sumf_cons, D3, D4.
        specialize (IHl _ _ D5). pose proof (zlen_nonneg (m_packet a)).
        destruct (m_sacked a), (covers _ _ _); simpl; lia. }
      assert (marked (covers blk) pos (t :: l) (t2 :: l')) as Hmk.
      { cbn [marked]. rewrite Ec, Es, F1, F2. rewrite andb_false_r. by split_and!. }
      split; [done|]. split; [cbn [marked] in Hmk; rewrite F1, F2, Es in Hmk; exact Hmk|]. split_and!; try lia.
      * destruct E4 as [->|[Hh ?]].
        -- destruct Hhi as [->|Ehi]; [by left|right]. rewrite Ehi. split; [|done].
           unfold highest_ok. cbn [fst snd]. exists t2. split_and!; try done; [by left|congruence].
        -- right. split; [|done]. eapply highest_ok_mono; [|exact Hh]. intros. by right.
      * intros _. destruct E4 as [->|[_ ?]]; done.
  - destruct (Z.ltb_spec (snd blk) (pos + zlen (m_packet t))) as [Hpast|Hin].
    + exists (t :: l), s. split; [done|]. split; [|rewrite <- !sumf_cons; split_and!; try (intros; lia); by left].
      cbn [marked]. rewrite Ec, orb_false_r, andb_true_r. split_and!; try done. apply marked_none.
      intros p n Hp Hn. unfold covers. lia.
    + destruct (IH (pos + zlen (m_packet t)) s) as (l' & s' & -> & Hm & E1 & E2 & E3 & E4 & E5);
        try done; try lia; [repeat split; lia|destruct (m_lost t); lia|].
      res_step. exists (t :: l'), s'. rewrite !sumf_cons.
      assert (marked (covers blk) pos (t :: l) (t :: l')).
      { cbn [marked]. rewrite Ec, orb_false_r, andb_true_r. by split_and!. }
      do 2 (split; [done|]). split_and!; try lia; try done.
      destruct E4 as [?|[Hh ?]]; [by left|right]. split; [|done].
      eapply highest_ok_mono; [|exact Hh]. intros. by right.
Qed.

(** The state of the walk of the blocks, started on [l0]. *)
Record sb_ok (P : Z) (c : Z -> Z -> bool) (l0 l : list TcpTxItem)
    (s : Scoreboard (R := R)) : Prop := {
  so_marked : marked c P l0 l;
  so_lost : sb_lost s = sumf m_lost l;
  so_sacked : sb_sacked s = sumf m_sacked l;
  so_bytes : sb_bytes s = sumf m_sacked l - sumf m_sacked l0;
  so_excl : Forall (fun t => m_sacked t = true -> m_lost t = false) l;
  so_high : highest_ok l (sb_highest s);
  so_some : 0 < sb_bytes s -> fst (sb_highest s) <> None;
}.

Lemma marked_sacked_le c pos l l' : marked c pos l l' -> sumf m_sacked l <= sumf m_sacked l'.
Proof.
  revert pos l'. induction l as [|a l IHl]; intros z [|a' l'] Hm; try done.
  destruct Hm as ((_ & _ & D3) & _ & D4 & _ & D5). rewrite !sumf_cons, D3, D4.
  specialize (IHl _ _ D5). pose proof (zlen_nonneg (m_packet a)).
  destruct (m_sacked a), (c _ _); simpl; lia.
Qed.

Lemma update_blocks_ok P E blks l0 : starts P l0 -> 0 <= total l0 <= 2 ^ 30 -> E = P + total l0 ->
  Forall (fun blk => P - 2 ^ 30 < fst blk <= E /\ P - 2 ^ 30 < snd blk <= P + 2 ^ 30) blks ->
  forall c l s, sb_ok P c l0 l s ->
  exists l' s', update_blocks cb (map wrap_blk blks) (u32 P) (u32 E) l s = Ok (false, l', s')
  /\ sb_ok P (fun p n => c p n || existsb (fun blk => covers blk p n) blks) l0 l' s'.
Proof.
  intros Hst Ht HE. induction blks as [|blk blks IH]; intros Hb c l s Hs.
  { exists l, s. split; [done|]. destruct Hs. split; try done. cbn [existsb].
    eapply marked_ext; [|done]. intros. by rewrite orb_false_r. }
  apply Forall_cons in Hb as [(B1 & B2) Hb]. cbn [update_blocks map].
  change (fst (wrap_blk blk)) with (u32 (fst blk)). seqw. destruct (Z.ltb_spec E (fst blk)); [lia|].
  destruct Hs. pose proof (marked_data _ _ _ _ so_marked0) as Hd. pose proof (data_total _ _ Hd) as Ht'.
  pose proof (sumf_bounds m_lost l). pose proof (sumf_bounds m_sacked l). pose proof (sumf_bounds m_sacked l0).
  pose proof (marked_sacked_le _ _ _ _ so_marked0).
  destruct (update_block_ok P blk l P s) as (l' & s' & -> & Hm & E1 & E2 & E3 & E4 & E5); try done; try lia.
  { by apply (data_starts l0). }
  { repeat split; lia. }
  res_step. destruct (IH Hb (fun p n => c p n || covers blk p n) l' s') as (l2 & s2 & -> & Hsb2).
  { split; try lia.
    - by eapply marked_compose.
    - by eapply marked_excl.
    - destruct E4 as [->|[Hh _]]; [|done]. by eapply marked_highest.
    - intros Hpos. destruct (Z.ltb_spec (sb_bytes s) (sb_bytes s')); [auto|].
      destruct E4 as [->|[_ Hn]]; [|done]. apply so_some0. lia. }
  exists l2, s2. split; [done|]. destruct Hsb2. split; try done. cbn [existsb].
  eapply marked_ext; [|done]. intros p n. cbn beta. by rewrite orb_assoc.
Qed.
Lemma tx_update_ok P b blks r :
  tx_ok P b -> m_sentList b <> [] ->
  Forall (fun blk => P < fst blk <= P + m_sentSize b /\ P - 2 ^ 30 < snd blk <= P + 2 ^ 30) blks ->
  exists n b' r' l1, Update cb b (map wrap_blk blks) r = Ok (n, b', r')
  /\ tx_ok P b' /\ content b' = content b /\ m_appList b' = m_appList b
  /\ marked (fun p n => existsb (fun blk => covers blk p n) blks) P (m_sentList b) l1
  /\ n = sumf m_sacked (m_sentList b') - sumf m_sacked (m_sentList b)
  /\ m_sentList b' = (if 0 <? n then infer_lost (m_dupAckThresh b) (fst (m_highestSack b')) l1 else l1).
Proof.
  intros H Hne Hb. pose proof (counts_bounds true P b H). pose proof H as [].
  destruct tx_counts0. specialize (tx_head0 eq_refl). specialize (tx_high0 eq_refl).
  unfold Update. rewrite tx_first0, add32_wrap, tx_sent0.
  set (s0 := mkSB _ _ _ _ _). pose proof (tot_nonneg (m_sentList b)).
  destruct (update_blocks_ok P (P + total (m_sentList b)) blks (m_sentList b)) with
    (c := fun _ _ : Z => false) (l := m_sentList b) (s := s0) as (l1 & s1 & -> & []); try done.
  { rewrite tx_sent0 in *. lia. }
  { eapply Forall_impl; [exact Hb|]. cbn beta. intros blk. rewrite tx_sent0 in *. lia. }
  { split; try done; try (change (sb_bytes s0) with 0; lia). by apply marked_none. }
  res_step. cbn [orb] in *. set (b1 := b <| m_sentList := _ |> <| m_lostOut := _ |> <| m_sackedOut := _ |>
     <| m_highestSack := _ |>). pose proof (marked_data _ _ _ _ so_marked0) as Hd.
  assert (same_frame b b1) as Hf1 by (by split).
  assert (head_ok l1) as Hh1.
  { destruct (m_sentList b) as [|h t]; [done|]. destruct l1 as [|h1 t1]; [done|].
    destruct so_marked0 as (_ & _ & Es & _). cbn in tx_head0 |- *. rewrite Es, tx_head0. cbn [orb].
    apply not_true_is_false. intros Hx. apply existsb_exists in Hx as (blk & Hin & Hc).
    rewrite Forall_forall in Hb. apply list_elem_of_In in Hin. specialize (Hb _ Hin). unfold covers in Hc. lia. }
  assert (tx_ok P b1) as Hb1.
  { eapply tx_inv_flags; [exact H|exact Hf1| |done|done]. split; [exact so_lost0|exact so_sacked0| |exact so_excl0].
    change (m_retransOut b = sumf m_retrans l1). rewrite (marked_retrans _ _ _ _ so_marked0). exact ck_retrans0. }
  assert (exists b2, (if 0 <? sb_bytes s1 then
      ns_assert (negb (bool_decide (fst (m_highestSack b1) = None))) ;; UpdateLostCount b1 else Ok b1) = Ok b2
    /\ same_frame b1 b2 /\ tx_ok P b2 /\ sumf m_sacked (m_sentList b2) = sumf m_sacked l1
    /\ m_sentList b2 = if 0 <? sb_bytes s1
                       then infer_lost (m_dupAckThresh b) (fst (m_highestSack b2)) l1 else l1)
    as (b2 & Hrun & Hf2 & Hb2 & Es2 & El2).
  { destruct (Z.ltb_spec 0 (sb_bytes s1)) as [Hpos|].
    - specialize (so_some0 Hpos). rewrite bool_decide_false by done. cbn [negb ns_assert]. res_step.
      destruct (UpdateLostCount_ok P b1 Hb1) as (b2 & -> & Hf2 & Hb2 & El2 & Eh2 & Es2); [done|].
      exists b2. rewrite Eh2. by split_and!.
    - exists b1. split_and!; try done. }
  revert Hrun. res_step. intros ->. pose proof (counts_bounds true P b2 Hb2). pose proof (tx_head _ _ _ Hb2 eq_refl) as Hh2.
  pose proof (Forall2_length _ _ _ (sf_sent _ _ Hf2)) as Hl2. pose proof (Forall2_length _ _ _ Hd) as Hl1.
  change (m_sentList b1) with l1 in Hl2.
  destruct (m_sentList b2) as [|h2 t2] eqn:E2; [destruct l1, (m_sentList b); done|].
  simpl in Hh2. rewrite Hh2. cbn [negb ns_assert]. res_step. rewrite u32_small by (unfold is_u32; lia).
  destruct (Z.leb_spec (m_sackedOut b2 + m_lostOut b2) (m_sentSize b2)); [|lia]. cbn [ns_assert]. res_step.
  exists (sb_bytes s1), b2, (sb_cb s1), l1. split; [done|]. split; [done|].
  split; [by rewrite (frame_content _ _ Hf2), (frame_content _ _ Hf1)|].
  split; [by rewrite (sf_app _ _ Hf2)|]. split; [done|]. rewrite E2. split; [lia|done].
Qed.

End Sack.

(** ** The buffer as a stream

    [tx_reach n S P b]: [b] is a buffer created at the position [n], to which
    the application gave the bytes [S] and of which the peer acknowledged the
    positions before [P], by any sequence of the socket's calls. *)
Inductive tx_reach (n : Z) : bytes -> Z -> TcpTxBuffer -> Prop :=
| reach_new : tx_reach n [] n (TcpTxBuffer_new (u32 n))
| reach_max S P b m : tx_reach n S P b -> m_size b <= m <= 2 ^ 30 ->
    tx_reach n S P (SetMaxBufferSize b m)
| reach_thresh S P b k : tx_reach n S P b -> tx_reach n S P (SetDupAckThresh b k)
| reach_segment S P b k : tx_reach n S P b -> tx_reach n S P (SetSegmentSize b k)
| reach_sack S P b e : tx_reach n S P b -> tx_reach n S P (SetSackEnabled b e)
| reach_add S P b p : tx_reach n S P b ->
    tx_reach n (if fst (Add b p) then S ++ p else S) P (snd (Add b p))
| reach_send S P b now k item b' : tx_reach n S P b ->
    0 < k < 2 ^ 31 -> m_sentSize b < m_size b ->
    CopyFromSequence now b k (u32 (P + m_sentSize b)) = Ok (item, b') ->
    tx_reach n S P b'
| reach_resend S P b pre x post now k item b' : tx_reach n S P b ->
    m_sentList b = pre ++ x :: post -> m_sacked x = false -> 0 < k <= total (x :: post) ->
    CopyFromSequence now b k (u32 (P + total pre)) = Ok (item, b') ->
    tx_reach n S P b'
| reach_discard S P b now U (cb : unit -> TcpTxItem -> unit * TcpTxItem) b' r' : tx_reach n S P b ->
    P < U <= P + m_sentSize b ->
    (~ sack_at U P (m_sentList b)
     \/ m_sackEnabled b = false /\ Forall (fun x => m_lost x = false) (tl (m_sentList b))) ->
    DiscardUpTo cb now b (u32 U) tt = Ok (b', r') -> tx_reach n S U b'
| reach_update S P b blks (cb : unit -> TcpTxItem -> unit * TcpTxItem) k b' r' : tx_reach n S P b ->
    (forall r x, same_item x (snd (cb r x))) -> m_sentList b <> [] ->
    Forall (fun blk => P < fst blk <= P + m_sentSize b /\ P - 2 ^ 30 < snd blk <= P + 2 ^ 30) blks ->
    Update cb b (map wrap_blk blks) tt = Ok (k, b', r') -> tx_reach n S P b'
| reach_lost S P b resetSack b' : tx_reach n S P b ->
    SetSentListLost b resetSack = Ok b' -> tx_reach n S P b'
| reach_head S P b : tx_reach n S P b -> tx_reach n S P (MarkHeadAsLost b)
| reach_reno S P b : tx_reach n S P b -> tx_reach n S P (ResetRenoSack b)
| reach_dupack S P b h t b' : tx_reach n S P b -> m_sentList b = h :: t ->
    (m_sackEnabled b = true -> t <> []) -> Forall (fun x => m_lost x = false) t ->
    AddRenoSack b = Ok b' -> tx_reach n S P b'
| reach_undo S P b b' : tx_reach n S P b ->
    DeleteRetransmittedFlagFromHead b = Ok b' -> tx_reach n S P b'.

Lemma zdrop_app_le {A} d (l k : list A) : 0 <= d <= zlen l -> zdrop d (l ++ k) = zdrop d l ++ k.
Proof.
  intros H. unfold zdrop, zlen in *. rewrite drop_app.
  by replace (Z.to_nat d - length l)%nat with 0%nat by lia.
Qed.

Lemma new_ok n : tx_ok n (TcpTxBuffer_new (u32 n)).
Proof.
  split; rec_simpl; try done; try (by split); try lia. split; [by apply NoDup_nil|done].
Qed.

Lemma tx_reach_ok n S P b :
  tx_reach n S P b ->
  tx_ok P b /\ n <= P <= n + zlen S /\ content b = zdrop (P - n) S.
Proof.
  induction 1 as [|S P b m _ (H & HP & Hc) Hm|S P b k _ (H & HP & Hc)|S P b k _ (H & HP & Hc)
    |S P b e _ (H & HP & Hc)|S P b p _ (H & HP & Hc)
    |S P b now k item b' _ (H & HP & Hc) Hk Hs Hrun
    |S P b pre x post now k item b' _ (H & HP & Hc) El Hx Hk Hrun
    |S P b now U cb b' r' _ (H & HP & Hc) HU Hsack Hrun
    |S P b blks cb k b' r' _ (H & HP & Hc) Hcb Hne Hb Hrun
    |S P b rs b' _ (H & HP & Hc) Hrun|S P b _ (H & HP & Hc)|S P b _ (H & HP & Hc)
    |S P b h t b' _ (H & HP & Hc) El Ht Hlost Hrun|S P b b' _ (H & HP & Hc) Hrun].
  - split; [apply new_ok|]. rewrite Z.sub_diag. split; [|done]. pose proof (zlen_nonneg (A := Z) []). lia.
  - split; [|done]. destruct H as [? ? ? ? ? ? [] ? ? ?]; split; rec_simpl; try done; by split.
  - split; [|done]. destruct H as [? ? ? ? ? ? [] ? ? ?]; split; rec_simpl; try done; by split.
  - split; [|done]. destruct H as [? ? ? ? ? ? [] ? ? ?]; split; rec_simpl; try done; by split.
  - split; [|done]. destruct H as [? ? ? ? ? ? [] ? ? ?]; split; rec_simpl; try done; by split.
  - pose proof (content_len _ _ _ H) as Hlen. destruct (Add_ok P b p H) as (H' & _ & [(-> & _ & Ec)|(-> & _ & Ec)]).
    + split; [done|]. rewrite Ec, Hc, zlen_app. pose proof (zlen_nonneg p).
      split; [lia|]. by rewrite zdrop_app_le by lia.
    + rewrite Ec in *. split; [done|]. by split.
  - pose proof H as []. rewrite tx_sent0 in *.
    destruct (tx_copy_new_ok P b now k H) as (it & b2 & E & H2 & Ec & _); [done|lia|].
    rewrite E in Hrun. injection Hrun as <- <-. split; [done|]. by rewrite Ec.
  - pose proof (tx_bounds P b H). pose proof H as []. pose proof (tot_nonneg pre).
    assert (total (m_sentList b) = total pre + total (x :: post)) as Et by (by rewrite El, tot_app).
    destruct (tx_copy_retransmit_ok P b now pre x post k H El Hx) as (it & b2 & tl & E & H2 & Ec & _); [lia|left; lia|].
    rewrite E in Hrun. injection Hrun as <- <-. split; [done|]. by rewrite Ec.
  - pose proof (content_len _ _ _ H) as Hlen. pose proof H as []. pose proof (tot_nonneg (m_appList b)).
    destruct (tx_discard_ok cb now P U b tt H) as (b2 & r2 & E & H2 & Ec & _); [lia|lia|done|].
    rewrite E in Hrun. injection Hrun as <- <-. split; [done|]. rewrite Ec, Hc. unfold zdrop in *.
    rewrite drop_drop. split; [|f_equal; lia]. unfold zlen in *. rewrite Hc, length_drop in Hlen. lia.
  - destruct (tx_update_ok cb Hcb P b blks tt H Hne Hb) as (k2 & b2 & r2 & l1 & E & H2 & Ec & _).
    rewrite E in Hrun. injection Hrun as <- <- <-. split; [done|]. by rewrite Ec.
  - destruct (SetSentListLost_ok P b rs H) as (b2 & E & Hf & H2 & _). rewrite E in Hrun.
    injection Hrun as <-. split; [done|]. by rewrite (frame_content _ _ Hf).
  - destruct (MarkHeadAsLost_ok true P b H) as (Hf & H2 & _); [by apply (tx_head _ _ _ H)|].
    split; [done|]. by rewrite (frame_content _ _ Hf).
  - destruct (ResetRenoSack_ok P b H) as (Hf & H2). split; [done|]. by rewrite (frame_content _ _ Hf).
  - assert (tx_inv false P b) as Hw by (by destruct H; split).
    pose proof (tx_head _ _ _ H eq_refl) as Hh. rewrite El in Hh.
    destruct (AddRenoSack_ok P b h t Hw El Hh Ht Hlost) as (b2 & E & Hf & H2 & (t2 & E2) & Hhi).
    rewrite E in Hrun. injection Hrun as <-. rewrite (frame_content _ _ Hf). split; [|done].
    pose proof H2 as []. split; try done; intros _; [by rewrite E2|].
    destruct Hhi as [[-> ->]|?]; [|done]. by apply (tx_high _ _ _ H).
  - destruct (DeleteRetransmittedFlagFromHead_ok P b H) as (b2 & E & Hf & H2). rewrite E in Hrun.
    injection Hrun as <-. split; [done|]. by rewrite (frame_content _ _ Hf).
Qed.


(** The data in flight of RFC 6675: neither SACKed nor lost, and what was
    retransmitted. *)
Definition in_flight (l : list TcpTxItem) : Z :=
  sumf (fun t => negb (m_sacked t) && negb (m_lost t)) l + sumf m_retrans l.

Lemma tx_bytes_in_flight_ok P b :
  tx_ok P b -> BytesInFlight b = Ok (in_flight (m_sentList b)).
Proof.
  intros H. pose proof (counts_bounds true P b H) as Hb. destruct H. destruct tx_counts0.
  unfold BytesInFlight, in_flight. rewrite (u32_small (_ + m_lostOut b)), (u32_small (_ - _)), u32_small by (unfold is_u32; lia).
  destruct (Z.leb_spec (m_sackedOut b + m_lostOut b) (m_sentSize b)); [|lia]. cbn [ns_assert]. res_step.
  rewrite ck_lost0, ck_sacked0, ck_retrans0, tx_sent0. do 2 f_equal. clear -ck_excl0.
  unfold total. induction ck_excl0 as [|t l Ht Hl IH]; [done|]. rewrite !sumf_cons. cbv beta.
  destruct (m_sacked t) eqn:E; [rewrite Ht by done|destruct (m_lost t)]; cbn [negb andb]; lia.
Qed.

(** BytesInFlight, which the code computes from the counters, is the
    number of bytes in flight that the items of the scoreboard say; it neither
    underflows nor wraps. *)
Theorem tx_bytes_in_flight P b :
  tx_ok P b -> BytesInFlight b = Ok (in_flight (m_sentList b)).
Proof. exact (tx_bytes_in_flight_ok P b). Qed.

(** ** Witnesses: a buffer whose data wraps around the sequence space *)

Definition wP : Z := 2 ^ 32 - 3.
Definition w_item (id pos : Z) (p : bytes) : TcpTxItem :=
  (TcpTxItem_new id) <| m_startSeq := u32 pos |> <| m_packet := p |>.
Definition wb : TcpTxBuffer :=
  mkTx [w_item 2 0 [7; 8; 9; 10]] [w_item 0 wP [1; 2]; w_item 1 (wP + 2) [3; 4; 5]]
    32768 9 5 (u32 wP) (None, 0) 0 0 0 3 1000 false true 3.

Lemma wb_ok : tx_ok wP wb.
Proof.
  constructor; try reflexivity; try done.
  - by repeat constructor.
  - split; [reflexivity..|by repeat constructor].
  - split; [|by repeat constructor]. apply (bool_decide_unpack _). vm_compute. exact I.
Qed.

Lemma tx_copy_new_witness : exists item b',
  CopyFromSequence 7 wb 3 (u32 (wP + 5)) = Ok (Some item, b') /\ m_packet item = [7; 8; 9]
  /\ m_startSeq item = 2.
Proof.
  destruct (tx_copy_new wP wb 7 3 wb_ok) as (item & b' & E & _ & _ & Ep & Es & _); [lia|reflexivity|].
  exists item, b'. split; [exact E|]. rewrite Ep, Es. split; reflexivity.
Defined.

Lemma tx_copy_retransmit_witness : exists item b' tail,
  CopyFromSequence 7 wb 3 (u32 (wP + 2)) = Ok (Some item, b')
  /\ m_sentList b' = [w_item 0 wP [1; 2]] ++ item :: tail /\ m_retrans item = true.
Proof.
  destruct (tx_copy_retransmit wP wb 7 [w_item 0 wP [1; 2]] (w_item 1 (wP + 2) [3; 4; 5]) [] 3 wb_ok)
    as (item & b' & tail & E & _ & _ & _ & _ & _ & _ & Er & El);
    [reflexivity|reflexivity|lia|left; by vm_compute|].
  exists item, b', tail. split; [exact E|]. split; [exact El|exact Er].
Defined.

Definition wP2 : Z := 2 ^ 32 - 6.
Definition wb2 : TcpTxBuffer :=
  mkTx [w_item 1 0 [7; 8; 9; 10]] [w_item 0 wP2 [1; 2; 3]]
    32768 7 3 (u32 wP2) (None, 0) 0 0 0 3 1000 false true 2.

Lemma wb2_ok : tx_ok wP2 wb2.
Proof.
  constructor; try reflexivity; try done.
  - by repeat constructor.
  - split; [reflexivity..|by repeat constructor].
  - split; [|by repeat constructor]. apply (bool_decide_unpack _). vm_compute. exact I.
Qed.

Lemma tx_copy_partial_wrap_witness : CopyFromSequence 7 wb2 7 (u32 wP2) = Err NullDeref.
Proof. apply (tx_copy_partial_wrap wP2 wb2 7 wP2 7 wb2_ok); by vm_compute. Defined.

Lemma tx_discard_witness : exists b' r',
  DiscardUpTo pair 7 wb (u32 (wP + 4)) tt = Ok (b', r') /\ content b' = [5; 7; 8; 9; 10].
Proof.
  destruct (tx_discard pair 7 wP (wP + 4) wb tt wb_ok) as (b' & r' & E & _ & Ec & _).
  - unfold wP. lia.
  - left. by vm_compute.
  - left. intros (pre & x & post & El & Hx & _). destruct pre as [|a [|a' [|a'' pre]]]; injection El; intros; subst; done.
  - exists b', r'. split; [exact E|]. rewrite Ec. reflexivity.
Defined.



Lemma tx_bytes_in_flight_witness : BytesInFlight wb = Ok 5.
Proof. rewrite (tx_bytes_in_flight wP wb wb_ok). reflexivity. Defined.

(** ** The highest SACKed segment *)

(** Five segments of two bytes, of which the third, fourth and fifth are
    SACKed one by one, in the given order. *)
Definition sack_in_order (order : list Z) : res TcpTxBuffer :=
  let b := mkTx [] (map (fun k => w_item k (100 + 2 * k) [k; k]) [0; 1; 2; 3; 4])
             32768 10 10 100 (None, 0) 0 0 0 3 2 false true 5 in
  foldl (fun m k => b ← m ; '(_, b, _) ← Update pair b [(100 + 2 * k, 102 + 2 * k)] tt ; Ok b)
    (Ok b) order.

(** The order in which SACKs arrive matters: with the same three segments
    SACKed, the first two are lost when the SACKs arrive in ascending order;
    in descending order the highest-SACK iterator, which the comparison with
    the end of the segment moves back to the segment below, ends at the third,
    and no segment is lost. *)
Theorem tx_highest_sack_order :
  exists up down, sack_in_order [2; 3; 4] = Ok up /\ sack_in_order [4; 3; 2] = Ok down
  /\ map m_sacked (m_sentList up) = [false; false; true; true; true]
  /\ map m_sacked (m_sentList down) = [false; false; true; true; true]
  /\ m_highestSack up = (Some 4, 108) /\ m_highestSack down = (Some 2, 104)
  /\ map m_lost (m_sentList up) = [true; true; false; false; false]
  /\ map m_lost (m_sentList down) = [false; false; false; false; false].
Proof.
  eexists _, _. repeat apply conj.
  1,2: vm_compute; reflexivity.
  all: reflexivity.
Qed.
