(* ===== verification/Float.v ===== *)
(** The floating-point numbers of C++ on the platforms ns-3 builds for: [double]
    is IEEE binary64 and [long double] the 80-bit extended format, both with
    rounding to nearest even, as the executable [spec_float] of the Standard
    Library.  Nothing here is code of the repository: it is the arithmetic of
    the language that the congestion control and the delayed-acknowledgement
    code use. *)
From Stdlib Require Import ZArith Lia Bool.
From Stdlib Require Import SpecFloat.
From stdpp Require Import base tactics.
From S2P Require Import Prelude.

Abbreviation double := spec_float.

Definition INFINITY : double := S754_infinity false.
Definition NaN : double := S754_nan.

(** ** Arithmetic *)

Definition d_add : double -> double -> double := SFadd 53 1024.
Definition d_sub : double -> double -> double := SFsub 53 1024.
Definition d_mul : double -> double -> double := SFmul 53 1024.
Definition d_div : double -> double -> double := SFdiv 53 1024.
Definition d_sqrt : double -> double := SFsqrt 53 1024.
Definition d_neg : double -> double := SFopp.
Definition d_abs : double -> double := SFabs.

Definition d_lt (a b : double) : bool := SFltb a b.
Definition d_le (a b : double) : bool := SFleb a b.
Definition d_gt (a b : double) : bool := SFltb b a.
Definition d_ge (a b : double) : bool := SFleb b a.
Definition d_eq (a b : double) : bool := SFeqb a b.

(** std::min and std::max, with the order of their arguments. *)
Definition d_min (a b : double) : double := if d_lt b a then b else a.
Definition d_max (a b : double) : double := if d_lt a b then b else a.

(** ** Conversions *)

(** An integer, rounded. *)
Definition d_of_Z (z : Z) : double := binary_normalize 53 1024 z 0 false.

(** A decimal literal [n / d], correctly rounded when [n] and [d] are exact. *)
Definition d_lit (n d : Z) : double := d_div (d_of_Z n) (d_of_Z d).

(** Truncation towards zero, of a finite number. *)
Definition sf_trunc (x : spec_float) : option Z :=
  match x with
  | S754_zero _ => Some 0
  | S754_finite s m e =>
      let a := if 0 <=? e then Zpos m * 2 ^ e else Zpos m / 2 ^ (- e) in
      Some (if s then - a else a)
  | _ => None
  end.

(** The casts to an unsigned integer of [w] bits and to a signed one: undefined
    when the truncated value does not fit. *)
Definition d_to_uint (w : Z) (x : double) : res Z :=
  match sf_trunc x with
  | Some z => if (0 <=? z) && (z <? 2 ^ w) then Ok z else Err BadCast
  | None => Err BadCast
  end.

Definition d_to_u32 : double -> res Z := d_to_uint 32.

Definition d_to_sint (w : Z) (x : spec_float) : res Z :=
  match sf_trunc x with
  | Some z => if (- 2 ^ (w - 1) <=? z) && (z <? 2 ^ (w - 1)) then Ok z else Err BadCast
  | None => Err BadCast
  end.

(** std::floor, std::round (halves away from zero) and llround, by way of the
    integer part. *)
Definition sf_floor (x : spec_float) : option Z :=
  match x with
  | S754_zero _ => Some 0
  | S754_finite s m e =>
      if 0 <=? e then Some (cond_Zopp s (Zpos m) * 2 ^ e)
      else Some (cond_Zopp s (Zpos m) / 2 ^ (- e))
  | _ => None
  end.

Definition sf_round (x : spec_float) : option Z :=
  match x with
  | S754_zero _ => Some 0
  | S754_finite s m e =>
      let a := if 0 <=? e then Zpos m * 2 ^ e
               else (2 * Zpos m + 2 ^ (- e)) / 2 ^ (1 - e) in
      Some (if s then - a else a)
  | _ => None
  end.

Definition llround (x : double) : res Z :=
  match sf_round x with
  | Some z => if (- 2 ^ 63 <=? z) && (z <? 2 ^ 63) then Ok z else Err BadCast
  | None => Err BadCast
  end.

Definition d_floor (x : double) : double :=
  match x with
  | S754_finite _ _ _ => match sf_floor x with Some z => d_of_Z z | None => x end
  | _ => x
  end.

(** std::ceil. *)
Definition d_ceil (x : double) : double := d_neg (d_floor (d_neg x)).

(** ** long double *)

Definition ld_add : spec_float -> spec_float -> spec_float := SFadd 64 16384.
Definition ld_sub : spec_float -> spec_float -> spec_float := SFsub 64 16384.
Definition ld_mul : spec_float -> spec_float -> spec_float := SFmul 64 16384.
Definition ld_div : spec_float -> spec_float -> spec_float := SFdiv 64 16384.
Definition ld_of_Z (z : Z) : spec_float := binary_normalize 64 16384 z 0 false.

(** Rounding of a long double to a double, and the exact way back. *)
Definition d_of_ld (x : spec_float) : double :=
  match x with
  | S754_finite s m e => binary_normalize 53 1024 (cond_Zopp s (Zpos m)) e s
  | _ => x
  end.

Definition ld_of_d (x : double) : spec_float :=
  match x with
  | S754_finite s m e => binary_normalize 64 16384 (cond_Zopp s (Zpos m)) e s
  | _ => x
  end.

(** ** Order *)

(** Not a number. *)
Definition is_nan (x : double) : bool := match x with S754_nan => true | _ => false end.

Lemma SFcompare_swap a b : SFcompare b a = option_map CompOpp (SFcompare a b).
Proof.
  destruct a as [sa|sa| |sa ma ea], b as [sb|sb| |sb mb eb]; cbn; try done;
    try (by (destruct sa)); try (by (destruct sb)); try (by (destruct sa, sb)).
  destruct sa, sb; try done; rewrite (Z.compare_antisym ea eb);
    destruct (Z.compare ea eb) eqn:E; cbn; try done;
    change (Pos.compare_cont Eq mb ma) with (Pos.compare mb ma);
    change (Pos.compare_cont Eq ma mb) with (Pos.compare ma mb);
    rewrite (Pos.compare_antisym ma mb); by destruct (Pos.compare ma mb).
Qed.

Lemma SFcompare_refl a : is_nan a = false -> SFcompare a a = Some Eq.
Proof.
  destruct a as [sa|sa| |sa ma ea]; cbn; try done; [by destruct sa|].
  destruct sa; rewrite Z.compare_refl; change (Pos.compare_cont Eq ma ma) with (Pos.compare ma ma);
    by rewrite Pos.compare_refl.
Qed.

Lemma d_le_refl a : is_nan a = false -> d_le a a = true.
Proof. intros H. unfold d_le, SFleb. by rewrite SFcompare_refl. Qed.

Lemma SFcompare_some a b : is_nan a = false -> is_nan b = false -> SFcompare a b <> None.
Proof. destruct a, b; cbn; try done; repeat match goal with |- context [if ?s then _ else _] => destruct s end; done. Qed.

(** Two numbers are ordered one way or the other. *)
Lemma d_lt_or_ge a b : is_nan a = false -> is_nan b = false ->
  d_lt a b = true \/ d_lt a b = false /\ d_le b a = true.
Proof.
  intros Ha Hb. unfold d_lt, d_le, SFltb, SFleb. rewrite (SFcompare_swap a b).
  pose proof (SFcompare_some a b Ha Hb). destruct (SFcompare a b) as [[]|]; cbn; auto.
Qed.

Lemma d_lt_le a b : d_lt a b = true -> d_le a b = true.
Proof. unfold d_lt, d_le, SFltb, SFleb. by destruct (SFcompare a b) as [[]|]. Qed.

Lemma d_min_le_r a b : is_nan a = false -> is_nan b = false -> d_le (d_min a b) b = true.
Proof.
  intros Ha Hb. unfold d_min. destruct (d_lt_or_ge b a Hb Ha) as [E|[E E']]; rewrite E; [|done].
  by apply d_le_refl.
Qed.

Lemma d_max_ge_l a b : is_nan a = false -> is_nan b = false -> d_le a (d_max a b) = true.
Proof.
  intros Ha Hb. unfold d_max. destruct (d_lt_or_ge a b Ha Hb) as [E|[E E']]; rewrite E; [by apply d_lt_le|by apply d_le_refl].
Qed.
