(* ===== verification/Int64x64.v ===== *)
(** Fixed-point numbers: the 128-bit implementation of [int64x64_t],
    src/core/model/int64x64-128.{h,cc}.  A value is its Q64.64 representation
    [_v], an [int128_t]. *)
From Stdlib Require Import ZArith Lia Bool.
From Stdlib Require Import SpecFloat.
From stdpp Require Import base tactics.
From S2P Require Import Prelude Float.

Definition HP_MASK_LO : Z := 2 ^ 64 - 1.

(** [~HP_MASK_LO], in the type of the constant. *)
Definition HP_MASK_HI : Z := u64 (Z.lnot HP_MASK_LO).

Definition HP128_MASK_HI_BIT : Z := 2 ^ 127.

Definition HP_MAX_64 : spec_float := ld_of_Z (2 ^ 64).

(** *** Construction and observation *)

Definition of_int (v : Z) : Z := i128 (v * 2 ^ 64).

Definition of_hi_lo (hi lo : Z) : Z := i128 (Z.lor (u128 (hi * 2 ^ 64)) lo).

(** std::modf of a non-negative long double. *)
Definition modf (v : spec_float) : option (Z * spec_float) :=
  match v with
  | S754_zero _ => Some (0, S754_zero false)
  | S754_finite _ m e =>
      if 0 <=? e then Some (Zpos m * 2 ^ e, S754_zero false)
      else Some (Zpos m / 2 ^ (- e), binary_normalize 64 16384 (Zpos m mod 2 ^ (- e)) e false)
  | _ => None
  end.

Definition of_ld (value : spec_float) : res Z :=
  let negative := SFltb value (S754_zero false) in
  let v := if negative then SFopp value else value in
  match modf v with
  | None => Err BadCast
  | Some (fhi, flo) =>
      let round := ld_div (ld_of_Z 1) (ld_of_Z 2) in
      let flo := ld_add (ld_mul flo HP_MAX_64) round in
      hi ← (if fhi <? 2 ^ 127 then Ok fhi else Err BadCast) ;
      lo ← d_to_uint 64 flo ;
      let hi := if SFleb HP_MAX_64 flo then hi + 1 else hi in
      let v := Z.lor (u128 (hi * 2 ^ 64)) lo in
      Ok (i128 (if negative then - v else v))
  end.

Definition of_double (value : double) : res Z := of_ld (ld_of_d value).

Definition GetDouble (v : Z) : double :=
  let negative := v <? 0 in
  let value := u128 (if negative then - v else v) in
  let fhi := ld_of_Z (Z.shiftr value 64) in
  let flo := ld_div (ld_of_Z (Z.land value HP_MASK_LO)) HP_MAX_64 in
  let retval := ld_add fhi flo in
  d_of_ld (if negative then SFopp retval else retval).

Definition GetHigh (v : Z) : Z := i64 (Z.shiftr v 64).
Definition GetLow (v : Z) : Z := Z.land (u128 v) HP_MASK_LO.

Definition GetInt (v : Z) : Z :=
  let negative := v <? 0 in
  let value := u128 (if negative then - v else v) in
  let retval := i64 (Z.shiftr value 64) in
  if negative then i64 (- retval) else retval.

Definition Round (v : Z) : Z :=
  let negative := v <? 0 in
  let value := if negative then i128 (- v) else v in
  let half := of_hi_lo 0 (2 ^ 63) in
  let value := i128 (value + half) in
  let retval := GetHigh value in
  if negative then i64 (- retval) else retval.

(** *** Arithmetic *)

Definition hp_add (a b : Z) : Z := i128 (a + b).
Definition hp_sub (a b : Z) : Z := i128 (a - b).
Definition hp_opp (a : Z) : Z := i128 (- a).

(** The sign of the result, and the magnitudes. *)
Definition output_sign (sa sb : Z) : bool * Z * Z :=
  let negA := sa <? 0 in
  let negB := sb <? 0 in
  (xorb negA negB, u128 (if negA then - sa else sa), u128 (if negB then - sb else sb)).

Definition Umul (a b : Z) : res Z :=
  let aL := Z.land a HP_MASK_LO in
  let bL := Z.land b HP_MASK_LO in
  let aH := Z.land (Z.shiftr a 64) HP_MASK_LO in
  let bH := Z.land (Z.shiftr b 64) HP_MASK_LO in
  let loPart := u128 (aL * bL) in
  let midPart := u128 (u128 (aL * bH) + u128 (aH * bL)) in
  let hiPart := u128 (aH * bH) in
  ns_abort_if (negb (Z.land hiPart HP_MASK_HI =? 0)) ;;
  let result := u128 (Z.shiftr loPart 64 + Z.land midPart HP_MASK_LO) in
  let res1 := u128 (Z.shiftr midPart 64 + Z.land hiPart HP_MASK_LO) in
  Ok (u128 (result + u128 (Z.shiftl res1 64))).

Definition Mul (v o : Z) : res Z :=
  let '(negative, a, b) := output_sign v o in
  result ← Umul a b ;
  Ok (i128 (if negative then - result else result)).

Definition DIGITS : Z := 64.

(** [while ((shift < DIGITS) && !(den & 0x1))]. *)
Fixpoint skip_den (fuel : nat) (shift den : Z) : Z * Z :=
  match fuel with
  | O => (shift, den)
  | S fuel =>
      if (shift <? DIGITS) && negb (Z.odd den)
      then skip_den fuel (shift + 1) (Z.shiftr den 1) else (shift, den)
  end.

(** [while ((digis + shift < DIGITS) && !(rem & HP128_MASK_HI_BIT))]. *)
Fixpoint skip_rem (fuel : nat) (digis shift rem : Z) : Z * Z :=
  match fuel with
  | O => (shift, rem)
  | S fuel =>
      if (digis + shift <? DIGITS) && (Z.land rem HP128_MASK_HI_BIT =? 0)
      then skip_rem fuel digis (shift + 1) (u128 (Z.shiftl rem 1)) else (shift, rem)
  end.

(** [while ((digis + shift < DIGITS) && (!(den & 0x1) || (rem < den)))]. *)
Fixpoint cast_den (fuel : nat) (digis shift rem den : Z) : Z * Z :=
  match fuel with
  | O => (shift, den)
  | S fuel =>
      if (digis + shift <? DIGITS) && (negb (Z.odd den) || (rem <? den))
      then cast_den fuel digis (shift + 1) rem (Z.shiftr den 1) else (shift, den)
  end.

(** The loop over the fraction digits; each round adds at least one digit. *)
Fixpoint div_digits (fuel : nat) (digis shift rem den result : Z) : res (Z * Z) :=
  if (digis <? DIGITS) && negb (rem =? 0) then
    match fuel with
    | O => Err NoFuel
    | S fuel =>
        let '(shift, rem) := skip_rem 64 digis shift rem in
        let '(shift, den) := cast_den 64 digis shift rem den in
        let quo := rem / den in
        div_digits fuel (digis + shift) 0 (rem mod den) den
          (u128 (u128 (Z.shiftl result shift) + quo))
    end
  else Ok (digis, result).

Definition Udiv (a b : Z) : res Z :=
  result ← udiv a b ;
  let rem := a mod b in
  ns_assert (rem <? b) ;;
  let '(shift, den) := skip_den 64 0 b in
  '(digis, result) ← div_digits 64 0 shift rem den result ;
  if digis <? DIGITS then Ok (u128 (Z.shiftl result (DIGITS - digis))) else Ok result.

Definition Div (v o : Z) : res Z :=
  let '(negative, a, b) := output_sign v o in
  result ← Udiv a b ;
  Ok (i128 (if negative then - result else result)).

Definition UmulByInvert (a b : Z) : Z :=
  let ah := Z.shiftr a 64 in
  let bh := Z.shiftr b 64 in
  let al := Z.land a HP_MASK_LO in
  let bl := Z.land b HP_MASK_LO in
  let hi := u128 (ah * bh) in
  let mid := u128 (u128 (ah * bl) + u128 (al * bh)) in
  u128 (hi + Z.shiftr mid 64).

Definition MulByInvert (v o : Z) : Z :=
  let negResult := v <? 0 in
  let a := u128 (if negResult then - v else v) in
  let result := UmulByInvert a (u128 o) in
  i128 (if negResult then - result else result).

Definition Invert (v : Z) : res Z :=
  ns_assert (1 <? v) ;;
  result ← Udiv (2 ^ 64) v ;
  let tmp := MulByInvert (of_hi_lo v 0) result in
  Ok (if negb (GetHigh tmp =? 1) then i128 (result + 1) else result).

(** ** Values in range *)

Lemma u128_small x : 0 <= x < 2 ^ 128 -> u128 x = x.
Proof. apply Z.mod_small. Qed.

Lemma i128_small x : - 2 ^ 127 <= x < 2 ^ 127 -> i128 x = x.
Proof. intros. apply sint_small; [lia|exact H]. Qed.
