(* ===== verification/NsTime.v ===== *)
(** Simulation time: src/core/model/nstime.h and the unit table of time.cc, at
    the default resolution of one nanosecond.  A [Time] is its [m_data], an
    [int64_t]. *)
From Stdlib Require Import ZArith Lia Bool List.
From stdpp Require Import base tactics list.
From S2P Require Import Prelude Float Int64x64.

(** *** Units *)

Inductive Unit := Y | D | H | MIN | S | MS | US | NS | PS | FS.

#[export] Instance Unit_eq_dec : EqDecision Unit.
Proof. solve_decision. Defined.

Definition UNIT_POWER (u : Unit) : Z :=
  match u with
  | Y => 17 | D => 17 | H => 17 | MIN => 16 | S => 15 | MS => 12 | US => 9 | NS => 6 | PS => 3 | FS => 0
  end.

Definition UNIT_COEFF (u : Unit) : Z :=
  match u with Y => 315360 | D => 864 | H => 36 | MIN => 6 | _ => 1 end.

Record Information := mkInfo {
  toMul : bool;
  fromMul : bool;
  factor : Z;
  timeTo : Z;
  timeFrom : Z;
}.

(** One iteration of the loop of SetResolution, [None] for a unit that is not
    valid.  The powers of ten are exact in the code too, for these units. *)
Definition SetResolution (unit i : Unit) : res (option Information) :=
  let shift := UNIT_POWER i - UNIT_POWER unit in
  quotient ←
    (if UNIT_COEFF unit <? UNIT_COEFF i then
       let q := UNIT_COEFF i / UNIT_COEFF unit in
       ns_assert (q * UNIT_COEFF unit =? UNIT_COEFF i) ;; Ok q
     else if UNIT_COEFF i <? UNIT_COEFF unit then
       let q := UNIT_COEFF unit / UNIT_COEFF i in
       ns_assert (q * UNIT_COEFF i =? UNIT_COEFF unit) ;; Ok q
     else Ok 1) ;
  let factor := 10 ^ Z.abs shift * quotient in
  if 2 ^ 63 <? factor then Ok None
  else
    let realNum := 10 ^ Z.max shift 0 * UNIT_COEFF i in
    let realDen := 10 ^ Z.max (- shift) 0 * UNIT_COEFF unit in
    if (shift =? 0) && (quotient =? 1) then Ok (Some (mkInfo true true factor (of_int 1) (of_int 1)))
    else if realDen <? realNum then
      inv ← Invert factor ;
      Ok (Some (mkInfo false true factor inv (of_int factor)))
    else
      ns_assert (realNum <? realDen) ;;
      inv ← Invert factor ;
      Ok (Some (mkInfo true false factor (of_int factor) inv)).

(** The table at the default resolution. *)
Definition PeekInformation (u : Unit) : res Information :=
  i ← SetResolution NS u ;
  match i with Some i => Ok i | None => Err AssertFailed end.

(** *** Construction *)

Definition Time_min : Z := - 2 ^ 63.
Definition Time_max : Z := 2 ^ 63 - 1.

Definition Time_of_double (v : double) : res Z := llround v.
Definition Time_of_int64x64 (v : Z) : Z := Round v.
Definition TimeStep (ts : Z) : Z := i64 ts.

Definition From (value : Z) (u : Unit) : res Z :=
  info ← PeekInformation u ;
  retval ← (if fromMul info then Mul value (timeFrom info) else Ok (MulByInvert value (timeFrom info))) ;
  Ok (Time_of_int64x64 retval).

Definition FromDouble (value : double) (u : Unit) : res Z :=
  v ← of_double value ; From v u.

Definition FromInteger (value : Z) (u : Unit) : res Z :=
  info ← PeekInformation u ;
  Ok (i64 (if fromMul info then u64 (value * factor info) else value / factor info)).

Definition Seconds (value : double) : res Z := FromDouble value S.
Definition MilliSeconds (value : Z) : res Z := FromInteger value MS.
Definition MicroSeconds (value : Z) : res Z := FromInteger value US.

(** *** Conversion *)

Definition To (t : Z) (u : Unit) : res Z :=
  info ← PeekInformation u ;
  if toMul info then Mul (of_int t) (timeTo info) else Ok (MulByInvert (of_int t) (timeTo info)).

Definition ToInteger (t : Z) (u : Unit) : res Z :=
  info ← PeekInformation u ;
  Ok (i64 (if toMul info then t * factor info else Z.quot t (factor info))).

Definition ToDouble (t : Z) (u : Unit) : res double :=
  v ← To t u ; Ok (GetDouble v).

Definition GetSeconds (t : Z) : res double := ToDouble t S.

Definition RoundTo (t : Z) (u : Unit) : res Z :=
  v ← To t u ; From (of_int (Round v)) u.

(** *** Arithmetic and order *)

Definition t_add (a b : Z) : Z := i64 (a + b).
Definition t_sub (a b : Z) : Z := i64 (a - b).
Definition t_mul (a k : Z) : Z := i64 (a * k).
Definition t_div (a k : Z) : Z := i64 (Z.quot a k).
Definition t_mul_hp (a : Z) (v : Z) : res Z := r ← Mul (of_int a) v ; Ok (Time_of_int64x64 r).
Definition t_div_hp (a : Z) (v : Z) : res Z := r ← Div (of_int a) v ; Ok (Time_of_int64x64 r).
Definition t_ratio (a b : Z) : res Z := Div (of_int a) (of_int b).
Definition IsZero (t : Z) : bool := t =? 0.
Definition t_Abs (t : Z) : Z := i64 (if t <? 0 then - t else t).
Definition t_Max (a b : Z) : Z := if a <? b then b else a.
Definition t_Min (a b : Z) : Z := if b <? a then b else a.
