(* ===== verification/TimeSpec.v ===== *)
(** What the fixed-point numbers and the times promise: multiplication is exact
    down to the last fraction bit, conversions between units are exact in the
    range of [int64_t], and where the overflow guard fails to guard. *)
From Stdlib Require Import ZArith Lia Bool.
From stdpp Require Import base tactics.
From S2P Require Import Prelude Float Int64x64 NsTime.

Lemma mask_lo_mod x : Z.land x HP_MASK_LO = x mod 2 ^ 64.
Proof. apply (Z.land_ones x 64). lia. Qed.

Lemma shiftr64 x : Z.shiftr x 64 = x / 2 ^ 64.
Proof. apply Z.shiftr_div_pow2. lia. Qed.

(** The guard of the multiplication tests no bit. *)
Lemma HP_MASK_HI_zero : HP_MASK_HI = 0.
Proof. reflexivity. Qed.

Lemma Umul_halves (aH aL bH bL : Z) :
  0 <= aL < 2 ^ 64 -> 0 <= bL < 2 ^ 64 -> 0 <= aH < 2 ^ 64 -> 0 <= bH < 2 ^ 64 ->
  Umul (aH * 2 ^ 64 + aL) (bH * 2 ^ 64 + bL)
  = let loPart := aL * bL in
    let midPart := u128 (aL * bH + aH * bL) in
    Ok (u128 (loPart / 2 ^ 64 + midPart mod 2 ^ 64
              + (midPart / 2 ^ 64 + (aH * bH) mod 2 ^ 64) * 2 ^ 64)).
Proof.
  intros H1 H2 H3 H4. unfold Umul. rewrite HP_MASK_HI_zero, Z.land_0_r, !mask_lo_mod, !shiftr64.
  assert (forall h l, 0 <= l < 2 ^ 64 -> 0 <= h < 2 ^ 64 ->
    (h * 2 ^ 64 + l) mod 2 ^ 64 = l /\ ((h * 2 ^ 64 + l) / 2 ^ 64) mod 2 ^ 64 = h) as Hh.
  { intros h l Hl Hh. rewrite Z.div_add_l, (Z.div_small l), Z.add_0_r by lia.
    rewrite (Z.add_comm (h * _)), Z.mod_add by lia. by rewrite !Z.mod_small. }
  destruct (Hh aH aL) as [-> ->]; [done..|]. destruct (Hh bH bL) as [-> ->]; [done..|]. clear Hh.
  assert (0 <= aL * bL < 2 ^ 128) by nia. assert (0 <= aL * bH < 2 ^ 128) by nia.
  assert (0 <= aH * bL < 2 ^ 128) by nia. assert (0 <= aH * bH < 2 ^ 128) by nia.
  rewrite !(u128_small (_ * _)) by done. change (negb (0 =? 0)) with false. cbn [ns_abort_if]. res_step. cbv zeta.
  set (mid := u128 (aL * bH + aH * bL)). assert (0 <= mid < 2 ^ 128) by (apply Z.mod_pos_bound; lia).
  set (lo := aL * bL) in *. set (hi := aH * bH) in *. f_equal.
  rewrite Z.shiftl_mul_pow2 by lia.
  rewrite (u128_small (mid / _ + _)) by (Z.div_mod_to_equations; lia). unfold u128.
  rewrite Z.add_mod_idemp_r, Z.add_mod_idemp_l by lia. done.
Qed.

Lemma split64 a : 0 <= a < 2 ^ 128 -> exists h l, a = h * 2 ^ 64 + l /\ 0 <= l < 2 ^ 64 /\ 0 <= h < 2 ^ 64.
Proof.
  intros H. exists (a / 2 ^ 64), (a mod 2 ^ 64). pose proof (Z.div_mod a (2 ^ 64)).
  pose proof (Z.mod_pos_bound a (2 ^ 64)). split_and!; try lia; Z.div_mod_to_equations; lia.
Qed.

Lemma Umul_ok a b : 0 <= a < 2 ^ 128 -> 0 <= b < 2 ^ 128 -> a * b < 2 ^ 192 ->
  Umul a b = Ok (a * b / 2 ^ 64).
Proof.
  intros Ha Hb Hab. destruct (split64 a Ha) as (aH & aL & -> & H1 & H2).
  destruct (split64 b Hb) as (bH & bL & -> & H3 & H4). rewrite Umul_halves by done. cbv zeta.
  set (lo := aL * bL). set (mid := aL * bH + aH * bL). set (hi := aH * bH).
  assert ((aH * 2 ^ 64 + aL) * (bH * 2 ^ 64 + bL) = (hi * 2 ^ 64 + mid) * 2 ^ 64 + lo) as E
    by (unfold hi, mid, lo; lia).
  rewrite E in *. assert (0 <= lo /\ 0 <= mid /\ 0 <= hi) as (L1 & L2 & L3) by (unfold lo, mid, hi; nia).
  rewrite (u128_small mid), (Z.mod_small hi) by lia. rewrite Z.div_add_l by lia.
  rewrite u128_small; [f_equal|]; Z.div_mod_to_equations; lia.
Qed.

(** C35. Multiplication of two Q64.64 numbers is exact down to the last fraction
    bit: it is the product of the representations shifted right by 64 bits and
    truncated towards zero, whenever that fits the type. *)
Theorem int64x64_mul_exact v o :
  - 2 ^ 127 < v < 2 ^ 127 -> - 2 ^ 127 < o < 2 ^ 127 -> Z.abs (v * o) < 2 ^ 191 ->
  Mul v o = Ok (Z.quot (v * o) (2 ^ 64)).
Proof.
  intros Hv Ho Hvo. unfold Mul, output_sign.
  assert (forall x, - 2 ^ 127 < x < 2 ^ 127 -> u128 (if x <? 0 then - x else x) = Z.abs x) as Hu.
  { intros x Hx. destruct (Z.ltb_spec x 0); rewrite u128_small; lia. }
  rewrite !Hu by done. rewrite Z.abs_mul in Hvo. rewrite Umul_ok by lia. res_step. f_equal.
  set (q := Z.abs v * Z.abs o / 2 ^ 64). assert (0 <= q < 2 ^ 127) by (unfold q; Z.div_mod_to_equations; lia).
  rewrite i128_small by (destruct (xorb _ _); lia). unfold q.
  destruct (Z.ltb_spec v 0), (Z.ltb_spec o 0); cbn [xorb];
    rewrite ?(Z.abs_neq v), ?(Z.abs_neq o), ?(Z.abs_eq v), ?(Z.abs_eq o) by lia.
  - rewrite Z.mul_opp_opp. symmetry. apply Z.quot_div_nonneg; nia.
  - rewrite <- Z.quot_div_nonneg by nia. rewrite <- Z.quot_opp_l by lia. f_equal. lia.
  - rewrite <- Z.quot_div_nonneg by nia. rewrite <- Z.quot_opp_l by lia. f_equal. lia.
  - symmetry. apply Z.quot_div_nonneg; nia.
Qed.

Lemma int64x64_mul_exact_witness : Mul (of_int 5 / 2) (of_int (-3)) = Ok (of_int (-15) / 2).
Proof.
  rewrite int64x64_mul_exact; [vm_compute; reflexivity| | |]; vm_compute; split; reflexivity || reflexivity.
Defined.

(** The overflow guard of the multiplication never fires, whatever the
    operands: the mask of the high half is zero in its type.  A product that
    does not fit is truncated silently: 2^40 * 2^40 is 0. *)
Theorem int64x64_mul_unchecked :
  (forall a b, is_ok (Umul a b) = true)
  /\ Mul (of_int (2 ^ 40)) (of_int (2 ^ 40)) = Ok 0.
Proof.
  split; [|vm_compute; reflexivity]. intros a b. unfold Umul. by rewrite HP_MASK_HI_zero, Z.land_0_r.
Qed.

(** ** Units *)

(** The units not finer than the resolution. *)
Definition coarse (u : Unit) : bool := match u with PS | FS => false | _ => true end.

Lemma info_coarse u : coarse u = true ->
  exists i, PeekInformation u = Ok i /\ fromMul i = true /\ 1 <= factor i < 2 ^ 55
  /\ timeFrom i = of_int (factor i) /\ toMul i = bool_decide (u = NS) /\ (u = NS -> factor i = 1).
Proof.
  destruct u; intros H; try done; eexists; (split; [vm_compute; reflexivity|]);
    vm_compute; (split_and!; try done).
Qed.

(** For every unit not finer than the resolution, an integer number of
    units is represented exactly, and read back. *)
Theorem time_integer_roundtrip u n i :
  coarse u = true -> PeekInformation u = Ok i -> 0 <= n -> n * factor i < 2 ^ 63 ->
  FromInteger n u = Ok (n * factor i) /\ ToInteger (n * factor i) u = Ok n.
Proof.
  intros Hu Hi Hn Hlt. destruct (info_coarse u Hu) as (i' & E & Hf & Hb & _ & Ht & Hns).
  rewrite Hi in E. apply Ok_inj in E as <-. unfold FromInteger, ToInteger. rewrite Hi. res_step.
  rewrite Hf. split.
  - rewrite u64_small by (unfold is_u64; nia). by rewrite i64_small by (unfold is_i64; nia).
  - f_equal. rewrite Ht. destruct (decide (u = NS)) as [->|Hne].
    + rewrite bool_decide_true by done. rewrite Hns in * by done. rewrite i64_small by (unfold is_i64; lia). lia.
    + rewrite bool_decide_false by done. rewrite Z.quot_mul by lia. apply i64_small. unfold is_i64. nia.
Qed.

Lemma time_integer_roundtrip_witness : FromInteger 7 MIN = Ok 420000000000 /\ ToInteger 420000000000 MIN = Ok 7.
Proof.
  destruct (info_coarse MIN eq_refl) as (i & E & _).
  assert (Hf : factor i = 60000000000) by (vm_compute in E; injection E as <-; reflexivity).
  pose proof (time_integer_roundtrip MIN 7 i eq_refl E) as H. rewrite Hf in H. apply H; lia.
Defined.

(** *** Seconds *)

Definition second_inverse : Z := 340282366920938463463374607432.

Lemma PeekInformation_S :
  PeekInformation S = Ok (mkInfo false true (10 ^ 9) second_inverse (of_int (10 ^ 9))).
Proof. vm_compute. reflexivity. Qed.

Lemma UmulByInvert_int t b : 0 <= t < 2 ^ 64 -> 0 <= b < 2 ^ 128 -> t * b < 2 ^ 192 ->
  UmulByInvert (t * 2 ^ 64) b = t * b / 2 ^ 64.
Proof.
  intros Ht Hb Htb. unfold UmulByInvert. rewrite !mask_lo_mod, !shiftr64.
  rewrite Z.div_mul, Z.mod_mul by lia. rewrite Z.mul_0_l. change (u128 0) with 0. rewrite Z.add_0_r.
  destruct (split64 b Hb) as (h & l & -> & Hl & Hh).
  rewrite Z.div_add_l, (Z.div_small l), Z.add_0_r by lia.
  rewrite (Z.add_comm (h * _) l), Z.mod_add, (Z.mod_small l) by lia.
  assert (0 <= t * l < 2 ^ 128) by nia. rewrite !(u128_small (t * l)) by done.
  assert (0 <= t * h) by nia.
  replace (t * (l + h * 2 ^ 64)) with (t * l + t * h * 2 ^ 64) by lia.
  replace (t * (h * 2 ^ 64 + l)) with (t * l + t * h * 2 ^ 64) in Htb by lia.
  rewrite Z.div_add by lia. set (x := t * l) in *. set (y := t * h) in *.
  rewrite (u128_small y), u128_small by (Z.div_mod_to_equations; lia). Z.div_mod_to_equations; lia.
Qed.

Lemma of_int_small t : - 2 ^ 63 <= t < 2 ^ 63 -> of_int t = t * 2 ^ 64.
Proof. intros. apply i128_small. lia. Qed.

Lemma seconds_raw t : 0 <= t < 2 ^ 63 ->
  let v := t * second_inverse / 2 ^ 64 in
  - 10 ^ 9 < v * 10 ^ 9 - t * 2 ^ 64 < 10 ^ 9 /\ v / 2 ^ 64 = t / 10 ^ 9 /\ 0 <= v < 2 ^ 127.
Proof.
  intros Ht v. unfold v, second_inverse.
  pose proof (Z.div_mod (t * 340282366920938463463374607432) (2 ^ 64)).
  pose proof (Z.mod_pos_bound (t * 340282366920938463463374607432) (2 ^ 64)).
  pose proof (Z.div_mod t (10 ^ 9)). pose proof (Z.mod_pos_bound t (10 ^ 9)).
  set (q := t * 340282366920938463463374607432 / 2 ^ 64) in *. split_and!; try lia.
  symmetry. apply (Z.div_unique_pos _ _ _ (q - t / 10 ^ 9 * 2 ^ 64)); lia.
Qed.

(** Conversion to seconds: the fixed-point value of every representable
    time is within one unit of the last fraction bit of the exact quotient, and
    its integer part is the exact number of whole seconds, truncated towards
    zero. *)
Theorem time_to_seconds t :
  - 2 ^ 63 < t < 2 ^ 63 ->
  exists v, To t S = Ok v /\ Z.abs (v * 10 ^ 9 - t * 2 ^ 64) < 10 ^ 9
  /\ GetInt v = Z.quot t (10 ^ 9).
Proof.
  intros Ht. unfold To. rewrite PeekInformation_S. res_step. cbn [toMul timeTo]. rewrite of_int_small by lia.
  eexists. split; [reflexivity|]. unfold MulByInvert.
  change (u128 second_inverse) with second_inverse.
  destruct (Z.ltb_spec (t * 2 ^ 64) 0).
  - destruct (seconds_raw (- t)) as (H1 & H2 & H3); [lia|]. cbv zeta in *.
    rewrite u128_small by lia. replace (- (t * 2 ^ 64)) with (- t * 2 ^ 64) by lia.
    rewrite UmulByInvert_int by (unfold second_inverse; lia).
    set (v := - t * second_inverse / 2 ^ 64) in *. rewrite i128_small by lia. split; [lia|].
    unfold GetInt. destruct (Z.ltb_spec (- v) 0).
    + rewrite Z.opp_involutive, u128_small, shiftr64, H2 by lia.
      rewrite (i64_small (- t / _)) by (unfold is_i64; Z.div_mod_to_equations; lia).
      rewrite i64_small by (unfold is_i64; Z.div_mod_to_equations; lia).
      rewrite <- Z.quot_div_nonneg by lia. rewrite Z.quot_opp_l by lia. lia.
    + assert (v = 0) as E by lia. rewrite E in *. change (0 / 2 ^ 64) with 0 in H2.
      change (i64 (Z.shiftr (u128 (- 0)) 64)) with 0.
      rewrite <- Z.quot_div_nonneg, Z.quot_opp_l in H2 by lia. lia.
  - destruct (seconds_raw t) as (H1 & H2 & H3); [lia|]. cbv zeta in *.
    rewrite u128_small by lia. rewrite UmulByInvert_int by (unfold second_inverse; lia).
    set (v := t * second_inverse / 2 ^ 64) in *. rewrite i128_small by lia. split; [lia|].
    unfold GetInt. destruct (Z.ltb_spec v 0); [lia|].
    rewrite u128_small, shiftr64, H2 by lia. rewrite i64_small by (unfold is_i64; Z.div_mod_to_equations; lia).
    rewrite Z.quot_div_nonneg; lia.
Qed.

Lemma time_to_seconds_witness :
  exists v, To (-1500000000) S = Ok v /\ GetInt v = -1.
Proof. destruct (time_to_seconds (-1500000000)) as (v & E & _ & H); [lia|].
  exists v. split; [exact E|]. rewrite H. reflexivity.
Defined.
