(* ===== verification/Scheduler.v ===== *)
(** The event list of the simulator: src/core/model/scheduler.h, with the
    implementations ListScheduler, MapScheduler and PriorityQueueScheduler.
    The interface is the type class [SchedulerOps], what an implementation
    promises the class [SchedulerLaws].  HeapScheduler has its own file. *)
From Stdlib Require Import ZArith Lia Bool List Sorted.
From stdpp Require Import base tactics list.
From S2P Require Import Prelude.

(** ** Events *)

Record EventKey := mkKey {
  m_ts : Z;
  m_uid : Z;
  m_context : Z;
}.

(** [impl] is the pointer to the EventImpl, the address of an object. *)
Record Event := mkEv {
  impl : option nat;
  key : EventKey;
}.

#[export] Instance EventKey_eq_dec : EqDecision EventKey.
Proof. solve_decision. Defined.
#[export] Instance Event_eq_dec : EqDecision Event.
Proof. solve_decision. Defined.

(** [operator==], [operator<] and [operator>] of the keys; an event compares
    as its key. *)
Definition key_eq (a b : EventKey) : bool := m_uid a =? m_uid b.
Definition key_lt (a b : EventKey) : bool :=
  if m_ts a <? m_ts b then true
  else if (m_ts a =? m_ts b) && (m_uid a <? m_uid b) then true
  else false.
Definition key_gt (a b : EventKey) : bool :=
  if m_ts b <? m_ts a then true
  else if (m_ts a =? m_ts b) && (m_uid b <? m_uid a) then true
  else false.
Definition ev_eq (a b : Event) : bool := key_eq (key a) (key b).
Definition ev_lt (a b : Event) : bool := key_lt (key a) (key b).
Definition ev_gt (a b : Event) : bool := key_gt (key a) (key b).

(** ** The interface *)

Class SchedulerOps (S : Type) := {
  new_scheduler : S;
  Insert : Event -> S -> res S;
  IsEmpty : S -> bool;
  PeekNext : S -> res Event;
  RemoveNext : S -> res (Event * S);
  Remove : Event -> S -> res S;
}.

(** ** ListScheduler: a sorted std::list *)

Record ListScheduler := mkList { ls_events : list Event }.

Fixpoint List_insert (ev : Event) (l : list Event) : list Event :=
  match l with
  | [] => [ev]
  | i :: l' => if key_lt (key ev) (key i) then ev :: l else i :: List_insert ev l'
  end.

Definition List_Insert (ev : Event) (s : ListScheduler) : res ListScheduler :=
  Ok (mkList (List_insert ev (ls_events s))).

Definition List_IsEmpty (s : ListScheduler) : bool := bool_decide (ls_events s = []).

Definition List_PeekNext (s : ListScheduler) : res Event :=
  match ls_events s with [] => Err NullDeref | e :: _ => Ok e end.

Definition List_RemoveNext (s : ListScheduler) : res (Event * ListScheduler) :=
  match ls_events s with [] => Err NullDeref | e :: l => Ok (e, mkList l) end.

Fixpoint List_remove (ev : Event) (l : list Event) : res (list Event) :=
  match l with
  | [] => Err AssertFailed
  | i :: l' =>
      if m_uid (key i) =? m_uid (key ev) then
        ns_assert (bool_decide (impl ev = impl i)) ;;
        Ok l'
      else
        l' ← List_remove ev l' ;
        Ok (i :: l')
  end.

Definition List_Remove (ev : Event) (s : ListScheduler) : res ListScheduler :=
  l ← List_remove ev (ls_events s) ;
  Ok (mkList l).

#[export] Instance list_ops : SchedulerOps ListScheduler := {|
  new_scheduler := mkList [];
  Insert := List_Insert;
  IsEmpty := List_IsEmpty;
  PeekNext := List_PeekNext;
  RemoveNext := List_RemoveNext;
  Remove := List_Remove;
|}.

(** ** MapScheduler: a std::map from the keys to the pointers

    The map is the list of its pairs in the order of the keys; two keys are
    equivalent when neither is below the other. *)

Record MapScheduler := mkMap { m_list : list (EventKey * option nat) }.

(** std::map::insert; [false] when the key is there already. *)
Fixpoint map_insert (k : EventKey) (v : option nat) (l : list (EventKey * option nat))
  : list (EventKey * option nat) * bool :=
  match l with
  | [] => ([(k, v)], true)
  | (k', v') :: l' =>
      if key_lt k k' then ((k, v) :: l, true)
      else if key_lt k' k then let '(l', b) := map_insert k v l' in ((k', v') :: l', b)
      else (l, false)
  end.

(** std::map::find, with what comes before and after the pair. *)
Fixpoint map_find (k : EventKey) (l : list (EventKey * option nat))
  : option (list (EventKey * option nat) * option nat * list (EventKey * option nat)) :=
  match l with
  | [] => None
  | (k', v') :: l' =>
      if key_lt k k' || key_lt k' k then
        '(pre, v, post) ← map_find k l' ;
        Some ((k', v') :: pre, v, post)
      else Some ([], v', l')
  end.

Definition Map_Insert (ev : Event) (s : MapScheduler) : res MapScheduler :=
  let '(l, inserted) := map_insert (key ev) (impl ev) (m_list s) in
  ns_assert inserted ;;
  Ok (mkMap l).

Definition Map_IsEmpty (s : MapScheduler) : bool := bool_decide (m_list s = []).

Definition Map_PeekNext (s : MapScheduler) : res Event :=
  match m_list s with
  | [] => Err AssertFailed
  | (k, v) :: _ => Ok (mkEv v k)
  end.

Definition Map_RemoveNext (s : MapScheduler) : res (Event * MapScheduler) :=
  match m_list s with
  | [] => Err AssertFailed
  | (k, v) :: l => Ok (mkEv v k, mkMap l)
  end.

(** The iterator of [find] is dereferenced without a test. *)
Definition Map_Remove (ev : Event) (s : MapScheduler) : res MapScheduler :=
  match map_find (key ev) (m_list s) with
  | None => Err NullDeref
  | Some (pre, v, post) =>
      ns_assert (bool_decide (v = impl ev)) ;;
      Ok (mkMap (pre ++ post))
  end.

#[export] Instance map_ops : SchedulerOps MapScheduler := {|
  new_scheduler := mkMap [];
  Insert := Map_Insert;
  IsEmpty := Map_IsEmpty;
  PeekNext := Map_PeekNext;
  RemoveNext := Map_RemoveNext;
  Remove := Map_Remove;
|}.

(** ** PriorityQueueScheduler: a std::priority_queue ordered by std::greater

    The order of the elements in the vector of the adaptor is the library's
    affair; [top] is an element with no greater one after it in the order of
    the queue, that is the least event. *)

Record PriorityQueueScheduler := mkPq { m_queue : list Event }.

Fixpoint pq_least (e : Event) (l : list Event) : Event :=
  match l with
  | [] => e
  | x :: l => pq_least (if ev_gt e x then x else e) l
  end.

Definition pq_top (l : list Event) : res Event :=
  match l with [] => Err NullDeref | e :: l => Ok (pq_least e l) end.

(** The vector without the first element that is equal, std::find. *)
Fixpoint pq_erase (ev : Event) (l : list Event) : list Event :=
  match l with
  | [] => []
  | x :: l => if ev_eq x ev then l else x :: pq_erase ev l
  end.

Definition Pq_Insert (ev : Event) (s : PriorityQueueScheduler) : res PriorityQueueScheduler :=
  Ok (mkPq (m_queue s ++ [ev])).

Definition Pq_IsEmpty (s : PriorityQueueScheduler) : bool := bool_decide (m_queue s = []).

Definition Pq_PeekNext (s : PriorityQueueScheduler) : res Event := pq_top (m_queue s).

(** [pop] removes the element that [top] returned. *)
Definition Pq_RemoveNext (s : PriorityQueueScheduler) : res (Event * PriorityQueueScheduler) :=
  ev ← pq_top (m_queue s) ;
  Ok (ev, mkPq (pq_erase ev (m_queue s))).

(** Nothing is reported when the event is not there. *)
Definition Pq_Remove (ev : Event) (s : PriorityQueueScheduler) : res PriorityQueueScheduler :=
  Ok (mkPq (pq_erase ev (m_queue s))).

#[export] Instance pq_ops : SchedulerOps PriorityQueueScheduler := {|
  new_scheduler := mkPq [];
  Insert := Pq_Insert;
  IsEmpty := Pq_IsEmpty;
  PeekNext := Pq_PeekNext;
  RemoveNext := Pq_RemoveNext;
  Remove := Pq_Remove;
|}.

(** ** What a scheduler promises

    A scheduler represents a bag of events with different unique identifiers;
    the next event is the least. *)

Definition uids (b : list Event) : list Z := (fun e => m_uid (key e)) <$> b.

(** [e] comes before every event of the bag. *)
Definition earliest (e : Event) (b : list Event) : Prop := Forall (fun x => ev_lt e x = true) b.

Class SchedulerLaws (S : Type) `{SchedulerOps S} := {
  represents : S -> list Event -> Prop;
  represents_perm s b b' : b ≡ₚ b' -> represents s b -> represents s b';
  represents_uids s b : represents s b -> NoDup (uids b);
  represents_new : represents new_scheduler [];
  represents_Insert s b e : represents s b -> m_uid (key e) ∉ uids b ->
    exists s', Insert e s = Ok s' /\ represents s' (e :: b);
  represents_IsEmpty s b : represents s b -> IsEmpty s = bool_decide (b = []);
  represents_PeekNext s b : represents s b -> b <> [] ->
    exists e b', PeekNext s = Ok e /\ b ≡ₚ e :: b' /\ earliest e b';
  represents_RemoveNext s b : represents s b -> b <> [] ->
    exists e b' s', RemoveNext s = Ok (e, s') /\ b ≡ₚ e :: b' /\ earliest e b' /\ represents s' b';
}.

(** The promise of [Remove]. *)
Class SchedulerRemoveLaw (S : Type) `{SchedulerLaws S} :=
  represents_Remove s b e : represents s (e :: b) -> exists s', Remove e s = Ok s' /\ represents s' b.

#[export] Instance represents_Proper {S} `{SchedulerLaws S} s : Proper ((≡ₚ) ==> iff) (represents s).
Proof. intros b b' Hb. split; apply represents_perm; by rewrite Hb. Qed.

(** ** The order of the events *)

Lemma key_lt_iff a b :
  key_lt a b = true <-> m_ts a < m_ts b \/ m_ts a = m_ts b /\ m_uid a < m_uid b.
Proof.
  unfold key_lt. destruct (Z.ltb_spec (m_ts a) (m_ts b)), (Z.eqb_spec (m_ts a) (m_ts b)),
    (Z.ltb_spec (m_uid a) (m_uid b)); cbn; split; intros Hl; try done; lia.
Qed.

Lemma key_gt_lt a b : key_gt a b = key_lt b a.
Proof. unfold key_gt, key_lt. by rewrite (Z.eqb_sym (m_ts a)). Qed.

Lemma ev_lt_iff a b : ev_lt a b = true <->
  m_ts (key a) < m_ts (key b) \/ m_ts (key a) = m_ts (key b) /\ m_uid (key a) < m_uid (key b).
Proof. apply key_lt_iff. Qed.

Lemma ev_lt_irrefl a : ev_lt a a = false.
Proof. apply not_true_iff_false. rewrite ev_lt_iff. lia. Qed.

Lemma ev_lt_trans a b c : ev_lt a b = true -> ev_lt b c = true -> ev_lt a c = true.
Proof. rewrite !ev_lt_iff. lia. Qed.

(** Events with different identifiers are comparable. *)
Lemma ev_lt_total a b : m_uid (key a) <> m_uid (key b) -> ev_lt a b = false -> ev_lt b a = true.
Proof. intros Hu. rewrite <- not_true_iff_false, !ev_lt_iff. lia. Qed.

Lemma ev_lt_asym a b : ev_lt a b = true -> ev_lt b a = false.
Proof. rewrite <- not_true_iff_false, !ev_lt_iff. lia. Qed.

Create HintDb sched.
#[export] Hint Resolve ev_lt_trans ev_lt_asym : sched.

Lemma uids_perm b b' : b ≡ₚ b' -> uids b ≡ₚ uids b'.
Proof. apply fmap_Permutation. Qed.

#[export] Instance uids_Proper : Proper ((≡ₚ) ==> (≡ₚ)) uids.
Proof. exact uids_perm. Qed.

Lemma uids_elem e b : e ∈ b -> m_uid (key e) ∈ uids b.
Proof. exact (list_elem_of_fmap_2 (fun e => m_uid (key e)) b e). Qed.

(** Events of a bag with the same identifier are the same. *)
Lemma uids_inj b a e : NoDup (uids b) -> a ∈ b -> e ∈ b -> m_uid (key a) = m_uid (key e) -> a = e.
Proof.
  intros Hu Ha He Heq. apply list_elem_of_lookup in Ha as [i Ha], He as [j He].
  assert (i = j) as ->; [|congruence].
  eapply (NoDup_lookup (uids b)); [exact Hu|by unfold uids; rewrite list_lookup_fmap, Ha|].
  unfold uids. rewrite list_lookup_fmap, He. cbn. by rewrite Heq.
Qed.

(** The event that comes before the others is determined. *)
Lemma earliest_unique e b e' b' : e :: b ≡ₚ e' :: b' -> earliest e b -> earliest e' b' -> e = e' /\ b ≡ₚ b'.
Proof.
  intros Hp He He'. assert (e = e') as <-; [|by apply Permutation_cons_inv in Hp].
  assert (e ∈ e' :: b') as Hin by (rewrite <- Hp; left).
  assert (e' ∈ e :: b) as Hin' by (rewrite Hp; left).
  apply elem_of_cons in Hin as [|Hin], Hin' as [|Hin']; try done.
  unfold earliest in *. rewrite Forall_forall in He, He'.
  pose proof (ev_lt_asym _ _ (He _ Hin')). pose proof (He' _ Hin). congruence.
Qed.

(** The least of a bag. *)
Lemma earliest_least e b : NoDup (uids b) -> e ∈ b -> (forall x, x ∈ b -> ev_lt x e = false) ->
  exists b', b ≡ₚ e :: b' /\ earliest e b'.
Proof.
  intros Hu He Hmin. apply elem_of_Permutation in He as [b' Hp]. exists b'. split; [done|].
  apply Forall_forall. intros x Hx. apply ev_lt_total; [|apply Hmin; rewrite Hp; by right].
  rewrite Hp in Hu. apply NoDup_cons in Hu as [Hu _]. intros E. apply Hu. rewrite <- E. by apply uids_elem.
Qed.

(** ** The implementations keep the promise

    The list and the map are sorted. *)

Section SortedList.
Abbreviation sorted := (StronglySorted (fun a b => ev_lt a b = true)).

Definition list_represents (l b : list Event) : Prop := sorted l /\ l ≡ₚ b /\ NoDup (uids b).

Lemma list_represents_perm l b b' : b ≡ₚ b' -> list_represents l b -> list_represents l b'.
Proof. unfold list_represents. intros ->. done. Qed.

Lemma list_represents_nil : list_represents [] [].
Proof. repeat constructor. Qed.

Lemma perm_nil_iff (l b : list Event) : l ≡ₚ b -> l = [] <-> b = [].
Proof.
  intros Hp. split; intros ->; [by apply Permutation_nil in Hp|by apply Permutation_sym, Permutation_nil in Hp].
Qed.

Lemma perm_nonempty (l b : list Event) : l ≡ₚ b -> b <> [] -> l <> [].
Proof. intros Hp Hb Hl. apply Hb. by apply (perm_nil_iff l b Hp). Qed.

(** What comes out of the front is the earliest. *)
Lemma list_represents_cons e l b : list_represents (e :: l) b ->
  b ≡ₚ e :: l /\ earliest e l /\ list_represents l l.
Proof.
  intros (Hs & Hp & Hu). apply StronglySorted_inv in Hs as [Hs He]. rewrite <- Hp in Hu.
  apply NoDup_cons in Hu as [_ Hu]. by repeat split.
Qed.

Lemma List_insert_perm e l : List_insert e l ≡ₚ e :: l.
Proof.
  induction l as [|i l IH]; cbn; [done|]. destruct (key_lt (key e) (key i)); [done|].
  rewrite IH. apply Permutation_swap.
Qed.

Lemma List_insert_ok l b e : list_represents l b -> m_uid (key e) ∉ uids b ->
  list_represents (List_insert e l) (e :: b).
Proof.
  intros (Hs & Hp & Hu) He. split_and!; [|by rewrite List_insert_perm, Hp|by apply NoDup_cons].
  rewrite <- Hp in He. clear Hp Hu. induction Hs as [|i l Hs IH Hi]; cbn; [repeat constructor|].
  apply not_elem_of_cons in He as [Hei He]. destruct (key_lt (key e) (key i)) eqn:Hlt.
  - constructor; [by constructor|]. constructor; [done|].
    eapply Forall_impl; [exact Hi|]. cbn. eauto with sched.
  - constructor; [by apply IH|]. rewrite List_insert_perm. constructor; [by apply ev_lt_total|done].
Qed.

Lemma list_represents_remove pre e post b : list_represents (pre ++ e :: post) (e :: b) ->
  list_represents (pre ++ post) b.
Proof.
  intros (Hs & Hp & Hu). assert (pre ++ post ≡ₚ b) as Hp'.
  { rewrite <- Permutation_middle in Hp. by apply Permutation_cons_inv in Hp. }
  apply NoDup_cons in Hu as [_ Hu]. split_and!; try done. clear Hp Hp' Hu b.
  induction pre as [|x pre IH]; cbn in *.
  - by apply StronglySorted_inv in Hs as [? _].
  - apply StronglySorted_inv in Hs as [Hs Hx]. constructor; [by apply IH|].
    apply Forall_app in Hx as [? Hx]. apply Forall_cons in Hx as [_ ?]. by apply Forall_app.
Qed.

(** An event of the bag is somewhere in the list, and no other has its identifier. *)
Lemma list_represents_split l b e : list_represents l (e :: b) ->
  exists pre post, l = pre ++ e :: post /\ Forall (fun x => m_uid (key x) <> m_uid (key e)) pre.
Proof.
  intros (_ & Hp & Hu). assert (e ∈ l) as He by (rewrite Hp; left).
  apply list_elem_of_split in He as (pre & post & ->). exists pre, post. split; [done|].
  rewrite <- Hp in Hu. apply Forall_forall. intros x Hx E.
  rewrite <- Permutation_middle in Hu. apply NoDup_cons in Hu as [Hu _]. apply Hu. rewrite <- E.
  apply uids_elem. apply elem_of_app. by left.
Qed.

Lemma List_remove_ok pre e post : Forall (fun x => m_uid (key x) <> m_uid (key e)) pre ->
  List_remove e (pre ++ e :: post) = Ok (pre ++ post).
Proof.
  induction 1 as [|x pre Hx Hpre IH]; cbn.
  - by rewrite Z.eqb_refl, bool_decide_true.
  - destruct (Z.eqb_spec (m_uid (key x)) (m_uid (key e))); [done|]. by rewrite IH.
Qed.
End SortedList.

#[export] Program Instance list_laws : SchedulerLaws ListScheduler := {|
  represents s b := list_represents (ls_events s) b;
|}.
Next Obligation. intros s b b'. apply list_represents_perm. Qed.
Next Obligation. by intros s b (_ & _ & ?). Qed.
Next Obligation. exact list_represents_nil. Qed.
Next Obligation. intros s b e Hs He. eexists. split; [reflexivity|]. by apply List_insert_ok. Qed.
Next Obligation.
  intros [l] b (_ & Hp & _). cbn in *. apply bool_decide_ext, perm_nil_iff, Hp.
Qed.
Next Obligation.
  intros [l] b Hs Hb. cbn in *. pose proof (perm_nonempty l b (proj1 (proj2 Hs)) Hb). destruct l as [|e l]; [done|].
  destruct (list_represents_cons e l b Hs) as (? & ? & _). by exists e, l.
Qed.
Next Obligation.
  intros [l] b Hs Hb. cbn in *. pose proof (perm_nonempty l b (proj1 (proj2 Hs)) Hb). destruct l as [|e l]; [done|].
  destruct (list_represents_cons e l b Hs) as (? & ? & ?). by exists e, l, (mkList l).
Qed.

#[export] Instance list_remove_law : SchedulerRemoveLaw ListScheduler.
Proof.
  intros [l] b e Hs. cbn in *. destruct (list_represents_split l b e Hs) as (pre & post & -> & Hpre).
  unfold List_Remove. cbn [ls_events]. rewrite List_remove_ok by done. eexists. split; [reflexivity|].
  exact (list_represents_remove pre e post b Hs).
Qed.

(** The map: its pairs are events. *)
Definition pair_ev (kv : EventKey * option nat) : Event := mkEv (snd kv) (fst kv).

Lemma map_insert_ok e l : m_uid (key e) ∉ uids (pair_ev <$> l) ->
  exists l', map_insert (key e) (impl e) l = (l', true) /\ pair_ev <$> l' = List_insert e (pair_ev <$> l).
Proof.
  induction l as [|[k v] l IH]; intros Hu; cbn.
  - eexists. split; [reflexivity|]. cbn. by destruct e.
  - apply not_elem_of_cons in Hu as [Hk Hu]. cbn in Hk.
    destruct (key_lt (key e) k) eqn:Hlt; [eexists; split; [reflexivity|]; cbn; by destruct e|].
    assert (key_lt k (key e) = true) as -> by (exact (ev_lt_total e (mkEv v k) Hk Hlt)).
    destruct (IH Hu) as (l' & -> & E). eexists. split; [reflexivity|]. cbn. by rewrite E.
Qed.

Lemma map_find_ok e pre post : StronglySorted (fun a b => ev_lt a b = true) (pre ++ e :: post) ->
  forall l, pair_ev <$> l = pre ++ e :: post ->
  exists lpre lpost, map_find (key e) l = Some (lpre, impl e, lpost)
  /\ pair_ev <$> (lpre ++ lpost) = pre ++ post.
Proof.
  induction pre as [|x pre IH]; intros Hs [|[k v] l] El; try discriminate; cbn in El.
  - injection El as <- <-. exists [], l. split; [|done]. cbn.
    pose proof (ev_lt_irrefl (mkEv v k)) as Hirr. unfold ev_lt in Hirr. cbn in Hirr. by rewrite Hirr.
  - injection El as <- El. apply StronglySorted_inv in Hs as [Hs Hx].
    destruct (IH Hs l El) as (lpre & lpost & Hf & Ep). exists ((k, v) :: lpre), lpost. split; [|cbn; by rewrite Ep].
    rewrite Forall_forall in Hx. specialize (Hx e ltac:(apply elem_of_app; right; left)).
    unfold ev_lt in Hx. cbn in Hx. cbn [map_find]. rewrite Hx, orb_true_r, Hf. reflexivity.
Qed.

#[export] Program Instance map_laws : SchedulerLaws MapScheduler := {|
  represents s b := list_represents (pair_ev <$> m_list s) b;
|}.
Next Obligation. intros s b b'. apply list_represents_perm. Qed.
Next Obligation. by intros s b (_ & _ & ?). Qed.
Next Obligation. exact list_represents_nil. Qed.
Next Obligation.
  intros [l] b e Hs He. cbn in *. destruct (map_insert_ok e l) as (l' & El & E).
  { destruct Hs as (_ & Hp & _). by rewrite Hp. }
  unfold Map_Insert. cbn. rewrite El. eexists. split; [reflexivity|]. cbn. rewrite E. by apply List_insert_ok.
Qed.
Next Obligation.
  intros [l] b (_ & Hp & _). cbn in *. unfold Map_IsEmpty. apply bool_decide_ext.
  rewrite <- (perm_nil_iff _ _ Hp). cbn. split; [by intros ->|by intros ?%fmap_nil_inv].
Qed.
Next Obligation.
  intros [l] b Hs Hb. cbn in *. pose proof (perm_nonempty _ b (proj1 (proj2 Hs)) Hb). destruct l as [|[k v] l]; [done|].
  destruct (list_represents_cons _ _ b Hs) as (? & ? & _). by exists (mkEv v k), (pair_ev <$> l).
Qed.
Next Obligation.
  intros [l] b Hs Hb. cbn in *. pose proof (perm_nonempty _ b (proj1 (proj2 Hs)) Hb). destruct l as [|[k v] l]; [done|].
  destruct (list_represents_cons _ _ b Hs) as (? & ? & ?). by exists (mkEv v k), (pair_ev <$> l), (mkMap l).
Qed.

#[export] Instance map_remove_law : SchedulerRemoveLaw MapScheduler.
Proof.
  intros [l] b e Hs. cbn in *. destruct (list_represents_split _ b e Hs) as (pre & post & El & _).
  destruct (map_find_ok e pre post ltac:(rewrite <- El; apply Hs) l El) as (lpre & lpost & Hf & Ep).
  unfold Map_Remove. cbn [m_list]. rewrite Hf, bool_decide_true by done. eexists. split; [reflexivity|].
  cbn. rewrite Ep. apply list_represents_remove with e. by rewrite <- El.
Qed.

(** The queue: a bag. *)
Lemma ev_gt_lt a b : ev_gt a b = ev_lt b a.
Proof. apply key_gt_lt. Qed.

Lemma pq_least_ok e l : pq_least e l ∈ e :: l /\ forall x, x ∈ e :: l -> ev_lt x (pq_least e l) = false.
Proof.
  revert e; induction l as [|y l IH]; intros e; cbn [pq_least].
  - split; [left|]. intros x Hx. apply list_elem_of_singleton in Hx as ->. apply ev_lt_irrefl.
  - rewrite ev_gt_lt. destruct (ev_lt y e) eqn:Hye.
    + destruct (IH y) as [Hin Hmin]. split; [by right|]. intros x Hx.
      apply elem_of_cons in Hx as [->|Hx]; [|by apply Hmin].
      destruct (ev_lt e (pq_least y l)) eqn:He; [|done].
      pose proof (ev_lt_trans _ _ _ Hye He) as Hc. rewrite (Hmin y) in Hc by left. done.
    + destruct (IH e) as [Hin Hmin]. split.
      { apply elem_of_cons in Hin as [->|Hin]; [left|right; by right]. }
      intros x Hx. apply elem_of_cons in Hx as [->|Hx]; [apply Hmin; left|].
      apply elem_of_cons in Hx as [->|Hx]; [|apply Hmin; by right].
      destruct (ev_lt y (pq_least e l)) eqn:Hy; [|done].
      assert (ev_lt e (pq_least e l) = false) as He by (apply Hmin; left).
      rewrite <- not_true_iff_false in *. rewrite ev_lt_iff in *. lia.
Qed.

Lemma pq_erase_perm e l : NoDup (uids l) -> e ∈ l -> l ≡ₚ e :: pq_erase e l.
Proof.
  induction l as [|x l IH]; intros Hu He; [by apply elem_of_nil in He|]. cbn [pq_erase]. unfold ev_eq, key_eq.
  destruct (Z.eqb_spec (m_uid (key x)) (m_uid (key e))) as [E|E].
  - by rewrite (uids_inj (x :: l) x e Hu ltac:(left) He E).
  - apply elem_of_cons in He as [->|He]; [done|]. apply NoDup_cons in Hu as [_ Hu].
    rewrite (IH Hu He) at 1. apply Permutation_swap.
Qed.

#[export] Program Instance pq_laws : SchedulerLaws PriorityQueueScheduler := {|
  represents s b := m_queue s ≡ₚ b /\ NoDup (uids b);
|}.
Next Obligation. intros s b b' Hb [? ?]. by rewrite <- Hb. Qed.
Next Obligation. by intros s b [_ ?]. Qed.
Next Obligation. split; [done|constructor]. Qed.
Next Obligation.
  intros [l] b e [Hp Hu] He. cbn in *. eexists. split; [reflexivity|]. cbn.
  split; [by rewrite Hp, <- Permutation_cons_append|by apply NoDup_cons].
Qed.
Next Obligation. intros [l] b [Hp _]. cbn in *. apply bool_decide_ext, perm_nil_iff, Hp. Qed.
Next Obligation.
  intros [l] b [Hp Hu] Hb. cbn in *. pose proof (perm_nonempty _ b Hp Hb). destruct l as [|e l]; [done|].
  destruct (pq_least_ok e l) as [Hin Hmin]. rewrite <- Hp in Hu.
  destruct (earliest_least _ _ Hu Hin Hmin) as (b' & Hb' & He). exists (pq_least e l), b'.
  split; [done|]. by rewrite <- Hp.
Qed.
Next Obligation.
  intros [l] b [Hp Hu] Hb. cbn in *. pose proof (perm_nonempty _ b Hp Hb). destruct l as [|e l]; [done|].
  destruct (pq_least_ok e l) as [Hin Hmin]. rewrite <- Hp in Hu.
  destruct (earliest_least _ _ Hu Hin Hmin) as (b' & Hb' & He).
  exists (pq_least e l), b', (mkPq (pq_erase (pq_least e l) (e :: l))). split; [done|]. rewrite <- Hp. split; [done|].
  split; [done|]. cbn. pose proof (pq_erase_perm _ _ Hu Hin) as Hl. rewrite Hl in Hb'.
  apply Permutation_cons_inv in Hb'. split; [done|].
  rewrite Hl in Hu. apply NoDup_cons in Hu as [_ Hu]. by rewrite <- Hb'.
Qed.

#[export] Instance pq_remove_law : SchedulerRemoveLaw PriorityQueueScheduler.
Proof.
  intros [l] b e [Hp Hu]. cbn in *. eexists. split; [reflexivity|]. cbn.
  assert (l ≡ₚ e :: pq_erase e l) as Hl by (apply pq_erase_perm; rewrite Hp; [done|left]).
  rewrite Hl in Hp. apply Permutation_cons_inv in Hp. apply NoDup_cons in Hu as [_ Hu]. done.
Qed.
