(* ===== verification/HeapScheduler.v ===== *)
(** HeapScheduler: src/core/model/heap-scheduler.{h,cc}, an event list kept as a
    binary heap in a vector whose element 0 is not used.  Insert and RemoveNext
    keep the promise of the interface; Remove of an event from the middle of
    the heap does not. *)
From Stdlib Require Import ZArith Lia Bool List.
From stdpp Require Import base tactics list.
From S2P Require Import Prelude Scheduler.

(** Indices are natural numbers: a vector is too short for a size_t to wrap. *)
Record HeapScheduler := mkHeap { m_heap : list Event }.

Section Heap.
Local Open Scope nat_scope.
Implicit Types h : list Event.

Definition Parent (id : nat) : nat := id / 2.
Definition LeftChild (id : nat) : nat := id * 2.
Definition RightChild (id : nat) : nat := id * 2 + 1.
Definition Root : nat := 1.
Definition IsRoot (id : nat) : bool := id =? Root.
Definition Last h : nat := length h - 1.
Definition IsBottom h (id : nat) : bool := length h <=? id.

(** [m_heap[i]] *)
Definition at_ h (i : nat) : res Event :=
  match h !! i with Some e => Ok e | None => Err OutOfBounds end.

Definition Exch h (a b : nat) : res (list Event) :=
  ns_assert ((b <? length h) && (a <? length h)) ;;
  tmp ← at_ h a ;
  eb ← at_ h b ;
  Ok (<[b := tmp]> (<[a := eb]> h)).

Definition IsLessStrictly h (a b : nat) : res bool :=
  x ← at_ h a ;
  y ← at_ h b ;
  Ok (ev_lt x y).

Definition Smallest h (a b : nat) : res nat :=
  less ← IsLessStrictly h a b ;
  Ok (if less : bool then a else b).

(** The loop of BottomUp; the index is halved each time. *)
Fixpoint bottom_up (fuel : nat) h (index : nat) : res (list Event) :=
  match fuel with
  | O => Err NoFuel
  | Datatypes.S fuel =>
      if IsRoot index then Ok h
      else
        less ← IsLessStrictly h index (Parent index) ;
        if less : bool then
          h ← Exch h index (Parent index) ;
          bottom_up fuel h (Parent index)
        else Ok h
  end.

Definition BottomUp h : res (list Event) := bottom_up (length h) h (Last h).

(** What follows the loop of TopDown: an only child. *)
Definition top_down_end h (index : nat) : res (list Event) :=
  if IsBottom h index then Ok h
  else
    ns_assert (negb (IsBottom h index)) ;;
    let left := LeftChild index in
    if IsBottom h left then Ok h
    else
      less ← IsLessStrictly h index left ;
      if less : bool then Ok h else Exch h index left.

Fixpoint top_down (fuel : nat) h (index : nat) : res (list Event) :=
  match fuel with
  | O => Err NoFuel
  | Datatypes.S fuel =>
      if IsBottom h (RightChild index) then top_down_end h index
      else
        tmp ← Smallest h (LeftChild index) (RightChild index) ;
        less ← IsLessStrictly h index tmp ;
        if less : bool then Ok h
        else
          h ← Exch h index tmp ;
          top_down fuel h tmp
  end.

Definition TopDown h (start : nat) : res (list Event) := top_down (Datatypes.S (length h)) h start.

Definition Heap_Insert (ev : Event) (s : HeapScheduler) : res HeapScheduler :=
  h ← BottomUp (m_heap s ++ [ev]) ;
  Ok (mkHeap h).

Definition Heap_IsEmpty (s : HeapScheduler) : bool := length (m_heap s) =? 1.

Definition Heap_PeekNext (s : HeapScheduler) : res Event := at_ (m_heap s) Root.

Definition Heap_RemoveNext (s : HeapScheduler) : res (Event * HeapScheduler) :=
  next ← at_ (m_heap s) Root ;
  h ← Exch (m_heap s) Root (Last (m_heap s)) ;
  h ← TopDown (removelast h) Root ;
  Ok (next, mkHeap h).

(** The loop of Remove, from the index [i] on. *)
Fixpoint heap_remove (n : nat) h (i : nat) (ev : Event) : res (list Event) :=
  match n with
  | O => Err AssertFailed
  | Datatypes.S n =>
      x ← at_ h i ;
      if (m_uid (key ev) =? m_uid (key x))%Z then
        ns_assert (bool_decide (impl x = impl ev)) ;;
        h ← Exch h i (Last h) ;
        TopDown (removelast h) i
      else heap_remove n h (i + 1) ev
  end.

Definition Heap_Remove (ev : Event) (s : HeapScheduler) : res HeapScheduler :=
  h ← heap_remove (length (m_heap s) - 1) (m_heap s) 1 ev ;
  Ok (mkHeap h).
End Heap.

#[export] Instance heap_ops : SchedulerOps HeapScheduler := {|
  new_scheduler := mkHeap [mkEv None (mkKey 0 0 0)];
  Insert := Heap_Insert;
  IsEmpty := Heap_IsEmpty;
  PeekNext := Heap_PeekNext;
  RemoveNext := Heap_RemoveNext;
  Remove := Heap_Remove;
|}.

(** ** The heap order *)

#[export] Instance Event_inhabited : Inhabited Event := populate (mkEv None (mkKey 0 0 0)).

Definition ev_le (a b : Event) : Prop := ev_lt b a = false.

Lemma ev_le_iff a b : ev_le a b <->
  m_ts (key a) < m_ts (key b) \/ m_ts (key a) = m_ts (key b) /\ m_uid (key a) <= m_uid (key b).
Proof. unfold ev_le. rewrite <- not_true_iff_false, ev_lt_iff. lia. Qed.

Lemma ev_le_refl a : ev_le a a.
Proof. apply ev_lt_irrefl. Qed.

Lemma ev_le_trans a b c : ev_le a b -> ev_le b c -> ev_le a c.
Proof. rewrite !ev_le_iff. lia. Qed.

Lemma ev_lt_le a b : ev_lt a b = true -> ev_le a b.
Proof. rewrite ev_lt_iff, ev_le_iff. lia. Qed.

#[export] Hint Resolve ev_le_refl ev_le_trans ev_lt_le : sched.

Section HeapOrder.
Local Open Scope nat_scope.
Implicit Types h : list Event.

Definition child (p j : nat) : Prop := j = p * 2 \/ j = p * 2 + 1.

(** No child comes before its parent, except perhaps where [P] says. *)
Definition ordered (P : nat -> nat -> Prop) h : Prop :=
  forall p j, 1 <= p -> child p j -> j < length h -> P p j -> ev_le (h !!! p) (h !!! j).
Abbreviation heap_ok := (ordered (fun _ _ => True)).

Lemma Parent_child i : 2 <= i -> child (Parent i) i /\ 1 <= Parent i < i.
Proof.
  intros Hi. unfold Parent, child. pose proof (Nat.div_mod_eq i 2). pose proof (Nat.mod_upper_bound i 2). lia.
Qed.

Lemma child_inj p q j : child p j -> child q j -> p = q.
Proof. unfold child. lia. Qed.

(** *** The primitive operations return *)

Lemma at_ok h i : i < length h -> at_ h i = Ok (h !!! i).
Proof. intros Hi. unfold at_. by rewrite (list_lookup_lookup_total_lt h i Hi). Qed.

Lemma IsLess_ok h i j : i < length h -> j < length h -> IsLessStrictly h i j = Ok (ev_lt (h !!! i) (h !!! j)).
Proof. intros. unfold IsLessStrictly. by rewrite !at_ok. Qed.

Definition swap (a b k : nat) : nat := if decide (k = a) then b else if decide (k = b) then a else k.

(** [h'] is [h] with two elements exchanged. *)
Record exchanged (a b : nat) h h' : Prop := {
  ex_length : length h' = length h;
  ex_at k : k < length h -> h' !!! k = h !!! swap a b k;
  ex_perm : h' ≡ₚ h;
  ex_zero : 1 <= a -> 1 <= b -> h' !!! 0 = h !!! 0;
}.

Lemma Exch_ok h a b : a < length h -> b < length h -> exists h', Exch h a b = Ok h' /\ exchanged a b h h'.
Proof.
  intros Ha Hb. unfold Exch. destruct (Nat.ltb_spec b (length h)), (Nat.ltb_spec a (length h)); try lia.
  cbn [andb ns_assert]. rewrite !at_ok by done. eexists. split; [reflexivity|].
  assert (forall k, k < length h -> <[b:=h !!! a]> (<[a:=h !!! b]> h) !! k = h !! swap a b k) as Hk.
  { intros k Hk. unfold swap. destruct (decide (k = a)) as [->|].
    - destruct (decide (a = b)) as [->|Hab].
      + rewrite list_lookup_insert_eq by (rewrite length_insert; lia). by rewrite list_lookup_lookup_total_lt.
      + rewrite list_lookup_insert_ne, list_lookup_insert_eq by done. by rewrite list_lookup_lookup_total_lt.
    - destruct (decide (k = b)) as [->|].
      + rewrite list_lookup_insert_eq by (rewrite length_insert; lia). by rewrite list_lookup_lookup_total_lt.
      + by rewrite !list_lookup_insert_ne. }
  assert (forall k, k < length h -> <[b:=h !!! a]> (<[a:=h !!! b]> h) !!! k = h !!! swap a b k) as Hk'.
  { intros k Hkl. rewrite (list_lookup_total_alt _ k), (list_lookup_total_alt h (swap a b k)). by rewrite Hk. }
  split; [by rewrite !length_insert|exact Hk'| |].
  - apply Permutation_inj. rewrite !length_insert. split; [done|]. exists (swap a b). split.
    + intros x y. unfold swap. repeat case_decide; lia.
    + intros k. destruct (decide (k < length h)); [by apply Hk|].
      rewrite !lookup_ge_None_2; [done|unfold swap; repeat case_decide; lia|rewrite !length_insert; lia].
  - intros ??. rewrite Hk' by lia. unfold swap. by repeat case_decide; try lia.
Qed.

Ltac exch_at H := rewrite !(ex_at _ _ _ _ H) by (rewrite ?(ex_length _ _ _ _ H); unfold child in *; lia);
  unfold swap; repeat case_decide; subst; try lia.

(** *** BottomUp *)

Definition above_ok h (i : nat) : Prop :=
  ordered (fun _ j => j <> i) h
  /\ forall p j, 1 <= p -> child p i -> child i j -> j < length h -> ev_le (h !!! p) (h !!! j).

Lemma bottom_up_ok fuel h i : i < fuel -> 1 <= i < length h -> above_ok h i ->
  exists h', bottom_up fuel h i = Ok h' /\ heap_ok h' /\ h' ≡ₚ h /\ h' !!! 0 = h !!! 0.
Proof.
  revert h i; induction fuel as [|fuel IH]; intros h i Hf Hi [HA HB]; [lia|]. cbn [bottom_up]. unfold IsRoot, Root.
  destruct (Nat.eqb_spec i 1) as [->|Hi1].
  { exists h. split_and!; try done. intros p j Hp Hc Hj _. apply HA; try done. unfold child in Hc. lia. }
  destruct (Parent_child i ltac:(lia)) as [Hpc Hp]. set (p := Parent i) in *. clearbody p.
  rewrite IsLess_ok by lia. res_step. destruct (ev_lt (h !!! i) (h !!! p)) eqn:Hlt.
  2:{ exists h. split_and!; try done. intros q j Hq Hc Hj _. destruct (decide (j = i)) as [->|]; [|by apply HA].
      by rewrite (child_inj q p i Hc Hpc). }
  destruct (Exch_ok h i p) as (h1 & -> & Hx); [lia..|]. pose proof (ex_length _ _ _ _ Hx) as Hl.
  destruct (IH h1 p) as (h' & -> & Hok & Hperm & H0); [lia|lia| |].
  - apply ev_lt_le in Hlt. split.
    + intros q j Hq Hc Hj Hjp. destruct (decide (j = i)) as [->|Hji].
      { rewrite (child_inj q p i Hc Hpc). exch_at Hx. done. }
      destruct (decide (q = i)) as [->|Hqi]; [exch_at Hx; apply HB; unfold child in *; try lia; done|].
      destruct (decide (q = p)) as [->|Hqp].
      { assert (ev_le (h !!! p) (h !!! j)) by (apply HA; [done|done|lia|done]).
        exch_at Hx; eauto with sched. }
      exch_at Hx. apply HA; [done|done|lia|done].
    + intros q j Hq Hcq Hcj Hj. assert (ev_le (h !!! q) (h !!! p)) as Hqp.
      { apply HA; [done|done|lia|lia]. }
      assert (q <> i /\ q <> p) as [Hqi Hqp'] by (unfold child in *; lia).
      destruct (decide (j = i)) as [->|Hji]; [exch_at Hx; done|].
      assert (ev_le (h !!! p) (h !!! j)) by (apply HA; [lia|done|lia|done]).
      assert (j <> p) by (unfold child in *; lia).
      exch_at Hx. eauto with sched.
  - exists h'. split_and!; [done|done|by rewrite Hperm, (ex_perm _ _ _ _ Hx)|].
    rewrite H0. apply (ex_zero _ _ _ _ Hx); lia.
Qed.

(** *** TopDown *)

Definition below_ok h (i : nat) : Prop :=
  ordered (fun p _ => p <> i) h
  /\ forall p j, 1 <= p -> child p i -> child i j -> j < length h -> ev_le (h !!! p) (h !!! j).

(** The children at or after the parent: nothing to do. *)
Lemma below_heap h i : below_ok h i -> (forall j, child i j -> j < length h -> ev_le (h !!! i) (h !!! j)) -> heap_ok h.
Proof.
  intros [HA _] Hi p j Hp Hc Hj _. destruct (decide (p = i)) as [->|]; [by apply Hi|by apply HA].
Qed.

(** The exchange with the smallest child [c]. *)
Lemma below_exchange h h1 i c : 1 <= i -> below_ok h i -> child i c -> c < length h ->
  exchanged i c h h1 -> (forall j, child i j -> j < length h -> ev_le (h !!! c) (h !!! j)) ->
  ev_lt (h !!! i) (h !!! c) = false -> below_ok h1 c.
Proof.
  intros Hi [HA HB] Hic Hc Hx Hmin Hge. pose proof (ex_length _ _ _ _ Hx) as Hl.
  assert (ev_le (h !!! c) (h !!! i)) as Hci by exact Hge.
  assert (i <> c) by (unfold child in *; lia). split.
  - intros p j Hp Hpj Hj Hpc. destruct (decide (p = i)) as [->|Hpi].
    { destruct (decide (j = c)) as [->|]; [exch_at Hx; done|].
      assert (ev_le (h !!! c) (h !!! j)) by (apply Hmin; [done|lia]).
      assert (j <> i) by (unfold child in *; lia). exch_at Hx. done. }
    destruct (decide (j = c)) as [->|]; [by destruct Hpi; apply (child_inj p i c)|].
    destruct (decide (j = i)) as [->|].
    + assert (ev_le (h !!! p) (h !!! c)) by (apply HB; done). exch_at Hx. done.
    + exch_at Hx. apply HA; [done|done|lia|done].
  - intros p j Hp Hpc Hcj Hj. rewrite (child_inj p i c Hpc Hic) in *.
    assert (ev_le (h !!! c) (h !!! j)) by (apply HA; [unfold child in *; lia|done|lia|done]).
    assert (j <> i /\ j <> c) as [??] by (unfold child in *; lia). exch_at Hx. done.
Qed.

Lemma top_down_end_ok h i : 1 <= i -> length h <= i * 2 + 1 -> below_ok h i ->
  exists h', top_down_end h i = Ok h' /\ heap_ok h' /\ h' ≡ₚ h /\ h' !!! 0 = h !!! 0.
Proof.
  intros Hi Hr Hb. unfold top_down_end, IsBottom, LeftChild.
  destruct (Nat.leb_spec (length h) i) as [Hl|Hl]; [exists h; split_and!; try done; apply (below_heap h i Hb); unfold child; lia|].
  cbn [negb ns_assert]. res_step. destruct (Nat.leb_spec (length h) (i * 2)) as [Hl2|Hl2].
  { exists h. split_and!; try done. apply (below_heap h i Hb). unfold child. lia. }
  assert (forall j, child i j -> j < length h -> j = i * 2) as Honly by (unfold child; lia).
  rewrite IsLess_ok by lia. res_step. destruct (ev_lt (h !!! i) (h !!! (i * 2))) eqn:Hlt.
  { exists h. split_and!; try done. apply (below_heap h i Hb). intros j Hj Hjl. rewrite (Honly j Hj Hjl). eauto with sched. }
  destruct (Exch_ok h i (i * 2)) as (h1 & -> & Hx); [lia..|]. exists h1.
  split_and!; [done| |exact (ex_perm _ _ _ _ Hx)|apply (ex_zero _ _ _ _ Hx); lia].
  pose proof (ex_length _ _ _ _ Hx) as Hl'.
  apply (below_heap h1 (i * 2)); [|unfold child; lia].
  apply (below_exchange h h1 i (i * 2)); try done; [by left|].
  intros j Hj Hjl. rewrite (Honly j Hj Hjl). eauto with sched.
Qed.

Lemma top_down_ok fuel h i : length h < fuel + i -> 1 <= i <= length h -> below_ok h i ->
  exists h', top_down fuel h i = Ok h' /\ heap_ok h' /\ h' ≡ₚ h /\ h' !!! 0 = h !!! 0.
Proof.
  revert h i; induction fuel as [|fuel IH]; intros h i Hf Hi Hb; [lia|]. cbn [top_down].
  unfold IsBottom, RightChild, LeftChild.
  destruct (Nat.leb_spec (length h) (i * 2 + 1)); [apply top_down_end_ok; done || lia|].
  unfold Smallest. rewrite IsLess_ok by lia. res_step.
  set (c := if ev_lt (h !!! (i * 2)) (h !!! (i * 2 + 1)) then i * 2 else i * 2 + 1).
  assert (child i c /\ c < length h /\ forall j, child i j -> j < length h -> ev_le (h !!! c) (h !!! j)) as (Hc & Hcl & Hmin).
  { subst c. destruct (ev_lt _ _) eqn:Hlt; (split; [by (left + right)|]; split; [lia|]);
      intros j [->| ->] _; eauto with sched. }
  clearbody c. rewrite IsLess_ok by lia. res_step. destruct (ev_lt (h !!! i) (h !!! c)) eqn:Hic.
  { exists h. split_and!; try done. apply (below_heap h i Hb). intros j Hj Hjl. apply ev_lt_le in Hic. eauto with sched. }
  destruct (Exch_ok h i c) as (h1 & -> & Hx); [lia..|]. pose proof (ex_length _ _ _ _ Hx) as Hl.
  destruct (IH h1 c) as (h' & -> & Hok & Hperm & H0); [unfold child in *; lia|rewrite Hl; unfold child in *; lia| |].
  - apply (below_exchange h h1 i c); [lia|done..].
  - exists h'. split_and!; [done|done|by rewrite Hperm, (ex_perm _ _ _ _ Hx)|].
    rewrite H0. apply (ex_zero _ _ _ _ Hx); unfold child in *; lia.
Qed.

(** *** The operations *)

(** The root comes before the others. *)
Lemma root_least h k : heap_ok h -> 1 <= k < length h -> ev_le (h !!! 1) (h !!! k).
Proof.
  intros Hok. induction k as [k IH] using lt_wf_ind. intros Hk.
  destruct (decide (k = 1)) as [->|Hk1]; [eauto with sched|]. destruct (Parent_child k ltac:(lia)) as [Hc Hp].
  eapply ev_le_trans; [apply (IH (Parent k)); lia|]. apply Hok; [lia|done|lia|done].
Qed.

(** Element 0 apart, the elements are the same. *)
Lemma tail_perm h h' d t : h = d :: t -> h' ≡ₚ h -> h' !!! 0 = h !!! 0 -> exists t', h' = d :: t' /\ t' ≡ₚ t.
Proof.
  intros -> Hp H0. destruct h' as [|d' t']; [by apply Permutation_nil_cons in Hp|]. cbn in H0. subst d'.
  apply Permutation_cons_inv in Hp. by exists t'.
Qed.

Lemma BottomUp_ok d t e : heap_ok (d :: t) ->
  exists t', BottomUp ((d :: t) ++ [e]) = Ok (d :: t') /\ heap_ok (d :: t') /\ t' ≡ₚ e :: t.
Proof.
  intros Hok. unfold BottomUp, Last. set (h := (d :: t) ++ [e]).
  assert (length h = Datatypes.S (length (d :: t))) as Hl by (unfold h; rewrite length_app; cbn; lia).
  pose proof (eq_refl : length (d :: t) = Datatypes.S (length t)) as Hl'.
  assert (forall k, k < length (d :: t) -> h !!! k = (d :: t) !!! k) as Hk.
  { intros k Hk. unfold h. by rewrite lookup_total_app_l. }
  destruct (bottom_up_ok (length h) h (length h - 1)) as (h' & -> & Hok' & Hp & H0); [lia|lia| |].
  - split.
    + intros p j Hp Hc Hj Hne. rewrite !Hk by (unfold child in *; lia). apply Hok; [done|done|lia|done].
    + intros p j _ _ Hc Hj. unfold child in Hc. lia.
  - destruct (tail_perm h h' d (t ++ [e]) eq_refl Hp H0) as (t' & -> & Ht). exists t'. split_and!; [done|done|].
    by rewrite Ht, <- Permutation_cons_append.
Qed.

(** The root leaves: the last element takes its place and goes down. *)
Lemma RemoveNext_ok d t : heap_ok (d :: t) -> t <> [] ->
  exists t', Heap_RemoveNext (mkHeap (d :: t)) = Ok ((d :: t) !!! 1, mkHeap (d :: t'))
  /\ heap_ok (d :: t') /\ t ≡ₚ (d :: t) !!! 1 :: t'.
Proof.
  intros Hok Ht. unfold Heap_RemoveNext, Root, Last. cbn [m_heap]. set (h := d :: t) in *.
  assert (2 <= length h) as Hl by (unfold h; destruct t; [done|cbn; lia]).
  rewrite at_ok by lia. res_step. destruct (Exch_ok h 1 (length h - 1)) as (h1 & -> & Hx); [lia..|].
  pose proof (ex_length _ _ _ _ Hx) as Hl1. destruct (exists_last (l := h1)) as (h2 & x & E); [by destruct h1; cbn in *; [lia|]|].
  assert (length h1 = length h2 + 1) as Hl2 by (rewrite E, length_app; cbn; lia).
  assert (x = h !!! 1) as ->.
  { replace x with (h1 !!! length h2) by (rewrite E, lookup_total_app_r, Nat.sub_diag by lia; done).
    rewrite (ex_at _ _ _ _ Hx) by lia. unfold swap. repeat case_decide; try lia; f_equal; lia. }
  assert (forall k, k < length h2 -> 1 < k \/ k = 0 -> h2 !!! k = h !!! k) as Hk.
  { intros k Hk Hk1. transitivity (h1 !!! k); [by rewrite E, lookup_total_app_l|].
    rewrite (ex_at _ _ _ _ Hx) by lia. unfold swap. by repeat case_decide; try lia. }
  rewrite E, removelast_last. unfold TopDown.
  destruct (top_down_ok (Datatypes.S (length h2)) h2 1) as (h3 & -> & Hok3 & Hp3 & H03); [lia|lia| |].
  - split.
    + intros p j Hp Hc Hj Hne. rewrite !Hk by (unfold child in *; lia). apply Hok; [done|done|lia|done].
    + intros p j Hp Hc. unfold child in Hc. lia.
  - destruct h2 as [|d2 t2]; [cbn in Hl2; lia|]. assert (d2 = d) as -> by (apply (Hk 0); cbn; lia).
    destruct (tail_perm (d :: t2) h3 d t2 eq_refl Hp3 H03) as (t' & -> & Ht'). exists t'. split_and!; [done|done|].
    pose proof (ex_perm _ _ _ _ Hx) as Hp. rewrite E in Hp. unfold h in Hp at 2. cbn [app] in Hp.
    apply Permutation_cons_inv in Hp. by rewrite <- Hp, <- Permutation_cons_append, Ht'.
Qed.
End HeapOrder.

Record heap_represents (s : HeapScheduler) (b : list Event) : Prop := {
  hr_heap : exists d t, m_heap s = d :: t /\ t ≡ₚ b;
  hr_ok : ordered (fun _ _ => True) (m_heap s);
  hr_uids : NoDup (uids b);
}.

(** The root is the earliest event. *)
Lemma heap_root s b : heap_represents s b -> b <> [] ->
  (1 < length (m_heap s))%nat /\ exists b', b ≡ₚ m_heap s !!! 1%nat :: b' /\ earliest (m_heap s !!! 1%nat) b'.
Proof.
  intros [(d & t & E & Ht) Hok Hu] Hb. rewrite E in *. pose proof (perm_nonempty t b Ht Hb) as Ht0.
  destruct t as [|r t]; [done|]. split; [cbn; lia|]. rewrite <- Ht in Hu.
  destruct (earliest_least r (r :: t)) as (b' & Hp & He); [exact Hu|left| |].
  - intros x Hx. apply list_elem_of_lookup in Hx as [k Hk]. pose proof (lookup_lt_Some _ _ _ Hk).
    pose proof (root_least (d :: r :: t) (Datatypes.S k) Hok ltac:(cbn in *; lia)) as Hle.
    change ((d :: r :: t) !!! Datatypes.S k) with ((r :: t) !!! k) in Hle. rewrite (list_lookup_total_correct _ _ _ Hk) in Hle. exact Hle.
  - exists b'. by rewrite <- Ht.
Qed.

#[export] Program Instance heap_laws : SchedulerLaws HeapScheduler := {|
  represents := heap_represents;
|}.
Next Obligation.
  intros s b b' Hb [(d & t & E & Ht) Hok Hu]. split; [exists d, t; by rewrite <- Hb|done|by rewrite <- Hb].
Qed.
Next Obligation. by intros s b []. Qed.
Next Obligation.
  split; [by eexists _, []| |constructor]. intros p j Hp Hc Hj _. unfold child in Hc. cbn in Hj. lia.
Qed.
Next Obligation.
  intros [h] b e [(d & t & E & Ht) Hok Hu] He. cbn [m_heap] in *. subst h.
  change (Insert e (mkHeap (d :: t))) with (h ← BottomUp ((d :: t) ++ [e]) ; Ok (mkHeap h)).
  destruct (BottomUp_ok d t e Hok) as (t' & -> & Hok' & Ht'). eexists. split; [reflexivity|].
  split; [exists d, t'; split; [done|by rewrite Ht', Ht]|done|by apply NoDup_cons].
Qed.
Next Obligation.
  intros [h] b [(d & t & E & Ht) _ _]. cbn in *. subst h. unfold Heap_IsEmpty. cbn.
  transitivity (bool_decide (t = [])); [by destruct t|]. apply bool_decide_ext, perm_nil_iff, Ht.
Qed.
Next Obligation.
  intros s b Hs Hb. destruct (heap_root s b Hs Hb) as (Hl & b' & Hp & He). eexists _, b'.
  split; [unfold PeekNext; cbn; unfold Heap_PeekNext; by rewrite at_ok|done].
Qed.
Next Obligation.
  intros s b Hs Hb. destruct (heap_root s b Hs Hb) as (_ & b' & Hp & He).
  destruct s as [h], Hs as [(d & t & E & Ht) Hok Hu]. cbn [m_heap] in *. subst h.
  destruct (RemoveNext_ok d t Hok (perm_nonempty t b Ht Hb)) as (t' & Er & Hok' & Ht').
  eexists _, b', (mkHeap (d :: t')). split; [exact Er|]. split; [done|]. split; [done|].
  assert (t' ≡ₚ b') as Htb by (eapply Permutation_cons_inv; rewrite <- Ht', <- Hp; exact Ht).
  split; [by exists d, t'|done|]. rewrite Hp in Hu. by apply NoDup_cons in Hu as [_ ?].
Qed.
