(* ===== verification/SchedulerSpec.v ===== *)
(** The event lists: theorems.  For every sequence of operations the event
    lists return the same events, those of the specification, a bag whose
    earliest event leaves first; but for HeapScheduler only as long as nothing
    is removed from the middle. *)
From Stdlib Require Import ZArith Lia Bool List.
From stdpp Require Import base tactics list sets.
From S2P Require Import Prelude Scheduler HeapScheduler.

(** ** The specification *)

Inductive SchedOp :=
| Op_Insert (e : Event)
| Op_RemoveNext
| Op_Remove (e : Event).

(** One operation on a bag, with the events it returns. *)
Inductive spec_step : list Event -> SchedOp -> list Event -> list Event -> Prop :=
| spec_insert b e : m_uid (key e) ∉ uids b -> spec_step b (Op_Insert e) [] (e :: b)
| spec_next b e b' : b ≡ₚ e :: b' -> earliest e b' -> spec_step b Op_RemoveNext [e] b'
| spec_remove b e b' : b ≡ₚ e :: b' -> spec_step b (Op_Remove e) [] b'.

Inductive spec_run : list Event -> list SchedOp -> list Event -> list Event -> Prop :=
| spec_done b : spec_run b [] [] b
| spec_more b op out b1 ops outs b2 :
    spec_step b op out b1 -> spec_run b1 ops outs b2 -> spec_run b (op :: ops) (out ++ outs) b2.

(** ** The implementations *)

Definition sched_op {S} `{SchedulerOps S} (op : SchedOp) (s : S) : res (list Event * S) :=
  match op with
  | Op_Insert e => s ← Insert e s ; Ok ([], s)
  | Op_RemoveNext => '(e, s) ← RemoveNext s ; Ok ([e], s)
  | Op_Remove e => s ← Remove e s ; Ok ([], s)
  end.

Fixpoint sched_run {S} `{SchedulerOps S} (ops : list SchedOp) (s : S) : res (list Event * S) :=
  match ops with
  | [] => Ok ([], s)
  | op :: ops =>
      '(out, s) ← sched_op op s ;
      '(outs, s) ← sched_run ops s ;
      Ok (out ++ outs, s)
  end.

Definition is_remove (op : SchedOp) : bool := match op with Op_Remove _ => true | _ => false end.

(** [S] runs the operations: it keeps the laws, and the law of Remove unless
    there is no Remove. *)
Definition runs_on S `{SchedulerLaws S} (ops : list SchedOp) : Prop :=
  Forall (fun op => is_remove op = false) ops
  \/ forall s b e, represents s (e :: b) -> exists s', Remove e s = Ok s' /\ represents s' b.

Lemma sched_run_ok {S} `{SchedulerLaws S} b ops outs b' (s : S) :
  runs_on S ops -> spec_run b ops outs b' -> represents s b ->
  exists s', sched_run ops s = Ok (outs, s') /\ represents s' b'.
Proof.
  intros Hops Hr. revert s Hops. induction Hr as [b|b op out b1 ops outs b2 Hst Hr IH]; intros s Hops Hs; [by eexists|].
  assert (exists s', sched_op op s = Ok (out, s') /\ represents s' b1) as (s1 & E1 & Hs1).
  { destruct Hst as [b e He|b e b1 Hp He|b e b1 Hp]; cbn [sched_op].
    - destruct (represents_Insert s b e Hs He) as (s1 & -> & Hs1). by eexists.
    - destruct (represents_RemoveNext s b Hs) as (e' & b1' & s1 & -> & Hp' & He' & Hs1).
      { intros ->. by apply Permutation_nil_cons in Hp. }
      destruct (earliest_unique e b1 e' b1') as [<- Hb1]; [by rewrite <- Hp, <- Hp'|done|done|].
      eexists. split; [reflexivity|]. by rewrite Hb1.
    - rewrite Hp in Hs. destruct Hops as [Hops|Hrm]; [by apply Forall_cons in Hops as [? _]|].
      destruct (Hrm s b1 e Hs) as (s1 & -> & Hs1). by eexists. }
  destruct (IH s1) as (s2 & E2 & Hs2); [|done|].
  { destruct Hops as [Hops|Hrm]; [left; by apply Forall_cons in Hops as [_ ?]|by right]. }
  exists s2. split; [|done]. cbn [sched_run]. rewrite E1. res_step. by rewrite E2.
Qed.

(** C13. The event lists agree.  Whatever valid sequence of operations the
    specification allows (an inserted event has a new identifier, only a pending
    event is removed), ListScheduler, MapScheduler and PriorityQueueScheduler
    return exactly the events of the specification, always the earliest of
    those pending, and no assertion fails; so does HeapScheduler as long as no
    event is removed out of turn. *)
Theorem event_lists_agree ops outs b :
  spec_run [] ops outs b ->
  (exists s, sched_run ops (new_scheduler (S := ListScheduler)) = Ok (outs, s) /\ represents s b)
  /\ (exists s, sched_run ops (new_scheduler (S := MapScheduler)) = Ok (outs, s) /\ represents s b)
  /\ (exists s, sched_run ops (new_scheduler (S := PriorityQueueScheduler)) = Ok (outs, s) /\ represents s b)
  /\ (Forall (fun op => is_remove op = false) ops ->
      exists s, sched_run ops (new_scheduler (S := HeapScheduler)) = Ok (outs, s) /\ represents s b).
Proof.
  intros Hr. split_and!.
  - apply (sched_run_ok [] ops outs b); [right; apply list_remove_law|done|apply represents_new].
  - apply (sched_run_ok [] ops outs b); [right; apply map_remove_law|done|apply represents_new].
  - apply (sched_run_ok [] ops outs b); [right; apply pq_remove_law|done|apply represents_new].
  - intros Hops. apply (sched_run_ok [] ops outs b); [by left|done|apply represents_new].
Qed.

(** Events of the witnesses: [u] is the identifier, the address too. *)
Definition event_at (ts : Z) (u : nat) : Event := mkEv (Some u) (mkKey ts (Z.of_nat u) 0).

Lemma event_lists_agree_witness :
  let e1 := event_at 20 4 in
  let e2 := event_at 10 5 in
  let e3 := event_at 10 6 in
  spec_run [] [Op_Insert e1; Op_Insert e2; Op_Insert e3; Op_RemoveNext; Op_Remove e1; Op_RemoveNext] [e2; e3] []
  /\ exists s, sched_run [Op_Insert e1; Op_Insert e2; Op_Insert e3; Op_RemoveNext; Op_Remove e1; Op_RemoveNext]
                 (new_scheduler (S := MapScheduler)) = Ok ([e2; e3], s).
Proof.
  intros e1 e2 e3.
  assert (spec_run [] [Op_Insert e1; Op_Insert e2; Op_Insert e3; Op_RemoveNext; Op_Remove e1; Op_RemoveNext]
            [e2; e3] []) as Hr.
  { apply (spec_more _ _ [] [e1]); [constructor; by apply not_elem_of_nil|].
    apply (spec_more _ _ [] [e2; e1]); [constructor; cbn; set_solver|].
    apply (spec_more _ _ [] [e3; e2; e1]); [constructor; cbn; set_solver|].
    apply (spec_more _ _ [e2] [e3; e1] _ [e3]).
    { apply spec_next; [apply Permutation_swap|]. repeat constructor. }
    apply (spec_more _ _ [] [e3]); [constructor; apply Permutation_swap|].
    apply (spec_more _ _ [e3] [] [] []); [apply spec_next; [done|constructor]|constructor]. }
  split; [exact Hr|]. destruct (event_lists_agree _ _ _ Hr) as (_ & (s & E & _) & _). by exists s.
Defined.

(** ** HeapScheduler::Remove *)

Section HeapRemove.
Local Open Scope nat_scope.

(** Nothing to do for an event before its children. *)
Lemma top_down_stays fuel h i : i < length h ->
  (forall j, child i j -> j < length h -> ev_lt (h !!! i) (h !!! j) = true) ->
  top_down (Datatypes.S fuel) h i = Ok h.
Proof.
  intros Hi Hc. assert (forall j, child i j -> j < length h -> IsLessStrictly h i j = Ok true) as Hless.
  { intros j Hj Hjl. by rewrite IsLess_ok, Hc. }
  cbn [top_down]. unfold IsBottom, RightChild, LeftChild.
  destruct (Nat.leb_spec (length h) (i * 2 + 1)).
  - unfold top_down_end, IsBottom, LeftChild. destruct (Nat.leb_spec (length h) i); [done|]. cbn [negb ns_assert]. res_step.
    destruct (Nat.leb_spec (length h) (i * 2)); [done|]. rewrite Hless; [done|by left|lia].
  - unfold Smallest. rewrite IsLess_ok by lia. res_step.
    rewrite Hless; [done| |destruct (ev_lt _ _); lia]. unfold child. destruct (ev_lt _ _); auto.
Qed.

(** The loop of Remove finds the event. *)
Lemma heap_remove_at h i n k : NoDup (uids h) -> 1 <= k <= i -> i < k + n -> i < length h ->
  heap_remove n h k (h !!! i) = (h' ← Exch h i (Last h) ; TopDown (removelast h') i).
Proof.
  intros Hu. revert k; induction n as [|n IH]; intros k Hk Hn Hi; [lia|]. cbn [heap_remove].
  rewrite at_ok by lia. res_step. destruct (Z.eqb_spec (m_uid (key (h !!! i))) (m_uid (key (h !!! k)))) as [E|E].
  - assert (i = k) as <-.
    { eapply (NoDup_lookup (uids h) i k (m_uid (key (h !!! i)))); [done| |]; unfold uids; rewrite list_lookup_fmap.
      - by rewrite list_lookup_lookup_total_lt.
      - rewrite list_lookup_lookup_total_lt by lia. cbn. by rewrite E. }
    by rewrite bool_decide_true.
  - assert (i <> k) by (intros ->; done). by apply IH; lia.
Qed.
End HeapRemove.

(** C40. HeapScheduler::Remove puts the last event of the heap in the place of
    the one removed and lets it sink, but never rise: whenever the last event
    comes before the parent of the one removed, the result is not a heap any
    more, a child comes before its parent. *)
Theorem heap_remove_breaks_order s i :
  ordered (fun _ _ => True) (m_heap s) -> NoDup (uids (m_heap s)) ->
  (2 <= i)%nat -> (i < Last (m_heap s))%nat ->
  ev_lt (m_heap s !!! Last (m_heap s)) (m_heap s !!! Parent i) = true ->
  exists s', Remove (m_heap s !!! i) s = Ok s'
  /\ ev_lt (m_heap s' !!! i) (m_heap s' !!! Parent i) = true
  /\ ~ ordered (fun _ _ => True) (m_heap s').
Proof.
  destruct s as [h]. unfold Last. cbn [m_heap]. intros Hok Hu Hi Hil Hlt.
  destruct (Parent_child i Hi) as [Hc Hp]. set (p := Parent i) in *. clearbody p.
  destruct (Exch_ok h i (length h - 1)) as (h1 & Ex & Hx); [lia..|]. pose proof (ex_length _ _ _ _ Hx) as Hl.
  destruct (exists_last (l := h1)) as (h2 & x & E); [by destruct h1; cbn in *; [lia|]|].
  assert (length h1 = length h2 + 1)%nat as Hl2 by (rewrite E, length_app; cbn; lia).
  assert (forall k, (k < length h2)%nat -> h2 !!! k = h !!! swap i (length h - 1) k) as Hk.
  { intros k Hk. transitivity (h1 !!! k); [by rewrite E, lookup_total_app_l|]. rewrite (ex_at _ _ _ _ Hx) by lia. done. }
  assert (h2 !!! i = h !!! (length h - 1)%nat) as Ei.
  { rewrite Hk by lia. unfold swap. by rewrite decide_True. }
  assert (forall k, (k < length h2)%nat -> k <> i -> h2 !!! k = h !!! k) as Eo.
  { intros k Hkl Hki. rewrite Hk by done. unfold swap. by repeat case_decide; try lia. }
  exists (mkHeap h2). split; [|split].
  - change (Remove (h !!! i) (mkHeap h)) with (h' ← heap_remove (length h - 1) h 1 (h !!! i) ; Ok (mkHeap h')).
    rewrite heap_remove_at by (done || lia). unfold Last. rewrite Ex. res_step. rewrite E, removelast_last.
    unfold TopDown. rewrite top_down_stays; [done|lia|]. intros j Hj Hjl. rewrite Ei, Eo by (unfold child in *; lia).
    assert (ev_le (h !!! p) (h !!! i)) as H1 by (apply Hok; [lia|done|lia|done]).
    assert (ev_le (h !!! i) (h !!! j)) as H2 by (apply Hok; [lia|done|lia|done]).
    rewrite ev_le_iff in H1, H2. rewrite ev_lt_iff in Hlt |- *. lia.
  - cbn [m_heap]. by rewrite Ei, Eo by lia.
  - intros Hbad. cbn [m_heap] in Hbad. specialize (Hbad p i ltac:(lia) Hc ltac:(lia) I). unfold ev_le in Hbad.
    rewrite Ei, Eo, Hlt in Hbad by lia. done.
Qed.

(** The events at 1, 10, 2, 11, 20, 30, 5: once the one at 11 is removed, the
    event at 5 comes out after the one at 10. *)
Definition heap_events : list Event :=
  [event_at 1 4; event_at 10 5; event_at 2 6; event_at 11 7; event_at 20 8; event_at 30 9; event_at 5 10].

Definition heap_example : HeapScheduler := mkHeap (mkEv None (mkKey 0 0 0) :: heap_events).

Lemma heap_remove_breaks_order_witness :
  sched_run (map Op_Insert heap_events) (new_scheduler (S := HeapScheduler)) = Ok ([], heap_example)
  /\ (exists s', Remove (m_heap heap_example !!! 4%nat) heap_example = Ok s'
      /\ ev_lt (m_heap s' !!! 4%nat) (m_heap s' !!! 2%nat) = true
      /\ exists outs s'', sched_run (replicate 6 Op_RemoveNext) s' = Ok (outs, s'')
         /\ map (fun e => m_ts (key e)) outs = [1; 2; 10; 5; 20; 30]).
Proof.
  split; [vm_compute; reflexivity|].
  destruct (heap_remove_breaks_order heap_example 4) as (s' & E & Hlt & _).
  - intros p j Hp Hc Hj _. unfold child in Hc. cbn in Hj.
    assert (p = 1%nat \/ p = 2%nat \/ p = 3%nat) as [-> | [-> | ->]] by lia; destruct Hc as [-> | ->]; reflexivity.
  - vm_compute. repeat constructor; set_solver.
  - lia.
  - vm_compute. lia.
  - reflexivity.
  - exists s'. split; [exact E|]. split; [exact Hlt|]. vm_compute in E. injection E as <-.
    eexists _, _. split; [vm_compute; reflexivity|reflexivity].
Defined.
