(* ===== verification/Simulator.v ===== *)
(** The simulator: src/core/model/default-simulator-impl.{h,cc}, with event-id.h
    and event-impl.cc.

    [Sim S T W] is the state of a DefaultSimulatorImpl whose event list is of
    type [S].  The simulated program is outside: [W] is its state, and an event
    is a task of type [T]; [Handler] gives the program that a task runs, a
    sequence of calls of the simulator that ends with a new state.  The event
    objects are the list [m_impls], their addresses the positions in it; an
    object is never released. *)
From Stdlib Require Import ZArith Lia Bool List.
From stdpp Require Import base tactics list.
From S2P Require Import Prelude NsTime Scheduler.

(** ** Data *)

(** EventId::UID and Simulator::NO_CONTEXT. *)
Definition INVALID : Z := 0.
Definition DESTROY : Z := 2.
Definition VALID : Z := 4.
Definition NO_CONTEXT : Z := 2 ^ 32 - 1.

(** What an event does: a task of the program, or Simulator::Stop. *)
Inductive Body (T : Type) :=
| B_Task (t : T)
| B_Stop.
Arguments B_Task {T} t.
Arguments B_Stop {T}.

Record EventImpl (T : Type) := mkImpl {
  m_body : Body T;
  m_cancel : bool;
}.
Arguments mkImpl {T} m_body m_cancel.
Arguments m_body {T} e.
Arguments m_cancel {T} e.

Record EventId := mkId {
  id_eventImpl : option nat;
  id_ts : Z;
  id_context : Z;
  id_uid : Z;
}.

#[export] Instance EventId_eq_dec : EqDecision EventId.
Proof. solve_decision. Defined.

(** [EventId ()] *)
Definition EventId_new : EventId := mkId None 0 0 0.

Definition id_eq (a b : EventId) : bool :=
  (id_uid a =? id_uid b) && (id_context a =? id_context b) && (id_ts a =? id_ts b)
  && bool_decide (id_eventImpl a = id_eventImpl b).

Record EventWithContext := mkEwc {
  ewc_context : Z;
  ewc_timestamp : Z;
  ewc_event : nat;
}.

(** [sim_uid] is the member m_uid.  [m_issued] is no member: the events inserted
    so far, for the statements; nothing reads it. *)
Record Sim (S T W : Type) := mkSim {
  m_events : S;
  m_stop : bool;
  sim_uid : Z;
  m_currentUid : Z;
  m_currentTs : Z;
  m_currentContext : Z;
  m_unscheduledEvents : Z;
  m_eventCount : Z;
  m_eventsWithContext : list EventWithContext;
  m_eventsWithContextEmpty : bool;
  m_destroyEvents : list EventId;
  m_impls : list (EventImpl T);
  m_world : W;
  m_issued : list Event;
}.
Arguments mkSim {S T W}.
Arguments m_events {S T W} s.
Arguments m_stop {S T W} s.
Arguments sim_uid {S T W} s.
Arguments m_currentUid {S T W} s.
Arguments m_currentTs {S T W} s.
Arguments m_currentContext {S T W} s.
Arguments m_unscheduledEvents {S T W} s.
Arguments m_eventCount {S T W} s.
Arguments m_eventsWithContext {S T W} s.
Arguments m_eventsWithContextEmpty {S T W} s.
Arguments m_destroyEvents {S T W} s.
Arguments m_impls {S T W} s.
Arguments m_world {S T W} s.
Arguments m_issued {S T W} s.

#[export] Instance eta_Sim {S T W} : Settable (Sim S T W) := fun r =>
  mkSim (m_events r) (m_stop r) (sim_uid r) (m_currentUid r) (m_currentTs r) (m_currentContext r)
    (m_unscheduledEvents r) (m_eventCount r) (m_eventsWithContext r) (m_eventsWithContextEmpty r)
    (m_destroyEvents r) (m_impls r) (m_world r) (m_issued r).

Definition DefaultSimulatorImpl_new {S T W} `{SchedulerOps S} (w : W) : Sim S T W :=
  mkSim new_scheduler false VALID INVALID 0 NO_CONTEXT 0 0 [] true [] [] w [].

(** ** The calls of a task *)

Inductive Call (T : Type) : Type -> Type :=
| C_Schedule (delay : Z) (t : T) : Call T EventId
| C_ScheduleWithContext (main : bool) (context delay : Z) (t : T) : Call T unit
| C_ScheduleNow (t : T) : Call T EventId
| C_ScheduleDestroy (t : T) : Call T EventId
| C_Cancel (id : EventId) : Call T unit
| C_Remove (id : EventId) : Call T unit
| C_IsExpired (id : EventId) : Call T bool
| C_GetDelayLeft (id : EventId) : Call T Z
| C_Now : Call T Z
| C_GetContext : Call T Z
| C_Stop : Call T unit
| C_StopAfter (delay : Z) : Call T unit.
Arguments C_Schedule {T} delay t.
Arguments C_ScheduleWithContext {T} main context delay t.
Arguments C_ScheduleNow {T} t.
Arguments C_ScheduleDestroy {T} t.
Arguments C_Cancel {T} id.
Arguments C_Remove {T} id.
Arguments C_IsExpired {T} id.
Arguments C_GetDelayLeft {T} id.
Arguments C_Now {T}.
Arguments C_GetContext {T}.
Arguments C_Stop {T}.
Arguments C_StopAfter {T} delay.

Inductive Prog (T R : Type) : Type :=
| Ret (r : R)
| Do {X : Type} (c : Call T X) (k : X -> Prog T R).
Arguments Ret {T R} r.
Arguments Do {T R X} c k.

Class Handler (T W : Type) := handler : T -> W -> Prog T W.

Section Simulator.
Context {S T W : Type} `{SchedulerOps S}.
Implicit Types s : Sim S T W.

(** ** Scheduling *)

(** MakeEvent: a new object. *)
Definition MakeEvent (b : Body T) s : nat * Sim S T W :=
  (length (m_impls s), s <| m_impls ::= fun l => l ++ [mkImpl b false] |>).

(** [m_uid++; m_unscheduledEvents++; m_events->Insert (ev)] *)
Definition insert_event (ev : Event) s : res (Sim S T W) :=
  let s := s <| sim_uid := u32 (sim_uid s + 1) |>
             <| m_unscheduledEvents := i32 (m_unscheduledEvents s + 1) |> in
  q ← Insert ev (m_events s) ;
  Ok (s <| m_events := q |> <| m_issued ::= cons ev |>).

Definition Schedule (delay : Z) (event : nat) s : res (EventId * Sim S T W) :=
  ns_assert (0 <=? delay) ;;
  let tAbsolute := t_add delay (TimeStep (m_currentTs s)) in
  let ts := u64 tAbsolute in
  let id := mkId (Some event) ts (m_currentContext s) (sim_uid s) in
  s ← insert_event (mkEv (Some event) (mkKey ts (sim_uid s) (m_currentContext s))) s ;
  Ok (id, s).

(** [main]: the calling thread is the main thread. *)
Definition ScheduleWithContext (main : bool) (context delay : Z) (event : nat) s : res (Sim S T W) :=
  if main then
    let tAbsolute := t_add delay (TimeStep (m_currentTs s)) in
    insert_event (mkEv (Some event) (mkKey (u64 tAbsolute) (sim_uid s) context)) s
  else
    Ok (s <| m_eventsWithContext ::= fun l => l ++ [mkEwc context (u64 delay) event] |>
          <| m_eventsWithContextEmpty := false |>).

Definition ScheduleNow (event : nat) s : res (EventId * Sim S T W) := Schedule 0 event s.

Definition ScheduleDestroy (event : nat) s : EventId * Sim S T W :=
  let id := mkId (Some event) (m_currentTs s) (2 ^ 32 - 1) 2 in
  (id, s <| m_destroyEvents ::= fun l => l ++ [id] |> <| sim_uid := u32 (sim_uid s + 1) |>).

Definition StopAfter (delay : Z) s : res (Sim S T W) :=
  let '(event, s) := MakeEvent B_Stop s in
  '(_, s) ← Schedule delay event s ;
  Ok s.

Definition Now s : Z := TimeStep (m_currentTs s).

(** ** Events that are waiting *)

(** [impl->IsCancelled ()] *)
Definition IsCancelled (i : nat) s : res bool :=
  match m_impls s !! i with Some e => Ok (m_cancel e) | None => Err Dangling end.

(** [impl->Cancel ()] *)
Definition Cancel_impl (i : nat) s : res (Sim S T W) :=
  match m_impls s !! i with
  | Some e => Ok (s <| m_impls := <[i := mkImpl (m_body e) true]> (m_impls s) |>)
  | None => Err Dangling
  end.

Definition IsExpired (id : EventId) s : res bool :=
  if id_uid id =? DESTROY then
    match id_eventImpl id with
    | None => Ok true
    | Some i =>
        c ← IsCancelled i s ;
        if c : bool then Ok true else Ok (negb (existsb (fun x => id_eq x id) (m_destroyEvents s)))
    end
  else
    match id_eventImpl id with
    | None => Ok true
    | Some i =>
        if (id_ts id <? m_currentTs s)
           || ((id_ts id =? m_currentTs s) && (id_uid id <=? m_currentUid s))
        then Ok true else IsCancelled i s
    end.

Definition GetDelayLeft (id : EventId) s : res Z :=
  expired ← IsExpired id s ;
  Ok (if expired : bool then TimeStep 0 else TimeStep (u64 (id_ts id - m_currentTs s))).

(** The list without the first element equal to [id]. *)
Fixpoint destroy_erase (id : EventId) (l : list EventId) : list EventId :=
  match l with
  | [] => []
  | x :: l => if id_eq x id then l else x :: destroy_erase id l
  end.

Definition sim_Remove (id : EventId) s : res (Sim S T W) :=
  if id_uid id =? DESTROY then Ok (s <| m_destroyEvents ::= destroy_erase id |>)
  else
    expired ← IsExpired id s ;
    if expired : bool then Ok s
    else
      q ← Remove (mkEv (id_eventImpl id) (mkKey (id_ts id) (id_uid id) (id_context id))) (m_events s) ;
      let s := s <| m_events := q |> in
      match id_eventImpl id with
      | None => Err NullDeref
      | Some i =>
          s ← Cancel_impl i s ;
          Ok (s <| m_unscheduledEvents := i32 (m_unscheduledEvents s - 1) |>)
      end.

Definition Cancel (id : EventId) s : res (Sim S T W) :=
  expired ← IsExpired id s ;
  if expired : bool then Ok s
  else match id_eventImpl id with None => Err NullDeref | Some i => Cancel_impl i s end.

(** ** Running a task *)

Definition call {X} (c : Call T X) : Sim S T W -> res (X * Sim S T W) :=
  match c in Call _ X return Sim S T W -> res (X * Sim S T W) with
  | C_Schedule delay t => fun s => let '(event, s) := MakeEvent (B_Task t) s in Schedule delay event s
  | C_ScheduleWithContext main context delay t => fun s =>
      let '(event, s) := MakeEvent (B_Task t) s in
      s ← ScheduleWithContext main context delay event s ; Ok (tt, s)
  | C_ScheduleNow t => fun s => let '(event, s) := MakeEvent (B_Task t) s in ScheduleNow event s
  | C_ScheduleDestroy t => fun s => let '(event, s) := MakeEvent (B_Task t) s in Ok (ScheduleDestroy event s)
  | C_Cancel id => fun s => s ← Cancel id s ; Ok (tt, s)
  | C_Remove id => fun s => s ← sim_Remove id s ; Ok (tt, s)
  | C_IsExpired id => fun s => b ← IsExpired id s ; Ok (b, s)
  | C_GetDelayLeft id => fun s => d ← GetDelayLeft id s ; Ok (d, s)
  | C_Now => fun s => Ok (Now s, s)
  | C_GetContext => fun s => Ok (m_currentContext s, s)
  | C_Stop => fun s => Ok (tt, s <| m_stop := true |>)
  | C_StopAfter delay => fun s => s ← StopAfter delay s ; Ok (tt, s)
  end.

Fixpoint exec {R} (p : Prog T R) s : res (R * Sim S T W) :=
  match p with
  | Ret r => Ok (r, s)
  | Do c k => '(x, s) ← call c s ; exec (k x) s
  end.

Context `{Handler T W}.

(** EventImpl::Invoke *)
Definition Invoke (i : nat) s : res (Sim S T W) :=
  match m_impls s !! i with
  | None => Err Dangling
  | Some e =>
      if m_cancel e then Ok s
      else
        match m_body e with
        | B_Stop => Ok (s <| m_stop := true |>)
        | B_Task t =>
            '(w, s) ← exec (handler t (m_world s)) s ;
            Ok (s <| m_world := w |>)
        end
  end.

(** ** The event loop *)

(** The loop of ProcessEventsWithContext. *)
Fixpoint insert_with_context (l : list EventWithContext) s : res (Sim S T W) :=
  match l with
  | [] => Ok s
  | e :: l =>
      let ev := mkEv (Some (ewc_event e))
                  (mkKey (u64 (m_currentTs s + ewc_timestamp e)) (sim_uid s) (ewc_context e)) in
      s ← insert_event ev s ;
      insert_with_context l s
  end.

Definition ProcessEventsWithContext s : res (Sim S T W) :=
  if m_eventsWithContextEmpty s then Ok s
  else
    insert_with_context (m_eventsWithContext s)
      (s <| m_eventsWithContext := [] |> <| m_eventsWithContextEmpty := true |>).

(** The part of ProcessOneEvent before the event is invoked. *)
Definition take_event s : res (Event * Sim S T W) :=
  '(next, q) ← RemoveNext (m_events s) ;
  let s := s <| m_events := q |> in
  ns_assert (m_currentTs s <=? m_ts (key next)) ;;
  Ok (next, s <| m_unscheduledEvents := i32 (m_unscheduledEvents s - 1) |>
              <| m_eventCount := u64 (m_eventCount s + 1) |>
              <| m_currentTs := m_ts (key next) |>
              <| m_currentContext := m_context (key next) |>
              <| m_currentUid := m_uid (key next) |>).

(** The event that was taken is returned too. *)
Definition ProcessOneEvent s : res (Event * Sim S T W) :=
  '(next, s) ← take_event s ;
  match impl next with
  | None => Err NullDeref
  | Some i =>
      s ← Invoke i s ;
      s ← ProcessEventsWithContext s ;
      Ok (next, s)
  end.

(** The loop of Run, with the events it processes. *)
Fixpoint run_loop (fuel : nat) s : res (list Event * Sim S T W) :=
  match fuel with
  | O => Err NoFuel
  | Datatypes.S fuel =>
      if negb (IsEmpty (m_events s)) && negb (m_stop s) then
        '(e, s) ← ProcessOneEvent s ;
        '(l, s) ← run_loop fuel s ;
        Ok (e :: l, s)
      else Ok ([], s)
  end.

Definition Run (fuel : nat) s : res (list Event * Sim S T W) :=
  s ← ProcessEventsWithContext s ;
  '(l, s) ← run_loop fuel (s <| m_stop := false |>) ;
  ns_assert (negb (IsEmpty (m_events s)) || (m_unscheduledEvents s =? 0)) ;;
  Ok (l, s).

(** The events of Destroy run at the end of the program. *)
Fixpoint Destroy (fuel : nat) s : res (Sim S T W) :=
  match fuel with
  | O => Err NoFuel
  | Datatypes.S fuel =>
      match m_destroyEvents s with
      | [] => Ok s
      | id :: l =>
          let s := s <| m_destroyEvents := l |> in
          match id_eventImpl id with
          | None => Err NullDeref
          | Some i =>
              c ← IsCancelled i s ;
              s ← (if c : bool then Ok s else Invoke i s) ;
              Destroy fuel s
          end
      end
  end.
End Simulator.

(** ** A new event list: the events are moved to it, at most [fuel] of them. *)

Fixpoint move_events {S S'} `{SchedulerOps S, SchedulerOps S'} (fuel : nat) (q : S) (q' : S') : res S' :=
  match fuel with
  | O => Err NoFuel
  | Datatypes.S fuel =>
      if negb (IsEmpty q) then
        '(next, q) ← RemoveNext q ;
        q' ← Insert next q' ;
        move_events fuel q q'
      else Ok q'
  end.

Definition SetScheduler {S S' T W} `{SchedulerOps S, SchedulerOps S'} (fuel : nat) (s : Sim S T W) : res (Sim S' T W) :=
  q ← move_events fuel (m_events s) new_scheduler ;
  Ok (mkSim q (m_stop s) (sim_uid s) (m_currentUid s) (m_currentTs s) (m_currentContext s)
        (m_unscheduledEvents s) (m_eventCount s) (m_eventsWithContext s) (m_eventsWithContextEmpty s)
        (m_destroyEvents s) (m_impls s) (m_world s) (m_issued s)).
