(* ===== verification/SimulatorSpec.v ===== *)
(** The simulator: theorems.  Events run in the order of their time stamps, and
    of their scheduling at the same time; none is lost; the choice of the event
    list changes nothing; but HeapScheduler with Remove lets the clock go back.

    One relation does it: a simulator with one event list, its invariant, and
    the same simulator with another event list that holds the same events. *)
From Stdlib Require Import ZArith Lia Bool List Sorted.
From stdpp Require Import base tactics list.
From S2P Require Import Prelude NsTime Scheduler HeapScheduler SchedulerSpec Simulator.

(** ** The invariant *)

Section Invariant.
Context {S T W : Type} `{SchedulerLaws S}.
Implicit Types s : Sim S T W.

(** The event comes after the one that runs now. *)
Definition later s (e : Event) : Prop :=
  m_currentTs s < m_ts (key e) \/ m_currentTs s = m_ts (key e) /\ m_currentUid s < m_uid (key e).

Definition cancelled s (e : Event) : Prop :=
  exists i im, impl e = Some i /\ m_impls s !! i = Some im /\ m_cancel im = true.

(** The object of the event is there. *)
Definition allocated s (i : nat) : Prop := (i < length (m_impls s))%nat.

(** [pending] are the events of the list, [hist] those that ran, in order. *)
Record sim_ok s (pending hist : list Event) : Prop := {
  so_events : represents (m_events s) pending;
  so_clock : 0 <= m_currentTs s < 2 ^ 63;
  so_pending : Forall (later s) pending;
  so_issued : forall e, e ∈ pending -> e ∈ m_issued s;
  so_uids : forall e, e ∈ m_issued s -> VALID <= m_uid (key e) < sim_uid s;
  so_times : forall e, e ∈ m_issued s -> 0 <= m_ts (key e) < 2 ^ 63;
  so_impls : forall e, e ∈ m_issued s -> exists i, impl e = Some i /\ allocated s i;
  so_gone : forall e, e ∈ m_issued s -> e ∈ pending \/ e ∈ hist \/ cancelled s e;
  so_hist : Forall (fun e => ~ later s e /\ e ∈ m_issued s) hist;
  so_order : StronglySorted (fun a b => ev_lt a b = true) hist;
  so_current : m_currentUid s < sim_uid s /\ VALID <= sim_uid s;
  so_room : sim_uid s + zlen (m_eventsWithContext s) < 2 ^ 32;
  so_queue : Forall (fun x => allocated s (ewc_event x)
                       /\ 0 <= ewc_timestamp x /\ m_currentTs s + ewc_timestamp x < 2 ^ 63)
               (m_eventsWithContext s);
  so_flag : m_eventsWithContextEmpty s = true -> m_eventsWithContext s = [];
  so_destroy : Forall (fun id => exists i, id_eventImpl id = Some i /\ allocated s i) (m_destroyEvents s);
  so_count : m_unscheduledEvents s = i32 (zlen pending);
  so_total : zlen (m_issued s) <= sim_uid s - VALID;
}.

(** What is asked of the calls: delays are not negative, the clock and the
    identifiers do not run out, and an EventId was returned by the simulator. *)
Definition room s (delay : Z) : Prop :=
  0 <= delay /\ m_currentTs s + delay < 2 ^ 63
  /\ sim_uid s + zlen (m_eventsWithContext s) + 1 < 2 ^ 32.

Definition id_event (id : EventId) : Event :=
  mkEv (id_eventImpl id) (mkKey (id_ts id) (id_uid id) (id_context id)).

Definition id_ok s (id : EventId) : Prop :=
  id = EventId_new
  \/ id_uid id = DESTROY /\ (exists i, id_eventImpl id = Some i /\ allocated s i)
  \/ id_event id ∈ m_issued s.

Definition call_ok {X} (c : Call T X) s : Prop :=
  match c with
  | C_Schedule delay _ | C_ScheduleWithContext _ _ delay _ | C_StopAfter delay => room s delay
  | C_ScheduleNow _ | C_ScheduleDestroy _ => room s 0
  | C_Cancel id | C_Remove id | C_IsExpired id | C_GetDelayLeft id => id_ok s id
  | C_Now | C_GetContext | C_Stop => True
  end.

(** Of every call that the program makes. *)
Fixpoint calls_ok {R} (p : Prog T R) s : Prop :=
  match p with
  | Ret _ => True
  | Do c k => call_ok c s /\ match call c s with Ok (x, s') => calls_ok (k x) s' | Err _ => True end
  end.

Context `{Handler T W}.

(** Of every call of the tasks that the loop runs. *)
Definition invoke_ok (e : Event) s : Prop :=
  match impl e with
  | None => True
  | Some i =>
      match m_impls s !! i with
      | Some (mkImpl (B_Task t) false) => calls_ok (handler t (m_world s)) s
      | _ => True
      end
  end.

Fixpoint run_ok (fuel : nat) s : Prop :=
  match fuel with
  | O => True
  | Datatypes.S fuel =>
      if negb (IsEmpty (m_events s)) && negb (m_stop s) then
        match take_event s with Ok (e, s1) => invoke_ok e s1 | Err _ => True end
        /\ match ProcessOneEvent s with Ok (_, s') => run_ok fuel s' | Err _ => True end
      else True
  end.

Lemma sim_new w : sim_ok (DefaultSimulatorImpl_new w) [] [].
Proof.
  split; cbn; try done; try lia; try (by constructor); try (intros e He; by apply elem_of_nil in He).
  apply represents_new.
Qed.

(** ** Expiration *)

Lemma IsCancelled_ok s i : allocated s i -> exists c, IsCancelled i s = Ok c.
Proof.
  intros Hi. unfold IsCancelled. destruct (lookup_lt_is_Some_2 _ _ Hi) as [im ->]. by eexists.
Qed.

Lemma not_later_iff s e : ~ later s e <->
  (m_ts (key e) <? m_currentTs s)
  || ((m_ts (key e) =? m_currentTs s) && (m_uid (key e) <=? m_currentUid s)) = true.
Proof.
  unfold later. destruct (Z.ltb_spec (m_ts (key e)) (m_currentTs s)), (Z.eqb_spec (m_ts (key e)) (m_currentTs s)),
    (Z.leb_spec (m_uid (key e)) (m_currentUid s)); cbn; split; try done; lia.
Qed.

(** An event that was issued is expired when it is no longer pending, or was
    cancelled. *)
Lemma IsExpired_issued s pending hist id : sim_ok s pending hist -> id_event id ∈ m_issued s ->
  exists b, IsExpired id s = Ok b
  /\ (b = false <-> id_event id ∈ pending /\ ~ cancelled s (id_event id)).
Proof.
  intros Hs Hid. destruct (so_uids _ _ _ Hs _ Hid) as [Hu _]. destruct (so_impls _ _ _ Hs _ Hid) as (i & Ei & Hi).
  cbn in Hu, Ei. unfold IsExpired. destruct (Z.eqb_spec (id_uid id) DESTROY) as [E|_]; [unfold VALID, DESTROY in *; lia|].
  rewrite Ei. destruct (lookup_lt_is_Some_2 _ _ Hi) as [im Eim].
  pose proof (not_later_iff s (id_event id)) as Hl. cbn in Hl. destruct (_ || _).
  - eexists. split; [done|]. split; [done|]. intros [Hp _]. exfalso. apply (proj2 Hl eq_refl).
    pose proof (so_pending _ _ _ Hs) as Hall. rewrite Forall_forall in Hall. by apply Hall.
  - unfold IsCancelled. rewrite Eim. exists (m_cancel im). split; [done|]. split.
    + intros Ec. assert (~ cancelled s (id_event id)) as Hnc.
      { intros (i' & im' & Ei' & Eim' & Ec'). cbn in Ei'. congruence. }
      split; [|done]. destruct (so_gone _ _ _ Hs _ Hid) as [?|[Hn|?]]; [done| |done].
      pose proof (so_hist _ _ _ Hs) as Hh. rewrite Forall_forall in Hh. destruct (Hh _ Hn) as [Hn' _]. by apply Hl in Hn'.
    + intros [_ Hnc]. destruct (m_cancel im) eqn:Ec; [|done]. destruct Hnc. by exists i, im.
Qed.

Lemma IsExpired_ok s pending hist id : sim_ok s pending hist -> id_ok s id -> exists b, IsExpired id s = Ok b.
Proof.
  intros Hs [->|[[Hu (i & Ei & Hi)]|Hid]].
  - by eexists.
  - unfold IsExpired. rewrite Hu, Ei. cbn [Z.eqb]. destruct (IsCancelled_ok s i Hi) as [c ->].
    change (DESTROY =? DESTROY) with true. res_step. destruct c; by eexists.
  - destruct (IsExpired_issued s pending hist id Hs Hid) as (b & -> & _). by eexists.
Qed.
End Invariant.

(** ** Two simulators that differ in the event list *)

Section Two.
Context {S1 S2 T W : Type} `{R1 : SchedulerRemoveLaw S1} `{R2 : SchedulerRemoveLaw S2} `{HD : Handler T W}.
Implicit Types s : Sim S1 T W.

Definition with_events (q : S2) s : Sim S2 T W :=
  mkSim q (m_stop s) (sim_uid s) (m_currentUid s) (m_currentTs s) (m_currentContext s)
    (m_unscheduledEvents s) (m_eventCount s) (m_eventsWithContext s) (m_eventsWithContextEmpty s)
    (m_destroyEvents s) (m_impls s) (m_world s) (m_issued s).

(** The state [s] is well formed, and the event list [q] holds its events. *)
Definition related s (q : S2) (pending hist : list Event) : Prop :=
  sim_ok s pending hist /\ represents q pending.

(** [m2] does with the event list [q] what [m1] does. *)
Definition same_result {X} (hist : list Event) (m1 : res (X * Sim S1 T W)) (m2 : res (X * Sim S2 T W)) : Prop :=
  exists x s q pending, m1 = Ok (x, s) /\ m2 = Ok (x, with_events q s) /\ related s q pending hist.

(** *** Objects *)

Lemma allocated_app s l i : allocated s i -> allocated (s <| m_impls ::= fun k => k ++ l |>) i.
Proof. unfold allocated. cbn. rewrite length_app. lia. Qed.

Lemma MakeEvent_rel b s q pending hist : related s q pending hist ->
  let '(i, s') := MakeEvent b s in
  related s' q pending hist /\ allocated s' i
  /\ (forall d, room s d -> room s' d) /\ MakeEvent b (with_events q s) = (i, with_events q s').
Proof.
  intros [[] Hq]. cbn. split; [split; [|done]|split_and!; [|done|done]].
  - split; try done.
    + intros e He. destruct (so_impls0 e He) as (i & ? & ?). exists i. split; [done|]. by apply allocated_app.
    + intros e He. destruct (so_gone0 e He) as [?|[?|(i & im & Hi & Him & Hc)]]; auto. right. right.
      exists i, im. split_and!; try done. cbn. by apply lookup_app_l_Some.
    + eapply Forall_impl; [exact so_queue0|]. intros x (? & ? & ?). split_and!; try done. by apply allocated_app.
    + eapply Forall_impl; [exact so_destroy0|]. intros x (i & ? & ?). exists i. split; [done|]. by apply allocated_app.
  - unfold allocated. cbn. rewrite length_app. cbn. lia.
Qed.

Lemma allocated_insert s i im j : allocated s j -> allocated (s <| m_impls := <[i := im]> (m_impls s) |>) j.
Proof. unfold allocated. cbn. by rewrite length_insert. Qed.

(** Cancelling more keeps the invariant. *)
Lemma Cancel_impl_rel i s q pending hist : related s q pending hist -> allocated s i ->
  exists s', Cancel_impl i s = Ok s' /\ related s' q pending hist
  /\ Cancel_impl i (with_events q s) = Ok (with_events q s').
Proof.
  intros [[] Hq] Hi. destruct (lookup_lt_is_Some_2 _ _ Hi) as [im Him].
  unfold Cancel_impl. cbn [m_impls with_events]. rewrite Him. eexists. split; [reflexivity|]. split; [|reflexivity].
  split; [|done]. split; try done.
  - intros e He. destruct (so_impls0 e He) as (j & ? & ?). exists j. split; [done|]. by apply allocated_insert.
  - intros e He. destruct (so_gone0 e He) as [?|[?|(j & jm & Hj & Hjm & Hc)]]; auto. right. right.
    destruct (decide (j = i)) as [->|Hji].
    + exists i, (mkImpl (m_body im) true). split_and!; try done. cbn. by apply list_lookup_insert_eq.
    + exists j, jm. split_and!; try done. cbn. by rewrite list_lookup_insert_ne.
  - eapply Forall_impl; [exact so_queue0|]. intros x (? & ? & ?). split_and!; try done. by apply allocated_insert.
  - eapply Forall_impl; [exact so_destroy0|]. intros x (j & ? & ?). exists j. split; [done|]. by apply allocated_insert.
Qed.

(** *** Scheduling *)

Lemma u32_next n l : VALID <= n -> 0 <= l -> n + l + 1 < 2 ^ 32 -> u32 (n + 1) = n + 1.
Proof. unfold VALID. intros. apply u32_small. unfold is_u32. lia. Qed.

Lemma i32_count (n k : Z) : i32 (i32 n + k) = i32 (n + k).
Proof.
  unfold i32, sint. f_equal. change (32 - 1) with 31.
  replace ((n + 2 ^ 31) mod 2 ^ 32 - 2 ^ 31 + k + 2 ^ 31) with ((n + 2 ^ 31) mod 2 ^ 32 + k) by lia.
  rewrite Zplus_mod_idemp_l. f_equal. lia.
Qed.

(** The next event, for now or later, enters both lists. *)
Lemma insert_event_rel i ts ctx s q pending hist : related s q pending hist ->
  allocated s i -> m_currentTs s <= ts < 2 ^ 63 ->
  sim_uid s + zlen (m_eventsWithContext s) + 1 < 2 ^ 32 ->
  let ev := mkEv (Some i) (mkKey ts (sim_uid s) ctx) in
  exists q1 q2,
    let s' := s <| sim_uid := sim_uid s + 1 |> <| m_unscheduledEvents := i32 (m_unscheduledEvents s + 1) |>
                <| m_events := q1 |> <| m_issued := ev :: m_issued s |> in
    insert_event ev s = Ok s' /\ insert_event ev (with_events q s) = Ok (with_events q2 s')
    /\ related s' q2 (ev :: pending) hist.
Proof.
  intros [[] Hq] Hi Hts Hroom ev.
  assert (m_uid (key ev) ∉ uids pending) as Hfresh.
  { intros Hin. apply list_elem_of_fmap in Hin as (e & Ee & He). apply so_issued0, so_uids0 in He. cbn in Ee. lia. }
  destruct (represents_Insert _ _ ev so_events0 Hfresh) as (q1 & E1 & Hq1).
  destruct (represents_Insert _ _ ev Hq Hfresh) as (q2 & E2 & Hq2).
  pose proof (zlen_nonneg (m_eventsWithContext s)). destruct so_current0 as [Hcur Hval].
  exists q1, q2. unfold insert_event. cbn [m_events with_events sim_uid m_unscheduledEvents].
  change (m_events (set_field m_unscheduledEvents _ ?x)) with (m_events x).
  change (m_events (set_field sim_uid _ ?x)) with (m_events x). cbn [m_events with_events].
  rewrite (u32_next _ (zlen (m_eventsWithContext s))) by done. rewrite E1, E2. res_step.
  split; [reflexivity|]. split; [reflexivity|]. split; [|done]. split; cbn; try done.
  - constructor; [|done]. unfold later. cbn. lia.
  - intros e. rewrite !elem_of_cons. naive_solver.
  - intros e. rewrite elem_of_cons. intros [->|He]; [cbn; lia|]. specialize (so_uids0 e He). lia.
  - intros e. rewrite elem_of_cons. intros [->|He]; [cbn; lia|]. by apply so_times0.
  - intros e. rewrite elem_of_cons. intros [->|He]; [by exists i|]. by apply so_impls0.
  - intros e. rewrite !elem_of_cons. intros [->|He]; [tauto|]. specialize (so_gone0 e He). tauto.
  - eapply Forall_impl; [exact so_hist0|]. cbn. intros e [? ?]. split; [done|]. by apply elem_of_cons; right.
  - lia.
  - lia.
  - rewrite zlen_cons, so_count0, i32_count. f_equal. lia.
  - rewrite zlen_cons. lia.
Qed.

Lemma absolute_time s d : 0 <= m_currentTs s < 2 ^ 63 -> room s d ->
  u64 (t_add d (TimeStep (m_currentTs s))) = m_currentTs s + d.
Proof.
  intros Hc (? & ? & _). unfold t_add, TimeStep. rewrite (i64_small (m_currentTs s)) by (unfold is_i64; lia).
  rewrite i64_small by (unfold is_i64; lia). rewrite u64_small by (unfold is_u64; lia). lia.
Qed.

Lemma Schedule_rel d i s q pending hist : related s q pending hist -> allocated s i -> room s d ->
  same_result hist (Schedule d i s) (Schedule d i (with_events q s)).
Proof.
  intros Hs Hi Hr. pose proof (so_clock _ _ _ (proj1 Hs)) as Hc. pose proof Hr as (Hd & Ht & Hu).
  unfold Schedule. apply Z.leb_le in Hd as Hd'. rewrite Hd'. cbn [ns_assert]. res_step.
  cbn [m_currentTs with_events sim_uid m_currentContext]. rewrite absolute_time by done.
  destruct (insert_event_rel i (m_currentTs s + d) (m_currentContext s) s q pending hist Hs Hi ltac:(lia) Hu)
    as (q1 & q2 & E1 & E2 & Hs'). rewrite E1, E2. res_step. eexists _, _, q2, _. split_and!; done.
Qed.

(** Bind the results of two runs. *)
Lemma same_result_bind {X Y} hist m1 m2 (k1 : X * Sim S1 T W -> res (Y * Sim S1 T W)) k2 :
  same_result hist m1 m2 ->
  (forall x s q pending, m1 = Ok (x, s) -> related s q pending hist ->
    same_result hist (k1 (x, s)) (k2 (x, with_events q s))) ->
  same_result hist (z ← m1 ; k1 z) (z ← m2 ; k2 z).
Proof. intros (x & s & q & pending & -> & -> & Hs) Hk. res_step. by eapply Hk. Qed.

Lemma same_result_ret {X} hist (x : X) s q pending : related s q pending hist ->
  same_result hist (Ok (x, s)) (Ok (x, with_events q s)).
Proof. intros Hs. by exists x, s, q, pending. Qed.

(** From another thread: the event is kept for the end of the current one. *)
Lemma queue_rel ctx d i s q pending hist : related s q pending hist -> allocated s i -> room s d ->
  related (s <| m_eventsWithContext ::= fun l => l ++ [mkEwc ctx (u64 d) i] |>
             <| m_eventsWithContextEmpty := false |>) q pending hist.
Proof.
  intros [[] Hq] Hi (Hd & Ht & Hu). split; [|done]. split; cbn; try done.
  - rewrite zlen_app. unfold zlen at 2. cbn. lia.
  - apply Forall_app. split; [done|]. constructor; [|done]. cbn. rewrite u64_small by (unfold is_u64; lia).
    split_and!; try done.
Qed.

Lemma ScheduleWithContext_rel main ctx d i s q pending hist : related s q pending hist -> allocated s i -> room s d ->
  same_result hist (s' ← ScheduleWithContext main ctx d i s ; Ok (tt, s'))
    (s' ← ScheduleWithContext main ctx d i (with_events q s) ; Ok (tt, s')).
Proof.
  intros Hs Hi Hr. unfold ScheduleWithContext. destruct main.
  - pose proof (so_clock _ _ _ (proj1 Hs)) as Hc. pose proof Hr as (Hd & Ht & Hu).
    cbn [m_currentTs with_events sim_uid]. rewrite absolute_time by done.
    destruct (insert_event_rel i (m_currentTs s + d) ctx s q pending hist Hs Hi ltac:(lia) Hu)
      as (q1 & q2 & E1 & E2 & Hs'). rewrite E1, E2. res_step. eexists _, _, q2, _. split_and!; done.
  - res_step. eexists _, _, q, pending. split; [reflexivity|]. split; [reflexivity|]. by apply queue_rel.
Qed.

(** An event for Destroy: an identifier is spent. *)
Lemma ScheduleDestroy_rel i s q pending hist : related s q pending hist -> allocated s i -> room s 0 ->
  same_result hist (Ok (ScheduleDestroy i s)) (Ok (ScheduleDestroy i (with_events q s))).
Proof.
  intros [[] Hq] Hi (_ & _ & Hu). pose proof (zlen_nonneg (m_eventsWithContext s)).
  eexists _, _, q, pending. split; [reflexivity|]. split; [reflexivity|]. split; [|done].
  assert (u32 (sim_uid s + 1) = sim_uid s + 1) as E by (eapply u32_next; [apply so_current0|done|done]).
  split; cbn; rewrite ?E; try done.
  - intros e He. specialize (so_uids0 e He). lia.
  - lia.
  - lia.
  - apply Forall_app. split; [done|]. constructor; [|done]. by exists i.
  - lia.
Qed.

(** *** Cancellation *)

Lemma expired_same id s q : IsExpired id (with_events q s) = IsExpired id s.
Proof. reflexivity. Qed.

(** What is not expired has its object. *)
Lemma id_allocated id s pending hist : sim_ok s pending hist -> id_ok s id -> IsExpired id s = Ok false ->
  exists i, id_eventImpl id = Some i /\ allocated s i.
Proof.
  intros Hs [->|[[_ Hi]|Hid]] He; [done|done|]. exact (so_impls _ _ _ Hs _ Hid).
Qed.

Lemma Cancel_rel id s q pending hist : related s q pending hist -> id_ok s id ->
  same_result hist (s' ← Cancel id s ; Ok (tt, s')) (s' ← Cancel id (with_events q s) ; Ok (tt, s')).
Proof.
  intros Hs Hid. unfold Cancel. rewrite expired_same. destruct (IsExpired_ok s pending hist id (proj1 Hs) Hid) as [b Eb].
  rewrite Eb. res_step. destruct b; [by eapply same_result_ret|].
  destruct (id_allocated id s pending hist (proj1 Hs) Hid Eb) as (i & -> & Hi).
  destruct (Cancel_impl_rel i s q pending hist Hs Hi) as (s' & -> & Hs' & ->). res_step. by eapply same_result_ret.
Qed.

Lemma erase_rel id s q pending hist : related s q pending hist ->
  related (s <| m_destroyEvents ::= destroy_erase id |>) q pending hist.
Proof.
  intros [[] Hq]. split; [|done]. split; cbn; try done.
  induction so_destroy0 as [|x l Hx Hl IH]; cbn; [constructor|]. destruct (id_eq x id); [done|by constructor].
Qed.

(** An event leaves both lists; it is cancelled. *)
Lemma remove_rel e i s q b hist : related s q (e :: b) hist -> impl e = Some i -> allocated s i ->
  exists s' q1 q2, Remove e (m_events s) = Ok q1 /\ Remove e q = Ok q2
  /\ Cancel_impl i (s <| m_events := q1 |>) = Ok s' /\ Cancel_impl i (with_events q2 s) = Ok (with_events q2 s')
  /\ related (s' <| m_unscheduledEvents := i32 (m_unscheduledEvents s' - 1) |>) q2 b hist.
Proof.
  intros [[] Hq] Hi Ha. destruct (represents_Remove _ _ _ so_events0) as (q1 & E1 & Hq1). destruct (represents_Remove _ _ _ Hq) as (q2 & E2 & Hq2).
  destruct (lookup_lt_is_Some_2 _ _ Ha) as [im Him]. unfold Cancel_impl. cbn [m_impls with_events set_field eta_Sim].
  change (m_impls (set_field m_events _ s)) with (m_impls s). rewrite Him.
  eexists _, q1, q2. split; [done|]. split; [done|]. split; [reflexivity|]. split; [reflexivity|]. split; [|done].
  split; cbn; try done.
  - by apply Forall_cons in so_pending0 as [_ ?].
  - intros x Hx. apply so_issued0. by right.
  - intros x Hx. destruct (so_impls0 x Hx) as (j & ? & ?). exists j. split; [done|]. unfold allocated. cbn. by rewrite length_insert.
  - intros x Hx. destruct (so_gone0 x Hx) as [Hp|[?|(j & jm & Hj & Hjm & Hc)]]; [|auto|].
    + apply elem_of_cons in Hp as [->|?]; [|by left]. right. right. exists i, (mkImpl (m_body im) true).
      split_and!; try done. cbn. by apply list_lookup_insert_eq.
    + right. right. destruct (decide (j = i)) as [->|Hji].
      * exists i, (mkImpl (m_body im) true). split_and!; try done. cbn. by apply list_lookup_insert_eq.
      * exists j, jm. split_and!; try done. cbn. by rewrite list_lookup_insert_ne.
  - eapply Forall_impl; [exact so_queue0|]. intros x (? & ? & ?). split_and!; try done. unfold allocated. cbn. by rewrite length_insert.
  - eapply Forall_impl; [exact so_destroy0|]. intros x (j & ? & ?). exists j. split; [done|]. unfold allocated. cbn. by rewrite length_insert.
  - rewrite so_count0, zlen_cons. change (i32 (1 + zlen b) - 1) with (i32 (1 + zlen b) + -1).
    rewrite i32_count. f_equal. lia.
Qed.

Lemma related_perm s q b b' hist : b ≡ₚ b' -> related s q b hist -> related s q b' hist.
Proof.
  intros Hb [[] Hq]. split; [|by rewrite <- Hb]. split; try done.
  - by rewrite <- Hb.
  - by rewrite <- Hb.
  - intros e. rewrite <- Hb. apply so_issued0.
  - intros e He. rewrite <- Hb. by apply so_gone0.
  - rewrite so_count0. unfold zlen. by rewrite (Permutation_length Hb).
Qed.

Lemma Remove_rel id s q pending hist : related s q pending hist -> id_ok s id ->
  same_result hist (s' ← sim_Remove id s ; Ok (tt, s')) (s' ← sim_Remove id (with_events q s) ; Ok (tt, s')).
Proof.
  intros Hs Hid. unfold sim_Remove. destruct (Z.eqb_spec (id_uid id) DESTROY) as [Ed|Ed].
  { res_step. eexists _, _, q, pending. split; [reflexivity|]. split; [reflexivity|]. by apply erase_rel. }
  rewrite expired_same. destruct (IsExpired_ok s pending hist id (proj1 Hs) Hid) as [b Eb].
  rewrite Eb. res_step. destruct b; [by eapply same_result_ret|].
  assert (id_event id ∈ m_issued s) as Hiss.
  { destruct Hid as [->|[[? _]|?]]; [by vm_compute in Eb|done|done]. }
  destruct (IsExpired_issued s pending hist id (proj1 Hs) Hiss) as (b & Eb' & Hb).
  rewrite Eb in Eb'. injection Eb' as <-. destruct (proj1 Hb eq_refl) as [Hp _].
  apply elem_of_Permutation in Hp as [rest Hp]. apply (related_perm _ _ _ _ _ Hp) in Hs.
  destruct (id_allocated id s _ hist (proj1 Hs) Hid Eb) as (i & Ei & Hi).
  destruct (remove_rel (id_event id) i s q rest hist Hs Ei Hi) as (s' & q1 & q2 & E1 & E2 & C1 & C2 & Hs').
  unfold id_event in E1, E2. cbn [m_events with_events]. rewrite E1, E2. res_step. rewrite Ei.
  change ((with_events q s) <| m_events := q2 |>) with (with_events q2 s). rewrite C1, C2. res_step.
  eexists _, _, q2, rest. split; [reflexivity|]. split; [reflexivity|]. exact Hs'.
Qed.

(** Neither m_stop nor the state of the program matters. *)
Lemma related_stop b s q pending hist : related s q pending hist -> related (s <| m_stop := b |>) q pending hist.
Proof. intros [[] Hq]. split; [|done]. by split. Qed.

Lemma related_world w s q pending hist : related s q pending hist -> related (s <| m_world := w |>) q pending hist.
Proof. intros [[] Hq]. split; [|done]. by split. Qed.

(** *** The program *)

Lemma call_rel {X} (c : Call T X) s q pending hist : related s q pending hist -> call_ok c s ->
  same_result hist (call c s) (call c (with_events q s)).
Proof.
  intros Hs Hc. pose proof (so_clock _ _ _ (proj1 Hs)) as Hck.
  destruct c as [d t|main ctx d t|t|t|id|id|id|id| | | |d]; cbn [call call_ok] in *;
    try (pose proof (MakeEvent_rel (B_Task t) s q pending hist Hs) as Hm;
         destruct (MakeEvent (B_Task t) s) as [i s1]; destruct Hm as (Hs1 & Hi & Hroom & ->);
         specialize (Hroom _ Hc)).
  - by eapply Schedule_rel.
  - by eapply ScheduleWithContext_rel.
  - by eapply Schedule_rel.
  - by eapply ScheduleDestroy_rel.
  - by eapply Cancel_rel.
  - by eapply Remove_rel.
  - rewrite expired_same. destruct (IsExpired_ok s pending hist id (proj1 Hs) Hc) as [b ->]. res_step. by eapply same_result_ret.
  - unfold GetDelayLeft. rewrite expired_same. destruct (IsExpired_ok s pending hist id (proj1 Hs) Hc) as [b ->].
    res_step. by eapply same_result_ret.
  - by eapply same_result_ret.
  - by eapply same_result_ret.
  - eexists _, _, q, pending. split; [reflexivity|]. split; [reflexivity|]. by apply related_stop.
  - unfold StopAfter. pose proof (MakeEvent_rel B_Stop s q pending hist Hs) as Hm.
    destruct (MakeEvent B_Stop s) as [i s1]. destruct Hm as (Hs1 & Hi & Hroom & ->). specialize (Hroom _ Hc).
    destruct (Schedule_rel d i s1 q pending hist Hs1 Hi Hroom) as (x & s2 & q2 & p2 & -> & -> & Hs2).
    by eapply same_result_ret.
Qed.

Lemma exec_rel {R} (p : Prog T R) s q pending hist : related s q pending hist -> calls_ok p s ->
  same_result hist (exec p s) (exec p (with_events q s)).
Proof.
  revert s q pending; induction p as [r|X c k IH]; intros s q pending Hs Hp; cbn [exec calls_ok] in *.
  - by eapply same_result_ret.
  - destruct Hp as [Hc Hk]. pose proof (call_rel c s q pending hist Hs Hc) as Hr.
    apply (same_result_bind hist _ _ (fun '(x, s) => exec (k x) s) (fun '(x, s) => exec (k x) s)); [done|].
    intros x s' q' p' E Hs'. rewrite E in Hk. by eapply IH.
Qed.

(** Two runs that return a state only. *)
Definition same_state (hist : list Event) (m1 : res (Sim S1 T W)) (m2 : res (Sim S2 T W)) : Prop :=
  exists s q pending, m1 = Ok s /\ m2 = Ok (with_events q s) /\ related s q pending hist.

Lemma Invoke_rel e i s q pending hist : related s q pending hist -> impl e = Some i -> allocated s i -> invoke_ok e s ->
  same_state hist (Invoke i s) (Invoke i (with_events q s)).
Proof.
  intros Hs Ei Hi He. unfold Invoke. cbn [m_impls with_events]. unfold invoke_ok in He. rewrite Ei in He.
  destruct (lookup_lt_is_Some_2 _ _ Hi) as [[body c] Him]. rewrite Him in *. cbn [m_cancel m_body].
  destruct c; [by exists s, q, pending|]. destruct body as [t|].
  - change (m_world (with_events q s)) with (m_world s).
    destruct (exec_rel _ s q pending hist Hs He) as (w & s' & q' & p' & -> & -> & Hs'). res_step.
    eexists _, q', p'. split; [reflexivity|]. split; [reflexivity|]. by apply related_world.
  - eexists _, q, pending. split; [reflexivity|]. split; [reflexivity|]. by apply related_stop.
Qed.

(** *** The event loop *)

Definition no_queue s : Prop := m_eventsWithContext s = [].

Lemma insert_with_context_rel l s q pending hist : related s q pending hist -> no_queue s ->
  Forall (fun x => allocated s (ewc_event x) /\ 0 <= ewc_timestamp x /\ m_currentTs s + ewc_timestamp x < 2 ^ 63) l ->
  sim_uid s + zlen l < 2 ^ 32 ->
  exists s' q' pending', insert_with_context l s = Ok s' /\ insert_with_context l (with_events q s) = Ok (with_events q' s')
  /\ related s' q' pending' hist /\ no_queue s'.
Proof.
  revert s q pending; induction l as [|x l IH]; intros s q pending Hs Hq Hl Hroom; cbn [insert_with_context].
  - by exists s, q, pending.
  - apply Forall_cons in Hl as [(Hi & Hx & Ht) Hl]. rewrite zlen_cons in Hroom. pose proof (zlen_nonneg l).
    pose proof (so_clock _ _ _ (proj1 Hs)) as Hck. cbn [m_currentTs with_events sim_uid].
    rewrite u64_small by (unfold is_u64; lia).
    destruct (insert_event_rel (ewc_event x) (m_currentTs s + ewc_timestamp x) (ewc_context x) s q pending hist Hs Hi)
      as (q1 & q2 & E1 & E2 & Hs1); [lia|rewrite Hq, zlen_nil; lia|]. rewrite E1, E2. res_step.
    eapply IH; [exact Hs1|exact Hq|exact Hl|cbn; lia].
Qed.

Lemma ProcessEventsWithContext_rel s q pending hist : related s q pending hist ->
  exists s' q' pending', ProcessEventsWithContext s = Ok s'
  /\ ProcessEventsWithContext (with_events q s) = Ok (with_events q' s')
  /\ related s' q' pending' hist /\ no_queue s'.
Proof.
  intros Hs. unfold ProcessEventsWithContext. cbn [m_eventsWithContextEmpty with_events].
  destruct (m_eventsWithContextEmpty s) eqn:Ef.
  { exists s, q, pending. split_and!; try done. by apply (so_flag _ _ _ (proj1 Hs)). }
  change ((with_events q s) <| m_eventsWithContext := [] |> <| m_eventsWithContextEmpty := true |>)
    with (with_events q (s <| m_eventsWithContext := [] |> <| m_eventsWithContextEmpty := true |>)).
  cbn [m_eventsWithContext with_events]. destruct Hs as [[] Hq].
  eapply insert_with_context_rel; [|reflexivity|exact so_queue0|exact so_room0].
  split; [|exact Hq]. split; try done. cbn. rewrite zlen_nil.
  pose proof (zlen_nonneg (m_eventsWithContext s)). lia.
Qed.

Lemma sorted_snoc l e : StronglySorted (fun a b => ev_lt a b = true) l -> Forall (fun x => ev_lt x e = true) l ->
  StronglySorted (fun a b => ev_lt a b = true) (l ++ [e]).
Proof.
  induction 1 as [|x l Hl IH Hx]; intros He; cbn; [repeat constructor|].
  apply Forall_cons in He as [Hxe He]. constructor; [by apply IH|]. apply Forall_app. split; [done|by constructor].
Qed.

(** The earliest event becomes the current one. *)
Lemma take_event_rel s q pending hist : related s q pending hist -> no_queue s -> pending <> [] ->
  exists e s' q' pending' i, take_event s = Ok (e, s') /\ take_event (with_events q s) = Ok (e, with_events q' s')
  /\ related s' q' pending' (hist ++ [e]) /\ no_queue s' /\ impl e = Some i /\ allocated s' i.
Proof.
  intros [[] Hq] Hnq Hne.
  destruct (represents_RemoveNext _ _ so_events0 Hne) as (e & b & q1 & E1 & Hp & He & Hq1).
  destruct (represents_RemoveNext _ _ Hq Hne) as (e2 & b2 & q2 & E2 & Hp2 & He2 & Hq2).
  destruct (earliest_unique e b e2 b2) as [<- Hb]; [by rewrite <- Hp, <- Hp2|done|done|]. rewrite <- Hb in Hq2. clear Hp2 He2 Hb b2.
  assert (e ∈ pending) as Hin by (rewrite Hp; left). pose proof (so_issued0 e Hin) as Hiss.
  rewrite Forall_forall in so_pending0. pose proof (so_pending0 e Hin) as Hl. unfold later in Hl.
  destruct (so_impls0 e Hiss) as (i & Ei & Hi).
  unfold take_event. cbn [m_events with_events]. rewrite E1, E2. res_step.
  change (m_currentTs ((with_events q s) <| m_events := q2 |>)) with (m_currentTs s).
  change (m_currentTs (s <| m_events := q1 |>)) with (m_currentTs s).
  destruct (Z.leb_spec (m_currentTs s) (m_ts (key e))); [|lia]. cbn [ns_assert].
  eexists e, _, q2, b, i. split; [reflexivity|]. split; [reflexivity|]. split; [|done]. split; [|exact Hq2].
  unfold earliest in He. rewrite Forall_forall in He. split; cbn; try done.
  - by apply so_times0.
  - apply Forall_forall. intros x Hx. specialize (He x Hx). apply ev_lt_iff in He. exact He.
  - intros x Hx. apply so_issued0. rewrite Hp. by right.
  - intros x Hx. rewrite elem_of_app. destruct (so_gone0 x Hx) as [Hpx|[?|?]]; [|tauto|tauto].
    rewrite Hp in Hpx. apply elem_of_cons in Hpx as [->|?]; [|tauto]. right. left. right. left.
  - apply Forall_app. split.
    + eapply Forall_impl; [exact so_hist0|]. intros x [Hx ?]. split; [|done]. unfold later in *. cbn. lia.
    + constructor; [|done]. split; [|done]. unfold later. cbn. lia.
  - apply sorted_snoc; [done|]. eapply Forall_impl; [exact so_hist0|]. intros x [Hx _].
    apply ev_lt_iff. unfold later in Hx. assert (m_uid (key x) <> m_uid (key e) \/ True) by tauto. lia.
  - specialize (so_uids0 e Hiss). lia.
  - rewrite Hnq. constructor.
  - rewrite so_count0. change (i32 (zlen pending) - 1) with (i32 (zlen pending) + -1). rewrite i32_count. f_equal.
    unfold zlen. rewrite (Permutation_length Hp). cbn. lia.
Qed.

Lemma ProcessOneEvent_rel s q pending hist : related s q pending hist -> no_queue s -> pending <> [] ->
  match take_event s with Ok (e, s1) => invoke_ok e s1 | Err _ => True end ->
  exists e s' q' pending', ProcessOneEvent s = Ok (e, s') /\ ProcessOneEvent (with_events q s) = Ok (e, with_events q' s')
  /\ related s' q' pending' (hist ++ [e]) /\ no_queue s'.
Proof.
  intros Hs Hq Hp Hok. unfold ProcessOneEvent.
  destruct (take_event_rel s q pending hist Hs Hq Hp) as (e & s1 & q1 & p1 & i & E1 & E2 & Hs1 & _ & Ei & Hi).
  rewrite E1 in Hok. rewrite E1, E2. res_step. rewrite Ei.
  destruct (Invoke_rel e i s1 q1 p1 _ Hs1 Ei Hi Hok) as (s2 & q2 & p2 & -> & -> & Hs2). res_step.
  destruct (ProcessEventsWithContext_rel s2 q2 p2 _ Hs2) as (s3 & q3 & p3 & -> & -> & Hs3 & Hq3). res_step.
  by exists e, s3, q3, p3.
Qed.

(** An event uses up an identifier. *)
Lemma hist_bound s pending hist : sim_ok s pending hist -> Z.of_nat (length hist) < 2 ^ 32.
Proof.
  intros [].
  assert (length hist <= length (m_issued s))%nat as Hl.
  { apply submseteq_length, NoDup_submseteq.
    - clear -so_order0. induction so_order0 as [|x l Hl IH Hx]; constructor; [|done].
      rewrite Forall_forall in Hx. intros Hin. specialize (Hx x Hin). by rewrite ev_lt_irrefl in Hx.
    - rewrite Forall_forall in so_hist0. intros x Hx. by apply so_hist0. }
  pose proof (zlen_nonneg (m_eventsWithContext s)). unfold zlen, VALID in *. lia.
Qed.

Lemma run_loop_rel fuel s q pending hist : related s q pending hist -> no_queue s -> run_ok fuel s ->
  (run_loop fuel s = Err NoFuel /\ run_loop fuel (with_events q s) = Err NoFuel /\ Z.of_nat (length hist + fuel) < 2 ^ 32)
  \/ exists l s' q' pending', run_loop fuel s = Ok (l, s') /\ run_loop fuel (with_events q s) = Ok (l, with_events q' s')
     /\ related s' q' pending' (hist ++ l) /\ (pending' = [] \/ m_stop s' = true).
Proof.
  revert s q pending hist; induction fuel as [|fuel IH]; intros s q pending hist Hs Hq Hok.
  { left. split_and!; try done. rewrite Nat.add_0_r. exact (hist_bound s pending hist (proj1 Hs)). }
  cbn [run_loop run_ok] in *. change (m_events (with_events q s)) with q. change (m_stop (with_events q s)) with (m_stop s).
  rewrite (represents_IsEmpty _ _ (so_events _ _ _ (proj1 Hs))) in *. rewrite (represents_IsEmpty _ _ (proj2 Hs)).
  destruct (bool_decide (pending = [])) eqn:Eb; cbn [negb andb] in *.
  { apply bool_decide_eq_true in Eb. right. exists [], s, q, pending. rewrite app_nil_r. split_and!; auto; apply Hs. }
  apply bool_decide_eq_false in Eb. destruct (m_stop s) eqn:Est; cbn [negb] in *.
  { right. exists [], s, q, pending. rewrite app_nil_r. split_and!; auto; apply Hs. }
  destruct Hok as [Hinv Hok].
  destruct (ProcessOneEvent_rel s q pending hist Hs Hq Eb Hinv) as (e & s1 & q1 & p1 & E1 & E2 & Hs1 & Hq1).
  rewrite E1 in Hok. rewrite E1, E2. res_step.
  destruct (IH s1 q1 p1 (hist ++ [e]) Hs1 Hq1 Hok) as [(-> & -> & Hf)|(l & s2 & q2 & p2 & -> & -> & Hs2 & Hend)].
  { left. split_and!; try done. rewrite length_app in Hf. cbn in Hf. lia. }
  right. exists (e :: l), s2, q2, p2. split_and!; try done. by rewrite <- app_assoc in Hs2.
Qed.

(** The whole run. *)
Lemma Run_rel fuel s q pending hist : related s q pending hist ->
  match ProcessEventsWithContext s with Ok s1 => run_ok fuel (s1 <| m_stop := false |>) | Err _ => True end ->
  (Run fuel s = Err NoFuel /\ Run fuel (with_events q s) = Err NoFuel /\ Z.of_nat fuel < 2 ^ 32)
  \/ exists l s' q' pending', Run fuel s = Ok (l, s') /\ Run fuel (with_events q s) = Ok (l, with_events q' s')
     /\ related s' q' pending' (hist ++ l) /\ (pending' = [] \/ m_stop s' = true).
Proof.
  intros Hs Hok. unfold Run. destruct (ProcessEventsWithContext_rel s q pending hist Hs) as (s1 & q1 & p1 & E1 & -> & Hs1 & Hq1).
  rewrite E1 in *. res_step.
  assert (related (s1 <| m_stop := false |>) q1 p1 hist) as Hs1' by (by apply related_stop).
  change ((with_events q1 s1) <| m_stop := false |>) with (with_events q1 (s1 <| m_stop := false |>)).
  destruct (run_loop_rel fuel (s1 <| m_stop := false |>) q1 p1 hist Hs1' Hq1 Hok)
    as [(-> & -> & Hf)|(l & s2 & q2 & p2 & -> & -> & Hs2 & Hend)]; [left; split_and!; [done|done|lia]|]. right. res_step.
  exists l, s2, q2, p2. change (m_events (with_events q2 s2)) with q2.
  change (m_unscheduledEvents (with_events q2 s2)) with (m_unscheduledEvents s2).
  rewrite (represents_IsEmpty _ _ (so_events _ _ _ (proj1 Hs2))), (represents_IsEmpty _ _ (proj2 Hs2)),
    (so_count _ _ _ (proj1 Hs2)).
  destruct (bool_decide (p2 = [])) eqn:Eb; [|done]. apply bool_decide_eq_true in Eb. subst p2.
  by split_and!; try done; left.
Qed.
End Two.

(** ** The theorems *)

(** The main program schedules its first events and runs the simulator. *)
Definition start {S T W} `{SchedulerOps S, Handler T W} (p : Prog T W) (fuel : nat) (w : W)
  : res (list Event * Sim S T W) :=
  '(w, s) ← exec p (DefaultSimulatorImpl_new w) ;
  Run fuel (s <| m_world := w |>).

(** What is asked of the main program and of the tasks it leads to. *)
Definition start_ok S {T W} `{SchedulerOps S, Handler T W} (p : Prog T W) (fuel : nat) (w : W) : Prop :=
  calls_ok p (DefaultSimulatorImpl_new (S := S) w)
  /\ match exec p (DefaultSimulatorImpl_new (S := S) w) with
     | Ok (w, s) =>
         match ProcessEventsWithContext (s <| m_world := w |>) with
         | Ok s1 => run_ok fuel (s1 <| m_stop := false |>)
         | Err _ => True
         end
     | Err _ => True
     end.

Lemma start_rel {S1 S2 T W} `{R1 : SchedulerRemoveLaw S1} `{R2 : SchedulerRemoveLaw S2} `{HD : Handler T W}
    (p : Prog T W) fuel w :
  start_ok S1 p fuel w ->
  (start (S := S1) p fuel w = Err NoFuel /\ start (S := S2) p fuel w = Err NoFuel /\ Z.of_nat fuel < 2 ^ 32)
  \/ exists l s q pending, start (S := S1) p fuel w = Ok (l, s) /\ start (S := S2) p fuel w = Ok (l, with_events q s)
     /\ related s q pending l /\ (pending = [] \/ m_stop s = true).
Proof.
  intros [Hp Hr]. unfold start.
  assert (related (DefaultSimulatorImpl_new (S := S1) (T := T) w) (new_scheduler (S := S2)) [] []) as Hn
    by (split; [apply sim_new|apply represents_new]).
  pose proof (exec_rel p _ _ _ _ Hn Hp) as (w' & s & q & pend & E1 & E2 & Hs).
  change (with_events new_scheduler (DefaultSimulatorImpl_new w)) with (DefaultSimulatorImpl_new (S := S2) (T := T) w) in E2.
  rewrite E1 in Hr. rewrite E1, E2. res_step. apply (related_world w') in Hs.
  change ((with_events q s) <| m_world := w' |>) with (with_events q (s <| m_world := w' |>)).
  exact (Run_rel fuel _ q pend [] Hs Hr).
Qed.

(** C6. Events run in order, and none is lost.  For every main program and all
    tasks whose calls are allowed (delays not negative, room for the clock and
    the identifiers), no assertion of the simulator or of the event list fails;
    the events run in the order of their time stamps, those of the same time in
    the order of their scheduling, each at most once; at the end every event
    that was ever scheduled has run or was cancelled, unless the simulation was
    stopped before its time.  With 2^32 rounds, the loop ends. *)
Theorem simulation_in_order {S T W} `{SchedulerRemoveLaw S} `{HD : Handler T W} (p : Prog T W) fuel w :
  start_ok S p fuel w ->
  (start (S := S) p fuel w = Err NoFuel /\ Z.of_nat fuel < 2 ^ 32)
  \/ exists l s, start (S := S) p fuel w = Ok (l, s)
     /\ StronglySorted (fun a b => ev_lt a b = true) l
     /\ (forall e, e ∈ l -> e ∈ m_issued s /\ m_ts (key e) <= m_currentTs s)
     /\ (forall e, e ∈ m_issued s -> e ∈ l \/ cancelled s e \/ (m_stop s = true /\ later s e)).
Proof.
  intros Hok. destruct (start_rel (S2 := S) p fuel w Hok) as [(E & _ & Hf)|(l & s & q & pend & E & _ & [Hs _] & Hend)]; [by left|].
  right. exists l, s. split_and!; [done|exact (so_order _ _ _ Hs)| |].
  - intros e He. pose proof (so_hist _ _ _ Hs) as Hh. rewrite Forall_forall in Hh. destruct (Hh e He) as [Hl ?].
    split; [done|]. unfold later in Hl. lia.
  - intros e He. destruct (so_gone _ _ _ Hs e He) as [Hp|[?|?]]; auto. right. right.
    pose proof (so_pending _ _ _ Hs) as Hl. rewrite Forall_forall in Hl. split; [|by apply Hl].
    destruct Hend as [->|?]; [by apply elem_of_nil in Hp|done].
Qed.

(** C14. The choice of the event list is not observable: two schedulers that keep
    the promises of the interface give the same events in the same order, and
    the same final state of the simulator and of the program, event list
    apart. *)
Theorem scheduler_choice_irrelevant {S1 S2 T W} `{SchedulerRemoveLaw S1} `{SchedulerRemoveLaw S2} `{HD : Handler T W}
    (p : Prog T W) fuel w :
  start_ok S1 p fuel w ->
  (start (S := S1) p fuel w = Err NoFuel /\ start (S := S2) p fuel w = Err NoFuel)
  \/ exists l s q, start (S := S1) p fuel w = Ok (l, s) /\ start (S := S2) p fuel w = Ok (l, with_events q s).
Proof.
  intros Hok. destruct (start_rel (S2 := S2) p fuel w Hok) as [(E1 & E2 & _)|(l & s & q & pend & E1 & E2 & _)]; [by left|].
  right. by exists l, s, q.
Qed.

(** C28. An EventId tells the truth: in every well-formed state, the id of an
    event that was scheduled is not expired exactly as long as the event is
    still in the event list and was not cancelled. *)
Theorem event_expired_exactly {S T W} `{SchedulerLaws S} (s : Sim S T W) pending hist id :
  sim_ok s pending hist -> id_event id ∈ m_issued s ->
  exists b, IsExpired id s = Ok b
  /\ (b = false <-> id_event id ∈ pending /\ ~ cancelled s (id_event id)).
Proof. exact (IsExpired_issued s pending hist id). Qed.


(** ** Concrete simulations, for the witnesses *)

(** A program whose state is the times it saw. *)
Inductive DemoTask :=
| Tick (n : nat)
| Remove_event (id : EventId).

#[export] Instance demo_handler : Handler DemoTask (list Z) := fun t w =>
  match t with
  | Tick n =>
      Do C_Now (fun t =>
        match n with
        | O => Ret (w ++ [t])
        | Datatypes.S n => Do (C_Schedule 10 (Tick n)) (fun _ => Ret (w ++ [t]))
        end)
  | Remove_event id => Do (C_Remove id) (fun _ => Ret w)
  end.

(** Three ticks, and an event at 20 that is removed at 12. *)
Definition demo_program : Prog DemoTask (list Z) :=
  Do (C_Schedule 5 (Tick 2)) (fun _ =>
  Do (C_Schedule 20 (Tick 0)) (fun id =>
  Do (C_Schedule 12 (Remove_event id)) (fun _ => Ret []))).

(** The conditions of [start_ok], evaluated. *)
Ltac start_ok_tac :=
  vm_compute; repeat split; try congruence;
  try (right; right; repeat first [apply list_elem_of_here | apply list_elem_of_further]).

Lemma demo_start_ok : start_ok MapScheduler demo_program 10 [].
Proof. start_ok_tac. Qed.

Lemma simulation_in_order_witness :
  exists l s, start (S := MapScheduler) demo_program 10 [] = Ok (l, s)
  /\ m_world s = [5; 15; 25]
  /\ map (fun e => m_ts (key e)) l = [5; 12; 15; 25]
  /\ (forall e, e ∈ m_issued s -> e ∈ l \/ cancelled s e \/ (m_stop s = true /\ later s e)).
Proof.
  destruct (simulation_in_order (S := MapScheduler) demo_program 10 [] demo_start_ok) as [[E _]|(l & s & E & _ & _ & Hall)].
  - vm_compute in E. discriminate E.
  - exists l, s. split; [exact E|]. vm_compute in E. injection E as <- <-. split; [reflexivity|]. split; [reflexivity|]. exact Hall.
Defined.

Lemma scheduler_choice_irrelevant_witness :
  exists l s q, start (S := MapScheduler) demo_program 10 [] = Ok (l, s)
  /\ start (S := PriorityQueueScheduler) demo_program 10 [] = Ok (l, with_events q s)
  /\ map (fun e => m_ts (key e)) l = [5; 12; 15; 25].
Proof.
  destruct (scheduler_choice_irrelevant (S1 := MapScheduler) (S2 := PriorityQueueScheduler) demo_program 10 [] demo_start_ok)
    as [[E _]|(l & s & q & E1 & E2)].
  - vm_compute in E. discriminate E.
  - exists l, s, q. split; [exact E1|]. split; [exact E2|]. vm_compute in E1. injection E1 as <- _. reflexivity.
Defined.

(** One event, scheduled for 20. *)
Definition one_event : Sim MapScheduler DemoTask (list Z) :=
  match call (C_Schedule 20 (Tick 0)) (DefaultSimulatorImpl_new []) with
  | Ok (_, s) => s
  | Err _ => DefaultSimulatorImpl_new []
  end.

Definition one_id : EventId := mkId (Some 0%nat) 20 NO_CONTEXT 4.

Lemma one_event_ok : sim_ok one_event [id_event one_id] [].
Proof.
  destruct (call_rel (S2 := MapScheduler) (C_Schedule 20 (Tick 0))
                (DefaultSimulatorImpl_new (S := MapScheduler) ([] : list Z)) new_scheduler [] [])
    as (x & s & q & pend & E & _ & Hs); [split; [apply sim_new|apply represents_new]|start_ok_tac|].
  vm_compute in E. injection E as <- <-. change (related one_event q pend []) in Hs.
  apply (related_perm one_event q pend [id_event one_id] []); [|exact Hs].
  destruct (so_events _ _ _ (proj1 Hs)) as (_ & Hp & _). symmetry. exact Hp.
Qed.

Lemma event_expired_exactly_witness :
  id_event one_id ∈ m_issued one_event
  /\ exists b, IsExpired one_id one_event = Ok b
     /\ (b = false <-> id_event one_id ∈ [id_event one_id] /\ ~ cancelled one_event (id_event one_id)).
Proof.
  assert (id_event one_id ∈ m_issued one_event) as Hin by (vm_compute; left).
  split; [exact Hin|]. exact (event_expired_exactly one_event [id_event one_id] [] one_id one_event_ok Hin).
Defined.

(** ** HeapScheduler and Remove: the clock goes back

    Seven events; the one at 11 is removed before the simulation runs. *)
Definition heap_program : Prog DemoTask (list Z) :=
  Do (C_Schedule 1 (Tick 0)) (fun _ =>
  Do (C_Schedule 10 (Tick 0)) (fun _ =>
  Do (C_Schedule 2 (Tick 0)) (fun _ =>
  Do (C_Schedule 11 (Tick 0)) (fun id =>
  Do (C_Schedule 20 (Tick 0)) (fun _ =>
  Do (C_Schedule 30 (Tick 0)) (fun _ =>
  Do (C_Schedule 5 (Tick 0)) (fun _ =>
  Do (C_Remove id) (fun _ => Ret [])))))))).

(** The program is allowed, and runs with MapScheduler; with HeapScheduler the
    event at 5 comes out after the one at 10, and the assertion of
    ProcessOneEvent that the clock does not go back fails. *)
Lemma heap_clock_goes_back :
  start_ok MapScheduler heap_program 10 []
  /\ (exists l s, start (S := MapScheduler) heap_program 10 [] = Ok (l, s) /\ m_world s = [1; 2; 5; 10; 20; 30])
  /\ start (S := HeapScheduler) heap_program 10 [] = Err AssertFailed.
Proof.
  split; [start_ok_tac|]. split; [|vm_compute; reflexivity].
  eexists _, _. split; [vm_compute; reflexivity|reflexivity].
Qed.

(** ** Changing the event list *)

Lemma move_events_ok {S S'} `{SchedulerLaws S} `{SchedulerLaws S'} fuel (q : S) (q' : S') b b' :
  represents q b -> represents q' b' -> NoDup (uids (b ++ b')) -> (length b < fuel)%nat ->
  exists q'', move_events fuel q q' = Ok q'' /\ represents q'' (b ++ b').
Proof.
  revert q q' b b'; induction fuel as [|fuel IH]; intros q q' b b' Hq Hq' Hu Hf; [lia|]. cbn [move_events].
  rewrite (represents_IsEmpty q b Hq). destruct (bool_decide (b = [])) eqn:Eb; cbn [negb].
  { apply bool_decide_eq_true in Eb. subst b. by exists q'. }
  apply bool_decide_eq_false in Eb.
  destruct (represents_RemoveNext q b Hq Eb) as (e & b1 & q1 & -> & Hp & _ & Hq1). res_step.
  rewrite Hp in Hu. cbn in Hu. apply NoDup_cons in Hu as [He Hu]. unfold uids in He. rewrite fmap_app in He.
  destruct (represents_Insert q' b' e Hq') as (q1' & -> & Hq1'); [intros Hin; apply He; apply elem_of_app; by right|].
  res_step. destruct (IH q1 q1' b1 (e :: b') Hq1 Hq1') as (q'' & -> & Hq'').
  - rewrite <- Permutation_middle. apply NoDup_cons. split; [|done]. rewrite <- fmap_app in He. exact He.
  - rewrite Hp in Hf. cbn in Hf. lia.
  - exists q''. split; [done|]. by rewrite Hp, <- app_comm_cons, Permutation_middle.
Qed.

(** SetScheduler keeps the pending events. *)
Lemma SetScheduler_ok {S S' T W} `{SchedulerLaws S} `{SchedulerLaws S'} fuel (s : Sim S T W) pending hist :
  sim_ok s pending hist -> (length pending < fuel)%nat ->
  exists s' : Sim S' T W, SetScheduler fuel s = Ok s' /\ sim_ok s' pending hist.
Proof.
  intros [] Hf. unfold SetScheduler.
  destruct (move_events_ok fuel (m_events s) (new_scheduler (S := S')) pending [] so_events0 represents_new)
    as (q & -> & Hq); [rewrite app_nil_r; exact (represents_uids _ _ so_events0)|done|].
  rewrite app_nil_r in Hq. res_step. eexists. split; [reflexivity|]. by split.
Qed.
