(* ===== verification/RttEstimator.v ===== *)
(** The round-trip time estimator: src/internet/model/rtt-estimator.{h,cc}, with
    the Jacobson/Karels mean-deviation estimator RttMeanDeviation.  Times are
    nanoseconds. *)
From Stdlib Require Import ZArith Lia Bool List.
From stdpp Require Import base tactics list.
From S2P Require Import Prelude Float Int64x64 NsTime.

Record RttEstimator := mkRtt {
  m_initialEstimatedRtt : Z;
  m_estimatedRtt : Z;
  m_estimatedVariation : Z;
  m_nSamples : Z;
  m_alpha : double;
  m_beta : double;
}.

#[export] Instance eta_RttEstimator : Settable RttEstimator := fun r =>
  mkRtt (m_initialEstimatedRtt r) (m_estimatedRtt r) (m_estimatedVariation r) (m_nSamples r)
    (m_alpha r) (m_beta r).

(** The attributes' default values: one second, 0.125 and 0.25. *)
Definition RttMeanDeviation_new : RttEstimator :=
  mkRtt (10 ^ 9) (10 ^ 9) 0 0 (d_lit 125 1000) (d_lit 25 100).

Definition GetEstimate (r : RttEstimator) : Z := m_estimatedRtt r.
Definition GetVariation (r : RttEstimator) : Z := m_estimatedVariation r.
Definition GetNSamples (r : RttEstimator) : Z := m_nSamples r.

Definition Reset (r : RttEstimator) : RttEstimator :=
  r <| m_estimatedRtt := m_initialEstimatedRtt r |> <| m_estimatedVariation := 0 |> <| m_nSamples := 0 |>.

Definition TOLERANCE : double := d_lit 1 1000000.

(** [k] where [val] is [1 / 2^k], within the tolerance; 0 for none. *)
Definition CheckForReciprocalPowerOfTwo (val : double) : Z :=
  let near n := d_lt (d_abs (d_sub (d_div (d_of_Z 1) val) (d_of_Z n))) TOLERANCE in
  if d_lt val TOLERANCE then 0
  else if near 8 then 3
  else if near 4 then 2
  else if near 32 then 5
  else if near 16 then 4
  else if near 2 then 1
  else 0.

Definition FloatingPointUpdate (r : RttEstimator) (m : Z) : res RttEstimator :=
  let err := t_sub m (m_estimatedRtt r) in
  errS ← ToDouble err S ;
  let gErr := d_mul errS (m_alpha r) in
  step ← FromDouble gErr S ;
  let difference := t_sub (t_Abs err) (m_estimatedVariation r) in
  beta ← of_double (m_beta r) ;
  vstep ← t_mul_hp difference beta ;
  Ok (r <| m_estimatedRtt := t_add (m_estimatedRtt r) step |>
        <| m_estimatedVariation := t_add (m_estimatedVariation r) vstep |>).

Definition IntegerUpdate (r : RttEstimator) (m rttShift variationShift : Z) : RttEstimator :=
  let delta := i64 (m - m_estimatedRtt r) in
  let srtt := i64 (i64 (Z.shiftl (m_estimatedRtt r) rttShift) + delta) in
  let r := r <| m_estimatedRtt := Time_of_int64x64 (of_int (Z.shiftr srtt rttShift)) |> in
  let delta := if delta <? 0 then i64 (- delta) else delta in
  let delta := i64 (delta - m_estimatedVariation r) in
  let rttvar := i64 (Z.shiftl (m_estimatedVariation r) variationShift) in
  let rttvar := i64 (rttvar + delta) in
  r <| m_estimatedVariation := Time_of_int64x64 (of_int (Z.shiftr rttvar variationShift)) |>.

Definition Measurement (r : RttEstimator) (m : Z) : res RttEstimator :=
  r ← (if negb (m_nSamples r =? 0) then
         let rttShift := CheckForReciprocalPowerOfTwo (m_alpha r) in
         let variationShift := CheckForReciprocalPowerOfTwo (m_beta r) in
         if negb (rttShift =? 0) && negb (variationShift =? 0)
         then Ok (IntegerUpdate r m rttShift variationShift)
         else FloatingPointUpdate r m
       else Ok (r <| m_estimatedRtt := m |> <| m_estimatedVariation := t_div m 2 |>)) ;
  Ok (r <| m_nSamples := u32 (m_nSamples r + 1) |>).

(** ** The estimate is an average

    With gains that are reciprocal powers of two, and measurements in a range
    that leaves the shifts room. *)

Definition in_range (lo hi x : Z) : Prop := lo <= x <= hi.

(** The state after at least one measurement in [[lo, hi]]. *)
Record rtt_ok (lo hi : Z) (r : RttEstimator) : Prop := {
  ro_rtt : lo <= m_estimatedRtt r <= hi;
  ro_var : 0 <= m_estimatedVariation r <= hi;
}.

Lemma of_int_Round x : - 2 ^ 62 <= x < 2 ^ 62 -> Time_of_int64x64 (of_int x) = x.
Proof.
  intros Hx. unfold Time_of_int64x64, Round, of_int. change (of_hi_lo 0 (2 ^ 63)) with (2 ^ 63).
  assert (i128 (x * 2 ^ 64) = x * 2 ^ 64) as -> by (apply sint_small; lia).
  unfold GetHigh. destruct (Z.ltb_spec (x * 2 ^ 64) 0).
  - rewrite (i128_small (- (x * 2 ^ 64))) by lia.
    rewrite i128_small by lia. rewrite Z.shiftr_div_pow2 by lia.
    replace (- (x * 2 ^ 64) + 2 ^ 63) with (2 ^ 63 + (- x) * 2 ^ 64) by lia.
    rewrite Z.div_add by lia. change (2 ^ 63 / 2 ^ 64) with 0.
    rewrite !i64_small; unfold is_i64; try lia. rewrite i64_small; unfold is_i64; lia.
  - rewrite i128_small by lia. rewrite Z.shiftr_div_pow2 by lia.
    rewrite Z.add_comm, Z.div_add by lia. change (2 ^ 63 / 2 ^ 64) with 0.
    rewrite i64_small; unfold is_i64; lia.
Qed.

Lemma shift_average a m k : 1 <= k -> 0 <= a -> 0 <= m ->
  Z.min a m <= Z.shiftr (a * 2 ^ k + (m - a)) k <= Z.max a m.
Proof.
  intros Hk Ha Hm. rewrite Z.shiftr_div_pow2 by lia.
  assert (2 <= 2 ^ k) by (change 2 with (2 ^ 1) at 1; apply Z.pow_le_mono_r; lia).
  split.
  - apply Z.div_le_lower_bound; nia.
  - apply Z.lt_succ_r, Z.div_lt_upper_bound; nia.
Qed.

Lemma IntegerUpdate_ok lo hi r m a b :
  1 <= a <= 5 -> 1 <= b <= 5 -> rtt_ok lo hi r -> 0 <= lo -> hi <= 2 ^ 56 -> lo <= m <= hi ->
  rtt_ok lo hi (IntegerUpdate r m a b).
Proof.
  intros Ha Hb [Hr Hv] Hlo Hhi Hm.
  enough (lo <= m_estimatedRtt (IntegerUpdate r m a b) <= hi
    /\ 0 <= m_estimatedVariation (IntegerUpdate r m a b) <= hi) as [? ?] by (by split).
  unfold IntegerUpdate. rec_simpl.
  set (s := m_estimatedRtt r) in *. set (v := m_estimatedVariation r) in *.
  assert (1 <= 2 ^ a <= 2 ^ 5) by (split; [change 1 with (2 ^ 0) at 1|]; apply Z.pow_le_mono_r; lia).
  assert (1 <= 2 ^ b <= 2 ^ 5) by (split; [change 1 with (2 ^ 0) at 1|]; apply Z.pow_le_mono_r; lia).
  change (2 ^ 5) with 32 in *. change (2 ^ 56) with 72057594037927936 in *.
  assert (forall x, Z.abs x <= 33 * 2 ^ 56 -> i64 x = x) as Hi
    by (intros x Hx; apply i64_small; unfold is_i64; change (2 ^ 63) with 9223372036854775808; lia).
  rewrite !(Z.shiftl_mul_pow2 _ a), !(Z.shiftl_mul_pow2 _ b) by lia.
  assert (0 <= s * 2 ^ a <= 32 * 2 ^ 56) by (change (2 ^ 56) with 72057594037927936; nia).
  assert (0 <= v * 2 ^ b <= 32 * 2 ^ 56) by (change (2 ^ 56) with 72057594037927936; nia).
  change (2 ^ 56) with 72057594037927936 in *.
  rewrite (Hi (m - s)) by lia. rewrite (Hi (s * 2 ^ a)), (Hi (s * 2 ^ a + _)) by lia.
  set (d := if m - s <? 0 then i64 (- (m - s)) else m - s).
  assert (0 <= d <= hi) as Hd by (unfold d; destruct (Z.ltb_spec (m - s) 0); [rewrite Hi|]; lia).
  rewrite (Hi (d - v)), (Hi (v * 2 ^ b)), (Hi (v * 2 ^ b + _)) by lia.
  pose proof (shift_average s m a). pose proof (shift_average v d b).
  rewrite !of_int_Round by (change (2 ^ 62) with 4611686018427387904; lia). lia.
Qed.

Lemma reciprocal_bounds val : 0 <= CheckForReciprocalPowerOfTwo val <= 5.
Proof. unfold CheckForReciprocalPowerOfTwo. repeat destruct (d_lt _ _); lia. Qed.

Lemma Measurement_ok lo hi r m :
  CheckForReciprocalPowerOfTwo (m_alpha r) <> 0 -> CheckForReciprocalPowerOfTwo (m_beta r) <> 0 ->
  m_nSamples r = 0 \/ rtt_ok lo hi r -> 0 <= lo -> hi <= 2 ^ 56 -> lo <= m <= hi ->
  exists r', Measurement r m = Ok r' /\ rtt_ok lo hi r'
  /\ m_alpha r' = m_alpha r /\ m_beta r' = m_beta r.
Proof.
  intros Ha Hb Hr Hlo Hhi Hm. unfold Measurement.
  pose proof (reciprocal_bounds (m_alpha r)). pose proof (reciprocal_bounds (m_beta r)).
  destruct (Z.eqb_spec (m_nSamples r) 0) as [E|E]; cbn [negb]; res_step.
  - eexists. split; [reflexivity|]. split_and!; try done. split; rec_simpl; [done|].
    unfold t_div. rewrite Z.quot_div_nonneg by lia. change (2 ^ 56) with 72057594037927936 in *.
    rewrite i64_small by (unfold is_i64; change (2 ^ 63) with 9223372036854775808; dlia). dlia.
  - destruct Hr as [|Hr]; [done|].
    destruct (Z.eqb_spec (CheckForReciprocalPowerOfTwo (m_alpha r)) 0); [done|].
    destruct (Z.eqb_spec (CheckForReciprocalPowerOfTwo (m_beta r)) 0); [done|]. cbn [negb andb]. res_step.
    destruct (IntegerUpdate_ok lo hi r m (CheckForReciprocalPowerOfTwo (m_alpha r))
      (CheckForReciprocalPowerOfTwo (m_beta r))) as [H1 H2]; try done; try lia.
    eexists. split; [reflexivity|]. by split_and!.
Qed.

Definition measure_all (r : RttEstimator) (l : list Z) : res RttEstimator :=
  foldl (fun acc m => r ← acc ; Measurement r m) (Ok r) l.

(** C21. The estimator is an average: with gains that are reciprocal powers of
    two, from its initial state and whatever the measurements, the estimate
    stays between the smallest and the largest of them, and the variation
    between zero and the largest; no step fails or overflows. *)
Theorem rtt_estimate_bounded r lo hi l :
  CheckForReciprocalPowerOfTwo (m_alpha r) <> 0 -> CheckForReciprocalPowerOfTwo (m_beta r) <> 0 ->
  m_nSamples r = 0 -> l <> [] -> Forall (in_range lo hi) l -> 0 <= lo -> hi <= 2 ^ 56 ->
  exists r', measure_all r l = Ok r' /\ lo <= GetEstimate r' <= hi /\ 0 <= GetVariation r' <= hi.
Proof.
  intros Ha Hb Hn Hne Hl Hlo Hhi. unfold measure_all.
  assert (m_nSamples r = 0 \/ rtt_ok lo hi r) as Hr by auto. clear Hn. destruct l as [|m l]; [done|].
  clear Hne. revert r m Ha Hb Hr Hl. induction l as [|k l IH]; intros r m Ha Hb Hr Hl;
    apply Forall_cons in Hl as [Hm Hl]; cbn [foldl]; res_step;
    destruct (Measurement_ok lo hi r m) as (r' & -> & Hr' & Ea & Eb); try done.
  - exists r'. by destruct Hr'.
  - apply (IH r' k); [by rewrite Ea|by rewrite Eb|by right|done].
Qed.

Lemma rtt_estimate_bounded_witness :
  exists r', measure_all RttMeanDeviation_new [80000000; 120000000; 100000000] = Ok r'
  /\ 80000000 <= GetEstimate r' <= 120000000.
Proof.
  destruct (rtt_estimate_bounded RttMeanDeviation_new 80000000 120000000 [80000000; 120000000; 100000000])
    as (r' & E & H & _);
    [vm_compute; discriminate|vm_compute; discriminate|reflexivity|discriminate
    |repeat constructor; vm_compute; discriminate|lia|lia|].
  exists r'. split; [exact E|exact H].
Defined.
