(* ===== verification/StreamSpec.v ===== *)
(** End to end: a send buffer and a receive buffer joined by a network that
    loses, duplicates, delays and reorders.  The application of one host gives
    bytes to its send buffer; whatever is sent, resent, acknowledged and
    delivered, in whatever order, what the other application has read is a
    prefix of what was given, and no operation of the receiver fails. *)
From Stdlib Require Import ZArith Lia Bool List.
From stdpp Require Import base tactics list relations.
From S2P Require Import Prelude SeqNum TxBuffer TxBufferSpec RxBuffer RxBufferSpec.

(** ** The system *)

(** The segments in the network are labelled with their position in the stream;
    on the wire there is only the truncated number.  [sy_acked] is the position
    up to which the sender was acknowledged. *)
Record sys := mkSys {
  sy_given : bytes;
  sy_acked : Z;
  sy_tx : TcpTxBuffer;
  sy_net : list (Z * bytes);
  sy_acks : list Z;
  sy_rx : TcpRxBuffer;
  sy_read : bytes;
}.

#[export] Instance eta_sys : Settable sys := fun r =>
  mkSys (sy_given r) (sy_acked r) (sy_tx r) (sy_net r) (sy_acks r) (sy_rx r) (sy_read r).

(** The position after the last byte that was sent, and the next byte that the
    receiver expects, in a connection whose first byte is at [n]. *)
Definition sent_end (s : sys) : Z := sy_acked s + m_sentSize (sy_tx s).
Definition expected (n : Z) (s : sys) : Z := n + zlen (sy_read s) + Available (sy_rx s).

(** A position whose distance to the expected byte is below 2^29: the network
    does not keep a segment for longer. *)
Definition recent (n : Z) (s : sys) (pos : Z) (p : bytes) : Prop :=
  expected n s - W <= pos /\ pos + zlen p <= expected n s + W.

Inductive net_step (n : Z) : sys -> sys -> Prop :=
| n_write s p b : TxBuffer.Add (sy_tx s) p = (true, b) ->
    net_step n s (s <| sy_given ::= fun l => l ++ p |> <| sy_tx := b |>)
| n_send s now k item b : 0 < k < 2 ^ 31 -> m_sentSize (sy_tx s) < TxBuffer.Size (sy_tx s) ->
    CopyFromSequence now (sy_tx s) k (u32 (sent_end s)) = Ok (Some item, b) ->
    net_step n s (s <| sy_tx := b |> <| sy_net ::= cons (sent_end s, m_packet item) |>)
| n_resend s pre x post now k item b : m_sentList (sy_tx s) = pre ++ x :: post -> m_sacked x = false ->
    0 < k <= TxBufferSpec.total (x :: post) -> k < 2 ^ 31 ->
    CopyFromSequence now (sy_tx s) k (u32 (sy_acked s + TxBufferSpec.total pre)) = Ok (Some item, b) ->
    net_step n s (s <| sy_tx := b |> <| sy_net ::= cons (sy_acked s + TxBufferSpec.total pre, m_packet item) |>)
| n_scoreboard s b : (* SACK blocks, timeouts, duplicate acknowledgements *)
    tx_reach n (sy_given s) (sy_acked s) b -> m_sentSize b = m_sentSize (sy_tx s) ->
    net_step n s (s <| sy_tx := b |>)
| n_deliver s pos p r b : (pos, p) ∈ sy_net s -> recent n s pos p ->
    RxBuffer.Add (SA := seq32) (sy_rx s) p (u32 pos) = Ok (r, b) ->
    net_step n s (s <| sy_rx := b |>)
| n_ack s : net_step n s (s <| sy_acks ::= cons (expected n s) |>)
| n_acked s now U (cb : unit -> TcpTxItem -> unit * TcpTxItem) b r : U ∈ sy_acks s -> sy_acked s < U ->
    (~ sack_at U (sy_acked s) (m_sentList (sy_tx s))
     \/ m_sackEnabled (sy_tx s) = false /\ Forall (fun x => m_lost x = false) (tl (m_sentList (sy_tx s)))) ->
    DiscardUpTo cb now (sy_tx s) (u32 U) tt = Ok (b, r) ->
    net_step n s (s <| sy_tx := b |> <| sy_acked := U |>)
| n_read s k out b : 0 <= k -> Extract (SA := seq32) (sy_rx s) k = Ok (out, b) ->
    net_step n s (s <| sy_rx := b |> <| sy_read ::= fun l => l ++ default [] out |>)
| n_lose s net : net ⊆ sy_net s -> net_step n s (s <| sy_net := net |>).

(** A new connection; the receiver's buffer has [m] bytes. *)
Definition sys_new (n m : Z) : sys :=
  mkSys [] n (TcpTxBuffer_new (u32 n)) [] [] (SetMaxBufferSize (TcpRxBuffer_new (u32 n)) m) [].

(** ** The stream *)

(** The bytes of [g], from the position [n] on. *)
Definition stream_of (n : Z) (g : bytes) (x : Z) : Z := nth (Z.to_nat (x - n)) g 0.

Lemma stream_of_slice n g k m : (k + m <= length g)%nat ->
  stream_slice (stream_of n g) (n + Z.of_nat k) m = take m (drop k g).
Proof.
  revert k; induction m as [|m IH]; intros k Hk; cbn [stream_slice]; [by rewrite take_0|].
  replace (n + Z.of_nat k + 1) with (n + Z.of_nat (Datatypes.S k)) by lia. rewrite IH by lia.
  destruct (drop k g) as [|y l] eqn:Ed.
  { apply (f_equal length) in Ed. rewrite length_drop in Ed. cbn in Ed. lia. }
  assert (stream_of n g (n + Z.of_nat k) = y) as ->.
  { unfold stream_of. replace (Z.to_nat (n + Z.of_nat k - n)) with k by lia.
    rewrite <- (take_drop k g), Ed, app_nth2; rewrite length_take; [|lia].
    by replace (k - min k (length g))%nat with 0%nat by lia. }
  cbn [take]. f_equal. f_equal. change (Datatypes.S k) with (1 + k)%nat. rewrite Nat.add_comm, <- drop_drop, Ed. done.
Qed.

Lemma stream_of_prefix n g l : l `prefix_of` g -> l = stream_slice (stream_of n g) n (length l).
Proof.
  intros [k ->]. pose proof (stream_of_slice n (l ++ k) 0 (length l)) as E. rewrite Z.add_0_r in E.
  rewrite E, drop_0, take_app_length; [done|]. rewrite length_app. lia.
Qed.

Lemma slice_part {A} (F : Z -> A) a m d k : 0 <= d -> 0 <= k -> d + k <= Z.of_nat m ->
  ztake k (zdrop d (stream_slice F a m)) = stream_slice F (a + d) (Z.to_nat k).
Proof.
  intros Hd Hk Hm. unfold ztake, zdrop. rewrite stream_slice_drop, stream_slice_take.
  rewrite Z2Nat.id by lia. f_equal. lia.
Qed.

Lemma ztake_own {A} k (l m : list A) : l = ztake k m -> l = ztake (zlen l) m.
Proof.
  intros ->. unfold ztake, zlen. rewrite Nat2Z.id, length_take.
  destruct (Nat.min_spec (Z.to_nat k) (length m)) as [[? ->]|[? ->]]; [done|]. by rewrite !take_ge by lia.
Qed.

(** ** The invariant *)

(** The segments carry bytes of the stream [F], all of them sent. *)
Definition net_ok (F : Z -> Z) (n bound : Z) (net : list (Z * bytes)) : Prop :=
  Forall (fun kv => n <= fst kv /\ fst kv + zlen (snd kv) <= bound
                    /\ snd kv = stream_slice F (fst kv) (length (snd kv))) net.

(** The receiver, at unwrapped positions: it holds bytes of the stream, all of
    them sent. *)
Record rx_side (F : Z -> Z) (n bound : Z) (s : sys) (b : TcpRxBuffer) : Prop := {
  rs_wrap : sy_rx s = wrap_rx b;
  rs_ok : rx_ok F b;
  rs_first : rx_first b = n + zlen (sy_read s);
  rs_sent : forall x, covered (m_data b) x -> x < bound;
  rs_next : m_nextRxSeq b <= bound;
  rs_acks : Forall (fun U => U <= m_nextRxSeq b) (sy_acks s);
  rs_read : sy_read s = stream_slice F n (length (sy_read s));
}.

Record sys_ok (F : Z -> Z) (n : Z) (s : sys) : Prop := {
  so_tx : tx_reach n (sy_given s) (sy_acked s) (sy_tx s);
  so_given : sy_given s = stream_slice F n (length (sy_given s));
  so_net : net_ok F n (sent_end s) (sy_net s);
  so_rx : exists b, rx_side F n (sent_end s) s b;
}.

Lemma net_ok_weaken F n bound bound' net : bound <= bound' -> net_ok F n bound net -> net_ok F n bound' net.
Proof.
  intros Hb Hn. eapply Forall_impl; [exact Hn|]. intros [k v] (? & ? & ?). cbn in *. split_and!; [done|lia|done].
Qed.

Lemma rx_side_weaken F n bound bound' s b : bound <= bound' -> rx_side F n bound s b -> rx_side F n bound' s b.
Proof.
  intros Hb []. split; try done; [|lia]. intros x Hx. apply rs_sent0 in Hx. lia.
Qed.

Lemma expected_next F n s b bound : rx_side F n bound s b -> expected n s = m_nextRxSeq b.
Proof.
  intros []. unfold expected. rewrite rs_wrap0. change (Available (wrap_rx b)) with (m_availBytes b).
  unfold rx_first in *. lia.
Qed.

(** What the sender holds is between what was acknowledged and what was given. *)
Lemma sender_bounds n S P b : tx_reach n S P b ->
  m_sentSize b = TxBufferSpec.total (m_sentList b) /\ 0 <= m_sentSize b
  /\ content b = zdrop (P - n) S /\ n <= P /\ P + m_sentSize b <= n + zlen S.
Proof.
  intros H. destruct (tx_reach_ok n S P b H) as (Hok & HP & Hc). pose proof (content_len _ _ _ Hok) as Hl.
  destruct Hok. pose proof (tot_nonneg (m_sentList b)). pose proof (tot_nonneg (m_appList b)).
  rewrite Hc, zlen_drop in Hl by lia. split_and!; try done; lia.
Qed.

(** A segment cut out of what the sender holds. *)
Lemma segment_in_stream F n S P b d (p : bytes) :
  tx_reach n S P b -> S = stream_slice F n (length S) -> 0 <= d -> d + zlen p <= zlen (content b) ->
  p = ztake (zlen p) (zdrop d (content b)) -> p = stream_slice F (P + d) (length p).
Proof.
  intros H HS Hd Hl Hp. destruct (sender_bounds n S P b H) as (_ & Hsz & Hc & HP & Hle).
  rewrite Hp at 1. rewrite Hc in *. pose proof (zlen_nonneg p).
  assert (zlen (zdrop (P - n) S) = Z.max 0 (zlen S - (P - n))) as Hz by (apply zlen_drop; lia).
  rewrite HS. unfold zdrop at 1 2. rewrite drop_drop.
  replace (Z.to_nat (P - n) + Z.to_nat d)%nat with (Z.to_nat (P - n + d)) by lia.
  change (drop (Z.to_nat (P - n + d)) ?l) with (zdrop (P - n + d) l).
  rewrite Hz in Hl. unfold zlen in *. rewrite slice_part by lia. f_equal; lia.
Qed.

(** *** Each side of a step *)

Lemma with_tx F n s b given' acked' net' : sys_ok F n s ->
  tx_reach n given' acked' b -> given' = stream_slice F n (length given') ->
  sent_end s <= acked' + m_sentSize b -> net_ok F n (acked' + m_sentSize b) net' ->
  sys_ok F n (s <| sy_given := given' |> <| sy_acked := acked' |> <| sy_tx := b |> <| sy_net := net' |>).
Proof.
  intros [Ht Hg Hn (r & Hr)] Ht' Hg' He Hn'. split; [done|done|done|].
  exists r. destruct (rx_side_weaken F n (sent_end s) (acked' + m_sentSize b) s r He Hr). by split.
Qed.

Lemma with_rx F n s b read' acks' : sys_ok F n s ->
  rx_side F n (sent_end s) (s <| sy_rx := wrap_rx b |> <| sy_read := read' |> <| sy_acks := acks' |>) b ->
  sys_ok F n (s <| sy_rx := wrap_rx b |> <| sy_read := read' |> <| sy_acks := acks' |>).
Proof. intros [Ht Hg Hn _] Hr. split; [done|done|done|]. by exists b. Qed.

(** The arrival of a segment: it never fails, and keeps the invariant. *)
Lemma deliver_ok F n s b pos p : sys_ok F n s -> rx_side F n (sent_end s) s b ->
  (pos, p) ∈ sy_net s -> recent n s pos p ->
  exists r b', RxBuffer.Add (SA := seq32) (sy_rx s) p (u32 pos) = Ok (r, wrap_rx b')
  /\ rx_side F n (sent_end s) (s <| sy_rx := wrap_rx b' |>) b'.
Proof.
  intros [_ _ Hn _] Hr Hin [Hlo Hhi]. rewrite (expected_next F n s b _ Hr) in Hlo, Hhi.
  pose proof Hr as []. pose proof (proj1 (Forall_forall _ _) Hn _ Hin) as (_ & Hb & Hp). cbn in Hb, Hp.
  destruct (Add_spec F b p pos rs_ok0 Hp Hlo Hhi) as (r & b' & Ea & Had).
  exists r, b'. rewrite rs_wrap0, (wrap_Add F), Ea by done. split; [done|].
  pose proof Had as []. pose proof (ok_split F b' add_ok) as (pre & post & Hd & Hc & _).
  assert (forall x, covered (m_data b') x -> x < sent_end s) as Hcov.
  { intros x Hx. destruct (add_only x Hx) as [Hx'|?]; [by apply rs_sent0|lia]. }
  split; try done; cbn; [congruence| |eapply Forall_impl; [exact rs_acks0|]; cbn; lia].
  pose proof (ok_avail F b rs_ok0). pose proof (ok_avail F b' add_ok). destruct (Z_le_gt_dec (m_availBytes b') 0); [unfold rx_first in *; lia|].
  assert (covered (m_data b') (m_nextRxSeq b' - 1)) as Hx%Hcov; [|lia].
  rewrite Hd, (covered_app F). left. apply (contiguous_covered F _ _ _ _ Hc). unfold rx_first. lia.
Qed.

Lemma read_ok F n s b k : rx_side F n (sent_end s) s b -> 0 <= k ->
  exists out b', Extract (SA := seq32) (sy_rx s) k = Ok (out, wrap_rx b')
  /\ rx_side F n (sent_end s) (s <| sy_rx := wrap_rx b' |> <| sy_read ::= fun l => l ++ default [] out |>) b'.
Proof.
  intros Hr Hk. pose proof Hr as [].
  destruct (Extract_spec F b k rs_ok0 Hk) as (b' & Ee & Hd). cbv zeta in Ee, Hd.
  eexists _, b'. rewrite rs_wrap0, (wrap_Extract F), Ee by done. split; [reflexivity|].
  pose proof Hd as []. set (d := Z.min k (m_availBytes b)) in *.
  pose proof (ok_avail F b rs_ok0). assert (0 <= d) by (unfold d; lia).
  set (out := if d =? 0 then None else _).
  assert (default [] out = stream_slice F (rx_first b) (Z.to_nat d)) as Eo.
  { unfold out. destruct (d =? 0) eqn:E0; [|done]. apply Z.eqb_eq in E0. by rewrite E0. }
  split; cbn; rewrite ?Eo; try done; try congruence.
  - rewrite del_first, rs_first0, zlen_app. unfold zlen at 3. rewrite stream_slice_length. lia.
  - intros x Hx. apply rs_sent0. by apply del_covered.
  - by rewrite del_next.
  - rewrite rs_first0, length_app, stream_slice_length. rewrite stream_slice_app. f_equal. exact rs_read0.
Qed.

(** ** Reachable systems *)

Lemma net_step_given n s s' : net_step n s s' -> sy_given s `prefix_of` sy_given s'.
Proof. destruct 1; cbn; try reflexivity. by apply prefix_app_r. Qed.

Lemma net_steps_given n s s' : rtc (net_step n) s s' -> sy_given s `prefix_of` sy_given s'.
Proof. induction 1 as [|s1 s2 s3 Hs _ IH]; [done|]. etrans; [by eapply net_step_given|done]. Qed.

Lemma sys_eta s : s <| sy_given := sy_given s |> <| sy_acked := sy_acked s |> = s.
Proof. by destruct s. Qed.

Lemma written F n s p b : sys_ok F n s -> TxBuffer.Add (sy_tx s) p = (true, b) ->
  sy_given s ++ p = stream_slice F n (length (sy_given s ++ p)) ->
  sys_ok F n (s <| sy_given ::= fun l => l ++ p |> <| sy_tx := b |>).
Proof.
  intros Hok Ha Hg. pose proof Hok as [Ht _ Hn _]. pose proof (reach_add n _ _ _ p Ht) as Ht'. rewrite Ha in Ht'.
  destruct (tx_reach_ok n _ _ _ Ht) as (Htx & _ & _).
  destruct (Add_ok _ _ p Htx) as (Htx' & Hs & _). rewrite Ha in Htx', Hs. cbn in Ht', Htx', Hs.
  assert (m_sentSize b = m_sentSize (sy_tx s)) as He.
  { by rewrite (tx_sent _ _ _ Htx'), (tx_sent _ _ _ Htx), Hs. }
  apply (with_tx F n s b (sy_given s ++ p) (sy_acked s) (sy_net s)); unfold sent_end in *; rewrite ?He; done || lia.
Qed.

Lemma sent_new F n s now k item b : sys_ok F n s -> 0 < k < 2 ^ 31 ->
  m_sentSize (sy_tx s) < TxBuffer.Size (sy_tx s) ->
  CopyFromSequence now (sy_tx s) k (u32 (sent_end s)) = Ok (Some item, b) ->
  sys_ok F n (s <| sy_tx := b |> <| sy_net ::= cons (sent_end s, m_packet item) |>).
Proof.
  intros Hok Hk Hs Hc. pose proof Hok as [Ht Hg Hn _].
  pose proof (reach_send n _ _ _ now k _ b Ht Hk Hs Hc) as Ht'.
  destruct (tx_reach_ok n _ _ _ Ht) as (Htx & HP & _). pose proof Htx as []. unfold TxBuffer.Size in Hs.
  unfold sent_end in *. rewrite tx_sent in *.
  destruct (tx_copy_new_ok _ _ now k Htx Hk ltac:(lia)) as (it & b2 & E & H2 & Ec & Ep & _ & _ & El & _).
  rewrite E in Hc. injection Hc as <- <-.
  assert (m_sentSize b2 = TxBufferSpec.total (m_sentList (sy_tx s)) + zlen (m_packet it)) as Hsz.
  { rewrite (TxBufferSpec.tx_sent _ _ _ H2), El, tot_app, tot_cons. cbn. lia. }
  pose proof (zlen_nonneg (m_packet it)). pose proof (tot_nonneg (m_sentList (sy_tx s))).
  pose proof (content_len _ _ _ Htx) as Hcl.
  assert (zlen (m_packet it) <= zlen (content (sy_tx s)) - TxBufferSpec.total (m_sentList (sy_tx s))) as Hfit.
  { rewrite Ep, zlen_take, zlen_drop by lia. lia. }
  apply (with_tx F n s b2 (sy_given s) (sy_acked s)
           ((sy_acked s + TxBufferSpec.total (m_sentList (sy_tx s)), m_packet it) :: sy_net s));
    unfold sent_end; rewrite ?Hsz, ?tx_sent; try done; try lia.
  constructor; [|eapply net_ok_weaken; [|exact Hn]; lia]. cbn. split_and!; [lia|lia|].
  apply (segment_in_stream F n (sy_given s) (sy_acked s) (sy_tx s)); try done; [lia|].
  exact (ztake_own _ _ _ Ep).
Qed.

Lemma resent F n s pre x post now k item b : sys_ok F n s ->
  m_sentList (sy_tx s) = pre ++ x :: post -> m_sacked x = false ->
  0 < k <= TxBufferSpec.total (x :: post) -> k < 2 ^ 31 ->
  CopyFromSequence now (sy_tx s) k (u32 (sy_acked s + TxBufferSpec.total pre)) = Ok (Some item, b) ->
  sys_ok F n (s <| sy_tx := b |> <| sy_net ::= cons (sy_acked s + TxBufferSpec.total pre, m_packet item) |>).
Proof.
  intros Hok El Hx Hk Hk2 Hc. pose proof Hok as [Ht Hg Hn _].
  pose proof (reach_resend n _ _ _ pre x post now k _ b Ht El Hx Hk Hc) as Ht'.
  destruct (tx_reach_ok n _ _ _ Ht) as (Htx & HP & _).
  destruct (tx_copy_retransmit_ok _ _ now pre x post k Htx El Hx ltac:(lia) ltac:(left; lia))
    as (it & b2 & tl & E & H2 & Ec & Hz & Ep & _ & _ & _ & El2 & Ea2).
  rewrite E in Hc. injection Hc as <- <-.
  destruct (sender_bounds n _ _ _ Ht) as (Hs1 & _ & Hc1 & _). destruct (sender_bounds n _ _ _ Ht') as (Hs2 & _).
  pose proof (content_len _ _ _ Htx) as Hcl. pose proof Htx as []. pose proof (tot_nonneg pre).
  pose proof (tot_nonneg (m_appList (sy_tx s))).
  rewrite El, tot_app in Hs1. rewrite El, tot_app in tx_size.
  assert (m_sentSize b2 = m_sentSize (sy_tx s)) as He.
  { pose proof (content_len _ _ _ H2) as Hcl2. rewrite Ec in Hcl2. destruct H2. rewrite Ea2 in tx_size0. lia. }
  apply (with_tx F n s b2 (sy_given s) (sy_acked s) ((sy_acked s + TxBufferSpec.total pre, m_packet it) :: sy_net s));
    unfold sent_end; rewrite ?He; try done; try lia.
  constructor; [|exact Hn]. cbn. split_and!; [lia|lia|].
  apply (segment_in_stream F n (sy_given s) (sy_acked s) (sy_tx s)); try done; lia.
Qed.

Lemma acked_to F n s now U (cb : unit -> TcpTxItem -> unit * TcpTxItem) b r : sys_ok F n s ->
  U ∈ sy_acks s -> sy_acked s < U ->
  (~ sack_at U (sy_acked s) (m_sentList (sy_tx s))
   \/ m_sackEnabled (sy_tx s) = false /\ Forall (fun x => m_lost x = false) (tl (m_sentList (sy_tx s)))) ->
  DiscardUpTo cb now (sy_tx s) (u32 U) tt = Ok (b, r) ->
  sys_ok F n (s <| sy_tx := b |> <| sy_acked := U |>).
Proof.
  intros Hok HU Hlt Hs Hd. pose proof Hok as [Ht Hg Hn (rb & Hr)]. pose proof Hr as [].
  pose proof (proj1 (Forall_forall _ _) rs_acks0 U HU) as HUn. cbn in HUn. unfold sent_end in *.
  pose proof (reach_discard n _ _ _ now U cb b r Ht ltac:(lia) Hs Hd) as Ht'.
  destruct (tx_reach_ok n _ _ _ Ht) as (Htx & _ & _). pose proof (tx_bounds _ _ Htx).
  pose proof (tx_sent _ _ _ Htx) as Hsent. pose proof (tx_size _ _ _ Htx). pose proof (tot_nonneg (m_appList (sy_tx s))).
  destruct (tx_discard_ok cb now _ U (sy_tx s) tt Htx ltac:(lia) ltac:(left; lia) Hs) as (b2 & r2 & E & H2 & Ec & Ea).
  rewrite E in Hd. injection Hd as <- <-.
  pose proof (content_len _ _ _ Htx) as Hc1. pose proof (content_len _ _ _ H2) as Hc2.
  rewrite Ec, zlen_drop, Hc1 in Hc2 by lia.
  pose proof (tx_size _ _ _ H2). pose proof (tx_sent _ _ _ H2). rewrite Ea in *.
  apply (with_tx F n s b2 (sy_given s) U (sy_net s)); unfold sent_end; try done; [lia|].
  eapply net_ok_weaken; [|exact Hn]. lia.
Qed.

Lemma net_step_ok F n s s' : sys_ok F n s -> net_step n s s' ->
  sy_given s' = stream_slice F n (length (sy_given s')) -> sys_ok F n s'.
Proof.
  intros Hok Hs Hg'. pose proof Hok as [Ht Hg Hn (rb & Hr)]. destruct Hs as
    [s p b Ha|s now k item b Hk Hlt Hc|s pre x post now k item b El Hx Hk Hk2 Hc|s b Ht' He
    |s pos p r b Hin Hrec Ha|s|s now U cb b r HU Hlt Hsk Hd|s k out b Hk Hx|s net Hsub].
  - by apply written.
  - by eapply sent_new.
  - by eapply resent.
  - apply (with_tx F n s b (sy_given s) (sy_acked s) (sy_net s)); unfold sent_end in *; rewrite ?He; done || lia.
  - destruct (deliver_ok F n s rb pos p Hok Hr Hin Hrec) as (r' & b' & E & Hr'). rewrite E in Ha.
    injection Ha as <- <-. by apply (with_rx F n s b' (sy_read s) (sy_acks s)).
  - pose proof (expected_next F n s rb _ Hr) as He. split; [done|done|done|]. exists rb.
    pose proof Hr as []. split; try done. constructor; [lia|done].
  - by eapply acked_to.
  - destruct (read_ok F n s rb k Hr Hk) as (o & b' & E & Hr'). rewrite E in Hx. injection Hx as <- <-.
    by apply (with_rx F n s b' (sy_read s ++ default [] o) (sy_acks s)).
  - split; [done|done| |]; [|by exists rb; destruct Hr; split].
    apply Forall_forall. intros kv Hkv. exact (proj1 (Forall_forall _ _) Hn kv (Hsub kv Hkv)).
Qed.

Lemma sys_new_ok F n m : 0 <= m <= W -> sys_ok F n (sys_new n m).
Proof.
  intros Hm. split; [apply reach_new|reflexivity|constructor|].
  exists (SetMaxBufferSize (TcpRxBuffer_new n) m). split; try done.
  - by apply rx_ok_new.
  - intros x (k & v & Hin & _). by apply elem_of_nil in Hin.
  - change (n <= n + 0). lia.
Qed.

Lemma reachable_ok n m s : 0 <= m <= W -> rtc (net_step n) (sys_new n m) s ->
  sys_ok (stream_of n (sy_given s)) n s.
Proof.
  intros Hm Hs.
  assert (forall s1, rtc (net_step n) (sys_new n m) s1 -> rtc (net_step n) s1 s ->
    sys_ok (stream_of n (sy_given s)) n s1) as Hgen; [|by apply Hgen].
  refine (rtc_ind_r _ (sys_new n m) _ _); [intros _; by apply sys_new_ok|].
  intros s1 s2 _ Hstep IH H2.
  apply (net_step_ok _ n s1 s2); [apply IH; by eapply rtc_l|done|].
  apply stream_of_prefix. by eapply net_steps_given.
Qed.


