(* ===== verification/SocketState.v ===== *)
(** The transmission control block: src/internet/model/tcp-socket-state.{h,cc},
    the record the socket shares with its congestion control and its recovery
    algorithm.  Times are nanoseconds, data rates bits per second.  The
    callback m_sendEmptyPacketCallback is left out: only DCTCP calls it. *)
From Stdlib Require Import ZArith Lia Bool List.
From stdpp Require Import base tactics list.
From S2P Require Import Prelude SeqNum RxBuffer NsTime.

Inductive TcpCongState_t := CA_OPEN | CA_DISORDER | CA_CWR | CA_RECOVERY | CA_LOSS.

Inductive TcpCAEvent_t :=
| CA_EVENT_TX_START
| CA_EVENT_CWND_RESTART
| CA_EVENT_COMPLETE_CWR
| CA_EVENT_LOSS
| CA_EVENT_ECN_NO_CE
| CA_EVENT_ECN_IS_CE
| CA_EVENT_DELAYED_ACK
| CA_EVENT_NON_DELAYED_ACK.

Inductive UseEcn_t := Off | On | AcceptOnly.
Inductive EcnCodePoint_t := NotECT | Ect1 | Ect0 | CongExp.
Inductive EcnMode_t := ClassicEcn | DctcpEcn.

Inductive EcnState_t :=
| ECN_DISABLED
| ECN_IDLE
| ECN_CE_RCVD
| ECN_SENDING_ECE
| ECN_ECE_RCVD
| ECN_CWR_SENT.

#[export] Instance TcpCongState_t_eq : EqDecision TcpCongState_t.
Proof. solve_decision. Defined.
#[export] Instance UseEcn_t_eq : EqDecision UseEcn_t.
Proof. solve_decision. Defined.
#[export] Instance EcnCodePoint_t_eq : EqDecision EcnCodePoint_t.
Proof. solve_decision. Defined.
#[export] Instance EcnMode_t_eq : EqDecision EcnMode_t.
Proof. solve_decision. Defined.
#[export] Instance EcnState_t_eq : EqDecision EcnState_t.
Proof. solve_decision. Defined.

Record TcpSocketState := mkTcb {
  m_cWnd : Z;
  m_cWndInfl : Z;
  m_ssThresh : Z;
  m_initialCWnd : Z;
  m_initialSsThresh : Z;
  m_isRetransDataAcked : bool;
  m_segmentSize : Z;
  m_lastAckedSeq : Z;
  m_congState : TcpCongState_t;
  m_ecnState : EcnState_t;
  m_highTxMark : Z;
  m_nextTxSequence : Z;
  m_rcvTimestampValue : Z;
  m_rcvTimestampEchoReply : Z;
  m_rcvCwndValue : Z;
  m_pacing : bool;
  m_maxPacingRate : Z;
  m_pacingRate : Z;
  m_pacingSsRatio : Z;
  m_pacingCaRatio : Z;
  m_paceInitialWindow : bool;
  m_minRtt : Z;
  m_bytesInFlight : Z;
  m_lastRtt : Z;
  m_rxBuffer : TcpRxBuffer;
  m_ecnMode : EcnMode_t;
  m_useEcn : UseEcn_t;
  m_ectCodePoint : EcnCodePoint_t;
  m_lastAckedSackedBytes : Z;
}.

#[export] Instance eta_TcpSocketState : Settable TcpSocketState := fun r =>
  mkTcb (m_cWnd r) (m_cWndInfl r) (m_ssThresh r) (m_initialCWnd r) (m_initialSsThresh r)
    (m_isRetransDataAcked r) (m_segmentSize r) (m_lastAckedSeq r) (m_congState r) (m_ecnState r)
    (m_highTxMark r) (m_nextTxSequence r) (m_rcvTimestampValue r) (m_rcvTimestampEchoReply r)
    (m_rcvCwndValue r) (m_pacing r) (m_maxPacingRate r) (m_pacingRate r) (m_pacingSsRatio r)
    (m_pacingCaRatio r) (m_paceInitialWindow r) (m_minRtt r) (m_bytesInFlight r) (m_lastRtt r)
    (m_rxBuffer r) (m_ecnMode r) (m_useEcn r) (m_ectCodePoint r) (m_lastAckedSackedBytes r).

(** A new object: the initialisers of the members, then the default values of
    the attributes (EnablePacing, MaxPacingRate, the pacing ratios). *)
Definition TcpSocketState_new (rx : TcpRxBuffer) : TcpSocketState :=
  mkTcb 0 0 0 0 0 false 0 0 CA_OPEN ECN_DISABLED 0 0 0 0 0
    false (4 * 10 ^ 9) 0 200 120 false Time_max 0 0 rx ClassicEcn Off Ect0 0.

(** The quotients, undefined when the segment size is 0. *)
Definition GetCwndInSegments (t : TcpSocketState) : Z := m_cWnd t / m_segmentSize t.
Definition GetSsThreshInSegments (t : TcpSocketState) : Z := m_ssThresh t / m_segmentSize t.

(** Every word of the block is a value of its C++ type. *)
Record tcb_typed (t : TcpSocketState) : Prop := {
  tt_cWnd : is_u32 (m_cWnd t);
  tt_cWndInfl : is_u32 (m_cWndInfl t);
  tt_ssThresh : is_u32 (m_ssThresh t);
  tt_segmentSize : is_u32 (m_segmentSize t);
  tt_lastAckedSeq : is_u32 (m_lastAckedSeq t);
  tt_highTxMark : is_u32 (m_highTxMark t);
  tt_nextTxSequence : is_u32 (m_nextTxSequence t);
  tt_bytesInFlight : is_u32 (m_bytesInFlight t);
}.
