(* ===== verification/RateOps.v ===== *)
(** Delivery rate sampling: src/internet/model/tcp-rate-ops.{h,cc}.  The
    methods that are given a [TcpTxItem*] return the item they leave behind.
    The trace sources are not modelled. *)
From Stdlib Require Import ZArith Lia Bool List.
From stdpp Require Import base tactics list.
From S2P Require Import Prelude SeqNum RxBuffer TxBuffer Float Int64x64 NsTime.

(** TcpRateOps::TcpRateSample and TcpRateOps::TcpRateConnection. *)
Record TcpRateSample := mkRateSample {
  rs_deliveryRate : Z;
  rs_isAppLimited : bool;
  rs_interval : Z;
  rs_delivered : Z;
  rs_priorDelivered : Z;
  rs_priorTime : Z;
  rs_sendElapsed : Z;
  rs_ackElapsed : Z;
  rs_bytesLoss : Z;
  rs_priorInFlight : Z;
  rs_ackedSacked : Z;
}.

#[export] Instance eta_TcpRateSample : Settable TcpRateSample := fun r =>
  mkRateSample (rs_deliveryRate r) (rs_isAppLimited r) (rs_interval r) (rs_delivered r)
    (rs_priorDelivered r) (rs_priorTime r) (rs_sendElapsed r) (rs_ackElapsed r)
    (rs_bytesLoss r) (rs_priorInFlight r) (rs_ackedSacked r).

Record TcpRateConnection := mkRateConn {
  rc_delivered : Z;
  rc_deliveredTime : Z;
  rc_firstSentTime : Z;
  rc_appLimited : Z;
  rc_txItemDelivered : Z;
  rc_rateDelivered : Z;
  rc_rateInterval : Z;
  rc_rateAppLimited : bool;
}.

#[export] Instance eta_TcpRateConnection : Settable TcpRateConnection := fun r =>
  mkRateConn (rc_delivered r) (rc_deliveredTime r) (rc_firstSentTime r) (rc_appLimited r)
    (rc_txItemDelivered r) (rc_rateDelivered r) (rc_rateInterval r) (rc_rateAppLimited r).

Definition IsValid (s : TcpRateSample) : bool :=
  negb (rs_priorTime s =? 0) || negb (rs_interval s =? 0).

Record TcpRateLinux := mkRate {
  m_rate : TcpRateConnection;
  m_rateSample : TcpRateSample;
}.

#[export] Instance eta_TcpRateLinux : Settable TcpRateLinux := fun r =>
  mkRate (m_rate r) (m_rateSample r).

Definition TcpRateLinux_new : TcpRateLinux :=
  mkRate (mkRateConn 0 0 0 0 0 0 0 false) (mkRateSample 0 false 0 0 0 0 0 0 0 0 0).

Definition GetConnectionRate (r : TcpRateLinux) : TcpRateConnection := m_rate r.

(** The assignments to the members of the two members. *)
Definition in_rate (f : TcpRateConnection -> TcpRateConnection) (r : TcpRateLinux) : TcpRateLinux :=
  r <| m_rate ::= f |>.
Definition in_sample (f : TcpRateSample -> TcpRateSample) (r : TcpRateLinux) : TcpRateLinux :=
  r <| m_rateSample ::= f |>.

Definition GenerateSample (r : TcpRateLinux) (delivered lost : Z) (is_sack_reneg : bool)
    (priorInFlight minRtt : Z) : res TcpRateLinux :=
  let r := if negb (rc_appLimited (m_rate r) =? 0)
              && (rc_appLimited (m_rate r) <? rc_delivered (m_rate r))
           then in_rate (fun c => c <| rc_appLimited := 0 |>) r else r in
  let r := in_sample (fun s => s <| rs_ackedSacked := delivered |> <| rs_bytesLoss := lost |>
                                 <| rs_priorInFlight := priorInFlight |>) r in
  if (rs_priorTime (m_rateSample r) =? 0) || is_sack_reneg then
    Ok (in_sample (fun s => s <| rs_delivered := -1 |> <| rs_interval := 0 |>) r)
  else
    let r := in_sample (fun s =>
               s <| rs_interval := t_Max (rs_sendElapsed s) (rs_ackElapsed s) |>
                 <| rs_delivered := i32 (u64 (rc_delivered (m_rate r) - rs_priorDelivered s)) |>) r in
    if rs_interval (m_rateSample r) <? minRtt then
      Ok (in_sample (fun s => s <| rs_interval := 0 |> <| rs_priorTime := 0 |>) r)
    else
      let s := m_rateSample r in
      let c := m_rate r in
      if negb (rs_isAppLimited s)
         || (t_mul (rc_rateInterval c) (rs_delivered s) >=? t_mul (rs_interval s) (rc_rateDelivered c))
      then
        let r := in_rate (fun c => c <| rc_rateDelivered := rs_delivered s |>
                                     <| rc_rateInterval := rs_interval s |>
                                     <| rc_rateAppLimited := rs_isAppLimited s |>) r in
        secs ← GetSeconds (rs_interval s) ;
        bps ← d_to_uint 64 (d_div (d_mul (d_of_Z (rs_delivered s)) (d_of_Z 8)) secs) ;
        Ok (in_sample (fun s => s <| rs_deliveryRate := bps |>) r)
      else Ok r.

Definition CalculateAppLimited (r : TcpRateLinux)
    (cWnd in_flight segmentSize tailSeq nextTx lostOut retransOut : Z) : TcpRateLinux :=
  if (seq_diff tailSeq nextTx <? i32 segmentSize) && (in_flight <? cWnd) && (lostOut <=? retransOut)
  then in_rate (fun c => c <| rc_appLimited := Z.max (u32 (rc_delivered c + in_flight)) 1 |>) r
  else r.

Definition SkbDelivered (now : Z) (r : TcpRateLinux) (skb : TcpTxItem) : TcpRateLinux * TcpTxItem :=
  let skbInfo := m_rateInfo skb in
  if m_deliveredTime skbInfo =? Time_max then (r, skb)
  else
    let r := in_rate (fun c => c <| rc_delivered := u64 (rc_delivered c + GetSeqSize skb) |>
                                 <| rc_deliveredTime := now |>) r in
    let r := if (rs_priorDelivered (m_rateSample r) =? 0)
                || (rs_priorDelivered (m_rateSample r) <? m_delivered skbInfo)
             then
               let r := in_sample (fun s =>
                          s <| rs_ackElapsed := t_sub now (rs_priorTime s) |>
                            <| rs_priorDelivered := u32 (m_delivered skbInfo) |>
                            <| rs_priorTime := m_deliveredTime skbInfo |>
                            <| rs_isAppLimited := m_isAppLimited skbInfo |>
                            <| rs_sendElapsed := t_sub (m_lastSent skb) (m_firstSent skbInfo) |>) r in
               in_rate (fun c => c <| rc_firstSentTime := m_lastSent skb |>) r
             else r in
    (in_rate (fun c => c <| rc_txItemDelivered := u32 (m_delivered skbInfo) |>) r,
     skb <| m_rateInfo := skbInfo <| m_deliveredTime := Time_max |> |>).

Definition SkbSent (now : Z) (r : TcpRateLinux) (skb : TcpTxItem) (isStartOfTransmission : bool)
  : TcpRateLinux * TcpTxItem :=
  let r := if isStartOfTransmission
           then in_rate (fun c => c <| rc_firstSentTime := now |> <| rc_deliveredTime := now |>) r
           else r in
  (r, skb <| m_rateInfo := (m_rateInfo skb)
                <| m_firstSent := rc_firstSentTime (m_rate r) |>
                <| m_deliveredTime := rc_deliveredTime (m_rate r) |>
                <| m_isAppLimited := negb (rc_appLimited (m_rate r) =? 0) |>
                <| m_delivered := rc_delivered (m_rate r) |> |>).
