(* ===== verification/CongestionOps.v ===== *)
(** Congestion control: the interface of src/internet/model/tcp-congestion-ops.h
    as a class, and its implementations TcpNewReno (tcp-congestion-ops.cc),
    TcpLinuxReno (tcp-linux-reno.cc) and the delay-based TcpCerl, TcpCerlPlus
    and TcpCerlX (tcp-cerl.cc).

    The class [TcpCongestionOps A] holds the virtual methods over the state [A]
    of the algorithm; a method that the C++ class gives a default has that
    default as a [base_] definition.  [TcpCongestionLaws] states what the
    socket relies on, and every implementation is an instance. *)
From Stdlib Require Import ZArith Lia Bool List.
From stdpp Require Import base tactics list.
From S2P Require Import Prelude SeqNum Float Int64x64 NsTime RateOps SocketState.

(** ** The interface *)

Class TcpCongestionOps (A : Type) := {
  GetSsThresh : A -> TcpSocketState -> Z -> res (Z * A);
  (* where the algorithms read the clock, the time of the simulator is the first argument *)
  IncreaseWindow : Z -> A -> TcpSocketState -> Z -> res (A * TcpSocketState);
  PktsAcked : Z -> A -> TcpSocketState -> Z -> Z -> res (A * TcpSocketState);
  CongestionStateSet : Z -> A -> TcpSocketState -> TcpCongState_t -> A * TcpSocketState;
  CwndEvent : A -> TcpSocketState -> TcpCAEvent_t -> A * TcpSocketState;
  HasCongControl : A -> bool;
  CongControl : A -> TcpSocketState -> TcpRateConnection -> TcpRateSample -> A * TcpSocketState;
  EnterRecovery : A -> TcpSocketState -> A * TcpSocketState;
  ExitRecovery : A -> TcpSocketState -> A * TcpSocketState;
  Fork : A -> A;
}.

(** The methods of the base class. *)
Definition base_PktsAcked {A} (now : Z) (c : A) (t : TcpSocketState) (segmentsAcked rtt : Z)
  : res (A * TcpSocketState) := Ok (c, t).
Definition base_CongestionStateSet {A} (now : Z) (c : A) (t : TcpSocketState) (newState : TcpCongState_t)
  : A * TcpSocketState := (c, t).
Definition base_CwndEvent {A} (c : A) (t : TcpSocketState) (event : TcpCAEvent_t)
  : A * TcpSocketState := (c, t).
Definition base_HasCongControl {A} (c : A) : bool := false.
Definition base_CongControl {A} (c : A) (t : TcpSocketState) (rc : TcpRateConnection)
    (rs : TcpRateSample) : A * TcpSocketState := (c, t).
Definition base_EnterRecovery {A} (c : A) (t : TcpSocketState) : A * TcpSocketState :=
  (c, t <| m_cWnd := m_ssThresh t |>).
Definition base_ExitRecovery {A} (c : A) (t : TcpSocketState) : A * TcpSocketState :=
  (c, t <| m_cWnd := m_ssThresh t |>).

(** ** TcpNewReno: the class has no members *)

Record TcpNewReno := mkNewReno {}.

Definition NewReno_SlowStart (t : TcpSocketState) (segmentsAcked : Z) : Z * TcpSocketState :=
  if 1 <=? segmentsAcked
  then (segmentsAcked - 1, t <| m_cWnd := u32 (m_cWnd t + m_segmentSize t) |>)
  else (0, t).

(** The adder of congestion avoidance, a double. *)
Definition avoidance_adder (t : TcpSocketState) : double :=
  d_max (d_of_Z 1)
    (d_div (d_of_Z (u32 (m_segmentSize t * m_segmentSize t))) (d_of_Z (m_cWnd t))).

Definition NewReno_CongestionAvoidance (t : TcpSocketState) (segmentsAcked : Z) : res TcpSocketState :=
  if 0 <? segmentsAcked then
    a ← d_to_u32 (avoidance_adder t) ;
    Ok (t <| m_cWnd := u32 (m_cWnd t + a) |>)
  else Ok t.

Definition NewReno_IncreaseWindow (c : TcpNewReno) (t : TcpSocketState) (segmentsAcked : Z)
  : res (TcpNewReno * TcpSocketState) :=
  let '(segmentsAcked, t) := if m_cWnd t <? m_ssThresh t then NewReno_SlowStart t segmentsAcked
                             else (segmentsAcked, t) in
  t ← (if m_ssThresh t <=? m_cWnd t then NewReno_CongestionAvoidance t segmentsAcked else Ok t) ;
  Ok (c, t).

Definition NewReno_GetSsThresh (c : TcpNewReno) (t : TcpSocketState) (bytesInFlight : Z)
  : res (Z * TcpNewReno) :=
  Ok (Z.max (u32 (2 * m_segmentSize t)) (bytesInFlight / 2), c).

#[export] Instance newreno_ops : TcpCongestionOps TcpNewReno := {|
  GetSsThresh := NewReno_GetSsThresh;
  IncreaseWindow := fun _ => NewReno_IncreaseWindow;
  PktsAcked := base_PktsAcked;
  CongestionStateSet := base_CongestionStateSet;
  CwndEvent := base_CwndEvent;
  HasCongControl := base_HasCongControl;
  CongControl := base_CongControl;
  EnterRecovery := base_EnterRecovery;
  ExitRecovery := base_ExitRecovery;
  Fork := fun c => c;
|}.

(** ** TcpLinuxReno *)

Record TcpLinuxReno := mkLinuxReno { m_cWndCnt : Z }.

Definition TcpLinuxReno_new : TcpLinuxReno := mkLinuxReno 0.

Definition LinuxReno_SlowStart (t : TcpSocketState) (segmentsAcked : Z) : res (Z * TcpSocketState) :=
  if 1 <=? segmentsAcked then
    let sndCwnd := m_cWnd t in
    let t := t <| m_cWnd := Z.min (u32 (sndCwnd + u32 (segmentsAcked * m_segmentSize t))) (m_ssThresh t) |> in
    n ← udiv (u32 (m_cWnd t - sndCwnd)) (m_segmentSize t) ;
    Ok (u32 (segmentsAcked - n), t)
  else Ok (0, t).

Definition LinuxReno_CongestionAvoidance (c : TcpLinuxReno) (t : TcpSocketState) (segmentsAcked : Z)
  : res (TcpLinuxReno * TcpSocketState) :=
  w ← udiv (m_cWnd t) (m_segmentSize t) ;
  let w := if w =? 0 then 1 else w in
  let '(cnt, t) := if w <=? m_cWndCnt c
                   then (0, t <| m_cWnd := u32 (m_cWnd t + m_segmentSize t) |>)
                   else (m_cWndCnt c, t) in
  let cnt := u32 (cnt + segmentsAcked) in
  if w <=? cnt then
    let delta := cnt / w in
    Ok (mkLinuxReno (u32 (cnt - u32 (delta * w))),
        t <| m_cWnd := u32 (m_cWnd t + u32 (delta * m_segmentSize t)) |>)
  else Ok (mkLinuxReno cnt, t).

Definition LinuxReno_IncreaseWindow (c : TcpLinuxReno) (t : TcpSocketState) (segmentsAcked : Z)
  : res (TcpLinuxReno * TcpSocketState) :=
  if m_cWnd t <? m_ssThresh t then
    '(_, t) ← LinuxReno_SlowStart t segmentsAcked ; Ok (c, t)
  else LinuxReno_CongestionAvoidance c t segmentsAcked.

Definition LinuxReno_GetSsThresh (c : TcpLinuxReno) (t : TcpSocketState) (bytesInFlight : Z)
  : res (Z * TcpLinuxReno) :=
  Ok (Z.max (u32 (2 * m_segmentSize t)) (m_cWnd t / 2), c).

(** Fork copies the object with a constructor that copies no member. *)
Definition LinuxReno_Fork (c : TcpLinuxReno) : TcpLinuxReno := TcpLinuxReno_new.

#[export] Instance linuxreno_ops : TcpCongestionOps TcpLinuxReno := {|
  GetSsThresh := LinuxReno_GetSsThresh;
  IncreaseWindow := fun _ => LinuxReno_IncreaseWindow;
  PktsAcked := base_PktsAcked;
  CongestionStateSet := base_CongestionStateSet;
  CwndEvent := base_CwndEvent;
  HasCongControl := base_HasCongControl;
  CongControl := base_CongControl;
  EnterRecovery := base_EnterRecovery;
  ExitRecovery := base_ExitRecovery;
  Fork := LinuxReno_Fork;
|}.

(** ** TcpCerl, TcpCerlPlus and TcpCerlX

    One record holds the members of the three classes; [m_class] is the
    dynamic class of the object, by which the virtual methods dispatch. *)

Inductive CerlClass := Cerl | CerlPlus | CerlX.

Record PktInfo := mkPktInfo { pi_rtt : Z; pi_ts : Z }.

Record TcpCerl := mkCerl {
  m_class : CerlClass;
  m_oldCwnd : Z;
  m_lMax : Z;
  m_l : Z;
  m_rttMin : Z;
  m_A : double;
  m_enteredRecovery : bool;
  m_decreaseCwnd : bool;
  m_maxSentSeq : Z;
  m_rttSum : Z;                 (* of TcpCerlPlus *)
  m_sampleSize : Z;
  m_samples : list PktInfo;     (* of TcpCerlX, front first *)
  m_sampleRtts : list Z;        (* std::multiset, in order *)
  m_windowSize : Z;
}.

#[export] Instance eta_TcpCerl : Settable TcpCerl := fun r =>
  mkCerl (m_class r) (m_oldCwnd r) (m_lMax r) (m_l r) (m_rttMin r) (m_A r) (m_enteredRecovery r)
    (m_decreaseCwnd r) (m_maxSentSeq r) (m_rttSum r) (m_sampleSize r) (m_samples r)
    (m_sampleRtts r) (m_windowSize r).

Definition TcpCerl_new (k : CerlClass) : TcpCerl :=
  mkCerl k (-1) Time_min 0 Time_max (d_lit 55 100) false false 0 0 0 [] [] 60.

Definition GetA (c : TcpCerl) : res double :=
  match m_class c with
  | Cerl => Ok (m_A c)
  | _ =>
      v ← t_ratio (t_mul (m_rttMin c) (m_sampleSize c)) (m_rttSum c) ;
      Ok (GetDouble v)
  end.

Definition isCongestionLoss (c : TcpCerl) : res bool :=
  a ← GetA c ;
  a ← of_double a ;
  bound ← t_mul_hp (m_lMax c) a ;
  Ok (bound <=? m_l c).

Definition Cerl_GetSsThresh (c : TcpCerl) (t : TcpSocketState) (bytesInFlight : Z)
  : res (Z * TcpCerl) :=
  ns_assert (0 <? m_lastAckedSeq t) ;;
  if negb (m_enteredRecovery c) then
    Ok (Z.max (u32 (2 * m_segmentSize t)) (bytesInFlight / 2), c)
  else
    isCongestion ← isCongestionLoss c ;
    if seq_gt (seq_sub (m_lastAckedSeq t) 1) (m_maxSentSeq c) && isCongestion then
      Ok (Z.max (u32 (2 * m_segmentSize t)) (bytesInFlight / 2),
          c <| m_maxSentSeq := m_highTxMark t |> <| m_decreaseCwnd := true |>)
    else Ok (m_ssThresh t, c <| m_oldCwnd := i32 (m_cWnd t) |>).

(** SlowStart, CongestionAvoidance and IncreaseWindow are those of TcpNewReno,
    written out again in the class. *)
Definition Cerl_IncreaseWindow (c : TcpCerl) (t : TcpSocketState) (segmentsAcked : Z)
  : res (TcpCerl * TcpSocketState) :=
  let '(segmentsAcked, t) := if m_cWnd t <? m_ssThresh t then NewReno_SlowStart t segmentsAcked
                             else (segmentsAcked, t) in
  t ← (if m_ssThresh t <=? m_cWnd t then NewReno_CongestionAvoidance t segmentsAcked else Ok t) ;
  Ok (c, t).

Definition Cerl_CongestionStateSet (c : TcpCerl) (t : TcpSocketState) (newState : TcpCongState_t)
  : TcpCerl * TcpSocketState :=
  (match newState with CA_RECOVERY => c <| m_enteredRecovery := true |> | _ => c end, t).

Definition Cerl_PktsAcked (c : TcpCerl) (rtt : Z) : TcpCerl :=
  let c := c <| m_rttMin := t_Min rtt (m_rttMin c) |> in
  let c := c <| m_l := t_sub rtt (m_rttMin c) |> in
  c <| m_lMax := t_Max (m_lMax c) (m_l c) |>.

Definition CerlPlus_PktsAcked (c : TcpCerl) (rtt : Z) : TcpCerl :=
  let c := Cerl_PktsAcked c rtt in
  c <| m_rttSum := t_add (m_rttSum c) rtt |> <| m_sampleSize := u32 (m_sampleSize c + 1) |>.

(** std::multiset::insert: after the equal elements. *)
Fixpoint multiset_insert (x : Z) (l : list Z) : list Z :=
  match l with
  | [] => [x]
  | y :: l' => if x <? y then x :: l else y :: multiset_insert x l'
  end.

(** The front sample is evicted at most once per packet.  The code keeps a
    reference to the evicted sample and reads its rtt after pop_front, to
    subtract it from the sum: a read of a removed element. *)
Definition AddPkt (now : Z) (c : TcpCerl) (info : PktInfo) : res TcpCerl :=
  let c := c <| m_samples := m_samples c ++ [info] |>
             <| m_sampleRtts := multiset_insert (pi_rtt info) (m_sampleRtts c) |> in
  match m_samples c with
  | [] => Err NullDeref
  | front :: _ =>
      age ← (if 2 <? zlen (m_samples c) then GetSeconds (t_sub now (pi_ts front)) else Ok (d_of_Z 0)) ;
      if (2 <? zlen (m_samples c)) && d_gt age (d_of_Z (m_windowSize c)) then Err Dangling
      else Ok c
  end.

Definition CerlAny_PktsAcked (now : Z) (c : TcpCerl) (t : TcpSocketState) (segmentsAcked rtt : Z)
  : res (TcpCerl * TcpSocketState) :=
  match m_class c with
  | Cerl => Ok (Cerl_PktsAcked c rtt, t)
  | CerlPlus => Ok (CerlPlus_PktsAcked c rtt, t)
  | CerlX => c ← AddPkt now (CerlPlus_PktsAcked c rtt) (mkPktInfo rtt now) ; Ok (c, t)
  end.

Definition Cerl_EnterRecovery (c : TcpCerl) (t : TcpSocketState) : TcpCerl * TcpSocketState :=
  if negb (m_enteredRecovery c) then (c, t <| m_cWnd := m_ssThresh t |>)
  else
    let c := c <| m_enteredRecovery := false |> in
    if m_decreaseCwnd c
    then (c <| m_decreaseCwnd := false |>, t <| m_cWnd := m_ssThresh t |>)
    else (c, t).

Definition Cerl_ExitRecovery (c : TcpCerl) (t : TcpSocketState) : TcpCerl * TcpSocketState :=
  if 0 <=? m_oldCwnd c
  then (c <| m_oldCwnd := -1 |>, t <| m_cWnd := u32 (m_oldCwnd c) |>)
  else (c, t <| m_cWnd := m_ssThresh t |>).

(** Fork is overridden in TcpCerl alone, and its copy constructor copies no
    member: whatever the class, the copy is a new TcpCerl. *)
Definition Cerl_Fork (c : TcpCerl) : TcpCerl := TcpCerl_new Cerl.

#[export] Instance cerl_ops : TcpCongestionOps TcpCerl := {|
  GetSsThresh := Cerl_GetSsThresh;
  IncreaseWindow := fun _ => Cerl_IncreaseWindow;
  PktsAcked := CerlAny_PktsAcked;
  CongestionStateSet := fun _ => Cerl_CongestionStateSet;
  CwndEvent := base_CwndEvent;
  HasCongControl := base_HasCongControl;
  CongControl := base_CongControl;
  EnterRecovery := Cerl_EnterRecovery;
  ExitRecovery := Cerl_ExitRecovery;
  Fork := Cerl_Fork;
|}.

(** ** What the socket relies on *)

(** Only the congestion window changes, and stays a word. *)
Definition only_cwnd (t t' : TcpSocketState) : Prop :=
  t' = t <| m_cWnd := m_cWnd t' |> /\ (is_u32 (m_cWnd t) -> is_u32 (m_ssThresh t) -> is_u32 (m_cWnd t')).

#[export] Instance only_cwnd_refl : Reflexive only_cwnd.
Proof. intros []. by split. Qed.

#[export] Instance only_cwnd_trans : Transitive only_cwnd.
Proof.
  intros t1 t2 t3 [E1 H1] [E2 H2]. split; [rewrite E2 at 1; by rewrite E1|].
  intros Hc Hs. apply H2; [auto|]. by rewrite E1.
Qed.

Lemma only_cwnd_set t w : (is_u32 (m_cWnd t) -> is_u32 (m_ssThresh t) -> is_u32 w) ->
  only_cwnd t (t <| m_cWnd := w |>).
Proof. by split. Qed.

Lemma only_cwnd_set_u32 t z : only_cwnd t (t <| m_cWnd := u32 z |>).
Proof. apply only_cwnd_set. intros. apply u32_range. Qed.

Lemma only_cwnd_set_thresh t : only_cwnd t (t <| m_cWnd := m_ssThresh t |>).
Proof. by apply only_cwnd_set. Qed.

(** Only the window and the threshold change, and stay words. *)
Definition only_cong (t t' : TcpSocketState) : Prop :=
  t' = t <| m_cWnd := m_cWnd t' |> <| m_ssThresh := m_ssThresh t' |>
  /\ (is_u32 (m_cWnd t) -> is_u32 (m_ssThresh t) -> is_u32 (m_cWnd t') /\ is_u32 (m_ssThresh t')).

Lemma only_cwnd_cong t t' : only_cwnd t t' -> only_cong t t'.
Proof. intros [E Hw]. rewrite E in Hw |- *. split; [done|]. cbn in *. auto. Qed.

#[export] Instance only_cong_trans : Transitive only_cong.
Proof.
  intros t1 t2 t3 [E1 H1] [E2 H2]. split; [rewrite E2 at 1; by rewrite E1|].
  intros Hc Hs. apply H2; by apply H1.
Qed.

#[export] Instance only_cong_refl : Reflexive only_cong.
Proof. intros t. by apply only_cwnd_cong. Qed.

Class TcpCongestionLaws (A : Type) `{TcpCongestionOps A} := {
  GetSsThresh_word c t b v c' : GetSsThresh c t b = Ok (v, c') ->
    is_u32 (m_cWnd t) -> is_u32 (m_ssThresh t) -> is_u32 b -> is_u32 v;
  IncreaseWindow_frame now c t n c' t' : IncreaseWindow now c t n = Ok (c', t') -> only_cong t t';
  PktsAcked_frame now c t n rtt c' t' : PktsAcked now c t n rtt = Ok (c', t') -> only_cong t t';
  CongestionStateSet_frame now c t st : only_cwnd t (snd (CongestionStateSet now c t st));
  CwndEvent_frame c t e : only_cwnd t (snd (CwndEvent c t e));
  CongControl_frame c t rc rs : only_cwnd t (snd (CongControl c t rc rs));
  EnterRecovery_only_cwnd c t : only_cwnd t (snd (EnterRecovery c t));
  ExitRecovery_only_cwnd c t : only_cwnd t (snd (ExitRecovery c t));
}.

(** *** The implementations *)

Lemma reno_thresh_word t b : is_u32 b -> is_u32 (Z.max (u32 (2 * m_segmentSize t)) (b / 2)).
Proof.
  pose proof (u32_range (2 * m_segmentSize t)). unfold is_u32 in *. intros Hb.
  pose proof (Z.div_pos b 2). pose proof (Z.div_le_upper_bound b 2 b). lia.
Qed.

Lemma NewReno_avoidance_frame t n t' : NewReno_CongestionAvoidance t n = Ok t' -> only_cwnd t t'.
Proof.
  unfold NewReno_CongestionAvoidance. destruct (0 <? n); [|by intros [= <-]].
  destruct (d_to_u32 _); res_step; [|done]. intros [= <-]. apply only_cwnd_set_u32.
Qed.

Lemma NewReno_SlowStart_frame t n : only_cwnd t (snd (NewReno_SlowStart t n)).
Proof. unfold NewReno_SlowStart. destruct (1 <=? n); [apply only_cwnd_set_u32|done]. Qed.

Lemma NewReno_increase_frame {C} (c : C) t n c' t' :
  (let '(n, t) := if m_cWnd t <? m_ssThresh t then NewReno_SlowStart t n else (n, t) in
   t ← (if m_ssThresh t <=? m_cWnd t then NewReno_CongestionAvoidance t n else Ok t) ;
   Ok (c, t)) = Ok (c', t') -> only_cwnd t t'.
Proof.
  intros Hi. set (p := if m_cWnd t <? m_ssThresh t then _ else _) in Hi.
  assert (only_cwnd t (snd p)) as Hp.
  { unfold p. destruct (_ <? _); [apply NewReno_SlowStart_frame|done]. }
  destruct p as [m t1]. cbn in Hp. etrans; [exact Hp|].
  destruct (m_ssThresh t1 <=? m_cWnd t1).
  - destruct (NewReno_CongestionAvoidance t1 m) as [t2|] eqn:E; res_step; [|done].
    apply NewReno_avoidance_frame in E. by injection Hi as <- <-.
  - by injection Hi as <- <-.
Qed.

#[export] Instance newreno_laws : TcpCongestionLaws TcpNewReno.
Proof.
  split; intros; cbn in *; try done; try apply only_cwnd_set_thresh.
  - apply Ok_inj in H. simplify_eq/=. by apply reno_thresh_word.
  - exact (only_cwnd_cong _ _ (NewReno_increase_frame _ _ _ _ _ H)).
  - apply Ok_inj in H. by simplify_eq/=.
Qed.

Lemma LinuxReno_avoidance_frame c t n c' t' :
  LinuxReno_CongestionAvoidance c t n = Ok (c', t') -> only_cwnd t t'.
Proof.
  unfold LinuxReno_CongestionAvoidance. destruct (udiv _ _) as [w|]; res_step; [|done].
  set (w1 := if w =? 0 then 1 else w). set (p := if w1 <=? m_cWndCnt c then _ else _).
  assert (only_cwnd t (snd p)) as Hp.
  { unfold p. destruct (_ <=? _); [apply only_cwnd_set_u32|done]. }
  destruct p as [cnt t1]. cbn in Hp.
  destruct (w1 <=? _); intros [= <- <-]; [|done]. etrans; [exact Hp|]. apply only_cwnd_set_u32.
Qed.

Lemma LinuxReno_SlowStart_frame t n m t' : LinuxReno_SlowStart t n = Ok (m, t') -> only_cwnd t t'.
Proof.
  unfold LinuxReno_SlowStart. destruct (1 <=? n); [|by intros [= <- <-]].
  destruct (udiv _ _); res_step; [|done]. intros [= <- <-]. apply only_cwnd_set. intros _ Hs.
  pose proof (u32_range (m_cWnd t + u32 (n * m_segmentSize t))). unfold is_u32 in *. lia.
Qed.

#[export] Instance linuxreno_laws : TcpCongestionLaws TcpLinuxReno.
Proof.
  split; intros; cbn in *; try done; try apply only_cwnd_set_thresh.
  - apply Ok_inj in H. simplify_eq/=. by apply reno_thresh_word.
  - apply only_cwnd_cong. unfold LinuxReno_IncreaseWindow in H. destruct (_ <? _); [|exact (LinuxReno_avoidance_frame _ _ _ _ _ H)].
    destruct (LinuxReno_SlowStart t n) as [[m t1]|] eqn:E; res_step; [|done].
    apply Ok_inj in H. simplify_eq/=. exact (LinuxReno_SlowStart_frame _ _ _ _ E).
  - apply Ok_inj in H. by simplify_eq/=.
Qed.

Lemma Cerl_thresh_word c t b v c' : Cerl_GetSsThresh c t b = Ok (v, c') ->
  is_u32 (m_ssThresh t) -> is_u32 b -> is_u32 v.
Proof.
  unfold Cerl_GetSsThresh. destruct (ns_assert _); res_step; [|done].
  destruct (negb _); [intros [= <- <-] _ ?; by apply reno_thresh_word|].
  destruct (isCongestionLoss c); res_step; [|done].
  destruct (_ && _); intros [= <- <-] ? ?; [by apply reno_thresh_word|done].
Qed.

#[export] Instance cerl_laws : TcpCongestionLaws TcpCerl.
Proof.
  split; intros; cbn in *; try done.
  - by eapply Cerl_thresh_word.
  - exact (only_cwnd_cong _ _ (NewReno_increase_frame _ _ _ _ _ H)).
  - unfold CerlAny_PktsAcked in H. destruct (m_class c); try by (apply Ok_inj in H; simplify_eq/=).
    destruct (AddPkt _ _ _); res_step; [|done]. apply Ok_inj in H. by simplify_eq/=.
  - unfold Cerl_EnterRecovery. destruct (negb _); [apply only_cwnd_set_thresh|].
    destruct (m_decreaseCwnd _); [apply only_cwnd_set_thresh|done].
  - unfold Cerl_ExitRecovery. destruct (0 <=? _); [apply only_cwnd_set_u32|apply only_cwnd_set_thresh].
Qed.
