(* ===== verification/RecoveryOps.v ===== *)
(** Loss recovery: the interface TcpRecoveryOps with TcpClassicRecovery
    (src/internet/model/tcp-recovery-ops.cc) and TcpPrrRecovery
    (tcp-prr-recovery.cc, proportional rate reduction). *)
From Stdlib Require Import ZArith Lia Bool List.
From stdpp Require Import base tactics list.
From S2P Require Import Prelude Float SocketState.

Class TcpRecoveryOps (B : Type) := {
  (* dupAckCount, unAckDataCount, deliveredBytes *)
  EnterRecovery : B -> TcpSocketState -> Z -> Z -> Z -> res (B * TcpSocketState);
  DoRecovery : B -> TcpSocketState -> Z -> res (B * TcpSocketState);
  ExitRecovery : B -> TcpSocketState -> B * TcpSocketState;
  UpdateBytesSent : B -> Z -> B;
  Fork : B -> B;
}.

(** The one method with a default. *)
Definition base_UpdateBytesSent {B} (r : B) (bytesSent : Z) : B := r.

(** ** TcpClassicRecovery *)

Record TcpClassicRecovery := mkClassic {}.

Definition Classic_EnterRecovery (r : TcpClassicRecovery) (t : TcpSocketState)
    (dupAckCount unAckDataCount deliveredBytes : Z) : res (TcpClassicRecovery * TcpSocketState) :=
  let infl := u32 (m_cWnd t + u32 (dupAckCount * m_segmentSize t)) in
  Ok (r, t <| m_cWndInfl := infl |> <| m_cWnd := infl |>).

Definition Classic_DoRecovery (r : TcpClassicRecovery) (t : TcpSocketState) (deliveredBytes : Z)
  : res (TcpClassicRecovery * TcpSocketState) :=
  let infl := u32 (m_cWndInfl t + m_segmentSize t) in
  Ok (r, t <| m_cWndInfl := infl |> <| m_cWnd := infl |>).

Definition Classic_ExitRecovery (r : TcpClassicRecovery) (t : TcpSocketState)
  : TcpClassicRecovery * TcpSocketState :=
  (r, t <| m_cWndInfl := m_ssThresh t |> <| m_cWnd := m_ssThresh t |>).

#[export] Instance classic_ops : TcpRecoveryOps TcpClassicRecovery := {|
  EnterRecovery := Classic_EnterRecovery;
  DoRecovery := Classic_DoRecovery;
  ExitRecovery := Classic_ExitRecovery;
  UpdateBytesSent := base_UpdateBytesSent;
  Fork := fun r => r;
|}.

(** ** TcpPrrRecovery *)

Inductive ReductionBound_t := CRB | SSRB.

Record TcpPrrRecovery := mkPrr {
  m_prrDelivered : Z;
  m_prrOut : Z;
  m_recoveryFlightSize : Z;
  m_reductionBoundMode : ReductionBound_t;
}.

#[export] Instance eta_TcpPrrRecovery : Settable TcpPrrRecovery := fun r =>
  mkPrr (m_prrDelivered r) (m_prrOut r) (m_recoveryFlightSize r) (m_reductionBoundMode r).

Definition TcpPrrRecovery_new : TcpPrrRecovery := mkPrr 0 0 0 SSRB.

(** The number of bytes to send, an int. *)
Definition prr_sendCount (r : TcpPrrRecovery) (t : TcpSocketState) (deliveredBytes : Z) : res Z :=
  if m_ssThresh t <? m_bytesInFlight t then
    d_to_sint 32
      (d_sub (d_ceil (d_div (d_mul (d_of_Z (u32 (m_prrDelivered r * m_ssThresh t))) (d_of_Z 1))
                        (d_of_Z (m_recoveryFlightSize r))))
             (d_of_Z (m_prrOut r)))
  else
    let room := i32 (m_ssThresh t - m_bytesInFlight t) in
    let limit :=
      match m_reductionBoundMode r with
      | CRB => i32 (m_prrDelivered r - m_prrOut r)
      | SSRB =>
          if m_isRetransDataAcked t
          then i32 (Z.max (u32 (m_prrDelivered r - m_prrOut r)) deliveredBytes + m_segmentSize t)
          else i32 deliveredBytes
      end in
    Ok (Z.min limit room).

Definition Prr_DoRecovery (r : TcpPrrRecovery) (t : TcpSocketState) (deliveredBytes : Z)
  : res (TcpPrrRecovery * TcpSocketState) :=
  let r := r <| m_prrDelivered := u32 (m_prrDelivered r + deliveredBytes) |> in
  sendCount ← prr_sendCount r t deliveredBytes ;
  let sendCount := Z.max sendCount (i32 (if 0 <? m_prrOut r then 0 else m_segmentSize t)) in
  let cwnd := u32 (m_bytesInFlight t + sendCount) in
  Ok (r, t <| m_cWnd := cwnd |> <| m_cWndInfl := cwnd |>).

Definition Prr_EnterRecovery (r : TcpPrrRecovery) (t : TcpSocketState)
    (dupAckCount unAckDataCount deliveredBytes : Z) : res (TcpPrrRecovery * TcpSocketState) :=
  Prr_DoRecovery (r <| m_prrOut := 0 |> <| m_prrDelivered := 0 |>
                    <| m_recoveryFlightSize := unAckDataCount |>) t deliveredBytes.

Definition Prr_ExitRecovery (r : TcpPrrRecovery) (t : TcpSocketState)
  : TcpPrrRecovery * TcpSocketState := (r, t <| m_cWndInfl := m_cWnd t |>).

Definition Prr_UpdateBytesSent (r : TcpPrrRecovery) (bytesSent : Z) : TcpPrrRecovery :=
  r <| m_prrOut := u32 (m_prrOut r + bytesSent) |>.

#[export] Instance prr_ops : TcpRecoveryOps TcpPrrRecovery := {|
  EnterRecovery := Prr_EnterRecovery;
  DoRecovery := Prr_DoRecovery;
  ExitRecovery := Prr_ExitRecovery;
  UpdateBytesSent := Prr_UpdateBytesSent;
  Fork := fun r => r;
|}.

(** ** What the socket relies on *)

(** Only the congestion window and its inflated trace change. *)
Definition only_windows (t t' : TcpSocketState) : Prop :=
  t' = t <| m_cWnd := m_cWnd t' |> <| m_cWndInfl := m_cWndInfl t' |>.

Class TcpRecoveryLaws (B : Type) `{TcpRecoveryOps B} := {
  EnterRecovery_frame r t d u b r' t' :
    EnterRecovery r t d u b = Ok (r', t') -> only_windows t t' /\ is_u32 (m_cWnd t');
  DoRecovery_frame r t b r' t' :
    DoRecovery r t b = Ok (r', t') -> only_windows t t' /\ is_u32 (m_cWnd t');
  ExitRecovery_frame r t :
    tcb_typed t -> only_windows t (snd (ExitRecovery r t)) /\ is_u32 (m_cWnd (snd (ExitRecovery r t)));
}.

#[export] Instance classic_laws : TcpRecoveryLaws TcpClassicRecovery.
Proof.
  split; intros; cbn in *.
  - apply Ok_inj in H. simplify_eq. split; [reflexivity|apply u32_range].
  - apply Ok_inj in H. simplify_eq. split; [reflexivity|apply u32_range].
  - split; [reflexivity|]. rec_simpl. apply (tt_ssThresh t H).
Qed.

Lemma Prr_DoRecovery_inv r t b r' t' : Prr_DoRecovery r t b = Ok (r', t') ->
  exists n, m_cWnd t' = u32 (m_bytesInFlight t + n)
  /\ t' = t <| m_cWnd := m_cWnd t' |> <| m_cWndInfl := m_cWnd t' |>
  /\ i32 (if 0 <? m_prrOut r then 0 else m_segmentSize t) <= n
  /\ exists k, prr_sendCount (r <| m_prrDelivered := u32 (m_prrDelivered r + b) |>) t b = Ok k
     /\ n = Z.max k (i32 (if 0 <? m_prrOut r then 0 else m_segmentSize t)).
Proof.
  unfold Prr_DoRecovery. destruct (prr_sendCount _ _ _) as [k|] eqn:E; res_step; [|done].
  intros H. apply Ok_inj in H. simplify_eq. eexists. split; [reflexivity|]. split; [reflexivity|].
  split; [apply Z.le_max_r|]. exists k. by split.
Qed.

#[export] Instance prr_laws : TcpRecoveryLaws TcpPrrRecovery.
Proof.
  split; intros; cbn in *.
  - apply Prr_DoRecovery_inv in H as (n & Ew & E & _). split; [|rewrite Ew; apply u32_range].
    by rewrite E.
  - apply Prr_DoRecovery_inv in H as (n & Ew & E & _). split; [|rewrite Ew; apply u32_range].
    by rewrite E.
  - split; [reflexivity|]. rec_simpl. apply (tt_cWnd t H).
Qed.

(** C20. Proportional rate reduction, with the pipe at or below the threshold:
    after each acknowledgement the window leaves room for the data in flight,
    and, once the fast retransmission is out, it never exceeds the slow start
    threshold; before, it allows one segment more than the pipe at least. *)
Theorem prr_window_bounds r t b :
  tcb_typed t -> is_u32 b -> m_bytesInFlight t <= m_ssThresh t -> m_ssThresh t < 2 ^ 31 ->
  m_segmentSize t < 2 ^ 31 -> m_bytesInFlight t + m_segmentSize t < 2 ^ 32 ->
  exists r' t', Prr_DoRecovery r t b = Ok (r', t')
  /\ m_bytesInFlight t <= m_cWnd t'
  /\ (0 < m_prrOut r -> m_cWnd t' <= m_ssThresh t)
  /\ (m_prrOut r <= 0 -> m_bytesInFlight t + m_segmentSize t <= m_cWnd t'
        <= Z.max (m_ssThresh t) (m_bytesInFlight t + m_segmentSize t)).
Proof.
  intros Ht Hb Hle Hss Hseg Hroom. destruct Ht as [_ _ Hs Hg _ _ _ Hf].
  unfold is_u32 in *. unfold Prr_DoRecovery, prr_sendCount. rec_simpl.
  destruct (Z.ltb_spec (m_ssThresh t) (m_bytesInFlight t)); [lia|]. res_step.
  eexists _, _. split; [reflexivity|]. rec_simpl.
  assert (i32 (m_ssThresh t - m_bytesInFlight t) = m_ssThresh t - m_bytesInFlight t) as ->
    by (apply sint_small; lia).
  match goal with |- context [Z.min ?l _] => generalize l; intros limit end.
  assert (i32 0 = 0) as E0 by reflexivity.
  assert (i32 (m_segmentSize t) = m_segmentSize t) as Eg by (apply sint_small; lia).
  destruct (Z.ltb_spec 0 (m_prrOut r)); rewrite ?E0, ?Eg, u32_small by (unfold is_u32; lia); lia.
Qed.

(** In recovery, 3 segments in flight, the threshold at 5, and 4 segments sent
    for 8 delivered. *)
Definition prr_tcb : TcpSocketState :=
  (TcpSocketState_new (RxBuffer.TcpRxBuffer_new 0)) <| m_segmentSize := 536 |> <| m_cWnd := 5360 |>
    <| m_ssThresh := 2680 |> <| m_bytesInFlight := 1608 |> <| m_congState := CA_RECOVERY |>.
Definition prr_state : TcpPrrRecovery := mkPrr 4288 2144 5360 SSRB.

Lemma prr_window_bounds_witness :
  m_bytesInFlight prr_tcb <= m_ssThresh prr_tcb
  /\ exists r' t', Prr_DoRecovery prr_state prr_tcb 536 = Ok (r', t')
  /\ m_bytesInFlight prr_tcb <= m_cWnd t'
  /\ (0 < m_prrOut prr_state -> m_cWnd t' <= m_ssThresh prr_tcb)
  /\ (m_prrOut prr_state <= 0 -> m_bytesInFlight prr_tcb + m_segmentSize prr_tcb <= m_cWnd t'
        <= Z.max (m_ssThresh prr_tcb) (m_bytesInFlight prr_tcb + m_segmentSize prr_tcb)).
Proof.
  split; [vm_compute; congruence|].
  apply (prr_window_bounds prr_state prr_tcb 536).
  - split; vm_compute; split; congruence.
  - vm_compute; split; congruence.
  - vm_compute; congruence.
  - vm_compute; reflexivity.
  - vm_compute; reflexivity.
  - vm_compute; reflexivity.
Defined.
