(* ===== verification/CongestionSpec.v ===== *)
(** Congestion control and rate sampling: theorems.

    Against the interface: whatever calls the socket makes, an algorithm that
    satisfies [TcpCongestionLaws] only moves the congestion window and the slow
    start threshold, and keeps them words.  Of the implementations: the linear
    growth of TcpLinuxReno, the reaction of TcpCerl to a loss that is no
    congestion, the eviction of TcpCerlX.  Of the rate sampling: an item is
    counted once. *)
From Stdlib Require Import ZArith Lia Bool List.
From stdpp Require Import base tactics list.
From S2P Require Import Prelude SeqNum RxBuffer TxBuffer Float Int64x64 NsTime RateOps SocketState CongestionOps RecoveryOps.

(** ** Sequences of calls *)

Inductive CongCall :=
| C_GetSsThresh (bytesInFlight : Z)
| C_IncreaseWindow (now segmentsAcked : Z)
| C_PktsAcked (now segmentsAcked rtt : Z)
| C_CongestionStateSet (now : Z) (newState : TcpCongState_t)
| C_CwndEvent (event : TcpCAEvent_t)
| C_CongControl (rc : TcpRateConnection) (rs : TcpRateSample)
| C_EnterRecovery
| C_ExitRecovery.

(** A call, as the socket makes it: the threshold it gets is stored. *)
Definition cong_call {A} `{TcpCongestionOps A} (f : CongCall) (st : A * TcpSocketState)
  : res (A * TcpSocketState) :=
  let '(c, t) := st in
  match f with
  | C_GetSsThresh b => '(v, c) ← GetSsThresh c t b ; Ok (c, t <| m_ssThresh := v |>)
  | C_IncreaseWindow now n => IncreaseWindow now c t n
  | C_PktsAcked now n rtt => PktsAcked now c t n rtt
  | C_CongestionStateSet now s => Ok (CongestionStateSet now c t s)
  | C_CwndEvent e => Ok (CwndEvent c t e)
  | C_CongControl rc rs => Ok (CongControl c t rc rs)
  | C_EnterRecovery => Ok (CongestionOps.EnterRecovery c t)
  | C_ExitRecovery => Ok (CongestionOps.ExitRecovery c t)
  end.

Fixpoint cong_calls {A} `{TcpCongestionOps A} (l : list CongCall) (st : A * TcpSocketState)
  : res (A * TcpSocketState) :=
  match l with
  | [] => Ok st
  | f :: l => st ← cong_call f st ; cong_calls l st
  end.

(** The arguments are words. *)
Definition call_ok (f : CongCall) : Prop :=
  match f with C_GetSsThresh b => is_u32 b | _ => True end.

Section Interface.
Context {A : Type} `{TcpCongestionLaws A}.

Lemma cong_call_frame f c t c' t' :
  call_ok f -> cong_call f (c, t) = Ok (c', t') -> is_u32 (m_cWnd t) -> is_u32 (m_ssThresh t) ->
  only_cong t t'.
Proof.
  intros Hf Hc Hw Hs. destruct f; cbn in Hc; [| | |apply only_cwnd_cong ..].
  - destruct (GetSsThresh c t bytesInFlight) as [[v c1]|] eqn:E; res_step; [|done].
    apply Ok_inj in Hc. simplify_eq. split; [by destruct t|]. intros _ _.
    split; [done|]. exact (GetSsThresh_word _ _ _ _ _ E Hw Hs Hf).
  - exact (IncreaseWindow_frame _ _ _ _ _ _ Hc).
  - exact (PktsAcked_frame _ _ _ _ _ _ _ Hc).
  - pose proof (CongestionStateSet_frame now c t newState) as F. apply Ok_inj in Hc. by rewrite Hc in F.
  - pose proof (CwndEvent_frame c t event) as F. apply Ok_inj in Hc. by rewrite Hc in F.
  - pose proof (CongControl_frame c t rc rs) as F. apply Ok_inj in Hc. by rewrite Hc in F.
  - pose proof (EnterRecovery_only_cwnd c t) as F. apply Ok_inj in Hc. by rewrite Hc in F.
  - pose proof (ExitRecovery_only_cwnd c t) as F. apply Ok_inj in Hc. by rewrite Hc in F.
Qed.

Lemma cong_calls_frame l c t c' t' :
  Forall call_ok l -> cong_calls l (c, t) = Ok (c', t') -> is_u32 (m_cWnd t) -> is_u32 (m_ssThresh t) ->
  only_cong t t'.
Proof.
  intros Hl. revert c t. induction Hl as [|f l Hf Hl IH]; intros c t Hc Hw Hs; cbn [cong_calls] in Hc.
  - apply Ok_inj in Hc. simplify_eq. by apply only_cwnd_cong.
  - destruct (cong_call f (c, t)) as [[c1 t1]|] eqn:E; res_step; [|done].
    pose proof (cong_call_frame f c t c1 t1 Hf E Hw Hs) as F.
    etrans; [exact F|]. destruct F as [_ F]. destruct (F Hw Hs) as [Hw1 Hs1]. exact (IH _ _ Hc Hw1 Hs1).
Qed.
End Interface.


(** A block of the tests: 10 segments of 536 bytes, a threshold of 8. *)
Definition wt : TcpSocketState :=
  (TcpSocketState_new (TcpRxBuffer_new 0)) <| m_segmentSize := 536 |> <| m_cWnd := 5360 |>
    <| m_ssThresh := 4288 |> <| m_lastAckedSeq := 1000 |> <| m_highTxMark := 6360 |>.

Lemma wt_typed : tcb_typed wt.
Proof. split; split; done || reflexivity. Qed.


(** ** TcpLinuxReno: linear growth *)

(** The window in segments, at least 1. *)
Definition window_segments (t : TcpSocketState) : Z :=
  if m_cWnd t / m_segmentSize t =? 0 then 1 else m_cWnd t / m_segmentSize t.

Lemma window_segments_pos t : 0 < m_segmentSize t -> 0 <= m_cWnd t -> 0 < window_segments t.
Proof.
  intros Hs Hc. unfold window_segments. pose proof (Z.div_pos (m_cWnd t) (m_segmentSize t)).
  destruct (Z.eqb_spec (m_cWnd t / m_segmentSize t) 0); lia.
Qed.

Lemma set_cWnd_same t : t <| m_cWnd := m_cWnd t |> = t.
Proof. by destruct t. Qed.

(** One acknowledgement of [n] segments: the counter is kept modulo the window,
    the quotient goes to the window. *)
Lemma LinuxReno_avoidance_exact cnt t n :
  0 < m_segmentSize t -> is_u32 (m_cWnd t) -> 0 <= cnt < window_segments t -> 0 <= n -> cnt + n < 2 ^ 32 ->
  m_cWnd t + (cnt + n) / window_segments t * m_segmentSize t < 2 ^ 32 ->
  LinuxReno_CongestionAvoidance (mkLinuxReno cnt) t n
  = Ok (mkLinuxReno ((cnt + n) mod window_segments t),
        t <| m_cWnd := m_cWnd t + (cnt + n) / window_segments t * m_segmentSize t |>).
Proof.
  intros Hs Hc Hcnt Hn Hsum Hw. unfold is_u32 in Hc.
  pose proof (window_segments_pos t Hs ltac:(lia)) as Hpos.
  unfold LinuxReno_CongestionAvoidance, udiv. destruct (Z.eqb_spec (m_segmentSize t) 0); [lia|]. res_step.
  fold (window_segments t). rec_simpl. destruct (Z.leb_spec (window_segments t) cnt); [lia|].
  rewrite (u32_small (cnt + n)) by (unfold is_u32; lia).
  pose proof (Z.div_mod (cnt + n) (window_segments t) ltac:(lia)) as Hdm.
  pose proof (Z.mod_pos_bound (cnt + n) (window_segments t) Hpos).
  destruct (Z.leb_spec (window_segments t) (cnt + n)) as [Hle|Hlt].
  - set (q := (cnt + n) / window_segments t) in *.
    assert (0 <= q) by (apply Z.div_pos; lia). assert (0 <= q * window_segments t < 2 ^ 32) by nia.
    assert (0 <= q * m_segmentSize t) by nia.
    rewrite (u32_small (q * window_segments t)), (u32_small (q * m_segmentSize t)) by (unfold is_u32; lia).
    rewrite u32_small by (unfold is_u32; lia). rewrite u32_small by (unfold is_u32; lia).
    do 3 f_equal. lia.
  - rewrite Z.div_small, Z.mod_small by lia. rewrite Z.mul_0_l, Z.add_0_r. by destruct t.
Qed.

(** The acknowledgements of [l], in congestion avoidance. *)
Fixpoint linuxreno_acks (l : list Z) (c : TcpLinuxReno) (t : TcpSocketState)
  : res (TcpLinuxReno * TcpSocketState) :=
  match l with
  | [] => Ok (c, t)
  | n :: l => '(c, t) ← LinuxReno_IncreaseWindow c t n ; linuxreno_acks l c t
  end.

Lemma linuxreno_acks_app l1 l2 c t :
  linuxreno_acks (l1 ++ l2) c t = ('(c, t) ← linuxreno_acks l1 c t ; linuxreno_acks l2 c t).
Proof.
  revert c t; induction l1 as [|n l1 IH]; intros c t; [done|]. cbn [linuxreno_acks app].
  destruct (LinuxReno_IncreaseWindow c t n) as [[c1 t1]|]; res_step; [apply IH|done].
Qed.

Definition sum (l : list Z) : Z := foldr Z.add 0 l.

Lemma sum_cons n l : sum (n :: l) = n + sum l.
Proof. reflexivity. Qed.

Lemma sum_nonneg l : Forall (fun n => 0 <= n) l -> 0 <= sum l.
Proof. induction 1; [done|]. rewrite sum_cons. lia. Qed.

Lemma linuxreno_acks_below l cnt t :
  0 < m_segmentSize t -> is_u32 (m_cWnd t) -> m_ssThresh t <= m_cWnd t ->
  Forall (fun n => 0 <= n) l -> 0 <= cnt -> cnt + sum l < window_segments t ->
  linuxreno_acks l (mkLinuxReno cnt) t = Ok (mkLinuxReno (cnt + sum l), t).
Proof.
  intros Hs Hc Hth Hl. revert cnt. induction Hl as [|n l Hn Hl IH]; intros cnt Hcnt Hsum; cbn [linuxreno_acks].
  - change (sum []) with 0. by rewrite Z.add_0_r.
  - rewrite sum_cons in *. pose proof (sum_nonneg l Hl).
    assert (window_segments t <= 2 ^ 32).
    { unfold window_segments. destruct (_ =? 0); [lia|].
      apply Z.div_le_upper_bound; [lia|]. unfold is_u32 in Hc. nia. }
    unfold LinuxReno_IncreaseWindow. destruct (Z.ltb_spec (m_cWnd t) (m_ssThresh t)); [lia|].
    rewrite LinuxReno_avoidance_exact; try lia; [|done|].
    + rewrite Z.div_small, Z.mod_small by lia. rewrite Z.mul_0_l, Z.add_0_r, set_cWnd_same. res_step.
      rewrite IH by lia. do 3 f_equal. lia.
    + rewrite Z.div_small by lia. unfold is_u32 in Hc. lia.
Qed.

(** C18. Congestion avoidance of TcpLinuxReno: whatever the sizes of the
    acknowledgements, the window stays as it is until as many segments were
    acknowledged as it holds; the acknowledgement that reaches this number
    adds exactly one segment, and what exceeds it is kept for the next. *)
Theorem linuxreno_one_segment_per_window cnt t l n :
  0 < m_segmentSize t -> is_u32 (m_cWnd t) -> m_ssThresh t <= m_cWnd t ->
  m_cWnd t + m_segmentSize t < 2 ^ 32 ->
  Forall (fun n => 0 <= n) l -> 0 <= cnt -> cnt + sum l < window_segments t ->
  0 <= n -> window_segments t <= cnt + sum l + n < 2 * window_segments t -> cnt + sum l + n < 2 ^ 32 ->
  linuxreno_acks l (mkLinuxReno cnt) t = Ok (mkLinuxReno (cnt + sum l), t)
  /\ linuxreno_acks (l ++ [n]) (mkLinuxReno cnt) t
     = Ok (mkLinuxReno (cnt + sum l + n - window_segments t),
           t <| m_cWnd := m_cWnd t + m_segmentSize t |>).
Proof.
  intros Hs Hc Hth Hroom Hl Hcnt Hsum Hn Hreach Hw.
  rewrite linuxreno_acks_app, linuxreno_acks_below by done. split; [done|].
  res_step. cbn [linuxreno_acks].
  pose proof (sum_nonneg l Hl).
  assert ((cnt + sum l + n) / window_segments t = 1) as Hq by (symmetry; apply Zdiv_unique with (cnt + sum l + n - window_segments t); lia).
  unfold LinuxReno_IncreaseWindow. destruct (Z.ltb_spec (m_cWnd t) (m_ssThresh t)); [lia|].
  rewrite LinuxReno_avoidance_exact; try lia; try done. rewrite Hq, Z.mul_1_l. res_step.
  do 3 f_equal. rewrite Z.mod_eq, Hq by lia. lia.
Qed.

Lemma linuxreno_one_segment_per_window_witness :
  linuxreno_acks ([2; 0; 5; 2] ++ [4]) (mkLinuxReno 0) wt
  = Ok (mkLinuxReno 3, wt <| m_cWnd := 5896 |>).
Proof.
  refine (proj2 (linuxreno_one_segment_per_window 0 wt [2; 0; 5; 2] 4 _ _ _ _ _ _ _ _ _ _));
    try (vm_compute; done); try (split; vm_compute; done).
  repeat constructor; done.
Defined.

(** ** TcpCerl: the two kinds of loss *)

(** What the socket and the recovery leave to the algorithm between the entry
    into recovery and its end. *)
Definition in_recovery_call (f : CongCall) : Prop :=
  match f with
  | C_PktsAcked _ _ _ | C_CwndEvent _ | C_CongestionStateSet _ CA_OPEN => True
  | _ => False
  end.

Lemma AddPkt_result now c info c' : AddPkt now c info = Ok c' ->
  c' = c <| m_samples := m_samples c ++ [info] |>
         <| m_sampleRtts := multiset_insert (pi_rtt info) (m_sampleRtts c) |>.
Proof.
  unfold AddPkt. set (c1 := c <| m_samples := _ |> <| m_sampleRtts := _ |>). clearbody c1.
  destruct (m_samples c1) as [|front l]; [done|].
  match goal with |- context [if 2 <? ?n then GetSeconds ?t else ?r] =>
    destruct (if 2 <? n then GetSeconds t else r) as [age|] end; res_step; [|done].
  match goal with |- context [if ?b then Err Dangling else _] => destruct b end; [done|].
  intros Hr. symmetry. by apply Ok_inj.
Qed.

Lemma Cerl_in_recovery l c t c' t' :
  Forall in_recovery_call l -> cong_calls l (c, t) = Ok (c', t') -> m_oldCwnd c' = m_oldCwnd c.
Proof.
  intros Hl. revert c t. induction Hl as [|f l Hf Hl IH]; intros c t Hc; cbn [cong_calls] in Hc.
  - apply Ok_inj in Hc. by simplify_eq.
  - destruct (cong_call f (c, t)) as [[c1 t1]|] eqn:E; res_step; [|done].
    rewrite (IH _ _ Hc). destruct f; try done; cbn in E.
    + unfold CerlAny_PktsAcked in E. destruct (m_class c); try (apply Ok_inj in E; simplify_eq; by destruct c).
      destruct (AddPkt _ _ _) as [c2|] eqn:Ea; res_step; [|done].
      apply AddPkt_result in Ea. apply Ok_inj in E. by simplify_eq.
    + destruct newState; try done. apply Ok_inj in E. change ((c, t) = (c1, t1)) in E. by simplify_eq.
    + apply Ok_inj in E. change ((c, t) = (c1, t1)) in E. by simplify_eq.
Qed.

(** C19. Recovery under TcpCerl, from the detection of the loss to its end, for
    whatever acknowledgements come meanwhile and whatever the recovery
    algorithm did to the window.  When the queueing delay says that the loss is
    no congestion, the threshold stays, the entry into recovery leaves the
    window and the exit restores it.  When it is congestion and in a new
    window of data, the threshold and the window are half the data in flight,
    two segments at least, and the exit sets the window to the threshold. *)
Theorem cerl_recovery_episode c t b congestion :
  0 < m_lastAckedSeq t -> 0 <= m_cWnd t < 2 ^ 31 -> m_oldCwnd c = -1 -> m_decreaseCwnd c = false ->
  isCongestionLoss c = Ok congestion ->
  (congestion = true -> seq_gt (seq_sub (m_lastAckedSeq t) 1) (m_maxSentSeq c) = true) ->
  let c1 := fst (Cerl_CongestionStateSet c t CA_RECOVERY) in
  let half := Z.max (u32 (2 * m_segmentSize t)) (b / 2) in
  exists v c2, Cerl_GetSsThresh c1 t b = Ok (v, c2)
  /\ v = (if congestion then half else m_ssThresh t)
  /\ let '(c3, t3) := Cerl_EnterRecovery c2 (t <| m_ssThresh := v |>) in
     m_cWnd t3 = (if congestion then half else m_cWnd t)
     /\ m_enteredRecovery c3 = false /\ m_decreaseCwnd c3 = false
     /\ forall l t4 c5 t5, Forall in_recovery_call l -> cong_calls l (c3, t4) = Ok (c5, t5) ->
        m_cWnd (snd (Cerl_ExitRecovery c5 t5)) = (if congestion then m_ssThresh t5 else m_cWnd t)
        /\ m_oldCwnd (fst (Cerl_ExitRecovery c5 t5)) = -1.
Proof.
  intros Ha Hw Hold Hdec Hloss Hnew. cbv zeta. cbn [Cerl_CongestionStateSet fst].
  set (c1 := c <| m_enteredRecovery := true |>).
  assert (isCongestionLoss c1 = Ok congestion) as Hl1 by (rewrite <- Hloss; by destruct c).
  unfold Cerl_GetSsThresh. apply Z.ltb_lt in Ha. rewrite Ha. unfold ns_assert. res_step.
  change (m_enteredRecovery c1) with true. cbn [negb]. rewrite Hl1. res_step.
  change (m_maxSentSeq c1) with (m_maxSentSeq c). destruct congestion.
  - rewrite Hnew by done. cbn [andb]. eexists _, _. split; [reflexivity|]. split; [reflexivity|].
    change (Cerl_EnterRecovery _ _) with
      (c <| m_enteredRecovery := false |> <| m_maxSentSeq := m_highTxMark t |> <| m_decreaseCwnd := false |>,
       t <| m_ssThresh := Z.max (u32 (2 * m_segmentSize t)) (b / 2) |>
         <| m_cWnd := Z.max (u32 (2 * m_segmentSize t)) (b / 2) |>).
    split_and!; try reflexivity. intros l t4 c5 t5 Hl Hc. apply Cerl_in_recovery in Hc; [|done].
    change (m_oldCwnd c5 = m_oldCwnd c) in Hc. unfold Cerl_ExitRecovery. rewrite Hc, Hold.
    split; [reflexivity|]. change (m_oldCwnd c5 = -1). congruence.
  - rewrite andb_false_r. eexists _, _. split; [reflexivity|]. split; [reflexivity|].
    unfold Cerl_EnterRecovery. change (m_enteredRecovery (_ <| m_oldCwnd := _ |>)) with true.
    cbn [negb]. change (m_decreaseCwnd (_ <| m_enteredRecovery := false |>)) with (m_decreaseCwnd c).
    rewrite Hdec. split_and!; try reflexivity; [exact Hdec|].
    intros l t4 c5 t5 Hl Hc. apply Cerl_in_recovery in Hc; [|done].
    change (m_oldCwnd c5 = i32 (m_cWnd t)) in Hc.
    assert (i32 (m_cWnd t) = m_cWnd t) as Hi by (apply sint_small; lia). rewrite Hi in Hc.
    unfold Cerl_ExitRecovery. rewrite Hc. destruct (Z.leb_spec 0 (m_cWnd t)); [|lia].
    split; [|reflexivity]. cbn. apply u32_small. unfold is_u32. lia.
Qed.

(** A TcpCerl that has seen round-trip times of 100, 180 and 110 ms. *)
Definition wc : TcpCerl :=
  Cerl_PktsAcked (Cerl_PktsAcked (Cerl_PktsAcked (TcpCerl_new Cerl) 100000000) 180000000) 110000000.

Lemma cerl_recovery_episode_witness :
  exists v c2, Cerl_GetSsThresh (fst (Cerl_CongestionStateSet wc wt CA_RECOVERY)) wt 5000 = Ok (v, c2)
  /\ v = m_ssThresh wt.
Proof.
  assert (isCongestionLoss wc = Ok false) as Hl by (vm_compute; reflexivity).
  assert (0 <= m_cWnd wt < 2 ^ 31) as Hw by (split; [discriminate|reflexivity]).
  pose proof (cerl_recovery_episode wc wt 5000 false ltac:(reflexivity) Hw eq_refl eq_refl Hl
                ltac:(discriminate)) as (v & c2 & E & Hv & _).
  exists v, c2. split; [exact E|exact Hv].
Defined.

(** ** TcpCerlX: the eviction of a sample *)

(** C38. With two samples or more in the deque, the acknowledgement that finds
    the oldest one older than the window reads it after it was removed: the
    code keeps a reference to the front of the deque across pop_front. *)
Theorem cerlx_eviction_dangling now c t n rtt front rest age :
  m_class c = CerlX -> m_samples c = front :: rest -> (1 <= length rest)%nat ->
  GetSeconds (t_sub now (pi_ts front)) = Ok age -> d_gt age (d_of_Z (m_windowSize c)) = true ->
  CerlAny_PktsAcked now c t n rtt = Err Dangling.
Proof.
  intros Hk Hs Hl Ha Hg. unfold CerlAny_PktsAcked. rewrite Hk. unfold AddPkt.
  change (m_samples (_ <| m_sampleRtts := _ |>)) with (m_samples c ++ [mkPktInfo rtt now]).
  change (m_windowSize (_ <| m_sampleRtts := _ |>)) with (m_windowSize c).
  rewrite Hs. cbn [app]. assert ((2 <? zlen (front :: rest ++ [mkPktInfo rtt now])) = true) as ->.
  { apply Z.ltb_lt. unfold zlen. cbn [length]. rewrite length_app. cbn [length]. lia. }
  rewrite Ha. res_step. rewrite Hg. reflexivity.
Qed.

Lemma cerlx_eviction_dangling_witness :
  let sec := 10 ^ 9 in
  match cong_calls [C_PktsAcked sec 1 1000000; C_PktsAcked (2 * sec) 1 1000000] (TcpCerl_new CerlX, wt) with
  | Ok (c, t) => CerlAny_PktsAcked (62 * sec) c t 1 1000000 = Err Dangling
  | Err _ => False
  end.
Proof.
  cbv zeta. set (r := cong_calls _ _). vm_compute in r. subst r. cbn iota.
  eapply (cerlx_eviction_dangling _ _ _ _ _ (mkPktInfo 1000000 (10 ^ 9)));
    [reflexivity|reflexivity|cbn; lia|vm_compute; reflexivity|vm_compute; reflexivity].
Defined.

(** ** Rate sampling: an item is counted once *)

(** The items are delivered one by one, and stored back. *)
Fixpoint deliver_items (now : Z) (r : TcpRateLinux) (l : list TcpTxItem) : TcpRateLinux * list TcpTxItem :=
  match l with
  | [] => (r, [])
  | i :: l =>
      let '(r, i) := SkbDelivered now r i in
      let '(r, l) := deliver_items now r l in
      (r, i :: l)
  end.

(** The bytes of the items not delivered yet. *)
Definition undelivered (l : list TcpTxItem) : Z :=
  foldr (fun i n => (if m_deliveredTime (m_rateInfo i) =? Time_max then 0 else GetSeqSize i) + n) 0 l.

Lemma SkbDelivered_count now r i :
  rc_delivered (m_rate (fst (SkbDelivered now r i)))
  = (if m_deliveredTime (m_rateInfo i) =? Time_max then rc_delivered (m_rate r)
     else u64 (rc_delivered (m_rate r) + GetSeqSize i))
  /\ m_deliveredTime (m_rateInfo (snd (SkbDelivered now r i))) = Time_max
  /\ GetSeqSize (snd (SkbDelivered now r i)) = GetSeqSize i.
Proof.
  unfold SkbDelivered. destruct (Z.eqb_spec (m_deliveredTime (m_rateInfo i)) Time_max) as [E|E]; [done|].
  split_and!; [|reflexivity|reflexivity]. by destruct (_ || _).
Qed.

Lemma deliver_items_count now l r : is_u64 (rc_delivered (m_rate r)) ->
  let '(r', l') := deliver_items now r l in
  rc_delivered (m_rate r') = u64 (rc_delivered (m_rate r) + undelivered l) /\ undelivered l' = 0.
Proof.
  revert r; induction l as [|i l IH]; intros r Hr; cbn [deliver_items].
  - cbn. rewrite Z.add_0_r, u64_small by done. done.
  - destruct (SkbDelivered_count now r i) as (E1 & E2 & E3).
    destruct (SkbDelivered now r i) as [r1 i1]. cbn [fst snd] in *.
    specialize (IH r1). destruct (deliver_items now r1 l) as [r2 l2].
    change (undelivered (i :: l)) with
      ((if m_deliveredTime (m_rateInfo i) =? Time_max then 0 else GetSeqSize i) + undelivered l).
    change (undelivered (i1 :: l2)) with
      ((if m_deliveredTime (m_rateInfo i1) =? Time_max then 0 else GetSeqSize i1) + undelivered l2).
    rewrite E2, Z.eqb_refl. rewrite E1 in IH. destruct (m_deliveredTime (m_rateInfo i) =? Time_max).
    + exact (IH Hr).
    + destruct (IH (u64_range _)) as [-> ->]. split; [|done]. unfold u64. rewrite Z.add_mod_idemp_l by done.
      f_equal. lia.
Qed.

(** The delivery count: a list of items adds the bytes of those that were
    not delivered before, and delivering the same items again adds nothing. *)
Theorem rate_items_counted_once now now' r l : is_u64 (rc_delivered (m_rate r)) ->
  let '(r1, l1) := deliver_items now r l in
  rc_delivered (m_rate r1) = u64 (rc_delivered (m_rate r) + undelivered l)
  /\ rc_delivered (m_rate (fst (deliver_items now' r1 l1))) = rc_delivered (m_rate r1).
Proof.
  intros Hr. pose proof (deliver_items_count now l r Hr) as H1. destruct (deliver_items now r l) as [r1 l1].
  destruct H1 as [E1 E2]. split; [done|].
  assert (is_u64 (rc_delivered (m_rate r1))) as Hr1 by (rewrite E1; apply u64_range).
  pose proof (deliver_items_count now' l1 r1 Hr1) as H2. destruct (deliver_items now' r1 l1) as [r2 l2].
  cbn [fst]. destruct H2 as [-> _]. rewrite E2, Z.add_0_r. by apply u64_small.
Qed.

(** Two segments that were sent. *)
Definition wl : list TcpTxItem :=
  map (fun i => snd (SkbSent 2 TcpRateLinux_new i false))
    [(TcpTxItem_new 0) <| m_packet := [1; 2; 3] |>; (TcpTxItem_new 1) <| m_packet := [4; 5] |>].

Lemma rate_items_counted_once_witness :
  let '(r1, l1) := deliver_items 5 TcpRateLinux_new wl in
  rc_delivered (m_rate r1) = 5
  /\ rc_delivered (m_rate (fst (deliver_items 9 r1 l1))) = rc_delivered (m_rate r1).
Proof. exact (rate_items_counted_once 5 9 TcpRateLinux_new wl ltac:(split; done)). Defined.
