(* ===== verification/SocketCore.v ===== *)
(** The socket, part 1: state, timers, output, windows, options and the sending
    of control segments of src/internet/model/tcp-socket-base.{h,cc}.

    [Sock A B] is the state of a TcpSocketBase whose congestion control has the
    state [A] and whose recovery algorithm the state [B]; the attributes that no
    method changes are the record [SocketAttributes].  A method is a
    computation of the state and fault monad [St].  What it hands to other
    objects is appended to [m_out]: the segments given to the L4 protocol, the
    notifications of the application, the events scheduled for the same time.
    The application does not run inside a notification: its calls are steps of
    their own.  The endpoint is an IPv4 one; IPv6, ICMP and the trace sources
    are not modelled, nor the packet tags other than the TOS. *)
From Stdlib Require Import ZArith Lia Bool List.
From stdpp Require Import base tactics list.
From S2P Require Import Prelude SeqNum RxBuffer TxBuffer TcpOptions TcpHeader Float Int64x64 NsTime RttEstimator RateOps SocketState CongestionOps RecoveryOps.

(** TcpSocket::TcpStates_t, in the order of the enumeration. *)
Inductive TcpStates_t :=
| CLOSED | LISTEN | SYN_SENT | SYN_RCVD | ESTABLISHED | CLOSE_WAIT
| LAST_ACK | FIN_WAIT_1 | FIN_WAIT_2 | CLOSING | TIME_WAIT.

#[export] Instance TcpStates_t_eq : EqDecision TcpStates_t.
Proof. solve_decision. Defined.

Definition state_index (t : TcpStates_t) : Z :=
  match t with
  | CLOSED => 0 | LISTEN => 1 | SYN_SENT => 2 | SYN_RCVD => 3 | ESTABLISHED => 4
  | CLOSE_WAIT => 5 | LAST_ACK => 6 | FIN_WAIT_1 => 7 | FIN_WAIT_2 => 8
  | CLOSING => 9 | TIME_WAIT => 10
  end.

Inductive SocketErrno :=
| ERROR_NOTERROR | ERROR_INVAL | ERROR_MSGSIZE | ERROR_SHUTDOWN | ERROR_NOTCONN
| ERROR_ADDRNOTAVAIL | ERROR_NOROUTETOHOST.

(** Ipv4EndPoint: the addresses are numbers. *)
Record EndPoint := mkEndPoint {
  m_localAddr : Z;
  m_localPort : Z;
  m_peerAddr : Z;
  m_peerPort : Z;
}.

(** InetSocketAddress *)
Definition Address : Type := Z * Z.

Record RttHistory := mkRttHistory {
  rh_seq : Z;
  rh_count : Z;
  rh_time : Z;
  rh_retx : bool;
}.

(** The methods the timers run. *)
Inductive Handler :=
| H_SendEmptyPacket (flags : Z)
| H_ReTxTimeout
| H_DelAckTimeout
| H_LastAckTimeout
| H_PersistTimeout
| H_CloseAndNotify
| H_SendPendingData (withAck : bool)
| H_NotifyPacingPerformed.

(** A pending event: its time and the method it runs.  An [EventId] that has
    expired or was cancelled is [None]. *)
Record Event := mkEvent { ev_time : Z; ev_handler : Handler }.

(** Calls of the application's callbacks. *)
Inductive Notification :=
| NotifyConnectionSucceeded
| NotifyConnectionFailed
| NotifyNormalClose
| NotifyErrorClose
| NotifyNewConnectionCreated (from : Address)
| NotifyDataSent (size : Z)
| NotifySend (spaceAvailable : Z)
| NotifyDataRecv.

Inductive Output :=
| O_SendPacket (h : TcpHeader) (p : bytes) (tos : option Z) (saddr daddr : Z)
| O_Notify (n : Notification)
| O_ConnectionSucceeded          (* ScheduleNow(&TcpSocketBase::ConnectionSucceeded) *)
| O_NotifyDataSent (size : Z)    (* ScheduleNow(&TcpSocketBase::NotifyDataSent) *)
| O_Fork (h : TcpHeader) (from to : Address)  (* ScheduleNow(&TcpSocketBase::CompleteFork) on the copy *)
| O_RemoveSocket.                (* the endpoint is given back *)

(** The attributes, and the members no method of the class changes. *)
Record SocketAttributes := mkAttrs {
  m_alpha : double;
  m_iatThreshold : double;
  m_beta : double;
  m_aadEnabled : bool;
  m_lambda : double;
  m_adwEnabled : bool;
  m_delAckMaxCount : Z;
  m_noDelay : bool;
  m_synRetries : Z;
  m_dataRetries : Z;
  m_minRto : Z;
  m_clockGranularity : Z;
  m_delAckTimeout : Z;
  m_cnTimeout : Z;
  m_msl : double;
  m_maxWinSize : Z;
  m_retxThresh : Z;
  m_limitedTx : bool;
  m_ipTos : Z;
}.

#[export] Instance eta_SocketAttributes : Settable SocketAttributes := fun r =>
  mkAttrs (m_alpha r) (m_iatThreshold r) (m_beta r) (m_aadEnabled r) (m_lambda r) (m_adwEnabled r)
    (m_delAckMaxCount r) (m_noDelay r) (m_synRetries r) (m_dataRetries r) (m_minRto r)
    (m_clockGranularity r) (m_delAckTimeout r) (m_cnTimeout r) (m_msl r) (m_maxWinSize r)
    (m_retxThresh r) (m_limitedTx r) (m_ipTos r).

(** The default values. *)
Definition SocketAttributes_new : SocketAttributes :=
  mkAttrs (d_lit 75 100) (d_lit 5 100000) (d_of_Z 3) false (d_of_Z 3) false
    2 true 6 6 (10 ^ 9) (10 ^ 6) (2 * 10 ^ 8) (3 * 10 ^ 9) (d_of_Z 120) 65535 3 true 0.

Record Sock (A B : Type) := mkSock {
  m_baseIat : double;
  m_iat : double;
  m_lastPacketTime : Z;
  m_lastUpdate : Z;
  m_dwnd : double;
  m_retxEvent : option Event;
  m_lastAckEvent : option Event;
  m_delAckEvent : option Event;
  m_persistEvent : option Event;
  m_timewaitEvent : option Event;
  m_dupAckCount : Z;
  m_delAckCount : Z;
  m_synCount : Z;
  m_dataRetrCount : Z;
  m_rto : Z;
  m_persistTimeout : Z;
  m_history : list RttHistory;
  m_endPoint : option EndPoint;
  m_rtt : RttEstimator;
  m_txBuffer : TcpTxBuffer;
  m_state : TcpStates_t;
  m_errno : SocketErrno;
  m_closeNotified : bool;
  m_closeOnEmpty : bool;
  m_shutdownSend : bool;
  m_shutdownRecv : bool;
  m_connected : bool;
  m_bytesAckedNotProcessed : Z;
  m_highTxAck : Z;
  m_rWnd : Z;
  m_advWnd : Z;
  m_highRxMark : Z;
  m_highRxAckMark : Z;
  m_sackEnabled : bool;
  m_winScalingEnabled : bool;
  m_rcvWindShift : Z;
  m_sndWindShift : Z;
  m_timestampEnabled : bool;
  m_congestionWindowEnabled : bool;
  m_cwndDiff : Z;
  m_timestampToEcho : Z;
  m_sendPendingDataEvent : option Event;
  m_recover : Z;
  m_recoverActive : bool;
  m_tcb : TcpSocketState;
  m_congestionControl : A;
  m_recoveryOps : B;
  m_rateOps : TcpRateLinux;
  m_isFirstPartialAck : bool;
  m_pacingTimer : option Event;
  m_ecnEchoSeq : Z;
  m_ecnCESeq : Z;
  m_ecnCWRSeq : Z;
  m_out : list Output;
}.

Arguments mkSock {A B}.
Arguments m_baseIat {A B}.
Arguments m_iat {A B}.
Arguments m_lastPacketTime {A B}.
Arguments m_lastUpdate {A B}.
Arguments m_dwnd {A B}.
Arguments m_retxEvent {A B}.
Arguments m_lastAckEvent {A B}.
Arguments m_delAckEvent {A B}.
Arguments m_persistEvent {A B}.
Arguments m_timewaitEvent {A B}.
Arguments m_dupAckCount {A B}.
Arguments m_delAckCount {A B}.
Arguments m_synCount {A B}.
Arguments m_dataRetrCount {A B}.
Arguments m_rto {A B}.
Arguments m_persistTimeout {A B}.
Arguments m_history {A B}.
Arguments m_endPoint {A B}.
Arguments m_rtt {A B}.
Arguments m_txBuffer {A B}.
Arguments m_state {A B}.
Arguments m_errno {A B}.
Arguments m_closeNotified {A B}.
Arguments m_closeOnEmpty {A B}.
Arguments m_shutdownSend {A B}.
Arguments m_shutdownRecv {A B}.
Arguments m_connected {A B}.
Arguments m_bytesAckedNotProcessed {A B}.
Arguments m_highTxAck {A B}.
Arguments m_rWnd {A B}.
Arguments m_advWnd {A B}.
Arguments m_highRxMark {A B}.
Arguments m_highRxAckMark {A B}.
Arguments m_sackEnabled {A B}.
Arguments m_winScalingEnabled {A B}.
Arguments m_rcvWindShift {A B}.
Arguments m_sndWindShift {A B}.
Arguments m_timestampEnabled {A B}.
Arguments m_congestionWindowEnabled {A B}.
Arguments m_cwndDiff {A B}.
Arguments m_timestampToEcho {A B}.
Arguments m_sendPendingDataEvent {A B}.
Arguments m_recover {A B}.
Arguments m_recoverActive {A B}.
Arguments m_tcb {A B}.
Arguments m_congestionControl {A B}.
Arguments m_recoveryOps {A B}.
Arguments m_rateOps {A B}.
Arguments m_isFirstPartialAck {A B}.
Arguments m_pacingTimer {A B}.
Arguments m_ecnEchoSeq {A B}.
Arguments m_ecnCESeq {A B}.
Arguments m_ecnCWRSeq {A B}.
Arguments m_out {A B}.

#[export] Instance eta_Sock {A B} : Settable (Sock A B) := fun r =>
  mkSock (m_baseIat r) (m_iat r) (m_lastPacketTime r) (m_lastUpdate r) (m_dwnd r) (m_retxEvent r)
    (m_lastAckEvent r) (m_delAckEvent r) (m_persistEvent r) (m_timewaitEvent r) (m_dupAckCount r)
    (m_delAckCount r) (m_synCount r) (m_dataRetrCount r) (m_rto r) (m_persistTimeout r)
    (m_history r) (m_endPoint r) (m_rtt r) (m_txBuffer r) (m_state r) (m_errno r)
    (m_closeNotified r) (m_closeOnEmpty r) (m_shutdownSend r) (m_shutdownRecv r) (m_connected r)
    (m_bytesAckedNotProcessed r) (m_highTxAck r) (m_rWnd r) (m_advWnd r) (m_highRxMark r)
    (m_highRxAckMark r) (m_sackEnabled r) (m_winScalingEnabled r) (m_rcvWindShift r)
    (m_sndWindShift r) (m_timestampEnabled r) (m_congestionWindowEnabled r) (m_cwndDiff r)
    (m_timestampToEcho r) (m_sendPendingDataEvent r) (m_recover r) (m_recoverActive r) (m_tcb r)
    (m_congestionControl r) (m_recoveryOps r) (m_rateOps r) (m_isFirstPartialAck r)
    (m_pacingTimer r) (m_ecnEchoSeq r) (m_ecnCESeq r) (m_ecnCWRSeq r) (m_out r).

(** The constructor, with the congestion control, the recovery algorithm and
    the estimator that TcpL4Protocol::CreateSocket sets, and the default values
    of the attributes of TcpSocket: buffers of 128 KiB, segments of 536 bytes,
    an initial window of 10 segments. *)
Definition TcpSocketBase_new {A B} (cc : A) (rec : B) (rtt : RttEstimator) : Sock A B :=
  let rx := RxBuffer.SetMaxBufferSize (TcpRxBuffer_new 0) 131072 in
  let tx := TxBuffer.SetDupAckThresh (TxBuffer.SetSegmentSize
              (TxBuffer.SetMaxBufferSize (TcpTxBuffer_new 0) 131072) 536) 3 in
  let tcb := TcpSocketState_new rx in
  let tcb := tcb <| m_pacingRate := m_maxPacingRate tcb |> <| SocketState.m_segmentSize := 536 |>
               <| m_initialSsThresh := 2 ^ 32 - 1 |> <| m_initialCWnd := 10 |> in
  mkSock INFINITY INFINITY Time_min 0 (d_of_Z 3) None None None None None 0 0 0 0 0 (6 * 10 ^ 9)
    [] None rtt tx CLOSED ERROR_NOTERROR false false false false false 0 0 0 0 0 0
    true true 0 0 true false 0 0 None 0 false tcb cc rec TcpRateLinux_new true None 0 0 0 [].

(** ** The monad of the methods *)

Definition St (A B X : Type) : Type := Sock A B -> res (X * Sock A B).

#[export] Instance St_ret {A B} : MRet (St A B) := fun X x s => Ok (x, s).
#[export] Instance St_bind {A B} : MBind (St A B) :=
  fun X Y k m s => match m s with Ok (x, s) => k x s | Err f => Err f end.

Section Monad.
Context {A B : Type}.

Definition get : St A B (Sock A B) := fun s => Ok (s, s).
Definition upd (f : Sock A B -> Sock A B) : St A B unit := fun s => Ok (tt, f s).
Definition lift {X} (m : res X) : St A B X :=
  fun s => match m with Ok x => Ok (x, s) | Err f => Err f end.
Definition when (b : bool) (m : St A B unit) : St A B unit := if b then m else mret tt.

(** Assignments to the members of the transmission control block. *)
Definition upd_tcb (f : TcpSocketState -> TcpSocketState) : St A B unit :=
  upd (fun s => s <| m_tcb ::= f |>).

Definition emit (o : Output) : St A B unit := upd (fun s => s <| m_out ::= fun l => l ++ [o] |>).
Definition notify (n : Notification) : St A B unit := emit (O_Notify n).
Definition set_state (t : TcpStates_t) : St A B unit := upd (fun s => s <| m_state := t |>).

(** Calls of the two algorithms. *)
Definition cc_call {X} (f : A -> TcpSocketState -> res (X * A * TcpSocketState)) : St A B X :=
  s ← get ;
  '(x, c, t) ← lift (f (m_congestionControl s) (m_tcb s)) ;
  upd (fun s => s <| m_congestionControl := c |> <| m_tcb := t |>) ;;
  mret x.
Definition cc_upd (f : A -> TcpSocketState -> A * TcpSocketState) : St A B unit :=
  upd (fun s => let '(c, t) := f (m_congestionControl s) (m_tcb s) in
                s <| m_congestionControl := c |> <| m_tcb := t |>).
Definition rec_upd (f : B -> TcpSocketState -> B * TcpSocketState) : St A B unit :=
  upd (fun s => let '(c, t) := f (m_recoveryOps s) (m_tcb s) in
                s <| m_recoveryOps := c |> <| m_tcb := t |>).
Definition rec_call (f : B -> TcpSocketState -> res (B * TcpSocketState)) : St A B unit :=
  s ← get ;
  '(c, t) ← lift (f (m_recoveryOps s) (m_tcb s)) ;
  upd (fun s => s <| m_recoveryOps := c |> <| m_tcb := t |>).
End Monad.

(** ** The environment of a method call

    The time of the simulator, the attributes, and the application's callback
    that accepts or refuses a connection. *)

Class Env := {
  now : Z;
  attrs : SocketAttributes;
  NotifyConnectionRequest : Address -> bool;
}.

(** Tests of flag bits. *)
Definition has_flag (flags f : Z) : bool := negb (Z.land flags f =? 0).
Definition drop_flags (flags f : Z) : Z := Z.land flags (Z.land (Z.lnot f) 255).

Section Core.
Context {A B : Type} {CC : TcpCongestionOps A} {RO : TcpRecoveryOps B} {E : Env}.

Local Abbreviation M := (St A B).

(** Simulator::Schedule *)
Definition Schedule (delay : Z) (h : Handler) : M Event :=
  lift (ns_assert (0 <=? delay)) ;; mret (mkEvent (t_add delay now) h).

Definition IsRunning (e : option Event) : bool := match e with Some _ => true | None => false end.
Definition IsExpired (e : option Event) : bool := negb (IsRunning e).

(** *** Windows *)

Definition GetSegSize (s : Sock A B) : Z := SocketState.m_segmentSize (m_tcb s).
Definition GetInitialCwnd (s : Sock A B) : Z := m_initialCWnd (m_tcb s).
Definition GetInitialSSThresh (s : Sock A B) : Z := m_initialSsThresh (m_tcb s).
Definition GetTxAvailable (s : Sock A B) : Z := TxBuffer.Available (m_txBuffer s).
Definition GetRxAvailable (s : Sock A B) : Z := RxBuffer.Available (m_rxBuffer (m_tcb s)).
Definition GetRWnd (s : Sock A B) : Z := m_rWnd s.
Definition rx (s : Sock A B) : TcpRxBuffer := m_rxBuffer (m_tcb s).

Definition upd_rx (f : TcpRxBuffer -> TcpRxBuffer) : M unit :=
  upd_tcb (fun t => t <| m_rxBuffer ::= f |>).

Definition UnAckDataCount (s : Sock A B) : Z :=
  u32 (seq_diff (m_highTxMark (m_tcb s)) (TxBuffer.HeadSequence (m_txBuffer s))).

Definition BytesInFlight : M Z :=
  s ← get ;
  n ← lift (TxBuffer.BytesInFlight (m_txBuffer s)) ;
  upd_tcb (fun t => t <| m_bytesInFlight := n |>) ;;
  mret n.

Definition Window (s : Sock A B) : Z := Z.min (m_rWnd s) (m_cWnd (m_tcb s)).

Definition AvailableWindow : M Z :=
  s ← get ;
  let win := Window s in
  inflight ← BytesInFlight ;
  mret (if win <? inflight then 0 else u32 (win - inflight)).

Definition AdvertisedWindowSize (scale : bool) : M Z :=
  s ← get ;
  w ← (if m_gotFin (rx s) then mret (m_advWnd s)
       else
         lift (ns_assert (0 <=? seq_diff (MaxRxSequence (rx s)) (NextRxSequence (rx s)))) ;;
         mret (u32 (seq_diff (MaxRxSequence (rx s)) (NextRxSequence (rx s))))) ;
  upd (fun s => s <| m_advWnd := w |>) ;;
  let w := if scale then Z.shiftr w (m_rcvWindShift s) else w in
  mret (u16 (if m_maxWinSize attrs <? w then m_maxWinSize attrs else w)).

Definition SafeSubtraction (a b : Z) : Z := if b <? a then a - b else 0.

(** *** Options *)

Definition IsTcpOptionEnabled (s : Sock A B) (kind : Z) : bool :=
  if kind =? TS then m_timestampEnabled s
  else if kind =? WINSCALE then m_winScalingEnabled s
  else if (kind =? SACKPERMITTED) || (kind =? SACK) then m_sackEnabled s
  else if kind =? CWND then m_congestionWindowEnabled s
  else false.

(** Simulator::Now ().GetMilliSeconds () *)
Definition GetMilliSeconds (t : Z) : res Z := ToInteger t MS.

Definition AddOptionTimestamp (h : TcpHeader) : M TcpHeader :=
  s ← get ;
  ms ← lift (GetMilliSeconds now) ;
  mret (snd (AppendOption h (TcpOptionTS (NowToTsValue ms) (m_timestampToEcho s)))).

Definition AddOptionCongestionWindow (h : TcpHeader) : M TcpHeader :=
  s ← get ;
  mret (snd (AppendOption h (TcpOptionCwnd (m_cWnd (m_tcb s))))).

Definition AddOptions (h : TcpHeader) : M TcpHeader :=
  s ← get ;
  h ← (if m_timestampEnabled s then AddOptionTimestamp h else mret h) ;
  if m_congestionWindowEnabled s then AddOptionCongestionWindow h else mret h.

(** [while (maxSpace > m_maxWinSize)]: 32 halvings make any uint32_t zero. *)
Fixpoint wscale_loop (fuel : nat) (maxSpace scale : Z) : Z :=
  if m_maxWinSize attrs <? maxSpace then
    match fuel with
    | O => scale
    | Datatypes.S fuel => wscale_loop fuel (Z.shiftr maxSpace 1) (u8 (scale + 1))
    end
  else scale.

Definition CalculateWScale (s : Sock A B) : Z :=
  let scale := wscale_loop 32 (RxBuffer.MaxBufferSize (rx s)) 0 in
  if 14 <? scale then 14 else scale.

Definition AddOptionWScale (h : TcpHeader) : M TcpHeader :=
  lift (ns_assert (has_flag (m_flags h) SYN)) ;;
  upd (fun s => s <| m_rcvWindShift := CalculateWScale s |>) ;;
  s ← get ;
  mret (snd (AppendOption h (TcpOptionWinScale (m_rcvWindShift s)))).

Definition AddOptionSackPermitted (h : TcpHeader) : M TcpHeader :=
  lift (ns_assert (has_flag (m_flags h) SYN)) ;;
  mret (snd (AppendOption h TcpOptionSackPermitted)).

Definition AddOptionSack (h : TcpHeader) : M TcpHeader :=
  s ← get ;
  let optionLenAvail := u8 (m_maxOptionsLen - m_optionsLen h) in
  let allowedSackBlocks := u8 (Z.quot (optionLenAvail - 2) 8) in
  let sackList := GetSackList (rx s) in
  if (allowedSackBlocks =? 0) || (zlen sackList =? 0) then mret h
  else mret (snd (AppendOption h (TcpOptionSack (ztake allowedSackBlocks sackList)))).

Definition ProcessOptionWScale (scale : Z) : M unit :=
  upd (fun s => s <| m_sndWindShift := if 14 <? scale then 14 else scale |>).

Definition ProcessOptionSackPermitted : M unit :=
  s ← get ; lift (ns_assert (m_sackEnabled s)).

Definition ProcessOptionTimestamp (timestamp echo seq : Z) : M unit :=
  s ← get ;
  if timestamp <? m_rcvTimestampValue (m_tcb s) then mret tt
  else
    upd_tcb (fun t => t <| m_rcvTimestampValue := timestamp |> <| m_rcvTimestampEchoReply := echo |>) ;;
    when ((seq =? NextRxSequence (rx s)) && seq_le seq (m_highTxAck s))
      (upd (fun s => s <| m_timestampToEcho := timestamp |>)).

Definition ProcessOptionCongestionWindow (cwnd : Z) : M unit :=
  upd (fun s => s <| m_cwndDiff := i32 (cwnd - m_rcvCwndValue (m_tcb s)) |>
                  <| m_tcb ::= fun t => t <| m_rcvCwndValue := cwnd |> |>).

(** The option of the kind, with its values: the DynamicCast of the code gives
    a null pointer when the object is of another class. *)
Definition option_ts (h : TcpHeader) : res (Z * Z) :=
  match GetOption h TS with Some (TcpOptionTS ts echo) => Ok (ts, echo) | _ => Err NullDeref end.
Definition option_wscale (h : TcpHeader) : res Z :=
  match GetOption h WINSCALE with Some (TcpOptionWinScale n) => Ok n | _ => Err NullDeref end.
Definition option_cwnd (h : TcpHeader) : res Z :=
  match GetOption h CWND with Some (TcpOptionCwnd n) => Ok n | _ => Err NullDeref end.

Definition ElapsedTime (echo : Z) : res Z :=
  ms ← GetMilliSeconds now ;
  MilliSeconds (ElapsedTimeFromTsValue ms echo).
End Core.

(** ** Control segments, closing *)

Section Control.
Context {A B : Type} {CC : TcpCongestionOps A} {RO : TcpRecoveryOps B} {E : Env}.

Local Abbreviation M := (St A B).

Definition CheckNoEcn (tos : Z) : bool := Z.land tos 3 =? 0.

Definition code_point (c : EcnCodePoint_t) : Z :=
  match c with NotECT => 0 | Ect1 => 1 | Ect0 => 2 | CongExp => 3 end.

Definition MarkEcnCodePoint (tos : Z) (c : EcnCodePoint_t) : Z := Z.lor (Z.land tos 252) (code_point c).

(** The TOS tag of a packet of [size] bytes. *)
Definition AddSocketTags (s : Sock A B) (size : Z) : option Z :=
  let t := m_tcb s in
  let tos := m_ipTos attrs in
  let ecn := negb (bool_decide (m_ecnState t = ECN_DISABLED)) in
  if negb (tos =? 0) then
    if ecn && negb (CheckNoEcn tos) then Some (MarkEcnCodePoint tos (m_ectCodePoint t)) else Some tos
  else if (ecn && (0 <? size)) || bool_decide (m_ecnMode t = DctcpEcn)
  then Some (MarkEcnCodePoint tos (m_ectCodePoint t)) else None.

Definition CancelAllTimers : M unit :=
  upd (fun s => s <| m_retxEvent := None |> <| m_persistEvent := None |> <| m_delAckEvent := None |>
                  <| m_lastAckEvent := None |> <| m_timewaitEvent := None |>
                  <| m_sendPendingDataEvent := None |> <| m_pacingTimer := None |>).

Definition DeallocateEndPoint : M unit :=
  s ← get ;
  match m_endPoint s with
  | None => mret tt
  | Some _ =>
      CancelAllTimers ;;
      upd (fun s => s <| m_endPoint := None |>) ;;
      emit O_RemoveSocket
  end.

(** Called when the endpoint is destroyed. *)
Definition Destroy : M unit :=
  upd (fun s => s <| m_endPoint := None |>) ;; emit O_RemoveSocket ;; CancelAllTimers.

Fixpoint mark_retx (l : list RttHistory) (seq sz : Z) : list RttHistory :=
  match l with
  | [] => []
  | i :: l' =>
      if seq_ge seq (rh_seq i) && seq_lt seq (seq_add (rh_seq i) (rh_count i))
      then mkRttHistory (rh_seq i) (u32 (seq_diff (seq_add seq sz) (rh_seq i))) (rh_time i) true :: l'
      else i :: mark_retx l' seq sz
  end.

Definition UpdateRttHistory (seq sz : Z) (isRetransmission : bool) : M unit :=
  upd (fun s => s <| m_history ::= fun l =>
    if isRetransmission then mark_retx l seq sz else l ++ [mkRttHistory seq sz now false] |>).

(** RFC 6298, clause 2.4. *)
Definition computed_rto (s : Sock A B) : Z :=
  t_Max (t_add (GetEstimate (m_rtt s)) (t_Max (m_clockGranularity attrs) (t_mul (GetVariation (m_rtt s)) 4)))
    (m_minRto attrs).

(** The timeout of LAST_ACK. *)
Definition last_rto (s : Sock A B) : Z :=
  t_add (GetEstimate (m_rtt s)) (t_Max (m_clockGranularity attrs) (t_mul (GetVariation (m_rtt s)) 4)).

(** [0x1 << n] as an int. *)
Definition shift_one (n : Z) : res Z := if n <? 32 then Ok (i32 (Z.shiftl 1 n)) else Err BadShift.

(** The part of SendEmptyPacket for a SYN: [None] when the connection has
    failed, otherwise the header and the window of the segment. *)
Definition send_syn (h : TcpHeader) (sq : Z) : M (option (TcpHeader * Z)) :=
  s ← get ;
  h ← (if m_winScalingEnabled s then AddOptionWScale h else mret h) ;
  h ← (if m_sackEnabled s then AddOptionSackPermitted h else mret h) ;
  if m_synCount s =? 0 then
    upd (fun s => s <| m_rtt ::= Reset |>) ;;
    notify NotifyConnectionFailed ;;
    set_state CLOSED ;;
    DeallocateEndPoint ;;
    mret None
  else
    backoffCount ← lift (shift_one (u32 (m_synRetries attrs - m_synCount s))) ;
    upd (fun s => s <| m_rto := t_mul (m_cnTimeout attrs) backoffCount |>
                    <| m_synCount := u32 (m_synCount s - 1) |>) ;;
    s ← get ;
    UpdateRttHistory sq 0 (negb (u32 (m_synRetries attrs - 1) =? m_synCount s)) ;;
    w ← AdvertisedWindowSize false ;
    mret (Some (h, w)).

(** The part for a segment with the ACK flag. *)
Definition send_ack_part (h : TcpHeader) : M TcpHeader :=
  upd (fun s => s <| m_delAckEvent := None |> <| m_delAckCount := 0 |>
                  <| m_highTxAck := if seq_lt (m_highTxAck s) (m_ackNumber h) then m_ackNumber h
                                    else m_highTxAck s |>) ;;
  s ← get ;
  if m_sackEnabled s && (0 <? GetSackListSize (rx s)) then AddOptionSack h else mret h.

Definition SendEmptyPacket (flags : Z) : M unit :=
  s ← get ;
  match m_endPoint s with
  | None => mret tt
  | Some ep =>
      let hasFin := has_flag flags FIN in
      let sq := m_nextTxSequence (m_tcb s) in
      let sq := if negb hasFin && bool_decide (m_state s ∈ [FIN_WAIT_1; LAST_ACK; CLOSING])
                then seq_inc sq else sq in
      let flags := if hasFin then Z.lor flags ACK else flags in
      let tos := AddSocketTags s 0 in
      let h := TcpHeader_new <| m_flags := flags |> <| m_sequenceNumber := sq |>
                 <| m_ackNumber := NextRxSequence (rx s) |>
                 <| m_sourcePort := m_localPort ep |> <| m_destinationPort := m_peerPort ep |> in
      h ← AddOptions h ;
      upd (fun s => s <| m_rto := computed_rto s |>) ;;
      windowSize ← AdvertisedWindowSize true ;
      let hasSyn := has_flag flags SYN in
      let isAck := flags =? ACK in
      r ← (if hasSyn then send_syn h sq else mret (Some (h, windowSize))) ;
      match r with
      | None => mret tt
      | Some (h, windowSize) =>
          let h := h <| TcpHeader.m_windowSize := windowSize |> in
          h ← (if has_flag flags ACK then send_ack_part h else mret h) ;
          emit (O_SendPacket h [] tos (m_localAddr ep) (m_peerAddr ep)) ;;
          s ← get ;
          when (IsExpired (m_retxEvent s) && (hasSyn || hasFin) && negb isAck)
            (ev ← Schedule (m_rto s) (H_SendEmptyPacket flags) ;
             upd (fun s => s <| m_retxEvent := Some ev |>))
      end
  end.

Definition SendRST : M unit :=
  SendEmptyPacket RST ;; notify NotifyErrorClose ;; DeallocateEndPoint.

Definition notify_close_once : M unit :=
  s ← get ;
  when (negb (m_closeNotified s))
    (notify NotifyNormalClose ;; upd (fun s => s <| m_closeNotified := true |>)).

Definition CloseAndNotify : M unit :=
  notify_close_once ;;
  upd (fun s => s <| m_lastAckEvent := None |>) ;;
  set_state CLOSED ;;
  DeallocateEndPoint.

Definition TimeWait : M unit :=
  set_state TIME_WAIT ;;
  CancelAllTimers ;;
  notify_close_once ;;
  delay ← lift (Seconds (d_mul (d_of_Z 2) (m_msl attrs))) ;
  ev ← Schedule delay H_CloseAndNotify ;
  upd (fun s => s <| m_timewaitEvent := Some ev |>).

Definition DoClose : M unit :=
  s ← get ;
  match m_state s with
  | SYN_RCVD | ESTABLISHED => SendEmptyPacket FIN ;; set_state FIN_WAIT_1
  | CLOSE_WAIT => SendEmptyPacket (Z.lor FIN ACK) ;; set_state LAST_ACK
  | SYN_SENT | CLOSING => SendRST ;; CloseAndNotify
  | LISTEN => CloseAndNotify
  | LAST_ACK | CLOSED | FIN_WAIT_1 | FIN_WAIT_2 | TIME_WAIT => mret tt
  end.

Definition Close : M unit :=
  s ← get ;
  if negb (RxBuffer.Size (rx s) =? 0) then SendRST
  else if 0 <? SizeFromSequence (m_txBuffer s) (m_nextTxSequence (m_tcb s)) then
    upd (fun s => s <| m_closeOnEmpty := true |>)
  else DoClose.

Definition ShutdownSend : M unit :=
  upd (fun s => s <| m_shutdownSend := true |> <| m_closeOnEmpty := true |>) ;;
  s ← get ;
  when ((TxBuffer.Size (m_txBuffer s) =? 0) && bool_decide (m_state s ∈ [ESTABLISHED; CLOSE_WAIT]))
    (SendEmptyPacket FIN ;;
     s ← get ;
     set_state (if bool_decide (m_state s = ESTABLISHED) then FIN_WAIT_1 else LAST_ACK)).

Definition ShutdownRecv : M unit := upd (fun s => s <| m_shutdownRecv := true |>).

(** The reply of a receiver that has seen CE, or is still echoing it. *)
Definition send_ack_with_ecn : M unit :=
  s ← get ;
  if bool_decide (m_ecnState (m_tcb s) ∈ [ECN_CE_RCVD; ECN_SENDING_ECE]) then
    SendEmptyPacket (Z.lor ACK ECE) ;;
    upd_tcb (fun t => t <| m_ecnState := ECN_SENDING_ECE |>)
  else SendEmptyPacket ACK.

Definition OutOfRange (s : Sock A B) (head tail : Z) : bool :=
  match m_state s with
  | LISTEN | SYN_SENT | SYN_RCVD => false
  | LAST_ACK | CLOSING | CLOSE_WAIT => negb (NextRxSequence (rx s) =? head)
  | _ => seq_lt tail (NextRxSequence (rx s)) || seq_le (MaxRxSequence (rx s)) head
  end.

Definition DoConnect : M unit :=
  s ← get ;
  if bool_decide (m_state s ∈ [CLOSED; LISTEN; SYN_SENT; LAST_ACK; CLOSE_WAIT]) then
    (if bool_decide (m_useEcn (m_tcb s) = On) then SendEmptyPacket (Z.lor SYN (Z.lor ECE CWR))
     else SendEmptyPacket SYN) ;;
    set_state SYN_SENT ;;
    upd_tcb (fun t => t <| m_ecnState := ECN_DISABLED |>)
  else when (negb (bool_decide (m_state s = TIME_WAIT))) (SendRST ;; CloseAndNotify).

Definition Listen : M bool :=
  s ← get ;
  if bool_decide (m_state s = CLOSED) then set_state LISTEN ;; mret true
  else upd (fun s => s <| m_errno := ERROR_INVAL |>) ;; mret false.

(** Connect to an IPv4 address: [alloc] is the endpoint that Bind () allocates
    when there is none, [route] the source address of the route to the peer. *)
Definition Connect (alloc : option EndPoint) (route : option Z) (peer : Address) : M bool :=
  s ← get ;
  match match m_endPoint s with Some ep => Some ep | None => alloc end with
  | None => upd (fun s => s <| m_errno := ERROR_ADDRNOTAVAIL |>) ;; mret false
  | Some ep =>
      let ep := mkEndPoint (m_localAddr ep) (m_localPort ep) (fst peer) (snd peer) in
      match route with
      | None => upd (fun s => s <| m_endPoint := Some ep |> <| m_errno := ERROR_NOROUTETOHOST |>) ;; mret false
      | Some src =>
          upd (fun s => s <| m_endPoint := Some (mkEndPoint src (m_localPort ep) (fst peer) (snd peer)) |>
                          <| m_rtt ::= Reset |> <| m_synCount := m_synRetries attrs |>
                          <| m_dataRetrCount := m_dataRetries attrs |>) ;;
          DoConnect ;;
          mret true
      end
  end.
End Control.
