(* ===== verification/SocketRx.v ===== *)
(** The socket, part 2: received data, delayed acknowledgements and the
    reaction to a FIN (tcp-socket-base.cc).  The delayed acknowledgement has
    three policies: a count of segments (m_delAckMaxCount), the adaptive delay
    window (ADW) and the aggregation-aware delay (AAD), both driven by the
    inter-arrival times of the segments, which are doubles. *)
From Stdlib Require Import ZArith Lia Bool List.
From stdpp Require Import base tactics list.
From S2P Require Import Prelude SeqNum RxBuffer TxBuffer TcpOptions TcpHeader Float NsTime RttEstimator RateOps SocketState CongestionOps RecoveryOps SocketCore.

Section Rx.
Context {A B : Type} {CC : TcpCongestionOps A} {RO : TcpRecoveryOps B} {E : Env}.

Local Abbreviation M := (St A B).

(** *** The delay window *)

Definition GetTimeRatio (s : Sock A B) : double :=
  let lambda := m_lambda attrs in
  let timeRatio :=
    if d_lt (m_iat s) (d_mul lambda (m_baseIat s))
    then d_div (d_sub (m_baseIat s) (m_iat s)) (m_baseIat s)
    else d_sub (d_of_Z 1) lambda in
  d_div (d_add timeRatio (d_sub lambda (d_of_Z 1))) lambda.

(** [m_lambda * GetSegSize()] *)
Definition lambda_segments (s : Sock A B) : double := d_mul (m_lambda attrs) (d_of_Z (GetSegSize s)).

Definition UpdateDelayWindow (theta : double) : M unit :=
  s ← get ;
  w ← AdvertisedWindowSize false ;
  let R := d_of_Z (Z.min (m_rcvCwndValue (m_tcb s)) w) in
  if 0 <? m_cwndDiff s then
    upd (fun s => s <| m_dwnd := d_min (d_add (m_dwnd s)
                                         (d_mul (d_sub (d_of_Z 1) theta) (d_of_Z (GetSegSize s)))) R |>)
  else if m_cwndDiff s <? 0 then upd (fun s => s <| m_dwnd := lambda_segments s |>)
  else mret tt.

Definition GetDelayTimeout (s : Sock A B) : res Z :=
  if negb (m_adwEnabled attrs) && negb (m_aadEnabled attrs) then Ok (m_delAckTimeout attrs)
  else if (m_delAckCount s <? m_delAckMaxCount attrs) && m_aadEnabled attrs then Ok (m_delAckTimeout attrs)
  else
    let alpha := SocketCore.m_alpha attrs in
    let smoothedIat := d_add (d_mul alpha (m_baseIat s)) (d_mul (d_sub (d_of_Z 1) alpha) (m_iat s)) in
    let parameter := if m_adwEnabled attrs then m_lambda attrs else SocketCore.m_beta attrs in
    t ← Seconds (d_mul parameter smoothedIat) ;
    Ok (t_Min t (m_delAckTimeout attrs)).

Definition DelayWindow (s : Sock A B) : double :=
  if m_adwEnabled attrs then d_div (m_dwnd s) (d_of_Z (GetSegSize s))
  else if m_aadEnabled attrs then INFINITY
  else d_of_Z (m_delAckMaxCount attrs).

(** *** FIN from the peer *)

Definition DoPeerClose : M unit :=
  s ← get ;
  lift (ns_assert (bool_decide (m_state s ∈ [ESTABLISHED; SYN_RCVD; FIN_WAIT_1; FIN_WAIT_2]))) ;;
  set_state CLOSE_WAIT ;;
  notify_close_once ;;
  (if m_shutdownSend s then Close else SendEmptyPacket ACK) ;;
  s ← get ;
  when (bool_decide (m_state s = LAST_ACK))
    (upd (fun s => s <| m_dataRetrCount := m_dataRetries attrs |>) ;;
     ev ← Schedule (last_rto s) H_LastAckTimeout ;
     upd (fun s => s <| m_lastAckEvent := Some ev |>)).

(** *** ReceivedData *)

(** The inter-arrival time of the segment. *)
Definition update_iat : M unit :=
  s ← get ;
  (if m_lastPacketTime s =? Time_min then
     upd (fun s => s <| m_dwnd := lambda_segments s |>)
   else
     iat ← lift (GetSeconds (t_sub now (m_lastPacketTime s))) ;
     upd (fun s => s <| m_iat := iat |>) ;;
     when (d_ge iat (m_iatThreshold attrs))
       (since ← lift (GetSeconds (t_sub now (m_lastUpdate s))) ;
        when (m_aadEnabled attrs && d_gt since (d_of_Z 1))
          (upd (fun s => s <| m_baseIat := INFINITY |> <| m_lastUpdate := now |>)) ;;
        upd (fun s => s <| m_baseIat := d_min (m_iat s) (m_baseIat s) |>) ;;
        s ← get ;
        UpdateDelayWindow (GetTimeRatio s))) ;;
  upd (fun s => s <| m_lastPacketTime := now |>).

(** The lambda of ReceivedData that arms the timer of the delayed
    acknowledgement. *)
Definition issueTimeout : M unit :=
  s ← get ;
  delay ← lift (GetDelayTimeout s) ;
  ev ← Schedule delay H_DelAckTimeout ;
  upd (fun s => s <| m_delAckEvent := Some ev |>).

(** The acknowledgement of a segment that was stored, [expectedSeq] being the
    next sequence number before it. *)
Definition ack_received (size expectedSeq : Z) : M unit :=
  s ← get ;
  if (RxBuffer.Available (rx s) <? RxBuffer.Size (rx s))
     || seq_gt (NextRxSequence (rx s)) (seq_add expectedSeq size) then
    cc_upd (fun c t => CwndEvent c t CA_EVENT_NON_DELAYED_ACK) ;;
    upd (fun s => s <| m_dwnd := lambda_segments s |>) ;;
    send_ack_with_ecn
  else
    upd (fun s => s <| m_delAckCount := u32 (m_delAckCount s + 1) |>) ;;
    s ← get ;
    if d_ge (d_of_Z (m_delAckCount s)) (DelayWindow s) then
      upd (fun s => s <| m_delAckEvent := None |> <| m_delAckCount := 0 |>) ;;
      cc_upd (fun c t => CwndEvent c t CA_EVENT_NON_DELAYED_ACK) ;;
      send_ack_with_ecn
    else
      cc_upd (fun c t => CwndEvent c t CA_EVENT_DELAYED_ACK) ;;
      if IsExpired (m_delAckEvent s) then issueTimeout
      else
        when (m_adwEnabled attrs || m_aadEnabled attrs)
          (upd (fun s => s <| m_delAckEvent := None |>) ;; issueTimeout).

Definition ReceivedData (p : bytes) (h : TcpHeader) : M unit :=
  update_iat ;;
  s ← get ;
  let expectedSeq := NextRxSequence (rx s) in
  '(added, b) ← lift (RxBuffer.Add (rx s) p (m_sequenceNumber h)) ;
  upd_rx (fun _ => b) ;;
  if negb added then send_ack_with_ecn
  else
    s ← get ;
    let advanced := seq_lt expectedSeq (NextRxSequence (rx s)) in
    when (advanced && negb (m_shutdownRecv s)) (notify NotifyDataRecv) ;;
    if advanced && Finished (rx s) && negb (has_flag (m_flags h) FIN) then DoPeerClose
    else ack_received (RxBuffer.GetSize p) expectedSeq.

Definition PeerClose (p : bytes) (h : TcpHeader) : M unit :=
  s ← get ;
  if seq_lt (m_sequenceNumber h) (NextRxSequence (rx s))
     || seq_gt (m_sequenceNumber h) (MaxRxSequence (rx s)) then mret tt
  else
    upd_rx (fun b => SetFinSequence b (seq_add (m_sequenceNumber h) (RxBuffer.GetSize p))) ;;
    (if negb (RxBuffer.GetSize p =? 0) then ReceivedData p h else mret tt) ;;
    s ← get ;
    if negb (Finished (rx s)) then mret tt
    else if bool_decide (m_state s = FIN_WAIT_1) then set_state CLOSING
    else DoPeerClose.

Definition DelAckTimeout : M unit :=
  upd (fun s => s <| m_dwnd := d_max (lambda_segments s)
                                 (d_sub (m_dwnd s) (d_sub (d_of_Z 1) (GetTimeRatio s))) |>) ;;
  cc_upd (fun c t => CwndEvent c t CA_EVENT_DELAYED_ACK) ;;
  send_ack_with_ecn.

(** *** Window updates *)

Definition UpdateWindowSize (h : TcpHeader) : M unit :=
  s ← get ;
  let receivedWindow := u32 (Z.shiftl (TcpHeader.m_windowSize h) (m_sndWindShift s)) in
  if state_index (m_state s) <? state_index ESTABLISHED then
    upd (fun s => s <| m_rWnd := receivedWindow |>)
  else
    let update := (m_ackNumber h =? m_highRxAckMark s) && (m_rWnd s <? receivedWindow) in
    let newAck := seq_gt (m_ackNumber h) (m_highRxAckMark s) in
    let newData := seq_gt (m_sequenceNumber h) (m_highRxMark s) in
    upd (fun s => s <| m_highRxAckMark := if newAck then m_ackNumber h else m_highRxAckMark s |>
                    <| m_highRxMark := if newData then m_sequenceNumber h else m_highRxMark s |>
                    <| m_rWnd := if update || newAck || newData then receivedWindow else m_rWnd s |>).

Definition SetRcvBufSize (size : Z) : M unit :=
  s ← get ;
  let oldSize := RxBuffer.MaxBufferSize (rx s) in
  upd_rx (fun b => RxBuffer.SetMaxBufferSize b size) ;;
  when ((oldSize <? size) && m_connected s) send_ack_with_ecn.

(** Recv: an empty packet is the end of the stream. *)
Definition Recv (maxSize : Z) : M (option bytes) :=
  s ← get ;
  if (RxBuffer.Size (rx s) =? 0) && bool_decide (m_state s = CLOSE_WAIT) then mret (Some [])
  else
    '(p, b) ← lift (Extract (rx s) maxSize) ;
    upd_rx (fun _ => b) ;;
    mret p.
End Rx.
