(* ===== verification/SocketTx.v ===== *)
(** The socket, part 3: the sender (tcp-socket-base.cc): data segments, the
    round-trip time, pacing, acknowledgements with the congestion state
    machine, and the timeouts. *)
From Stdlib Require Import ZArith Lia Bool List.
From stdpp Require Import base tactics list.
From S2P Require Import Prelude SeqNum RxBuffer TxBuffer TcpOptions TcpHeader Float Int64x64 NsTime RttEstimator RateOps SocketState CongestionOps RecoveryOps SocketCore SocketRx.

Section Tx.
Context {A B : Type} {CC : TcpCongestionOps A} {RO : TcpRecoveryOps B} {E : Env}.

Local Abbreviation M := (St A B).

Definition upd_tx (f : TcpTxBuffer -> TcpTxBuffer) : M unit := upd (fun s => s <| m_txBuffer ::= f |>).
Definition tx_res (f : TcpTxBuffer -> res TcpTxBuffer) : M unit :=
  s ← get ; b ← lift (f (m_txBuffer s)) ; upd_tx (fun _ => b).
Definition cong (s : Sock A B) : TcpCongState_t := m_congState (m_tcb s).
Definition is_cong (s : Sock A B) (c : TcpCongState_t) : bool := bool_decide (cong s = c).
Definition set_cong (c : TcpCongState_t) : M unit := upd_tcb (fun t => t <| m_congState := c |>).

(** The two calls that follow each other in most transitions. *)
Definition CongestionStateSet_to (c : TcpCongState_t) : M unit :=
  cc_upd (fun a t => CongestionStateSet now a t c).
Definition PktsAcked_with (segs : Z) : M unit :=
  cc_call (fun a t => '(a, t) ← PktsAcked now a t segs (m_lastRtt t) ; Ok (tt, a, t)).
Definition IncreaseWindow_with (segs : Z) : M unit :=
  cc_call (fun a t => '(a, t) ← IncreaseWindow now a t segs ; Ok (tt, a, t)).
Definition CwndEvent_of (e : TcpCAEvent_t) : M unit := cc_upd (fun a t => CwndEvent a t e).
(** [m_ssThresh = GetSsThresh(m_tcb, bytesInFlight)] *)
Definition reduce_ssThresh (bytesInFlight : Z) : M unit :=
  v ← cc_call (fun a t => '(v, a) ← GetSsThresh a t bytesInFlight ; Ok (v, a, t)) ;
  upd_tcb (fun t => t <| m_ssThresh := v |>).
Definition HasCongControl_now : M bool := s ← get ; mret (HasCongControl (m_congestionControl s)).

(** SkbDelivered as the callback of the transmission buffer. *)
Definition skb_delivered : TcpRateLinux -> TcpTxItem -> TcpRateLinux * TcpTxItem := SkbDelivered now.

(** *** Pacing *)

Definition IsPacingEnabled (s : Sock A B) : bool :=
  m_pacing (m_tcb s)
  && (m_paceInitialWindow (m_tcb s)
      || (u32 (GetInitialCwnd s * GetSegSize s) <? m_highTxMark (m_tcb s))).

(** DataRate::CalculateBytesTxTime *)
Definition CalculateBytesTxTime (bps bytes : Z) : res Z :=
  v ← Div (of_int (u32 (bytes * 8))) (of_int bps) ; From v S.

(** The timer is scheduled when it has expired; the result tells whether it was. *)
Definition schedule_pacing (sz : Z) : M bool :=
  s ← get ;
  if IsExpired (m_pacingTimer s) then
    delay ← lift (CalculateBytesTxTime (m_pacingRate (m_tcb s)) sz) ;
    ev ← Schedule delay H_NotifyPacingPerformed ;
    upd (fun s => s <| m_pacingTimer := Some ev |>) ;;
    mret true
  else mret false.

Definition UpdatePacingRate : M unit :=
  s ← get ;
  let t := m_tcb s in
  if HasCongControl (m_congestionControl s) || negb (m_pacing t) then mret tt
  else
    let ratio := if m_cWnd t <? m_ssThresh t / 2 then m_pacingSsRatio t else m_pacingCaRatio t in
    let factor := d_div (d_of_Z ratio) (d_of_Z 100) in
    secs ← lift (GetSeconds (m_lastRtt t)) ;
    let bits := d_mul (d_of_Z (u32 (Z.max (m_cWnd t) (m_bytesInFlight t) * 8))) factor in
    pacingRate ← lift (d_to_uint 64 (d_div bits secs)) ;
    upd_tcb (fun t => t <| m_pacingRate := if pacingRate <? m_maxPacingRate t then pacingRate
                                           else m_maxPacingRate t |>).

(** *** Data segments *)

Definition SendDataPacket (seq maxSize : Z) (withAck : bool) : M Z :=
  inflight ← BytesInFlight ;
  let isStartOfTransmission := inflight =? 0 in
  s ← get ;
  '(item, b) ← lift (CopyFromSequence now (m_txBuffer s) maxSize seq) ;
  upd_tx (fun _ => b) ;;
  match item with
  | None => lift (Err NullDeref)
  | Some item =>
      (* SkbSent writes the rate information into the item of the buffer *)
      let '(rate, item) := SkbSent now (m_rateOps s) item isStartOfTransmission in
      upd (fun s => s <| m_rateOps := rate |>) ;;
      upd_tx (fun b => b <| m_sentList ::= update_item (m_id item) (fun _ => item) |>) ;;
      let isRetransmission := m_retrans item in
      let p := m_packet item in
      let sz := RxBuffer.GetSize p in
      s ← get ;
      let remainingData := SizeFromSequence (m_txBuffer s) (seq_add seq sz) in
      lift (ns_assert (isRetransmission
                       || seq_ge (seq_add (m_highRxAckMark s) (m_rWnd s)) (seq_add seq maxSize))) ;;
      when (IsPacingEnabled s) (_ ← schedule_pacing sz ; mret tt) ;;
      when withAck (upd (fun s => s <| m_delAckEvent := None |> <| m_delAckCount := 0 |>)) ;;
      s ← get ;
      let cwr := bool_decide (m_ecnState (m_tcb s) = ECN_ECE_RCVD)
                 && seq_gt (m_ecnEchoSeq s) (m_ecnCWRSeq s) && negb isRetransmission in
      when cwr (upd (fun s => s <| m_ecnCWRSeq := seq |>
                                <| m_tcb ::= fun t => t <| m_ecnState := ECN_CWR_SENT |> |>)) ;;
      s ← get ;
      let tos := AddSocketTags s sz in
      let fin := m_closeOnEmpty s && (remainingData =? 0) in
      when fin (set_state (match m_state s with ESTABLISHED => FIN_WAIT_1 | CLOSE_WAIT => LAST_ACK
                           | t => t end)) ;;
      let flags := Z.lor (if withAck then ACK else 0) (Z.lor (if cwr then CWR else 0) (if fin then FIN else 0)) in
      s ← get ;
      match m_endPoint s with
      | None => lift (Err NullDeref)
      | Some ep =>
          let h := TcpHeader_new <| m_flags := flags |> <| m_sequenceNumber := seq |>
                     <| m_ackNumber := NextRxSequence (rx s) |>
                     <| m_sourcePort := m_localPort ep |> <| m_destinationPort := m_peerPort ep |> in
          w ← AdvertisedWindowSize true ;
          h ← AddOptions (h <| TcpHeader.m_windowSize := w |>) ;
          s ← get ;
          when (IsExpired (m_retxEvent s))
            (ev ← Schedule (m_rto s) H_ReTxTimeout ;
             upd (fun s => s <| m_retxEvent := Some ev |>)) ;;
          emit (O_SendPacket h p tos (m_localAddr ep) (m_peerAddr ep)) ;;
          UpdateRttHistory seq sz isRetransmission ;;
          s ← get ;
          when (is_cong s CA_RECOVERY || is_cong s CA_CWR)
            (upd (fun s => s <| m_recoveryOps ::= fun r => UpdateBytesSent r sz |>)) ;;
          when (negb isRetransmission)
            (emit (O_NotifyDataSent (u32 (seq_diff (seq_add seq sz) (m_highTxMark (m_tcb s)))))) ;;
          upd_tcb (fun t => t <| m_highTxMark := if seq_lt (seq_add seq sz) (m_highTxMark t)
                                                 then m_highTxMark t else seq_add seq sz |>) ;;
          mret sz
      end
  end.

(** One round of the loop of SendPendingData, [available] being the window and
    [sent] the number of packets so far.  [inr] ends the loop. *)
Definition send_round (withAck : bool) (available sent : Z) : M (Z * Z + Z) :=
  s ← get ;
  if negb (0 <? available) then mret (inr sent)
  else if IsPacingEnabled s && IsRunning (m_pacingTimer s) then mret (inr sent)
  else if is_cong s CA_OPEN && bool_decide (m_state s = FIN_WAIT_1) then mret (inr sent)
  else
    match NextSeg (m_txBuffer s) (m_rWnd s) (m_sackEnabled s && is_cong s CA_RECOVERY) with
    | None => mret (inr sent)
    | Some (next, nextHigh) =>
        let availableData := SizeFromSequence (m_txBuffer s) next in
        when (availableData <? available) (notify (NotifySend (GetTxAvailable s))) ;;
        if (available <? GetSegSize s) && (available <? availableData) then mret (inr sent)
        else if negb (m_noDelay attrs) && (0 <? UnAckDataCount s) && (availableData <? GetSegSize s)
        then mret (inr sent)
        else
          let size := Z.min (Z.min available (GetSegSize s)) (u32 (seq_diff nextHigh next)) in
          upd_tcb (fun t => t <| m_nextTxSequence := next |>) ;;
          when (m_bytesInFlight (m_tcb s) =? 0) (CwndEvent_of CA_EVENT_TX_START) ;;
          sz ← SendDataPacket next size withAck ;
          upd_tcb (fun t => t <| m_nextTxSequence := seq_add (m_nextTxSequence t) sz |>) ;;
          s ← get ;
          stop ← (if IsPacingEnabled s then schedule_pacing sz else mret false) ;
          if (stop : bool) then mret (inr (u32 (sent + 1)))
          else
            available ← AvailableWindow ;
            mret (inl (available, u32 (sent + 1)))
    end.

(** The loop, in the state of the socket: each round that goes on has taken
    data of the window, which has fewer than 2^32 bytes. *)
Definition send_step (withAck : bool) (st : Z * Z * Sock A B)
  : res (Z * Z * Sock A B + Z * Sock A B) :=
  let '(available, sent, s) := st in
  '(r, s) ← send_round withAck available sent s ;
  Ok (match r with
      | inl (available, sent) => inl (available, sent, s)
      | inr sent => inr (sent, s)
      end).

Definition send_loop (withAck : bool) (available : Z) : M Z :=
  fun s => while (2 ^ 32)%positive (send_step withAck) (available, 0, s).

Definition SendPendingData (withAck : bool) : M Z :=
  s ← get ;
  if TxBuffer.Size (m_txBuffer s) =? 0 then mret 0
  else
    match m_endPoint s with
    | None => mret 0
    | Some _ =>
        available ← AvailableWindow ;
        nPacketsSent ← send_loop withAck available ;
        s ← get ;
        when ((0 <? nPacketsSent) && negb (m_sackEnabled s) && negb (m_limitedTx attrs))
          (lift (ns_assert (negb (is_cong s CA_DISORDER)))) ;;
        mret nPacketsSent
    end.

Definition SendPendingData_connected : M unit :=
  s ← get ; _ ← SendPendingData (m_connected s) ; mret tt.

Definition DoRetransmit : M unit :=
  s ← get ;
  let '(seq, maxSizeToSend) :=
    match NextSeg (m_txBuffer s) (m_rWnd s) false with
    | None => (TxBuffer.HeadSequence (m_txBuffer s), GetSegSize s)
    | Some (seq, seqHigh) => (seq, u32 (seq_diff seqHigh seq))
    end in
  lift (ns_assert (m_sackEnabled s || (seq =? TxBuffer.HeadSequence (m_txBuffer s)))) ;;
  upd_tcb (fun t => t <| m_nextTxSequence := seq |>) ;;
  sz ← SendDataPacket seq maxSizeToSend true ;
  lift (ns_assert (0 <? sz)).
End Tx.
