(* ===== verification/SocketAck.v ===== *)
(** The socket, part 4: acknowledgements, the congestion state machine (open,
    disorder, recovery, CWR, loss) and the timeouts (tcp-socket-base.cc). *)
From Stdlib Require Import ZArith Lia Bool List.
From stdpp Require Import base tactics list.
From S2P Require Import Prelude SeqNum RxBuffer TxBuffer TcpOptions TcpHeader Float Int64x64 NsTime RttEstimator RateOps SocketState CongestionOps RecoveryOps SocketCore SocketRx SocketTx.

Section Ack.
Context {A B : Type} {CC : TcpCongestionOps A} {RO : TcpRecoveryOps B} {E : Env}.

Local Abbreviation M := (St A B).

(** *** Round-trip time *)

Fixpoint drop_acked (l : list RttHistory) (ackSeq : Z) : list RttHistory :=
  match l with
  | [] => []
  | h :: l' => if seq_gt (seq_add (rh_seq h) (rh_count h)) ackSeq then l else drop_acked l' ackSeq
  end.

(** The sample of the acknowledgement, 0 for none. *)
Definition rtt_sample (s : Sock A B) (h : TcpHeader) : res Z :=
  match m_history s with
  | [] => Ok 0
  | r :: _ =>
      if negb (rh_retx r) && seq_ge (m_ackNumber h) (seq_add (rh_seq r) (rh_count r)) then
        if m_timestampEnabled s && HasOption h TS then
          '(_, echo) ← option_ts h ;
          m ← ElapsedTime echo ;
          if m =? 0 then MicroSeconds 1 else Ok m
        else Ok (t_sub now (rh_time r))
      else Ok 0
  end.

Definition EstimateRtt (h : TcpHeader) : M unit :=
  s ← get ;
  m ← lift (rtt_sample s h) ;
  upd (fun s => s <| m_history ::= fun l => drop_acked l (m_ackNumber h) |>) ;;
  when (negb (m =? 0))
    (r ← lift (Measurement (m_rtt s) m) ;
     upd (fun s => s <| m_rtt := r |>) ;;
     upd (fun s => s <| m_rto := computed_rto s |>
                     <| m_tcb ::= fun t => t <| m_lastRtt := GetEstimate r |>
                                             <| m_minRtt := t_Min (GetEstimate r) (m_minRtt t) |> |>)).

Definition NewAck (ack : Z) (resetRTO : bool) : M unit :=
  upd (fun s => s <| m_dataRetrCount := m_dataRetries attrs |>) ;;
  s ← get ;
  when (negb (bool_decide (m_state s = SYN_RCVD)) && resetRTO)
    (upd (fun s => s <| m_retxEvent := None |> <| m_rto := computed_rto s |>) ;;
     s ← get ;
     ev ← Schedule (m_rto s) H_ReTxTimeout ;
     upd (fun s => s <| m_retxEvent := Some ev |>)) ;;
  when (0 <? GetTxAvailable s) (notify (NotifySend (GetTxAvailable s))) ;;
  upd_tcb (fun t => t <| m_nextTxSequence := if seq_gt ack (m_nextTxSequence t) then ack
                                             else m_nextTxSequence t |>) ;;
  when ((TxBuffer.Size (m_txBuffer s) =? 0)
        && negb (bool_decide (m_state s ∈ [FIN_WAIT_1; CLOSING])))
    (upd (fun s => s <| m_retxEvent := None |>)).

(** *** Entering CWR and recovery *)

Definition EnterCwr (currentDelivered : Z) : M unit :=
  inflight ← BytesInFlight ;
  reduce_ssThresh inflight ;;
  upd_tcb (fun t => t <| m_cWndInfl := m_ssThresh t |>) ;;
  s ← get ;
  lift (ns_assert (negb (is_cong s CA_CWR))) ;;
  set_cong CA_CWR ;;
  upd (fun s => s <| m_recover := m_highTxMark (m_tcb s) |>) ;;
  hasCong ← HasCongControl_now ;
  when (negb hasCong)
    (cc_upd (fun a t => CongestionOps.EnterRecovery a t) ;;
     s ← get ;
     rec_call (fun r t => RecoveryOps.EnterRecovery r t (m_dupAckCount s) (UnAckDataCount s) currentDelivered)).

Definition EnterRecovery (currentDelivered : Z) : M unit :=
  s ← get ;
  lift (ns_assert (negb (is_cong s CA_RECOVERY))) ;;
  (if negb (m_sackEnabled s) then
     tx_res AddRenoSack ;; upd_tx MarkHeadAsLost
   else
     when (negb (IsLost (m_txBuffer s) (TxBuffer.HeadSequence (m_txBuffer s)))) (upd_tx MarkHeadAsLost)) ;;
  upd (fun s => s <| m_recover := m_highTxMark (m_tcb s) |> <| m_recoverActive := true |>) ;;
  CongestionStateSet_to CA_RECOVERY ;;
  set_cong CA_RECOVERY ;;
  inflight ← BytesInFlight ;
  s ← get ;
  reduce_ssThresh (if m_sackEnabled s then inflight else u32 (inflight + GetSegSize s)) ;;
  hasCong ← HasCongControl_now ;
  when (negb hasCong)
    (cc_upd (fun a t => CongestionOps.EnterRecovery a t) ;;
     s ← get ;
     rec_call (fun r t => RecoveryOps.EnterRecovery r t (m_dupAckCount s) (UnAckDataCount s) currentDelivered)) ;;
  DoRetransmit.

(** EnterRecovery as DupAck calls it, with the assertion that follows. *)
Definition enter_recovery_asserted (currentDelivered : Z) : M unit :=
  EnterRecovery currentDelivered ;;
  s ← get ;
  lift (ns_assert (is_cong s CA_RECOVERY)).

(** The body of DupAck in CA_DISORDER. *)
Definition dupack_disorder (currentDelivered : Z) : M unit :=
  s ← get ;
  lift (ns_assert ((m_dupAckCount s <=? m_retxThresh attrs) || m_recoverActive s)) ;;
  if (m_dupAckCount s =? m_retxThresh attrs)
     && (seq_ge (m_highRxAckMark s) (m_recover s) || negb (m_recoverActive s))
  then enter_recovery_asserted currentDelivered
  else if IsLost (m_txBuffer s) (seq_add (m_highRxAckMark s) (GetSegSize s))
  then enter_recovery_asserted currentDelivered
  else when (negb (m_sackEnabled s) && m_limitedTx attrs) (tx_res AddRenoSack).

Definition DupAck (currentDelivered : Z) : M unit :=
  s ← get ;
  if is_cong s CA_LOSS then mret tt
  else
    when (negb (is_cong s CA_RECOVERY))
      (upd (fun s => s <| m_dupAckCount := u32 (m_dupAckCount s + 1) |>)) ;;
    s ← get ;
    when (is_cong s CA_OPEN)
      (lift (ns_assert (m_dupAckCount s =? 1)) ;;
       CongestionStateSet_to CA_DISORDER ;;
       set_cong CA_DISORDER) ;;
    s ← get ;
    if is_cong s CA_RECOVERY then
      when (negb (m_sackEnabled s)) (tx_res AddRenoSack) ;;
      hasCong ← HasCongControl_now ;
      when (negb hasCong) (rec_call (fun r t => DoRecovery r t currentDelivered))
    else when (is_cong s CA_DISORDER) (dupack_disorder currentDelivered).

(** *** ProcessAck *)

(** A partial acknowledgement during recovery. *)
Definition partial_ack (ackNumber segsAcked bytesAcked currentDelivered : Z) : M unit :=
  s ← get ;
  when (negb (m_sackEnabled s)) (upd_tx MarkHeadAsLost) ;;
  hasCong ← HasCongControl_now ;
  when (negb hasCong && (1 <=? segsAcked)) (rec_call (fun r t => DoRecovery r t currentDelivered)) ;;
  s ← get ;
  when (negb (IsRetransmittedDataAcked (m_txBuffer s) (seq_add ackNumber (GetSegSize s))))
    (DoRetransmit ;;
     upd_tcb (fun t => t <| m_cWndInfl := SafeSubtraction (m_cWndInfl t) bytesAcked |>)) ;;
  PktsAcked_with 1 ;;
  s ← get ;
  NewAck ackNumber (m_isFirstPartialAck s) ;;
  upd (fun s => s <| m_isFirstPartialAck := false |>).

(** The transitions to CA_OPEN: the number of segments for IncreaseWindow, and
    whether fast recovery was left. *)
Definition ack_transition (ackNumber oldHeadSequence segsAcked oldDupAckCount : Z) (isDupack : bool)
  : M (Z * bool) :=
  s ← get ;
  match cong s with
  | CA_OPEN => PktsAcked_with segsAcked ;; mret (segsAcked, false)
  | CA_DISORDER =>
      when (oldDupAckCount <=? segsAcked) (PktsAcked_with (segsAcked - oldDupAckCount)) ;;
      when (negb isDupack) (CongestionStateSet_to CA_OPEN ;; set_cong CA_OPEN) ;;
      mret (segsAcked, false)
  | CA_RECOVERY =>
      upd (fun s => s <| m_isFirstPartialAck := true |>) ;;
      segsAcked ← lift (udiv (u32 (seq_diff ackNumber oldHeadSequence)) (GetSegSize s)) ;
      PktsAcked_with segsAcked ;;
      CwndEvent_of CA_EVENT_COMPLETE_CWR ;;
      CongestionStateSet_to CA_OPEN ;;
      set_cong CA_OPEN ;;
      upd (fun s => s <| m_dupAckCount := 0 |>) ;;
      mret (segsAcked, true)
  | CA_LOSS =>
      upd (fun s => s <| m_isFirstPartialAck := true |>) ;;
      segsAcked ← lift (udiv (u32 (seq_diff ackNumber (m_recover s))) (GetSegSize s)) ;
      PktsAcked_with segsAcked ;;
      CongestionStateSet_to CA_OPEN ;;
      set_cong CA_OPEN ;;
      mret (segsAcked, false)
  | CA_CWR => mret (segsAcked, false)
  end.

(** The last branch of ProcessAck for new data. *)
Definition full_ack (ackNumber oldHeadSequence segsAcked oldDupAckCount : Z) (isDupack : bool) : M unit :=
  '(segsAcked, exitedFastRecovery) ←
     ack_transition ackNumber oldHeadSequence segsAcked oldDupAckCount isDupack ;
  upd (fun s => s <| m_recoverActive := if seq_ge ackNumber (m_recover s) then false
                                        else m_recoverActive s |>) ;;
  when (exitedFastRecovery : bool)
    (NewAck ackNumber true ;;
     cc_upd (fun a t => CongestionOps.ExitRecovery a t) ;;
     rec_upd (fun r t => RecoveryOps.ExitRecovery r t)) ;;
  s ← get ;
  when (is_cong s CA_OPEN)
    (IncreaseWindow_with segsAcked ;;
     upd_tcb (fun t => t <| m_cWndInfl := m_cWnd t |>) ;;
     NewAck ackNumber true).

(** Whole segments acknowledged, the rest being kept for the next
    acknowledgement: the segments and their bytes. *)
Definition count_segments (bytesAcked : Z) : M (Z * Z) :=
  s ← get ;
  let seg := GetSegSize s in
  segsAcked ← lift (udiv bytesAcked seg) ;
  let rest := bytesAcked mod seg in
  let notProcessed := u32 (m_bytesAckedNotProcessed s + rest) in
  let bytesAcked := bytesAcked - rest in
  if seg <=? notProcessed then
    upd (fun s => s <| m_bytesAckedNotProcessed := notProcessed - seg |>) ;;
    mret (u32 (segsAcked + 1), u32 (bytesAcked + seg))
  else
    upd (fun s => s <| m_bytesAckedNotProcessed := notProcessed |>) ;;
    mret (segsAcked, bytesAcked).

(** An acknowledgement of new data. *)
Definition new_data_acked (ackNumber oldHeadSequence currentDelivered oldDupAckCount : Z)
    (isDupack : bool) : M unit :=
  '(segsAcked, bytesAcked) ← count_segments (u32 (seq_diff ackNumber oldHeadSequence)) ;
  when (negb isDupack) (upd (fun s => s <| m_dupAckCount := 0 |>)) ;;
  s ← get ;
  if seq_lt ackNumber (m_recover s) && is_cong s CA_RECOVERY then
    partial_ack ackNumber segsAcked bytesAcked currentDelivered
  else if seq_lt ackNumber (m_recover s) && is_cong s CA_LOSS then
    PktsAcked_with segsAcked ;;
    IncreaseWindow_with segsAcked ;;
    s ← get ;
    when (negb (m_sackEnabled s)) (lift (ns_assert (GetSacked (m_txBuffer s) =? 0))) ;;
    NewAck ackNumber true
  else if is_cong s CA_CWR then
    PktsAcked_with segsAcked ;;
    hasCong ← HasCongControl_now ;
    when (negb hasCong && (1 <=? segsAcked)) (rec_call (fun r t => DoRecovery r t currentDelivered)) ;;
    NewAck ackNumber true
  else full_ack ackNumber oldHeadSequence segsAcked oldDupAckCount isDupack.

Definition ProcessAck (ackNumber : Z) (scoreboardUpdated : bool) (currentDelivered oldHeadSequence : Z)
  : M unit :=
  s ← get ;
  let oldDupAckCount := m_dupAckCount s in
  upd_tcb (fun t => t <| m_lastAckedSeq := ackNumber |>) ;;
  let isDupack := if m_sackEnabled s then scoreboardUpdated
                  else (ackNumber =? oldHeadSequence) && seq_lt ackNumber (m_highTxMark (m_tcb s)) in
  when isDupack (DupAck currentDelivered) ;;
  s ← get ;
  if (ackNumber =? oldHeadSequence) && (ackNumber =? m_highTxMark (m_tcb s)) then mret tt
  else
    (if (ackNumber =? oldHeadSequence) && seq_gt ackNumber (m_highTxMark (m_tcb s)) then
       upd_tcb (fun t => t <| m_nextTxSequence := ackNumber |>)
     else if ackNumber =? oldHeadSequence then PktsAcked_with 1
     else if seq_gt ackNumber oldHeadSequence then
       new_data_acked ackNumber oldHeadSequence currentDelivered oldDupAckCount isDupack
     else mret tt) ;;
    UpdatePacingRate.

(** *** ReceivedAck *)

Fixpoint ReadOptions (l : list TcpOption) (bytesSacked : Z) : M Z :=
  match l with
  | [] => mret bytesSacked
  | TcpOptionSack blocks :: l =>
      s ← get ;
      '(n, b, r) ← lift (Update skb_delivered (m_txBuffer s) blocks (m_rateOps s)) ;
      upd_tx (fun _ => b) ;;
      upd (fun s => s <| m_rateOps := r |>) ;;
      ReadOptions l n
  | _ :: l => ReadOptions l bytesSacked
  end.

Definition delivered_of (s : Sock A B) : Z := rc_delivered (GetConnectionRate (m_rateOps s)).

(** Whether one of the segments acknowledged during recovery was retransmitted. *)
Definition check_retrans_acked (ackNumber oldHeadSequence : Z) : M unit :=
  s ← get ;
  when (seq_gt ackNumber oldHeadSequence && seq_lt ackNumber (m_recover s) && is_cong s CA_RECOVERY)
    (segAcked ← lift (udiv (u32 (seq_diff ackNumber oldHeadSequence)) (GetSegSize s)) ;
     when (existsb (fun i => IsRetransmittedDataAcked (m_txBuffer s)
                               (seq_sub ackNumber (u32 (Z.of_nat i * GetSegSize s))))
             (List.seq 0 (Z.to_nat segAcked)))
       (upd_tcb (fun t => t <| m_isRetransDataAcked := true |>))).

(** The end of CWR. *)
Definition leave_cwr (ackNumber : Z) : M unit :=
  s ← get ;
  when (is_cong s CA_CWR && seq_gt ackNumber (m_recover s))
    (set_cong CA_OPEN ;;
     hasCong ← HasCongControl_now ;
     when (negb hasCong)
       (upd_tcb (fun t => t <| m_cWnd := m_ssThresh t |>) ;;
        rec_upd (fun r t => RecoveryOps.ExitRecovery r t) ;;
        CwndEvent_of CA_EVENT_COMPLETE_CWR)).

(** The reaction to an ECN echo. *)
Definition process_ece (h : TcpHeader) (ackNumber oldHeadSequence currentDelivered : Z) : M unit :=
  s ← get ;
  let ecn := m_ecnState (m_tcb s) in
  let ece := has_flag (m_flags h) ECE in
  if seq_gt ackNumber oldHeadSequence && negb (bool_decide (ecn = ECN_DISABLED)) && ece then
    when (seq_lt (m_ecnEchoSeq s) ackNumber)
      (upd (fun s => s <| m_ecnEchoSeq := ackNumber |>) ;;
       upd_tcb (fun t => t <| m_ecnState := ECN_ECE_RCVD |>) ;;
       when (negb (is_cong s CA_CWR)) (EnterCwr currentDelivered))
  else
    when (bool_decide (ecn = ECN_ECE_RCVD) && negb ece)
      (upd_tcb (fun t => t <| m_ecnState := ECN_IDLE |>)).

(** The rate sample for a congestion control that wants it. *)
Definition rate_sample (currentDelivered previousLost priorInFlight : Z) : M unit :=
  s ← get ;
  when (HasCongControl (m_congestionControl s))
    (let currentLost := GetLost (m_txBuffer s) in
     let lost := if previousLost <? currentLost then currentLost - previousLost
                 else previousLost - currentLost in
     r ← lift (GenerateSample (m_rateOps s) currentDelivered lost false priorInFlight
                 (m_minRtt (m_tcb s))) ;
     upd (fun s => s <| m_rateOps := r |>) ;;
     cc_upd (fun a t => CongControl a t (GetConnectionRate r) (m_rateSample r))).

Definition ReceivedAck (p : bytes) (h : TcpHeader) : M unit :=
  s ← get ;
  lift (ns_assert (has_flag (m_flags h) ACK)) ;;
  lift (ns_assert (0 <? GetSegSize s)) ;;
  let previousLost := GetLost (m_txBuffer s) in
  let priorInFlight := m_bytesInFlight (m_tcb s) in
  let previousDelivered := delivered_of s in
  bytesSacked ← ReadOptions (m_options h) 0 ;
  s ← get ;
  let ackNumber := m_ackNumber h in
  let oldHeadSequence := TxBuffer.HeadSequence (m_txBuffer s) in
  if seq_lt ackNumber oldHeadSequence then
    when (0 <? RxBuffer.GetSize p) (ReceivedData p h)
  else
    check_retrans_acked ackNumber oldHeadSequence ;;
    '(b, r) ← lift (DiscardUpTo skb_delivered now (m_txBuffer s) ackNumber (m_rateOps s)) ;
    upd_tx (fun _ => b) ;;
    upd (fun s => s <| m_rateOps := r |>) ;;
    s ← get ;
    let currentDelivered := u32 (delivered_of s - previousDelivered) in
    upd_tcb (fun t => t <| m_lastAckedSackedBytes := currentDelivered |>) ;;
    leave_cwr ackNumber ;;
    process_ece h ackNumber oldHeadSequence currentDelivered ;;
    _ ← BytesInFlight ;
    ProcessAck ackNumber (0 <? bytesSacked) currentDelivered oldHeadSequence ;;
    upd_tcb (fun t => t <| m_isRetransDataAcked := false |>) ;;
    rate_sample currentDelivered previousLost priorInFlight ;;
    when (0 <? RxBuffer.GetSize p) (ReceivedData p h) ;;
    SendPendingData_connected.

(** *** Timeouts *)

(** Seconds(60), in nanoseconds. *)
Definition sixty_seconds : Z := 60 * 10 ^ 9.

(** The retransmission proper, once the retries are counted. *)
Definition rto_loss : M unit :=
  inFlightBeforeRto ← BytesInFlight ;
  upd (fun s => s <| m_dupAckCount := 0 |>) ;;
  s ← get ;
  when (negb (m_sackEnabled s)) (upd_tx ResetRenoSack) ;;
  tx_res (fun b => SetSentListLost b (negb (m_sackEnabled s))) ;;
  upd (fun s => s <| m_recover := m_highTxMark (m_tcb s) |> <| m_recoverActive := true |>
                  <| m_rto := t_Min (t_add (m_rto s) (m_rto s)) sixty_seconds |>
                  <| m_history := [] |>) ;;
  s ← get ;
  headRetx ← (if is_cong s CA_LOSS then lift (IsHeadRetransmitted (m_txBuffer s)) else mret false) ;
  when (negb headRetx) (reduce_ssThresh inFlightBeforeRto) ;;
  CwndEvent_of CA_EVENT_LOSS ;;
  CongestionStateSet_to CA_LOSS ;;
  set_cong CA_LOSS ;;
  upd_tcb (fun t => t <| m_cWnd := SocketState.m_segmentSize t |>
                      <| m_cWndInfl := SocketState.m_segmentSize t |>) ;;
  upd (fun s => s <| m_pacingTimer := None |>) ;;
  n ← BytesInFlight ;
  lift (ns_assert (n =? 0)) ;;
  SendPendingData_connected ;;
  n ← BytesInFlight ;
  s ← get ;
  lift (ns_assert (n <=? GetSegSize s)).

Definition ReTxTimeout : M unit :=
  s ← get ;
  match m_state s with
  | CLOSED | TIME_WAIT => mret tt
  | SYN_SENT =>
      lift (ns_assert (0 <? m_synCount s)) ;;
      if bool_decide (m_useEcn (m_tcb s) = On) then SendEmptyPacket (Z.lor SYN (Z.lor ECE CWR))
      else SendEmptyPacket SYN
  | st =>
      if TxBuffer.Size (m_txBuffer s) =? 0 then
        when (bool_decide (st ∈ [FIN_WAIT_1; CLOSING])) (SendEmptyPacket FIN)
      else if (state_index st <=? state_index ESTABLISHED)
              && seq_ge (TxBuffer.HeadSequence (m_txBuffer s)) (m_highTxMark (m_tcb s))
              && (TxBuffer.Size (m_txBuffer s) =? 0) then mret tt
      else if m_dataRetrCount s =? 0 then
        notify NotifyErrorClose ;; DeallocateEndPoint
      else
        upd (fun s => s <| m_dataRetrCount := m_dataRetrCount s - 1 |>) ;;
        rto_loss
  end.

Definition LastAckTimeout : M unit :=
  upd (fun s => s <| m_lastAckEvent := None |>) ;;
  s ← get ;
  when (bool_decide (m_state s = LAST_ACK))
    (if m_dataRetrCount s =? 0 then notify NotifyErrorClose ;; DeallocateEndPoint
     else
       upd (fun s => s <| m_dataRetrCount := m_dataRetrCount s - 1 |>) ;;
       SendEmptyPacket (Z.lor FIN ACK) ;;
       s ← get ;
       ev ← Schedule (last_rto s) H_LastAckTimeout ;
       upd (fun s => s <| m_lastAckEvent := Some ev |>)).

Definition PersistTimeout : M unit :=
  upd (fun s => s <| m_persistTimeout := t_Min sixty_seconds (t_mul (m_persistTimeout s) 2) |>) ;;
  s ← get ;
  '(item, b) ← lift (CopyFromSequence now (m_txBuffer s) 1 (m_nextTxSequence (m_tcb s))) ;
  match item with
  | None => lift (Err NullDeref)
  | Some item =>
      upd_tx (fun _ => ResetLastSegmentSent b) ;;
      w ← AdvertisedWindowSize true ;
      s ← get ;
      match m_endPoint s with
      | None => lift (Err NullDeref)
      | Some ep =>
          h ← AddOptions
                (TcpHeader_new <| m_sequenceNumber := m_nextTxSequence (m_tcb s) |>
                   <| m_ackNumber := NextRxSequence (rx s) |> <| TcpHeader.m_windowSize := w |>
                   <| m_sourcePort := m_localPort ep |> <| m_destinationPort := m_peerPort ep |>) ;
          let tos := if bool_decide (m_ecnState (m_tcb s) = ECN_DISABLED) then None
                     else Some (MarkEcnCodePoint 0 (m_ectCodePoint (m_tcb s))) in
          emit (O_SendPacket h (m_packet item) tos (m_localAddr ep) (m_peerAddr ep)) ;;
          ev ← Schedule (m_persistTimeout s) H_PersistTimeout ;
          upd (fun s => s <| m_persistEvent := Some ev |>)
      end
  end.

(** *** Send: the number of bytes taken, or an error *)

Definition fail_send (e : SocketErrno) : M (option Z) :=
  upd (fun s => s <| m_errno := e |>) ;; mret None.

Definition Send (p : bytes) : M (option Z) :=
  s ← get ;
  if bool_decide (m_state s ∈ [ESTABLISHED; SYN_SENT; CLOSE_WAIT]) then
    let '(added, b) := TxBuffer.Add (m_txBuffer s) p in
    upd_tx (fun _ => b) ;;
    if negb added then fail_send ERROR_MSGSIZE
    else if m_shutdownSend s then fail_send ERROR_SHUTDOWN
    else
      upd (fun s => s <| m_rateOps ::= fun r =>
        CalculateAppLimited r (m_cWnd (m_tcb s)) (m_bytesInFlight (m_tcb s)) (GetSegSize s)
          (TxBuffer.TailSequence b) (m_nextTxSequence (m_tcb s)) (GetLost b)
          (GetRetransmitsCount b) |>) ;;
      available ← (if bool_decide (m_state s ∈ [ESTABLISHED; CLOSE_WAIT]) then AvailableWindow
                   else mret 0) ;
      when (bool_decide (m_state s ∈ [ESTABLISHED; CLOSE_WAIT]) && (0 <? available)
            && negb (IsRunning (m_sendPendingDataEvent s)))
        (ev ← Schedule (TimeStep 1) (H_SendPendingData (m_connected s)) ;
         upd (fun s => s <| m_sendPendingDataEvent := Some ev |>)) ;;
      mret (Some (RxBuffer.GetSize p))
  else fail_send ERROR_NOTCONN.
End Ack.
