(* ===== verification/SocketFsm.v ===== *)
(** The socket, part 5: the connection state machine (tcp-socket-base.cc): the
    processing of a segment in each state, the dispatch of a received segment,
    the passive open, and the step of the socket for one event. *)
From Stdlib Require Import ZArith Lia Bool List.
From stdpp Require Import base tactics list.
From S2P Require Import Prelude SeqNum RxBuffer TxBuffer TcpOptions TcpHeader Float NsTime RttEstimator RateOps SocketState CongestionOps RecoveryOps SocketCore SocketRx SocketTx SocketAck.

Section Fsm.
Context {A B : Type} {CC : TcpCongestionOps A} {RO : TcpRecoveryOps B} {E : Env}.

Local Abbreviation M := (St A B).

(** The flags the state machine looks at. *)
Definition flags4 (h : TcpHeader) : Z :=
  drop_flags (m_flags h) (Z.lor PSH (Z.lor URG (Z.lor CWR ECE))).
Definition flags2 (h : TcpHeader) : Z := drop_flags (m_flags h) (Z.lor PSH URG).

(** Both ECN bits set, and ECE alone. *)
Definition ecn_bits (flags : Z) : Z := Z.land flags (Z.lor CWR ECE).
Definition is_ecn_syn (flags : Z) : bool := ecn_bits flags =? Z.lor CWR ECE.
Definition is_ecn_synack (flags : Z) : bool := ecn_bits flags =? ECE.

Definition set_ecn (e : EcnState_t) : M unit := upd_tcb (fun t => t <| m_ecnState := e |>).

(** [rxBuffer->SetNextRxSequence(seq + 1)] *)
Definition set_next_rx (h : TcpHeader) : M unit :=
  upd_rx (fun b => SetNextRxSequence b (seq_add (m_sequenceNumber h) 1)).

(** [m_highTxMark = ++m_nextTxSequence; m_txBuffer->SetHeadSequence(m_nextTxSequence)] *)
Definition syn_acked : M unit :=
  upd_tcb (fun t => let n := seq_inc (m_nextTxSequence t) in
                    t <| m_nextTxSequence := n |> <| m_highTxMark := n |>) ;;
  s ← get ;
  tx_res (fun b => SetHeadSequence b (m_nextTxSequence (m_tcb s))).

Definition set_peer (from : Address) : M unit :=
  upd (fun s => s <| m_endPoint ::= option_map (fun ep =>
    mkEndPoint (m_localAddr ep) (m_localPort ep) (fst from) (snd from)) |>).

(** [CongestionStateSet(CA_OPEN)], ESTABLISHED, the retransmission cancelled. *)
Definition enter_established : M unit :=
  CongestionStateSet_to CA_OPEN ;;
  set_cong CA_OPEN ;;
  set_state ESTABLISHED ;;
  upd (fun s => s <| m_connected := true |> <| m_retxEvent := None |>).

(** The reply to a SYN, with the ECN negotiation. *)
Definition reply_synack (ecn : bool) : M unit :=
  s ← get ;
  if negb (bool_decide (m_useEcn (m_tcb s) = Off)) && ecn then
    SendEmptyPacket (Z.lor SYN (Z.lor ACK ECE)) ;; set_ecn ECN_IDLE
  else set_ecn ECN_DISABLED ;; SendEmptyPacket (Z.lor SYN ACK).

(** *** One function per state *)

Definition ProcessEstablished (p : bytes) (h : TcpHeader) : M unit :=
  let tcpflags := flags4 h in
  s ← get ;
  if tcpflags =? ACK then
    if seq_lt (m_ackNumber h) (TxBuffer.HeadSequence (m_txBuffer s)) then mret tt
    else if seq_gt (m_ackNumber h) (m_highTxMark (m_tcb s)) then send_ack_with_ecn
    else ReceivedAck p h
  else if tcpflags =? SYN then mret tt
  else if tcpflags =? Z.lor SYN ACK then mret tt
  else if (tcpflags =? FIN) || (tcpflags =? Z.lor FIN ACK) then PeerClose p h
  else if tcpflags =? 0 then
    ReceivedData p h ;;
    s ← get ;
    when (Finished (rx s)) (PeerClose p h)
  else
    when (negb (tcpflags =? RST)) SendRST ;;
    CloseAndNotify.

Definition ProcessListen (h : TcpHeader) (from to : Address) : M unit :=
  if negb (flags4 h =? SYN) then mret tt
  else if negb (NotifyConnectionRequest from) then mret tt
  else emit (O_Fork h from to).

Definition ProcessSynSent (p : bytes) (h : TcpHeader) : M unit :=
  let tcpflags := flags2 h in
  s ← get ;
  if tcpflags =? 0 then
    enter_established ;;
    upd (fun s => s <| m_delAckCount := m_delAckMaxCount attrs |>) ;;
    ReceivedData p h ;;
    emit O_ConnectionSucceeded
  else if has_flag tcpflags ACK && negb (has_flag tcpflags SYN) then mret tt
  else if has_flag tcpflags SYN && negb (has_flag tcpflags ACK) then
    set_state SYN_RCVD ;;
    upd (fun s => s <| m_synCount := m_synRetries attrs |>) ;;
    set_next_rx h ;;
    reply_synack (is_ecn_syn tcpflags)
  else if has_flag tcpflags (Z.lor SYN ACK)
          && (seq_add (m_nextTxSequence (m_tcb s)) 1 =? m_ackNumber h) then
    enter_established ;;
    set_next_rx h ;;
    syn_acked ;;
    UpdatePacingRate ;;
    SendEmptyPacket ACK ;;
    (if negb (bool_decide (m_useEcn (m_tcb s) = Off)) && is_ecn_synack tcpflags
     then set_ecn ECN_IDLE else set_ecn ECN_DISABLED) ;;
    SendPendingData_connected ;;
    emit O_ConnectionSucceeded ;;
    upd (fun s => s <| m_delAckCount := m_delAckMaxCount attrs |>)
  else
    when (negb (has_flag tcpflags RST)) SendRST ;;
    CloseAndNotify.

Definition notify_send_available : M unit :=
  s ← get ;
  when (0 <? GetTxAvailable s) (notify (NotifySend (GetTxAvailable s))).

Definition ProcessSynRcvd (p : bytes) (h : TcpHeader) (from : Address) : M unit :=
  let tcpflags := flags4 h in
  s ← get ;
  if (tcpflags =? 0)
     || ((tcpflags =? ACK) && (seq_add (m_nextTxSequence (m_tcb s)) 1 =? m_ackNumber h)) then
    enter_established ;;
    syn_acked ;;
    set_peer from ;;
    upd (fun s => s <| m_delAckCount := m_delAckMaxCount attrs |>) ;;
    notify (NotifyNewConnectionCreated from) ;;
    ReceivedAck p h ;;
    UpdatePacingRate ;;
    notify_send_available
  else if tcpflags =? SYN then
    set_next_rx h ;;
    reply_synack (is_ecn_syn (m_flags h))
  else if tcpflags =? Z.lor FIN ACK then
    when (m_sequenceNumber h =? NextRxSequence (rx s))
      (upd (fun s => s <| m_connected := true |> <| m_retxEvent := None |>) ;;
       syn_acked ;;
       set_peer from ;;
       notify (NotifyNewConnectionCreated from) ;;
       PeerClose p h)
  else
    when (negb (tcpflags =? RST)) (set_peer from ;; SendRST) ;;
    CloseAndNotify.

(** The end of ProcessWait: an in-sequence FIN in FIN_WAIT_1 or FIN_WAIT_2. *)
Definition finish_wait (h : TcpHeader) : M unit :=
  s ← get ;
  when (bool_decide (m_state s ∈ [FIN_WAIT_1; FIN_WAIT_2]) && Finished (rx s))
    ((if bool_decide (m_state s = FIN_WAIT_1) then
        set_state CLOSING ;;
        when ((TxBuffer.Size (m_txBuffer s) =? 0)
              && (m_ackNumber h =? seq_add (m_highTxMark (m_tcb s)) 1)) TimeWait
      else TimeWait) ;;
     SendEmptyPacket ACK ;;
     when (negb (m_shutdownRecv s)) (notify NotifyDataRecv)).

Definition ProcessWait (p : bytes) (h : TcpHeader) : M unit :=
  let tcpflags := flags4 h in
  if (0 <? RxBuffer.GetSize p) && negb (has_flag tcpflags ACK) then
    ReceivedData p h ;; finish_wait h
  else if tcpflags =? ACK then
    ReceivedAck p h ;;
    s ← get ;
    when (bool_decide (m_state s = FIN_WAIT_1) && (TxBuffer.Size (m_txBuffer s) =? 0)
          && (m_ackNumber h =? seq_add (m_highTxMark (m_tcb s)) 1)) (set_state FIN_WAIT_2) ;;
    finish_wait h
  else if (tcpflags =? FIN) || (tcpflags =? Z.lor FIN ACK) then
    when (has_flag tcpflags ACK) (ReceivedAck p h) ;;
    upd_rx (fun b => SetFinSequence b (m_sequenceNumber h)) ;;
    finish_wait h
  else if (tcpflags =? SYN) || (tcpflags =? Z.lor SYN ACK) then mret tt
  else
    when (negb (tcpflags =? RST)) SendRST ;;
    CloseAndNotify.

Definition ProcessClosing (h : TcpHeader) : M unit :=
  let tcpflags := flags2 h in
  s ← get ;
  if tcpflags =? ACK then when (m_sequenceNumber h =? NextRxSequence (rx s)) TimeWait
  else
    (if (tcpflags =? FIN) || (tcpflags =? Z.lor FIN ACK) then SendEmptyPacket ACK
     else when (negb (tcpflags =? RST)) SendRST) ;;
    CloseAndNotify.

Definition ProcessLastAck (p : bytes) (h : TcpHeader) : M unit :=
  let tcpflags := flags2 h in
  s ← get ;
  if tcpflags =? 0 then ReceivedData p h
  else if tcpflags =? ACK then when (m_sequenceNumber h =? NextRxSequence (rx s)) CloseAndNotify
  else if tcpflags =? FIN then SendEmptyPacket (Z.lor FIN ACK)
  else if (tcpflags =? Z.lor FIN ACK) || (tcpflags =? RST) then CloseAndNotify
  else SendRST ;; CloseAndNotify.

(** *** DoForwardUp *)

(** The options and the windows of a segment with SYN. *)
Definition forward_syn (h : TcpHeader) : M unit :=
  upd (fun s => s <| m_rWnd := TcpHeader.m_windowSize h |>) ;;
  s ← get ;
  (if HasOption h WINSCALE && m_winScalingEnabled s
   then scale ← lift (option_wscale h) ; ProcessOptionWScale scale
   else upd (fun s => s <| m_winScalingEnabled := false |>)) ;;
  (if HasOption h SACKPERMITTED && m_sackEnabled s then ProcessOptionSackPermitted
   else upd (fun s => s <| m_sackEnabled := false |> <| m_txBuffer ::= fun b => SetSackEnabled b false |>)) ;;
  (if HasOption h TS && m_timestampEnabled s
   then '(ts, echo) ← lift (option_ts h) ; ProcessOptionTimestamp ts echo (m_sequenceNumber h)
   else upd (fun s => s <| m_timestampEnabled := false |>)) ;;
  (if HasOption h CWND && m_congestionWindowEnabled s
   then w ← lift (option_cwnd h) ; ProcessOptionCongestionWindow w
   else upd (fun s => s <| m_congestionWindowEnabled := false |>)) ;;
  upd_tcb (fun t => let w := u32 (m_initialCWnd t * SocketState.m_segmentSize t) in
                    t <| m_cWnd := w |> <| m_cWndInfl := w |> <| m_ssThresh := m_initialSsThresh t |>) ;;
  when (has_flag (m_flags h) ACK)
    (EstimateRtt h ;; upd (fun s => s <| m_highRxAckMark := m_ackNumber h |>)).

(** The options and the windows of a segment with ACK and no SYN; [false]: the
    segment is discarded, for want of a timestamp. *)
Definition forward_ack (h : TcpHeader) : M bool :=
  s ← get ;
  if m_timestampEnabled s && negb (HasOption h TS) then mret false
  else
    (if m_timestampEnabled s
     then '(ts, echo) ← lift (option_ts h) ; ProcessOptionTimestamp ts echo (m_sequenceNumber h)
     else mret tt) ;;
    s ← get ;
    (if HasOption h CWND && m_congestionWindowEnabled s
     then w ← lift (option_cwnd h) ; ProcessOptionCongestionWindow w
     else upd (fun s => s <| m_congestionWindowEnabled := false |>)) ;;
    EstimateRtt h ;;
    UpdateWindowSize h ;;
    mret true.

(** A zero window: the persist timer replaces the retransmission timer. *)
Definition enter_persist : M unit :=
  s ← get ;
  when ((m_rWnd s =? 0) && IsExpired (m_persistEvent s))
    (upd (fun s => s <| m_retxEvent := None |>) ;;
     ev ← Schedule (m_persistTimeout s) H_PersistTimeout ;
     upd (fun s => s <| m_persistEvent := Some ev |>)).

Definition leave_persist : M unit :=
  s ← get ;
  when (negb (m_rWnd s =? 0) && IsRunning (m_persistEvent s))
    (lift (ns_assert (m_connected s)) ;;
     upd (fun s => s <| m_persistEvent := None |>) ;;
     SendPendingData_connected).

(** The reply to a segment for a closed socket. *)
Definition forward_closed (h : TcpHeader) (from to : Address) : M unit :=
  when (negb (flags2 h =? RST))
    (s ← get ;
     w ← AdvertisedWindowSize true ;
     r ← AddOptions
           (TcpHeader_new <| m_flags := RST |> <| m_sequenceNumber := m_nextTxSequence (m_tcb s) |>
              <| m_ackNumber := NextRxSequence (rx s) |> <| m_sourcePort := m_destinationPort h |>
              <| m_destinationPort := m_sourcePort h |> <| TcpHeader.m_windowSize := w |>) ;
     emit (O_SendPacket r [] None (fst to) (fst from))).

Definition dispatch (p : bytes) (h : TcpHeader) (from to : Address) : M unit :=
  s ← get ;
  match m_state s with
  | ESTABLISHED => ProcessEstablished p h
  | LISTEN => ProcessListen h from to
  | TIME_WAIT => mret tt
  | CLOSED => forward_closed h from to
  | SYN_SENT => ProcessSynSent p h
  | SYN_RCVD => ProcessSynRcvd p h from
  | FIN_WAIT_1 | FIN_WAIT_2 | CLOSE_WAIT => ProcessWait p h
  | CLOSING => ProcessClosing h
  | LAST_ACK => ProcessLastAck p h
  end.

Definition DoForwardUp (p : bytes) (h : TcpHeader) (from to : Address) : M unit :=
  s ← get ;
  when (bool_decide (m_state s = ESTABLISHED) && negb (has_flag (m_flags h) RST)
        && has_flag (m_flags h) CWR && negb (bool_decide (m_ecnState (m_tcb s) = ECN_CE_RCVD)))
    (set_ecn ECN_IDLE) ;;
  go ← (if has_flag (m_flags h) SYN then forward_syn h ;; mret true
        else if has_flag (m_flags h) ACK then forward_ack h
        else mret true) ;
  if negb go then mret tt
  else enter_persist ;; dispatch p h from to ;; leave_persist.

(** *** ForwardUp: a segment from the IPv4 layer

    [size] is the size of the TCP header found in the packet, [ce] and [ect]
    say whether the IP header carries the CE code point, or any ECN code
    point. *)

Definition IsValidTcpSegment (seq tcpHeaderSize tcpPayloadSize : Z) : M bool :=
  s ← get ;
  if (tcpHeaderSize =? 0) || (60 <? tcpHeaderSize) then mret false
  else if (0 <? tcpPayloadSize) && OutOfRange s seq (seq_add seq tcpPayloadSize) then
    SendEmptyPacket ACK ;; mret false
  else mret true.

Definition ForwardUp (p : bytes) (h : TcpHeader) (size : Z) (ecn : EcnCodePoint_t) (from to : Address)
  : M unit :=
  s ← get ;
  match m_endPoint s with
  | None => lift (Err NullDeref)
  | Some _ =>
      valid ← IsValidTcpSegment (m_sequenceNumber h) size (RxBuffer.GetSize p) ;
      if negb valid then mret tt
      else
        s ← get ;
        (if bool_decide (ecn = CongExp) && seq_lt (m_ecnCESeq s) (m_sequenceNumber h) then
           upd (fun s => s <| m_ecnCESeq := m_sequenceNumber h |>) ;;
           set_ecn ECN_CE_RCVD ;;
           CwndEvent_of CA_EVENT_ECN_IS_CE
         else
           when (negb (bool_decide (ecn = NotECT))
                 && negb (bool_decide (m_ecnState (m_tcb s) = ECN_DISABLED)))
             (CwndEvent_of CA_EVENT_ECN_NO_CE)) ;;
        DoForwardUp p h from to
  end.

(** *** Passive open *)

(** The copy constructor, on a listening socket. *)
Definition Fork (s : Sock A B) : Sock A B :=
  let t := m_tcb s in
  let tcb := t <| m_cWndInfl := 0 |> <| m_isRetransDataAcked := false |> <| m_rcvCwndValue := 0 |>
               <| m_pacingRate := m_maxPacingRate t |> in
  s <| m_baseIat := INFINITY |> <| m_iat := INFINITY |> <| m_lastPacketTime := Time_min |>
    <| m_lastUpdate := 0 |> <| m_dwnd := d_of_Z 3 |>
    <| m_retxEvent := None |> <| m_lastAckEvent := None |> <| m_delAckEvent := None |>
    <| m_persistEvent := None |> <| m_timewaitEvent := None |> <| m_sendPendingDataEvent := None |>
    <| m_pacingTimer := None |> <| m_delAckCount := 0 |> <| m_history := [] |> <| m_endPoint := None |>
    <| m_highTxAck := 0 |> <| m_advWnd := 0 |> <| m_cwndDiff := 0 |> <| m_tcb := tcb |>
    <| m_congestionControl := CongestionOps.Fork (m_congestionControl s) |>
    <| m_recoveryOps := RecoveryOps.Fork (m_recoveryOps s) |>
    <| m_rateOps := TcpRateLinux_new |> <| m_out := [] |>.

(** On the copy; [ep] is the endpoint that the demultiplexer allocates. *)
Definition CompleteFork (h : TcpHeader) (ep : option EndPoint) : M unit :=
  upd (fun s => s <| m_endPoint := ep |> <| m_state := SYN_RCVD |>
                  <| m_synCount := m_synRetries attrs |>
                  <| m_dataRetrCount := m_dataRetries attrs |>) ;;
  set_next_rx h ;;
  s ← get ;
  if negb (bool_decide (m_useEcn (m_tcb s) = Off)) && is_ecn_syn (m_flags h) then
    SendEmptyPacket (Z.lor SYN (Z.lor ACK ECE)) ;; set_ecn ECN_IDLE
  else SendEmptyPacket (Z.lor SYN ACK) ;; set_ecn ECN_DISABLED.

Definition ConnectionSucceeded : M unit :=
  notify NotifyConnectionSucceeded ;; notify_send_available.

(** *** Events *)

(** The timers: when the event of a timer is run, the timer has expired. *)
Inductive TimerName :=
| T_retx | T_lastAck | T_delAck | T_persist | T_timewait | T_sendPendingData | T_pacing.

Definition timer_of (s : Sock A B) (n : TimerName) : option Event :=
  match n with
  | T_retx => m_retxEvent s
  | T_lastAck => m_lastAckEvent s
  | T_delAck => m_delAckEvent s
  | T_persist => m_persistEvent s
  | T_timewait => m_timewaitEvent s
  | T_sendPendingData => m_sendPendingDataEvent s
  | T_pacing => m_pacingTimer s
  end.

Definition clear_timer (n : TimerName) (s : Sock A B) : Sock A B :=
  match n with
  | T_retx => s <| m_retxEvent := None |>
  | T_lastAck => s <| m_lastAckEvent := None |>
  | T_delAck => s <| m_delAckEvent := None |>
  | T_persist => s <| m_persistEvent := None |>
  | T_timewait => s <| m_timewaitEvent := None |>
  | T_sendPendingData => s <| m_sendPendingDataEvent := None |>
  | T_pacing => s <| m_pacingTimer := None |>
  end.

Definition run_handler (hd : Handler) : M unit :=
  match hd with
  | H_SendEmptyPacket flags => SendEmptyPacket flags
  | H_ReTxTimeout => ReTxTimeout
  | H_DelAckTimeout => DelAckTimeout
  | H_LastAckTimeout => LastAckTimeout
  | H_PersistTimeout => PersistTimeout
  | H_CloseAndNotify => CloseAndNotify
  | H_SendPendingData withAck => _ ← SendPendingData withAck ; mret tt
  | H_NotifyPacingPerformed => SendPendingData_connected
  end.

Inductive SocketEvent :=
| E_Segment (p : bytes) (h : TcpHeader) (size : Z) (ecn : EcnCodePoint_t) (from to : Address)
| E_Timer (n : TimerName)
| E_ConnectionSucceeded
| E_Send (p : bytes)
| E_Recv (maxSize : Z)
| E_Close
| E_ShutdownSend
| E_ShutdownRecv
| E_SetRcvBufSize (size : Z)
| E_Destroy.

(** The reaction of the socket to an event; a timer that is not pending, or is
    later, does not run. *)
Definition step (e : SocketEvent) : M unit :=
  match e with
  | E_Segment p h size ecn from to => ForwardUp p h size ecn from to
  | E_Timer n =>
      s ← get ;
      match timer_of s n with
      | Some ev => when (ev_time ev =? now) (upd (clear_timer n) ;; run_handler (ev_handler ev))
      | None => mret tt
      end
  | E_ConnectionSucceeded => ConnectionSucceeded
  | E_Send p => _ ← Send p ; mret tt
  | E_Recv maxSize => _ ← Recv maxSize ; mret tt
  | E_Close => Close
  | E_ShutdownSend => ShutdownSend
  | E_ShutdownRecv => ShutdownRecv
  | E_SetRcvBufSize size => SetRcvBufSize size
  | E_Destroy => Destroy
  end.
End Fsm.
