(* ===== verification/SocketVis.v ===== *)
(** What an event of the socket can do that others see: the transitions of the
    connection state machine, and the notifications of the close.  One pass
    over the methods shows that each is a sequence of the visible steps
    [vstep]; the theorems are inductions over these steps. *)
From Stdlib Require Import ZArith Lia Bool List.
From stdpp Require Import base tactics list relations.
From S2P Require Import Prelude SeqNum RxBuffer TxBuffer TcpOptions TcpHeader Float NsTime RttEstimator RateOps SocketState CongestionOps RecoveryOps SocketCore SocketRx SocketTx SocketAck SocketFsm.

(** ** The transitions of the connection, as the code makes them *)

Inductive edge : TcpStates_t -> TcpStates_t -> Prop :=
| syn_sent_rcvd : edge SYN_SENT SYN_RCVD           (* simultaneous open *)
| syn_sent_established : edge SYN_SENT ESTABLISHED
| syn_rcvd_established : edge SYN_RCVD ESTABLISHED
| syn_rcvd_fin : edge SYN_RCVD FIN_WAIT_1          (* Close *)
| syn_rcvd_peer_fin : edge SYN_RCVD CLOSE_WAIT
| established_fin : edge ESTABLISHED FIN_WAIT_1
| established_peer_fin : edge ESTABLISHED CLOSE_WAIT
| close_wait_fin : edge CLOSE_WAIT LAST_ACK
| fin_acked : edge FIN_WAIT_1 FIN_WAIT_2
| fin_crossed : edge FIN_WAIT_1 CLOSING
| fin_wait_1_peer_close : edge FIN_WAIT_1 CLOSE_WAIT   (* DoPeerClose from ReceivedData *)
| fin_wait_2_peer_close : edge FIN_WAIT_2 CLOSE_WAIT
| fin_wait_2_fin : edge FIN_WAIT_2 TIME_WAIT
| closing_acked : edge CLOSING TIME_WAIT
| aborted t : edge t CLOSED.

Create HintDb fsm.
#[export] Hint Constructors edge : fsm.

(** How far the connection is. *)
Definition rank (t : TcpStates_t) : Z :=
  match t with
  | LISTEN => 0 | SYN_SENT => 1 | SYN_RCVD => 2 | ESTABLISHED => 3 | FIN_WAIT_1 => 4
  | FIN_WAIT_2 => 5 | CLOSING => 6 | CLOSE_WAIT => 7 | LAST_ACK => 8 | TIME_WAIT => 9
  | CLOSED => 10
  end.

Lemma edge_rank t t' : edge t t' -> t = t' \/ rank t < rank t'.
Proof. destruct 1; cbn; try lia. destruct t; cbn; auto; lia. Qed.

Lemma edges_rank t t' : rtc edge t t' -> t = t' \/ rank t < rank t'.
Proof.
  induction 1 as [t|t t1 t' He _ IH]; [by left|].
  apply edge_rank in He. destruct He as [->|He]; [done|]. destruct IH as [->|IH]; right; lia.
Qed.

Section Vis.
Context {A B : Type} {CC : TcpCongestionOps A} {RO : TcpRecoveryOps B} {E : Env}.

(** No change of the state, of the outputs and of the flag of the close. *)
Definition quiet (s s' : Sock A B) : Prop :=
  m_state s' = m_state s /\ m_closeNotified s' = m_closeNotified s /\ m_out s' = m_out s.

Inductive vstep : Sock A B -> Sock A B -> Prop :=
| v_quiet s s' : quiet s s' -> vstep s s'
| v_state s t : edge (m_state s) t -> vstep s (s <| m_state := t |>)
| v_emit s o : o <> O_Notify NotifyNormalClose -> vstep s (s <| m_out ::= fun l => l ++ [o] |>)
| v_close s : m_closeNotified s = false ->
    vstep s (s <| m_out ::= fun l => l ++ [O_Notify NotifyNormalClose] |> <| m_closeNotified := true |>).

(** From [s], the computation does visible steps and ends in a state of [Q]. *)
Definition J (s : Sock A B) (Q : TcpStates_t -> Prop) {X} (m : St A B X) : Prop :=
  forall x s', m s = Ok (x, s') -> rtc vstep s s' /\ Q (m_state s').


Lemma J_weaken s (Q Q' : TcpStates_t -> Prop) {X} (m : St A B X) :
  J s Q m -> (forall t, Q t -> Q' t) -> J s Q' m.
Proof. intros H HQ x s' Hm. destruct (H x s' Hm). auto. Qed.

Lemma J_bind s (Q1 Q : TcpStates_t -> Prop) {X Y} (m : St A B X) (k : X -> St A B Y) :
  J s Q1 m -> (forall x s1, Q1 (m_state s1) -> J s1 Q (k x)) -> J s Q (x ← m ; k x).
Proof.
  intros Hm Hk y s' Heq. unfold mbind, St_bind in Heq. destruct (m s) as [[x s1]|] eqn:E1; [|done].
  destruct (Hm x s1 E1) as [Hr HQ1]. destruct (Hk x s1 HQ1 y s' Heq). split; [by etrans|done].
Qed.

Lemma J_bind_pair s (Q1 Q : TcpStates_t -> Prop) {X X' Y} (m : St A B (X * X')) (k : X -> X' -> St A B Y) :
  J s Q1 m -> (forall x x' s1, Q1 (m_state s1) -> J s1 Q (k x x')) -> J s Q ('(x, x') ← m ; k x x').
Proof. intros Hm Hk. eapply J_bind; [exact Hm|]. intros [x x'] s1 H1. by apply Hk. Qed.

Lemma J_get s Q {Y} (k : Sock A B -> St A B Y) : J s Q (k s) -> J s Q (x ← get ; k x).
Proof. intros H x s' Hm. exact (H x s' Hm). Qed.

Ltac run_ok H := unfold mret, St_ret, set_state, emit, upd in H; apply Ok_inj, pair_eq in H; destruct H as [? ?]; subst.

Lemma J_ret s (Q : TcpStates_t -> Prop) {X} (x : X) : Q (m_state s) -> J s Q (mret x).
Proof. intros H y s' Hm. run_ok Hm. split; [reflexivity|done]. Qed.

Lemma J_lift s (Q : TcpStates_t -> Prop) {X} (r : res X) : Q (m_state s) -> J s Q (lift r).
Proof. intros H y s' Hm. unfold lift in Hm. destruct r; [|done]. run_ok Hm. split; [reflexivity|done]. Qed.

Lemma J_upd s (Q : TcpStates_t -> Prop) f : quiet s (f s) -> Q (m_state s) -> J s Q (upd f).
Proof.
  intros Hq H y s' Hm. run_ok Hm. split; [|by destruct Hq as [-> _]].
  apply rtc_once, v_quiet, Hq.
Qed.

Lemma J_set_state s (Q : TcpStates_t -> Prop) t : edge (m_state s) t -> Q t -> J s Q (set_state t).
Proof. intros He HQ y s' Hm. run_ok Hm. split; [by apply rtc_once, v_state|done]. Qed.

Lemma J_set_same s (Q : TcpStates_t -> Prop) t :
  edge (m_state s) t \/ t = m_state s -> Q t -> J s Q (set_state t).
Proof.
  intros [He| ->] HQ; [by apply J_set_state|]. unfold set_state. by apply J_upd; [split; [|split]|].
Qed.

Lemma J_assert s Q b {Y} (k : unit -> St A B Y) :
  (b = true -> J s Q (k tt)) -> J s Q (x ← lift (ns_assert b) ; k x).
Proof. intros H x s' Hm. destruct b; [|done]. exact (H eq_refl x s' Hm). Qed.

Lemma J_emit s (Q : TcpStates_t -> Prop) o : o <> O_Notify NotifyNormalClose -> Q (m_state s) -> J s Q (emit o).
Proof. intros Ho HQ y s' Hm. run_ok Hm. split; [by apply rtc_once, v_emit|done]. Qed.

Lemma J_when s (Q : TcpStates_t -> Prop) b m : (b = true -> J s Q m) -> (b = false -> Q (m_state s)) -> J s Q (when b m).
Proof. intros H1 H2. destruct b; cbn; [auto|]. apply J_ret. auto. Qed.

Lemma notify_close_once_keeps s : J s (eq (m_state s)) notify_close_once.
Proof.
  intros x s' Hm. unfold notify_close_once in Hm. cbv [mbind St_bind get] in Hm.
  destruct (m_closeNotified s) eqn:Ec; cbn [negb when] in Hm.
  - run_ok Hm. split; [reflexivity|done].
  - unfold notify in Hm. run_ok Hm. split; [|done]. apply rtc_once. by apply (v_close s).
Qed.

(** Calls of the algorithms. *)
Lemma cc_upd_keeps f s : J s (eq (m_state s)) (cc_upd f).
Proof.
  unfold cc_upd. apply J_upd; [|done]. destruct (f _ _) as [c t]. split; [reflexivity|by split].
Qed.

Lemma rec_upd_keeps f s : J s (eq (m_state s)) (rec_upd f).
Proof.
  unfold rec_upd. apply J_upd; [|done]. destruct (f _ _) as [c t]. split; [reflexivity|by split].
Qed.
End Vis.

(** ** Automation: one rule per construct of the monad

    [jkeeps] proves that a computation leaves the state of the connection as it
    is; the lemmas of the database [keeps] are the methods that are done. *)
Create HintDb keeps discriminated.
#[export] Hint Constants Opaque : keeps.
#[export] Hint Resolve notify_close_once_keeps cc_upd_keeps rec_upd_keeps : keeps.

Ltac vquiet := split; [reflexivity|split; reflexivity].

Ltac jkeeps :=
  cbv beta zeta;
  lazymatch goal with
  | |- J _ _ (mbind _ get) => apply J_get; jkeeps
  | |- J ?s _ (mbind _ _) =>
      eapply (J_bind s (eq (m_state s)));
      [jkeeps|let x := fresh "x" in let s1 := fresh "s" in let H := fresh "H" in
              intros x s1 H; rewrite H; clear H; jkeeps]
  | |- J _ _ (when _ _) => apply J_when; [intros _; jkeeps|reflexivity]
  | |- J _ _ (match ?x with _ => _ end) => destruct x; jkeeps
  | |- J _ _ (notify _) => unfold notify; jkeeps
  | |- J _ _ (upd_tcb _) => unfold upd_tcb; jkeeps
  | |- J _ _ (upd_rx _) => unfold upd_rx; jkeeps
  | |- J _ _ (upd_tx _) => unfold upd_tx; jkeeps
  | |- J _ _ (mret _) => apply J_ret; reflexivity
  | |- J _ _ (lift _) => apply J_lift; reflexivity
  | |- J _ _ (upd _) => apply J_upd; [vquiet|reflexivity]
  | |- J _ _ (emit _) => apply J_emit; [discriminate|reflexivity]
  | |- _ => solve [eauto with keeps nocore]
  end.

(** A first computation that keeps the state. *)
Ltac jskip :=
  lazymatch goal with
  | |- J ?s _ (mbind _ _) =>
      eapply (J_bind s (eq (m_state s)));
      [jkeeps|let x := fresh "x" in let s1 := fresh "s" in let H := fresh "H" in intros x s1 H]
  end.

Section Keeps.
Context {A B : Type} {CC : TcpCongestionOps A} {RO : TcpRecoveryOps B} {E : Env}.
Implicit Types s : Sock A B.

Lemma cc_call_keeps {X} (f : A -> TcpSocketState -> res (X * A * TcpSocketState)) s :
  J s (eq (m_state s)) (cc_call f).
Proof. unfold cc_call. jkeeps. Qed.
Lemma rec_call_keeps f s : J s (eq (m_state s)) (rec_call f).
Proof. unfold rec_call. jkeeps. Qed.
Hint Resolve cc_call_keeps rec_call_keeps : keeps.

Lemma Schedule_keeps d h s : J s (eq (m_state s)) (Schedule d h).
Proof. unfold Schedule. jkeeps. Qed.
Lemma BytesInFlight_keeps s : J s (eq (m_state s)) BytesInFlight.
Proof. unfold BytesInFlight. jkeeps. Qed.
Hint Resolve Schedule_keeps BytesInFlight_keeps : keeps.
Lemma AvailableWindow_keeps s : J s (eq (m_state s)) AvailableWindow.
Proof. unfold AvailableWindow. jkeeps. Qed.
Lemma AdvertisedWindowSize_keeps b s : J s (eq (m_state s)) (AdvertisedWindowSize b).
Proof. unfold AdvertisedWindowSize. jkeeps. Qed.
Lemma AddOptions_keeps h s : J s (eq (m_state s)) (AddOptions h).
Proof. unfold AddOptions, AddOptionTimestamp, AddOptionCongestionWindow. jkeeps. Qed.
Lemma AddOptionWScale_keeps h s : J s (eq (m_state s)) (AddOptionWScale h).
Proof. unfold AddOptionWScale. jkeeps. Qed.
Lemma AddOptionSackPermitted_keeps h s : J s (eq (m_state s)) (AddOptionSackPermitted h).
Proof. unfold AddOptionSackPermitted. jkeeps. Qed.
Lemma AddOptionSack_keeps h s : J s (eq (m_state s)) (AddOptionSack h).
Proof. unfold AddOptionSack. jkeeps. Qed.
Lemma CancelAllTimers_keeps s : J s (eq (m_state s)) CancelAllTimers.
Proof. unfold CancelAllTimers. jkeeps. Qed.
Hint Resolve AvailableWindow_keeps AdvertisedWindowSize_keeps AddOptions_keeps AddOptionWScale_keeps
  AddOptionSackPermitted_keeps AddOptionSack_keeps CancelAllTimers_keeps : keeps.
Lemma DeallocateEndPoint_keeps s : J s (eq (m_state s)) DeallocateEndPoint.
Proof. unfold DeallocateEndPoint. jkeeps. Qed.
Lemma UpdateRttHistory_keeps sq n b s : J s (eq (m_state s)) (UpdateRttHistory sq n b).
Proof. unfold UpdateRttHistory. jkeeps. Qed.
Lemma send_ack_part_keeps h s : J s (eq (m_state s)) (send_ack_part h).
Proof. unfold send_ack_part. jkeeps. Qed.
Hint Resolve DeallocateEndPoint_keeps UpdateRttHistory_keeps send_ack_part_keeps : keeps.

(** Control segments: only the last SYN changes the state. *)
Definition same_or_closed s (t : TcpStates_t) : Prop := t = m_state s \/ t = CLOSED.

Lemma send_syn_vis h sq s : J s (same_or_closed s) (send_syn h sq).
Proof.
  unfold send_syn. apply J_get.
  eapply (J_bind s (eq (m_state s))); [jkeeps|intros h1 s1 H1].
  eapply (J_bind s1 (eq (m_state s1))); [jkeeps|intros h2 s2 H2].
  assert (m_state s = m_state s2) as Hs by congruence. clear H1 H2.
  destruct (m_synCount s =? 0).
  - eapply (J_bind s2 (eq (m_state s2))); [jkeeps|intros ? s3 H3].
    eapply (J_bind s3 (eq (m_state s3))); [jkeeps|intros ? s4 H4].
    eapply (J_bind s4 (eq CLOSED)); [apply J_set_state; [constructor|done]|intros ? s5 H5].
    eapply (J_bind s5 (eq (m_state s5))); [jkeeps|intros ? s6 H6].
    apply J_ret. right. congruence.
  - apply J_weaken with (eq (m_state s2)); [jkeeps|]. intros ? <-. by left.
Qed.

Lemma send_finish_keeps h flags tos ep (hasSyn hasFin isAck : bool) w s :
  J s (eq (m_state s))
    (h ← (if has_flag flags ACK then send_ack_part (h <| TcpHeader.m_windowSize := w |>)
          else mret (h <| TcpHeader.m_windowSize := w |>)) ;
     emit (O_SendPacket h [] tos (m_localAddr ep) (m_peerAddr ep)) ;;
     s ← get ;
     when (IsExpired (m_retxEvent s) && (hasSyn || hasFin) && negb isAck)
       (ev ← Schedule (m_rto s) (H_SendEmptyPacket flags) ;
        upd (fun s => s <| m_retxEvent := Some ev |>))).
Proof. jkeeps. Qed.
Hint Resolve send_finish_keeps : keeps.

Lemma syn_bits f : has_flag (Z.lor f ACK) SYN = has_flag f SYN.
Proof. unfold has_flag. rewrite Z.land_lor_distr_l. change (Z.land ACK SYN) with 0. by rewrite Z.lor_0_r. Qed.

Lemma SendEmptyPacket_vis flags s :
  J s (fun t => t = m_state s \/ (has_flag flags SYN = true /\ t = CLOSED)) (SendEmptyPacket flags).
Proof.
  unfold SendEmptyPacket. apply J_get. destruct (m_endPoint s) as [ep|]; [|by apply J_ret; left].
  cbv zeta.
  set (fl := if has_flag flags FIN then Z.lor flags ACK else flags).
  assert (has_flag fl SYN = has_flag flags SYN) as Hf by (unfold fl; destruct (has_flag flags FIN); [apply syn_bits|done]).
  eapply (J_bind s (eq (m_state s))); [jkeeps|intros h1 s1 H1].
  eapply (J_bind s1 (eq (m_state s1))); [jkeeps|intros h2 s2 H2].
  eapply (J_bind s2 (eq (m_state s2))); [jkeeps|intros w s3 H3].
  assert (m_state s = m_state s3) as Hs by congruence. clear H1 H2 H3. rewrite Hs. rewrite Hf.
  eapply (J_bind s3 (fun t => t = m_state s3 \/ (has_flag flags SYN = true /\ t = CLOSED))).
  { destruct (has_flag flags SYN); [|apply J_ret; by left].
    eapply J_weaken; [apply send_syn_vis|]. intros t [->| ->]; auto. }
  intros [[h3 w3]|] s4 H4; [|by apply J_ret].
  eapply J_weaken; [apply send_finish_keeps|]. by intros t <-.
Qed.

Lemma SendEmptyPacket_keeps flags s :
  has_flag flags SYN = false -> J s (eq (m_state s)) (SendEmptyPacket flags).
Proof.
  intros Hf. eapply J_weaken; [apply SendEmptyPacket_vis|]. intros t [->|[H _]]; [done|congruence].
Qed.
Lemma SendEmptyPacket_ack_keeps s : J s (eq (m_state s)) (SendEmptyPacket ACK).
Proof. by apply SendEmptyPacket_keeps. Qed.
Lemma SendEmptyPacket_ece_keeps s : J s (eq (m_state s)) (SendEmptyPacket (Z.lor ACK ECE)).
Proof. by apply SendEmptyPacket_keeps. Qed.
Lemma SendEmptyPacket_fin_keeps s : J s (eq (m_state s)) (SendEmptyPacket FIN).
Proof. by apply SendEmptyPacket_keeps. Qed.
Lemma SendEmptyPacket_finack_keeps s : J s (eq (m_state s)) (SendEmptyPacket (Z.lor FIN ACK)).
Proof. by apply SendEmptyPacket_keeps. Qed.
Lemma SendEmptyPacket_rst_keeps s : J s (eq (m_state s)) (SendEmptyPacket RST).
Proof. by apply SendEmptyPacket_keeps. Qed.
Hint Resolve SendEmptyPacket_ack_keeps SendEmptyPacket_ece_keeps SendEmptyPacket_fin_keeps
  SendEmptyPacket_finack_keeps SendEmptyPacket_rst_keeps : keeps.

Lemma SendRST_keeps s : J s (eq (m_state s)) SendRST.
Proof. unfold SendRST. jkeeps. Qed.
Lemma send_ack_with_ecn_keeps s : J s (eq (m_state s)) send_ack_with_ecn.
Proof. unfold send_ack_with_ecn. jkeeps. Qed.
Hint Resolve SendRST_keeps send_ack_with_ecn_keeps : keeps.

Lemma CloseAndNotify_vis s : J s (eq CLOSED) CloseAndNotify.
Proof.
  unfold CloseAndNotify.
  do 2 jskip.
  eapply (J_bind _ (eq CLOSED)); [apply J_set_state; [constructor|done]|intros ? s3 H3].
  rewrite H3. jkeeps.
Qed.

Lemma TimeWait_vis s : edge (m_state s) TIME_WAIT -> J s (eq TIME_WAIT) TimeWait.
Proof.
  intros He. unfold TimeWait.
  eapply (J_bind _ (eq TIME_WAIT)); [by apply J_set_state|intros ? s1 H1]. rewrite H1. jkeeps.
Qed.

End Keeps.

#[export] Hint Resolve cc_call_keeps rec_call_keeps Schedule_keeps BytesInFlight_keeps AvailableWindow_keeps AdvertisedWindowSize_keeps AddOptions_keeps AddOptionWScale_keeps AddOptionSackPermitted_keeps AddOptionSack_keeps CancelAllTimers_keeps DeallocateEndPoint_keeps UpdateRttHistory_keeps send_ack_part_keeps send_finish_keeps SendEmptyPacket_ack_keeps SendEmptyPacket_ece_keeps SendEmptyPacket_fin_keeps SendEmptyPacket_finack_keeps SendEmptyPacket_rst_keeps SendRST_keeps send_ack_with_ecn_keeps : keeps.

(** [jvis] proves that a computation does visible steps only. *)
Create HintDb visible discriminated.
#[export] Hint Constants Opaque : visible.
#[export] Hint Extern 1 (True) => exact I : visible.

Ltac jvis :=
  cbv beta zeta;
  lazymatch goal with
  | |- J _ _ (mbind _ get) => apply J_get; jvis
  | |- J _ _ (mbind _ (lift (ns_assert _))) =>
      let H := fresh "Hassert" in apply J_assert; intros H; jvis
  | |- J ?s _ (mbind _ _) =>
      first [ eapply (J_bind s (eq (m_state s)));
              [solve [jkeeps]|let x := fresh "x" in let s1 := fresh "s" in let H := fresh "Hs" in
                       intros x s1 H; jvis]
            | eapply (J_bind s (fun _ => True));
              [jvis|let x := fresh "x" in let s1 := fresh "s" in intros x s1 _; jvis] ]
  | |- J _ _ (when _ _) => apply J_when; [let H := fresh "Hwhen" in intros H; jvis|intros _; exact I]
  | |- J _ _ (match ?x with _ => _ end) => let H := fresh "Hcase" in destruct x eqn:H; jvis
  | |- J _ _ (set_state _) => apply J_set_same; [|exact I]
  | |- J _ _ (mret _) => apply J_ret; exact I
  | |- J ?s _ _ =>
      first [ solve [eauto with visible nocore]
            | apply (J_weaken s (eq (m_state s))); [solve [jkeeps]|intros ? _; exact I] ]
  end.

(** The side conditions of [set_state]: the state is known from a case analysis
    or a test, and has not changed since. *)
Ltac known_state :=
  repeat match goal with
  | H : bool_decide _ = true |- _ => apply bool_decide_eq_true in H
  | H : _ && _ = true |- _ => apply andb_true_iff in H; destruct H
  | H : m_state _ ∈ _ |- _ => rewrite ?elem_of_cons, ?elem_of_nil in H
  | H : _ \/ _ |- _ => destruct H
  | H : False |- _ => destruct H
  end.

Ltac jedge :=
  known_state;
  match goal with
  | |- edge _ (match ?x with _ => _ end) \/ _ => let H := fresh "Hcase" in destruct x eqn:H; jedge
  | |- edge ?x _ \/ _ => is_constructor x; first [left; solve [eauto with fsm] | right; reflexivity]
  | |- edge (m_state ?s) ?t \/ _ =>
      match goal with
      | H : m_state _ = ?x |- _ =>
          is_constructor x; left; replace (m_state s) with x by congruence; solve [eauto with fsm]
      | H : m_state _ = ?x |- _ =>
          is_constructor x; right; replace (m_state s) with x by congruence; reflexivity
      end
  end.

Section Visible.
Context {A B : Type} {CC : TcpCongestionOps A} {RO : TcpRecoveryOps B} {E : Env}.
Implicit Types s : Sock A B.

Local Abbreviation T := (fun _ : TcpStates_t => True).

Lemma CloseAndNotify_T s : J s T CloseAndNotify.
Proof. eapply J_weaken; [apply CloseAndNotify_vis|done]. Qed.
Lemma SendEmptyPacket_T flags s : J s T (SendEmptyPacket flags).
Proof. eapply J_weaken; [apply SendEmptyPacket_vis|done]. Qed.
Hint Resolve CloseAndNotify_T SendEmptyPacket_T : visible.

Lemma DoClose_T s : J s T DoClose.
Proof. unfold DoClose. jvis; jedge. Qed.
Hint Resolve DoClose_T : visible.
Lemma Close_T s : J s T Close.
Proof. unfold Close. jvis. Qed.
Lemma ShutdownSend_T s : J s T ShutdownSend.
Proof. unfold ShutdownSend. jvis; jedge. Qed.
Hint Resolve Close_T : visible.
Lemma DoPeerClose_T s : J s T DoPeerClose.
Proof. unfold DoPeerClose. jvis; jedge. Qed.
Hint Resolve DoPeerClose_T : visible.
Lemma update_iat_keeps s : J s (eq (m_state s)) update_iat.
Proof. unfold update_iat, UpdateDelayWindow. jkeeps. Qed.
Lemma issueTimeout_keeps s : J s (eq (m_state s)) issueTimeout.
Proof. unfold issueTimeout. jkeeps. Qed.
Hint Resolve update_iat_keeps issueTimeout_keeps : keeps.
Lemma ack_received_keeps n sq s : J s (eq (m_state s)) (ack_received n sq).
Proof. unfold ack_received. jkeeps. Qed.
Hint Resolve ack_received_keeps : keeps.
Lemma ReceivedData_T p h s : J s T (ReceivedData p h).
Proof. unfold ReceivedData. jvis. Qed.
Hint Resolve ReceivedData_T : visible.
Lemma PeerClose_T p h s : J s T (PeerClose p h).
Proof. unfold PeerClose. jvis; jedge. Qed.
Hint Resolve PeerClose_T : visible.
Lemma DelAckTimeout_keeps s : J s (eq (m_state s)) DelAckTimeout.
Proof. unfold DelAckTimeout. jkeeps. Qed.
Lemma UpdateWindowSize_keeps h s : J s (eq (m_state s)) (UpdateWindowSize h).
Proof. unfold UpdateWindowSize. jkeeps. Qed.
Hint Resolve DelAckTimeout_keeps UpdateWindowSize_keeps : keeps.

(** The sender. *)
Lemma schedule_pacing_keeps n s : J s (eq (m_state s)) (schedule_pacing n).
Proof. unfold schedule_pacing. jkeeps. Qed.
Lemma UpdatePacingRate_keeps s : J s (eq (m_state s)) UpdatePacingRate.
Proof. unfold UpdatePacingRate. jkeeps. Qed.
Lemma tx_res_keeps f s : J s (eq (m_state s)) (tx_res f).
Proof. unfold tx_res. jkeeps. Qed.
Lemma set_cong_keeps c s : J s (eq (m_state s)) (set_cong c).
Proof. unfold set_cong. jkeeps. Qed.
Lemma CongestionStateSet_to_keeps c s : J s (eq (m_state s)) (CongestionStateSet_to c).
Proof. unfold CongestionStateSet_to. jkeeps. Qed.
Lemma PktsAcked_with_keeps n s : J s (eq (m_state s)) (PktsAcked_with n).
Proof. unfold PktsAcked_with. jkeeps. Qed.
Lemma IncreaseWindow_with_keeps n s : J s (eq (m_state s)) (IncreaseWindow_with n).
Proof. unfold IncreaseWindow_with. jkeeps. Qed.
Lemma CwndEvent_of_keeps e s : J s (eq (m_state s)) (CwndEvent_of e).
Proof. unfold CwndEvent_of. jkeeps. Qed.
Lemma reduce_ssThresh_keeps n s : J s (eq (m_state s)) (reduce_ssThresh n).
Proof. unfold reduce_ssThresh. jkeeps. Qed.
Lemma HasCongControl_now_keeps s : J s (eq (m_state s)) HasCongControl_now.
Proof. unfold HasCongControl_now. jkeeps. Qed.
Hint Resolve schedule_pacing_keeps UpdatePacingRate_keeps tx_res_keeps set_cong_keeps
  CongestionStateSet_to_keeps PktsAcked_with_keeps IncreaseWindow_with_keeps CwndEvent_of_keeps
  reduce_ssThresh_keeps HasCongControl_now_keeps : keeps.

Lemma SendDataPacket_T sq n b s : J s T (SendDataPacket sq n b).
Proof. unfold SendDataPacket. jvis; jedge. Qed.
Hint Resolve SendDataPacket_T : visible.
Lemma send_round_T b n k s : J s T (send_round b n k).
Proof. unfold send_round. jvis. Qed.

Lemma send_step_vis b s0 st : rtc vstep s0 (snd st) ->
  match send_step b st with
  | Ok (inl st') => rtc vstep s0 (snd st')
  | Ok (inr r) => rtc vstep s0 (snd r)
  | Err _ => True
  end.
Proof.
  destruct st as [[a k] s1]. cbn [snd]. intros Hr. unfold send_step.
  destruct (send_round b a k s1) as [[r s2]|] eqn:Er; [|done].
  destruct (send_round_T b a k s1 r s2 Er) as [H2 _].
  destruct r as [[a' k']|k']; cbn; by etrans.
Qed.

Lemma send_loop_T b n s : J s T (send_loop b n).
Proof.
  intros x s' Hm. split; [|done].
  exact (while_inv (fun st => rtc vstep s (snd st)) (fun r => rtc vstep s (snd r)) _ _ (n, 0, s) _
    (send_step_vis b s) (rtc_refl _ s) Hm).
Qed.
Hint Resolve send_loop_T : visible.
Lemma SendPendingData_T b s : J s T (SendPendingData b).
Proof. unfold SendPendingData. jvis. Qed.
Hint Resolve SendPendingData_T : visible.
Lemma SendPendingData_connected_T s : J s T SendPendingData_connected.
Proof. unfold SendPendingData_connected. jvis. Qed.
Lemma DoRetransmit_T s : J s T DoRetransmit.
Proof. unfold DoRetransmit. jvis. Qed.
Hint Resolve SendPendingData_connected_T DoRetransmit_T : visible.

(** Acknowledgements. *)
Lemma EstimateRtt_keeps h s : J s (eq (m_state s)) (EstimateRtt h).
Proof. unfold EstimateRtt. jkeeps. Qed.
Lemma NewAck_keeps n b s : J s (eq (m_state s)) (NewAck n b).
Proof. unfold NewAck. jkeeps. Qed.
Lemma EnterCwr_keeps n s : J s (eq (m_state s)) (EnterCwr n).
Proof. unfold EnterCwr. jkeeps. Qed.
Lemma rate_sample_keeps a b c s : J s (eq (m_state s)) (rate_sample a b c).
Proof. unfold rate_sample. jkeeps. Qed.
Hint Resolve EstimateRtt_keeps NewAck_keeps EnterCwr_keeps rate_sample_keeps : keeps.
Lemma check_retrans_acked_keeps a b s : J s (eq (m_state s)) (check_retrans_acked a b).
Proof. unfold check_retrans_acked. jkeeps. Qed.
Lemma leave_cwr_keeps a s : J s (eq (m_state s)) (leave_cwr a).
Proof. unfold leave_cwr. jkeeps. Qed.
Lemma process_ece_keeps h a b c s : J s (eq (m_state s)) (process_ece h a b c).
Proof. unfold process_ece. jkeeps. Qed.
Lemma count_segments_keeps n s : J s (eq (m_state s)) (count_segments n).
Proof. unfold count_segments. jkeeps. Qed.
Lemma ReadOptions_keeps l n s : J s (eq (m_state s)) (ReadOptions l n).
Proof.
  revert n s; induction l as [|o l IH]; intros n s; cbn [ReadOptions]; [by apply J_ret|].
  destruct o; try apply IH. apply J_get. jskip. destruct x as [[n1 b1] r1].
  do 2 jskip. rewrite H, H0, H1. apply IH.
Qed.
Hint Resolve check_retrans_acked_keeps leave_cwr_keeps process_ece_keeps count_segments_keeps
  ReadOptions_keeps : keeps.
Lemma ack_transition_keeps a b c d e s : J s (eq (m_state s)) (ack_transition a b c d e).
Proof. unfold ack_transition. jkeeps. Qed.
Hint Resolve ack_transition_keeps : keeps.
Lemma full_ack_keeps a b c d e s : J s (eq (m_state s)) (full_ack a b c d e).
Proof. unfold full_ack. jkeeps. Qed.
Hint Resolve full_ack_keeps : keeps.

Lemma EnterRecovery_T n s : J s T (EnterRecovery n).
Proof. unfold EnterRecovery. jvis. Qed.
Hint Resolve EnterRecovery_T : visible.
Lemma enter_recovery_asserted_T n s : J s T (enter_recovery_asserted n).
Proof. unfold enter_recovery_asserted. jvis. Qed.
Hint Resolve enter_recovery_asserted_T : visible.
Lemma dupack_disorder_T n s : J s T (dupack_disorder n).
Proof. unfold dupack_disorder. jvis. Qed.
Hint Resolve dupack_disorder_T : visible.
Lemma DupAck_T n s : J s T (DupAck n).
Proof. unfold DupAck. jvis. Qed.
Lemma partial_ack_T a b c d s : J s T (partial_ack a b c d).
Proof. unfold partial_ack. jvis. Qed.
Hint Resolve DupAck_T partial_ack_T : visible.
Lemma new_data_acked_T a b c d e s : J s T (new_data_acked a b c d e).
Proof. unfold new_data_acked. jvis. Qed.
Hint Resolve new_data_acked_T : visible.
Lemma ProcessAck_T a b c d s : J s T (ProcessAck a b c d).
Proof. unfold ProcessAck. jvis. Qed.
Hint Resolve ProcessAck_T : visible.
Lemma ReceivedAck_T p h s : J s T (ReceivedAck p h).
Proof. unfold ReceivedAck. jvis. Qed.
Lemma rto_loss_T s : J s T rto_loss.
Proof. unfold rto_loss. jvis. Qed.
Hint Resolve ReceivedAck_T rto_loss_T : visible.
Lemma ReTxTimeout_T s : J s T ReTxTimeout.
Proof. unfold ReTxTimeout. jvis. Qed.
Lemma LastAckTimeout_T s : J s T LastAckTimeout.
Proof. unfold LastAckTimeout. jvis. Qed.
Lemma PersistTimeout_T s : J s T PersistTimeout.
Proof. unfold PersistTimeout. jvis. Qed.
Lemma Send_T p s : J s T (Send p).
Proof. unfold Send, fail_send. jvis. Qed.
Hint Resolve ReTxTimeout_T LastAckTimeout_T PersistTimeout_T Send_T : visible.

(** The state machine. *)
Lemma syn_acked_keeps s : J s (eq (m_state s)) syn_acked.
Proof. unfold syn_acked. jkeeps. Qed.
Lemma set_peer_keeps a s : J s (eq (m_state s)) (set_peer a).
Proof. unfold set_peer. jkeeps. Qed.
Lemma set_next_rx_keeps h s : J s (eq (m_state s)) (set_next_rx h).
Proof. unfold set_next_rx. jkeeps. Qed.
Lemma set_ecn_keeps e s : J s (eq (m_state s)) (set_ecn e).
Proof. unfold set_ecn. jkeeps. Qed.
Lemma notify_send_available_keeps s : J s (eq (m_state s)) notify_send_available.
Proof. unfold notify_send_available. jkeeps. Qed.
Hint Resolve syn_acked_keeps set_peer_keeps set_next_rx_keeps set_ecn_keeps
  notify_send_available_keeps : keeps.

Lemma enter_established_T s :
  m_state s = SYN_SENT \/ m_state s = SYN_RCVD -> J s T enter_established.
Proof. intros Hs. unfold enter_established. jvis; jedge. Qed.
Lemma reply_synack_T b s : J s T (reply_synack b).
Proof. unfold reply_synack. jvis. Qed.
Lemma finish_wait_T h s : J s T (finish_wait h).
Proof.
  unfold finish_wait. apply J_get. apply J_when; [|done]. intros Hw. known_state.
  - rewrite bool_decide_eq_true_2 by done.
    eapply (J_bind _ T); [|intros ? s1 _; jvis].
    eapply (J_bind _ (eq CLOSING)); [apply J_set_state; [rewrite H; constructor|done]|intros ? s1 H1].
    apply J_when; [|done]. intros _. eapply J_weaken; [apply TimeWait_vis; rewrite <- H1; constructor|done].
  - rewrite bool_decide_eq_false_2 by congruence.
    eapply (J_bind _ T); [|intros ? s1 _; jvis].
    eapply J_weaken; [apply TimeWait_vis; rewrite H; constructor|done].
Qed.
Hint Resolve reply_synack_T finish_wait_T : visible.

Lemma ProcessEstablished_T p h s : J s T (ProcessEstablished p h).
Proof. unfold ProcessEstablished. jvis. Qed.
Lemma ProcessListen_T h a b s : J s T (ProcessListen h a b).
Proof. unfold ProcessListen. jvis. Qed.
Lemma ProcessWait_T p h s : J s T (ProcessWait p h).
Proof. unfold ProcessWait. jvis; jedge. Qed.
Lemma ProcessClosing_T h s : m_state s = CLOSING -> J s T (ProcessClosing h).
Proof.
  intros Hs. unfold ProcessClosing. apply J_get. cbv zeta. destruct (flags2 h =? ACK).
  - apply J_when; [intros _|done]. eapply J_weaken; [apply TimeWait_vis; rewrite Hs; constructor|done].
  - jvis.
Qed.
Lemma ProcessLastAck_T p h s : J s T (ProcessLastAck p h).
Proof. unfold ProcessLastAck. jvis. Qed.
Lemma ProcessSynSent_T p h s : m_state s = SYN_SENT -> J s T (ProcessSynSent p h).
Proof.
  intros Hs. unfold ProcessSynSent. apply J_get. cbv zeta.
  repeat match goal with |- J _ _ (if ?b then _ else _) => destruct b end; try solve [jvis; jedge].
  - eapply (J_bind s T); [by apply enter_established_T; left|intros ? s1 _; jvis].
  - eapply (J_bind s T); [by apply enter_established_T; left|intros ? s1 _; jvis].
Qed.
Lemma ProcessSynRcvd_T p h a s : m_state s = SYN_RCVD -> J s T (ProcessSynRcvd p h a).
Proof.
  intros Hs. unfold ProcessSynRcvd. apply J_get. cbv zeta.
  repeat match goal with |- J _ _ (if ?b then _ else _) => destruct b end; try solve [jvis; jedge].
  eapply (J_bind s T); [by apply enter_established_T; right|intros ? s1 _; jvis].
Qed.
Lemma forward_closed_keeps h a b s : J s (eq (m_state s)) (forward_closed h a b).
Proof. unfold forward_closed. jkeeps. Qed.
Hint Resolve ProcessEstablished_T ProcessListen_T ProcessWait_T ProcessLastAck_T : visible.
Hint Resolve forward_closed_keeps : keeps.

Lemma dispatch_T p h a b s : J s T (dispatch p h a b).
Proof.
  unfold dispatch. apply J_get. destruct (m_state s) eqn:Hs; try solve [jvis].
  - by apply ProcessSynSent_T.
  - by apply ProcessSynRcvd_T.
  - by apply ProcessClosing_T.
Qed.
Hint Resolve dispatch_T : visible.

Lemma ProcessOptionTimestamp_keeps a b c s : J s (eq (m_state s)) (ProcessOptionTimestamp a b c).
Proof. unfold ProcessOptionTimestamp. jkeeps. Qed.
Lemma ProcessOptionCongestionWindow_keeps n s : J s (eq (m_state s)) (ProcessOptionCongestionWindow n).
Proof. unfold ProcessOptionCongestionWindow. jkeeps. Qed.
Lemma ProcessOptionWScale_keeps n s : J s (eq (m_state s)) (ProcessOptionWScale n).
Proof. unfold ProcessOptionWScale. jkeeps. Qed.
Lemma ProcessOptionSackPermitted_keeps s : J s (eq (m_state s)) ProcessOptionSackPermitted.
Proof. unfold ProcessOptionSackPermitted. jkeeps. Qed.
Hint Resolve ProcessOptionTimestamp_keeps ProcessOptionCongestionWindow_keeps
  ProcessOptionWScale_keeps ProcessOptionSackPermitted_keeps : keeps.
Lemma forward_syn_keeps h s : J s (eq (m_state s)) (forward_syn h).
Proof. unfold forward_syn. jkeeps. Qed.
Lemma forward_ack_keeps h s : J s (eq (m_state s)) (forward_ack h).
Proof. unfold forward_ack. jkeeps. Qed.
Lemma enter_persist_keeps s : J s (eq (m_state s)) enter_persist.
Proof. unfold enter_persist. jkeeps. Qed.
Lemma IsValidTcpSegment_keeps a b c s : J s (eq (m_state s)) (IsValidTcpSegment a b c).
Proof. unfold IsValidTcpSegment. jkeeps. Qed.
Hint Resolve forward_syn_keeps forward_ack_keeps enter_persist_keeps IsValidTcpSegment_keeps : keeps.
Lemma leave_persist_T s : J s T leave_persist.
Proof. unfold leave_persist. jvis. Qed.
Hint Resolve leave_persist_T : visible.
Lemma DoForwardUp_T p h a b s : J s T (DoForwardUp p h a b).
Proof. unfold DoForwardUp. jvis. Qed.
Hint Resolve DoForwardUp_T : visible.
Lemma ForwardUp_T p h n e a b s : J s T (ForwardUp p h n e a b).
Proof. unfold ForwardUp. jvis. Qed.
Hint Resolve ForwardUp_T : visible.
Lemma ShutdownRecv_keeps s : J s (eq (m_state s)) ShutdownRecv.
Proof. unfold ShutdownRecv. jkeeps. Qed.
Lemma SetRcvBufSize_keeps n s : J s (eq (m_state s)) (SetRcvBufSize n).
Proof. unfold SetRcvBufSize. jkeeps. Qed.
Lemma Recv_keeps n s : J s (eq (m_state s)) (Recv n).
Proof. unfold Recv. jkeeps. Qed.
Lemma Destroy_keeps s : J s (eq (m_state s)) Destroy.
Proof. unfold Destroy. jkeeps. Qed.
Lemma ConnectionSucceeded_keeps s : J s (eq (m_state s)) ConnectionSucceeded.
Proof. unfold ConnectionSucceeded. jkeeps. Qed.
Hint Resolve ShutdownRecv_keeps SetRcvBufSize_keeps Recv_keeps Destroy_keeps
  ConnectionSucceeded_keeps : keeps.
Lemma run_handler_T h s : J s T (run_handler h).
Proof. unfold run_handler. jvis. Qed.
Hint Resolve run_handler_T ShutdownSend_T : visible.

Lemma clear_timer_keeps n s : J s (eq (m_state s)) (upd (clear_timer n)).
Proof. destruct n; (apply J_upd; [vquiet|reflexivity]). Qed.

Lemma step_vis e s : J s T (step e).
Proof.
  destruct e; cbn [step]; try solve [jvis].
  apply J_get. destruct (timer_of s n) as [ev|]; [|by apply J_ret].
  apply J_when; [intros _|done]. eapply (J_bind s T).
  - eapply J_weaken; [apply clear_timer_keeps|done].
  - intros ? s1 _. jvis.
Qed.

(** ** The visible steps of a run *)

Lemma vstep_edges s s' : rtc vstep s s' -> rtc edge (m_state s) (m_state s').
Proof.
  induction 1 as [s|s s1 s' Hv _ IH]; [reflexivity|]. destruct Hv as [s s1 [Hq _]|s t He| |].
  - by rewrite Hq in IH.
  - eapply rtc_l; [exact He|exact IH].
  - exact IH.
  - exact IH.
Qed.

(** The number of normal-close notifications among the outputs. *)
Definition is_normal_close (o : Output) : bool :=
  match o with O_Notify NotifyNormalClose => true | _ => false end.
Definition normal_closes (l : list Output) : nat := length (List.filter is_normal_close l).

Lemma normal_closes_snoc l o :
  normal_closes (l ++ [o]) = (normal_closes l + if is_normal_close o then 1 else 0)%nat.
Proof. unfold normal_closes. rewrite List.filter_app, length_app. cbn. by destruct (is_normal_close o). Qed.

Definition close_once s : Prop := normal_closes (m_out s) = if m_closeNotified s then 1%nat else 0%nat.

Lemma vstep_close_once s s' : rtc vstep s s' -> close_once s ->
  close_once s' /\ (m_closeNotified s = true -> m_closeNotified s' = true).
Proof.
  induction 1 as [s|s s1 s' Hv _ IH]; [done|]. intros Hc.
  assert (close_once s1 /\ (m_closeNotified s = true -> m_closeNotified s1 = true)) as [H1 H2].
  { unfold close_once in *. destruct Hv as [s s1 (_ & Hn & Ho)|s t He|s o Ho|s Hn].
    - rewrite Hn, Ho. by split.
    - by split.
    - change (normal_closes (m_out s ++ [o]) = (if m_closeNotified s then 1 else 0)%nat
        /\ (m_closeNotified s = true -> m_closeNotified s = true)).
      rewrite normal_closes_snoc, Hc. split; [|done].
      destruct o as [| [] | | | |]; cbn; try (rewrite Nat.add_0_r; done). done.
    - change (normal_closes (m_out s ++ [O_Notify NotifyNormalClose]) = 1%nat
        /\ (m_closeNotified s = true -> true = true)).
      rewrite normal_closes_snoc, Hc, Hn. by split. }
  destruct (IH H1) as [H3 H4]. split; [done|auto].
Qed.
End Visible.
