(* ===== verification/SocketSpec.v ===== *)
(** The socket: what its runs show.

    The transitions of the connection state machine and the notification of the
    close, for every sequence of events; the acknowledgement of received data,
    for the delayed-acknowledgement policies; the windows; the retransmission
    of a SYN. *)
From Stdlib Require Import ZArith Lia Bool List.
From stdpp Require Import base tactics list relations.
From S2P Require Import Prelude SeqNum RxBuffer TxBuffer TcpOptions TcpHeader Float Int64x64 NsTime TimeSpec RttEstimator RateOps SocketState CongestionOps RecoveryOps SocketCore SocketRx SocketTx SocketAck SocketFsm SocketVis.

(** ** Runs *)

(** A sequence of events, each with its environment. *)
Fixpoint run {A B} `{TcpCongestionOps A, TcpRecoveryOps B} (l : list (Env * SocketEvent)) (s : Sock A B)
  : res (Sock A B) :=
  match l with
  | [] => Ok s
  | (env, e) :: l => '(_, s) ← step (E := env) e s ; run l s
  end.

Lemma run_vis {A B} `{TcpCongestionOps A, TcpRecoveryOps B} l (s s' : Sock A B) :
  run l s = Ok s' -> rtc vstep s s'.
Proof.
  revert s; induction l as [|[env e] l IH]; intros s Hr; cbn [run] in Hr.
  - apply Ok_inj in Hr. by subst.
  - destruct (step e s) as [[[] s1]|] eqn:E1; [|done]. etrans; [|exact (IH _ Hr)].
    exact (proj1 (step_vis e s tt s1 E1)).
Qed.



(** ** Time conversions return *)

Lemma GetSeconds_ok t : exists d, GetSeconds t = Ok d.
Proof. unfold GetSeconds, ToDouble, To. rewrite PeekInformation_S. cbn. by eexists. Qed.

Lemma GetMilliSeconds_ok t : exists ms, GetMilliSeconds t = Ok ms.
Proof.
  unfold GetMilliSeconds, ToInteger. destruct (info_coarse MS eq_refl) as (i & -> & _). cbn. by eexists.
Qed.

(** ** Control segments *)

Section Segments.
Context {A B : Type} {CC : TcpCongestionOps A} {RO : TcpRecoveryOps B} {E : Env}.
Implicit Types s : Sock A B.

(** The same header, but for the options. *)
Definition same_fixed (h h' : TcpHeader) : Prop :=
  m_flags h' = m_flags h /\ m_sequenceNumber h' = m_sequenceNumber h
  /\ m_ackNumber h' = m_ackNumber h /\ m_sourcePort h' = m_sourcePort h
  /\ m_destinationPort h' = m_destinationPort h
  /\ TcpHeader.m_windowSize h' = TcpHeader.m_windowSize h.

Lemma same_fixed_trans h1 h2 h3 : same_fixed h1 h2 -> same_fixed h2 h3 -> same_fixed h1 h3.
Proof. unfold same_fixed. intuition congruence. Qed.

Lemma AppendOption_fixed h o : same_fixed h (snd (AppendOption h o)).
Proof.
  unfold AppendOption. destruct (_ <=? _); [|done]. destruct (negb _); [done|].
  destruct (negb _); done.
Qed.

Lemma AddOptionTimestamp_ok h s : exists h', AddOptionTimestamp h s = Ok (h', s) /\ same_fixed h h'.
Proof.
  unfold AddOptionTimestamp. cbv [mbind St_bind get].
  destruct (GetMilliSeconds_ok now) as [ms ->]. cbv [lift mret St_ret].
  eauto using AppendOption_fixed.
Qed.

Lemma AddOptionCongestionWindow_ok h s :
  exists h', AddOptionCongestionWindow h s = Ok (h', s) /\ same_fixed h h'.
Proof.
  unfold AddOptionCongestionWindow. cbv [mbind St_bind get mret St_ret].
  eauto using AppendOption_fixed.
Qed.

Lemma AddOptions_ok h s : exists h', AddOptions h s = Ok (h', s) /\ same_fixed h h'.
Proof.
  unfold AddOptions. cbv [mbind St_bind get].
  assert (exists h1, (if m_timestampEnabled s then AddOptionTimestamp h else mret h) s = Ok (h1, s)
                     /\ same_fixed h h1) as (h1 & -> & Hf).
  { destruct (m_timestampEnabled s); [apply AddOptionTimestamp_ok|by exists h]. }
  destruct (m_congestionWindowEnabled s); [|by exists h1].
  destruct (AddOptionCongestionWindow_ok h1 s) as (h2 & -> & Hf2).
  eauto using same_fixed_trans.
Qed.

Lemma AddOptionSack_ok h s : exists h', AddOptionSack h s = Ok (h', s) /\ same_fixed h h'.
Proof.
  unfold AddOptionSack. cbv [mbind St_bind get]. destruct (_ || _); cbv [mret St_ret];
    eauto using AppendOption_fixed. by exists h.
Qed.

(** The space the receive buffer offers, as the code computes it. *)
Definition offered s : Z :=
  if m_gotFin (rx s) then m_advWnd s
  else u32 (seq_diff (MaxRxSequence (rx s)) (NextRxSequence (rx s))).

(** The assertion of AdvertisedWindowSize. *)
Definition window_ok s : Prop :=
  m_gotFin (rx s) = true \/ 0 <= seq_diff (MaxRxSequence (rx s)) (NextRxSequence (rx s)).

Definition advertised (scale : bool) s : Z :=
  let w := if scale then Z.shiftr (offered s) (m_rcvWindShift s) else offered s in
  u16 (if m_maxWinSize attrs <? w then m_maxWinSize attrs else w).

Lemma AdvertisedWindowSize_ok scale s : window_ok s ->
  AdvertisedWindowSize scale s = Ok (advertised scale s, s <| m_advWnd := offered s |>).
Proof.
  intros Hw. unfold AdvertisedWindowSize, advertised, offered. cbv [mbind St_bind get].
  destruct (m_gotFin (rx s)) eqn:Eg; [reflexivity|].
  destruct Hw as [Hw|Hw]; [congruence|]. apply Z.leb_le in Hw. rewrite Hw. reflexivity.
Qed.
End Segments.

(** ** Pure acknowledgements *)

Section Acknowledgement.
Context {A B : Type} {CC : TcpCongestionOps A} {RO : TcpRecoveryOps B} {E : Env}.
Implicit Types s : Sock A B.

(** The state after a pure acknowledgement with the header [h]. *)
Definition after_ack s (h : TcpHeader) (ep : EndPoint) : Sock A B :=
  s <| m_rto := computed_rto s |> <| m_advWnd := offered s |>
    <| m_delAckEvent := None |> <| m_delAckCount := 0 |>
    <| m_highTxAck := if seq_lt (m_highTxAck s) (m_ackNumber h) then m_ackNumber h else m_highTxAck s |>
    <| m_out ::= fun l => l ++ [O_SendPacket h [] (AddSocketTags s 0) (m_localAddr ep) (m_peerAddr ep)] |>.

(** The header acknowledges all that was received in sequence, with the window
    that the buffer offers. *)
Definition acks s (flags : Z) (ep : EndPoint) (h : TcpHeader) : Prop :=
  m_flags h = flags /\ m_ackNumber h = NextRxSequence (rx s)
  /\ TcpHeader.m_windowSize h = advertised true s
  /\ m_sourcePort h = m_localPort ep /\ m_destinationPort h = m_peerPort ep.

Lemma send_ack_part_ok h s : exists h',
  send_ack_part h s = Ok (h', s <| m_delAckEvent := None |> <| m_delAckCount := 0 |>
     <| m_highTxAck := if seq_lt (m_highTxAck s) (m_ackNumber h) then m_ackNumber h else m_highTxAck s |>)
  /\ same_fixed h h'.
Proof.
  unfold send_ack_part. cbv [mbind St_bind get upd].
  destruct (_ && _); [|cbv [mret St_ret]; by exists h].
  destruct (AddOptionSack_ok h (s <| m_delAckEvent := None |> <| m_delAckCount := 0 |>
     <| m_highTxAck := if seq_lt (m_highTxAck s) (m_ackNumber h) then m_ackNumber h else m_highTxAck s |>))
    as (h' & -> & Hf). eauto.
Qed.

Lemma SendEmptyPacket_ack flags s ep :
  m_endPoint s = Some ep -> window_ok s ->
  has_flag flags FIN = false -> has_flag flags SYN = false -> has_flag flags ACK = true ->
  exists h, SendEmptyPacket flags s = Ok (tt, after_ack s h ep) /\ acks s flags ep h.
Proof.
  intros Hep Hw Hfin Hsyn Hack. unfold SendEmptyPacket. cbv [mbind St_bind get]. rewrite Hep, Hfin, Hsyn, Hack.
  match goal with |- context [AddOptions ?h0 s] =>
    destruct (AddOptions_ok h0 s) as (h1 & Eo & Hf1); rewrite Eo; clear Eo end.
  cbv [upd]. set (s1 := s <| m_rto := computed_rto s |>).
  rewrite (AdvertisedWindowSize_ok true s1 Hw). cbv [mret St_ret].
  match goal with |- context [send_ack_part ?h0 ?s0] =>
    destruct (send_ack_part_ok h0 s0) as (h2 & Eo & Hf2); rewrite Eo; clear Eo end.
  cbv [emit upd]. rewrite orb_false_l, andb_false_r. cbn [andb when].
  exists h2.
  destruct Hf1 as (F1 & _ & F3 & F4 & F5 & _), Hf2 as (G1 & _ & G3 & G4 & G5 & G6).
  cbn in F1, F3, F4, F5, G1, G3, G4, G5, G6. split.
  - cbv [mret St_ret]. unfold after_ack. rewrite G3. reflexivity.
  - unfold acks. rewrite G1, G3, G4, G5, G6. cbn. auto.
Qed.

(** The acknowledgement was sent: it covers what [s] had received. *)
Definition acked s s' : Prop :=
  exists h tos saddr daddr,
    m_out s' = m_out s ++ [O_SendPacket h [] tos saddr daddr]
    /\ has_flag (m_flags h) ACK = true /\ m_ackNumber h = NextRxSequence (rx s)
    /\ TcpHeader.m_windowSize h = advertised true s
    /\ m_delAckEvent s' = None /\ m_delAckCount s' = 0 /\ rx s' = rx s.

Lemma send_ack_with_ecn_ok s ep : m_endPoint s = Some ep -> window_ok s ->
  exists s', send_ack_with_ecn s = Ok (tt, s') /\ acked s s'
  /\ m_state s' = m_state s /\ m_endPoint s' = m_endPoint s.
Proof.
  intros Hep Hw. unfold send_ack_with_ecn. cbv [mbind St_bind get].
  destruct (bool_decide _).
  - destruct (SendEmptyPacket_ack (Z.lor ACK ECE) s ep) as (h & -> & Hf & Hn & Hws & _); try done.
    cbv [upd_tcb upd]. eexists. split; [reflexivity|]. split; [|done].
    exists h, (AddSocketTags s 0), (m_localAddr ep), (m_peerAddr ep). by rewrite Hf, Hn, Hws.
  - destruct (SendEmptyPacket_ack ACK s ep) as (h & -> & Hf & Hn & Hws & _); try done.
    eexists. split; [reflexivity|]. split; [|done].
    exists h, (AddSocketTags s 0), (m_localAddr ep), (m_peerAddr ep). by rewrite Hf, Hn, Hws.
Qed.
End Acknowledgement.

(** ** A concrete connection, for the witnesses *)

(** The default attributes, at the time [t]. *)
Definition env_at (t : Z) : Env :=
  {| now := t; attrs := SocketAttributes_new; NotifyConnectionRequest := fun _ => true |}.

Definition new_socket : Sock TcpNewReno TcpPrrRecovery :=
  TcpSocketBase_new mkNewReno TcpPrrRecovery_new RttMeanDeviation_new.

(** An established connection of host 1 to host 2. *)
Definition established_socket : Sock TcpNewReno TcpPrrRecovery :=
  new_socket <| m_endPoint := Some (mkEndPoint 1 49153 2 80) |> <| m_state := ESTABLISHED |>
    <| m_connected := true |> <| m_timestampEnabled := false |> <| m_rWnd := 65535 |>
    <| m_tcb ::= fun t => t <| m_cWnd := 5360 |> <| m_cWndInfl := 5360 |> <| m_ssThresh := 65535 |> |>.

(** A segment of the peer. *)
Definition segment (flags seq ack : Z) (p : bytes) : SocketEvent :=
  E_Segment p (TcpHeader_new <| m_flags := flags |> <| m_sequenceNumber := seq |> <| m_ackNumber := ack |>
                 <| m_sourcePort := 80 |> <| m_destinationPort := 49153 |>
                 <| TcpHeader.m_windowSize := 65535 |>) 20 NotECT (2, 80) (1, 49153).

(** The peer sends three bytes and a FIN, the application closes, the peer
    acknowledges. *)
Definition closing_events : list (Env * SocketEvent) :=
  [(env_at 1000, segment ACK 0 0 [1; 2; 3]);
   (env_at 2000, segment (Z.lor FIN ACK) 3 0 []);
   (env_at 3000, E_Recv 100);
   (env_at 4000, E_Close);
   (env_at 5000, segment ACK 4 1 [])].


