(* ===== verification/DelAckSpec.v ===== *)
(** The acknowledgement of received data: with the standard policy, every
    segment that is stored is acknowledged at once or within the delay of
    m_delAckTimeout; with the aggregation-aware policy, the delay is computed
    from an inter-arrival time that can be infinite. *)
From Stdlib Require Import ZArith Lia Bool List SpecFloat.
From stdpp Require Import base tactics list relations.
From S2P Require Import Prelude SeqNum TxBuffer RxBuffer RxBufferSpec TcpOptions TcpHeader Float Int64x64 NsTime TimeSpec RttEstimator RateOps SocketState CongestionOps RecoveryOps SocketCore SocketRx SocketTx SocketAck SocketFsm SocketVis SocketSpec.

(** ** The receive buffer of a socket

    [b] is the buffer at unwrapped positions, as in RxBufferSpec; [inside] says
    that what it holds lies in the window of the application's reads. *)

Definition inside (b : TcpRxBuffer) : Prop :=
  forall x, covered (m_data b) x -> x < rx_first b + m_maxBuffer b.

Record receives {A B} (S : Z -> Z) (b : TcpRxBuffer) (s : Sock A B) : Prop := {
  rcv_rx : rx s = wrap_rx b;
  rcv_ok : rx_ok S b;
  rcv_inside : inside b;
}.

Lemma next_inside S b : rx_ok S b -> inside b -> m_nextRxSeq b <= rx_first b + m_maxBuffer b.
Proof.
  intros [] Hi. destruct ok_split as (pre & post & Hd & Hc & _). unfold rx_first in *.
  destruct (Z_le_gt_dec (m_availBytes b) 0); [lia|].
  assert (covered (m_data b) (m_nextRxSeq b - 1)) as Hx%Hi; [|unfold rx_first in *; lia].
  rewrite Hd. rewrite (covered_app S). left. eapply (contiguous_covered S); [exact Hc|lia].
Qed.

(** The window the buffer offers. *)
Lemma offered_room S b : rx_ok S b -> inside b ->
  0 <= seq_diff (SA := seq32) (MaxRxSequence (wrap_rx b)) (NextRxSequence (wrap_rx b)) <= m_maxBuffer b.
Proof.
  intros Hok Hi. pose proof (next_inside S b Hok Hi) as Hn. pose proof (rx_ok_avail S b Hok) as Hav.
  destruct Hok. unfold MaxRxSequence, NextRxSequence.
  change (m_gotFin (wrap_rx b)) with (m_gotFin b). rewrite ok_nofin.
  change (m_nextRxSeq (wrap_rx b)) with (u32 (m_nextRxSeq b)).
  change (m_maxBuffer (wrap_rx b)) with (m_maxBuffer b).
  change (m_data (wrap_rx b)) with (map wrap_kv (m_data b)).
  unfold W in *.
  assert (seq_diff (SA := seq32) (seq_add (SA := seq32) (u32 (m_nextRxSeq b)) (m_maxBuffer b)) (u32 (m_nextRxSeq b)) = m_maxBuffer b) as E0.
  { rewrite add32_wrap, diff32_window by lia. lia. }
  destruct (m_data b) as [|[k v] l] eqn:Ed; cbn [map wrap_kv fst snd]; [lia|].
  assert (rx_first b <= k) as Hk.
  { cbn in ok_blocks. lia. }
  assert (k < rx_first b + 2 ^ 29).
  { destruct (blocks_elem_lt S _ _ _ k v ok_blocks); [left|]. lia. }
  unfold rx_first in *. rewrite gt32_window by lia. destruct (Z.ltb_spec k (m_nextRxSeq b)); [|lia].
  rewrite add32_wrap, diff32_window by lia. lia.
Qed.

Lemma receives_window {A B} S b (s : Sock A B) : receives S b s -> window_ok s.
Proof. intros [Hr Hok Hi]. right. rewrite Hr. apply (offered_room S b Hok Hi). Qed.

(** Storing a segment that lies in the window. *)
Lemma added_inside S b seq len b' : rx_ok S b -> inside b -> added S b seq len b' ->
  seq + len <= rx_first b + m_maxBuffer b -> inside b'.
Proof.
  intros _ Hi [] Hs x Hx. rewrite add_first, add_max. destruct (add_only x Hx) as [?|?]; [by apply Hi|lia].
Qed.

(** ** ReceivedData *)

Section Received.
Context {A B : Type} `{CL : TcpCongestionLaws A} {RO : TcpRecoveryOps B} {E : Env}.
Implicit Types s : Sock A B.

(** Only the members of the delay policies change, and the window of the trace. *)
Definition same_but_iat s s' : Prop :=
  s' = s <| m_dwnd := m_dwnd s' |> <| m_iat := m_iat s' |> <| m_baseIat := m_baseIat s' |>
         <| m_lastUpdate := m_lastUpdate s' |> <| m_lastPacketTime := m_lastPacketTime s' |>
         <| m_advWnd := m_advWnd s' |>.

Lemma same_but_iat_trans s1 s2 s3 : same_but_iat s1 s2 -> same_but_iat s2 s3 -> same_but_iat s1 s3.
Proof. unfold same_but_iat. intros E1 E2. rewrite E2 at 1. rewrite E1. reflexivity. Qed.

Lemma same_window s s' : same_but_iat s s' -> window_ok s -> window_ok s'.
Proof. intros ->. exact (fun h => h). Qed.

Lemma UpdateDelayWindow_ok theta s : window_ok s ->
  exists s', UpdateDelayWindow theta s = Ok (tt, s') /\ same_but_iat s s'.
Proof.
  intros Hw. unfold UpdateDelayWindow. cbv [mbind St_bind get].
  rewrite (AdvertisedWindowSize_ok false s Hw).
  destruct (0 <? m_cwndDiff s); [|destruct (m_cwndDiff s <? 0)];
    cbv [upd mret St_ret]; eexists; (split; [reflexivity|]); by destruct s.
Qed.

(** The part of update_iat for an inter-arrival time that is not too small. *)
Lemma update_iat_ok s : window_ok s -> exists s', update_iat s = Ok (tt, s') /\ same_but_iat s s'.
Proof.
  intros Hw. unfold update_iat. cbv [mbind St_bind get upd].
  destruct (m_lastPacketTime s =? Time_min); [eexists; split; [reflexivity|by destruct s]|].
  destruct (GetSeconds_ok (t_sub now (m_lastPacketTime s))) as [iat ->]. cbv [lift].
  destruct (d_ge iat (m_iatThreshold attrs)); cbn [when];
    [|cbv [mret St_ret]; eexists; split; [reflexivity|by destruct s]].
  destruct (GetSeconds_ok (t_sub now (m_lastUpdate s))) as [since ->].
  destruct (m_aadEnabled attrs && d_gt since (d_of_Z 1)); cbn [when]; cbv [mret St_ret];
    match goal with |- context [UpdateDelayWindow ?theta ?s0] =>
      destruct (UpdateDelayWindow_ok theta s0 Hw) as (s' & -> & Hs') end;
    (eexists; split; [reflexivity|]);
    (eapply same_but_iat_trans; [|eapply same_but_iat_trans; [exact Hs'|by destruct s']]); by destruct s.
Qed.

Lemma notify_ok n s : notify n s = Ok (tt, s <| m_out ::= fun l => l ++ [O_Notify n] |>).
Proof. reflexivity. Qed.

(** The call of the congestion control: the window apart, nothing changes. *)
Lemma cwnd_event_ok e s : exists c w,
  cc_upd (fun a t => CwndEvent a t e) s
  = Ok (tt, s <| m_congestionControl := c |> <| m_tcb ::= fun t => t <| m_cWnd := w |> |>).
Proof.
  unfold cc_upd, upd. pose proof (CwndEvent_frame (m_congestionControl s) (m_tcb s) e) as [F _].
  destruct (CwndEvent _ _ _) as [c t]. cbn in F. exists c, (m_cWnd t). by rewrite F.
Qed.

(** An acknowledgement of all that was received is sent, after [l]. *)
Definition acknowledged s s' : Prop :=
  exists l h tos saddr daddr,
    m_out s' = m_out s ++ l ++ [O_SendPacket h [] tos saddr daddr]
    /\ has_flag (m_flags h) ACK = true /\ m_ackNumber h = NextRxSequence (rx s')
    /\ m_delAckEvent s' = None.

(** The timer of the delayed acknowledgement is armed, for [d] at most. *)
Definition ack_pending (d : Z) s' : Prop :=
  exists ev, m_delAckEvent s' = Some ev /\ ev_handler ev = H_DelAckTimeout /\ ev_time ev <= d.

Lemma acked_acknowledged s s1 s' l :
  m_out s1 = m_out s ++ l -> acked s1 s' -> acknowledged s s'.
Proof.
  intros Ho (h & tos & sa & da & Ho' & Hf & Hn & _ & Hd & _ & Hr).
  exists l, h, tos, sa, da. rewrite Ho', Ho, Hr, app_assoc. auto.
Qed.

(** The standard policy, and the clock. *)
Record standard_policy : Prop := {
  sp_adw : m_adwEnabled attrs = false;
  sp_aad : m_aadEnabled attrs = false;
  sp_timeout : 0 <= m_delAckTimeout attrs;
  sp_clock : 0 <= now /\ now + m_delAckTimeout attrs < 2 ^ 63;
}.

Definition timer_ok s : Prop :=
  forall ev, m_delAckEvent s = Some ev -> ev_handler ev = H_DelAckTimeout
                                          /\ ev_time ev <= now + m_delAckTimeout attrs.

Lemma issueTimeout_ok s : standard_policy ->
  exists s', issueTimeout s = Ok (tt, s') /\ ack_pending (now + m_delAckTimeout attrs) s'
  /\ rx s' = rx s /\ m_state s' = m_state s /\ m_endPoint s' = m_endPoint s.
Proof.
  intros Hp. unfold issueTimeout, GetDelayTimeout, Schedule. cbv [mbind St_bind get].
  rewrite (sp_adw Hp), (sp_aad Hp). cbn [negb andb]. cbv [lift].
  pose proof (sp_timeout Hp) as Hd. pose proof (sp_clock Hp). apply Z.leb_le in Hd.
  rewrite Hd. cbn [ns_assert]. cbv [mret St_ret upd]. eexists. split; [reflexivity|].
  split; [|done]. eexists. split; [reflexivity|]. split; [reflexivity|]. cbn [ev_time].
  unfold t_add, i64. rewrite sint_small; lia.
Qed.

Lemma ack_received_ok size expectedSeq s ep :
  standard_policy -> m_endPoint s = Some ep -> window_ok s -> timer_ok s ->
  exists s', ack_received size expectedSeq s = Ok (tt, s')
  /\ (acknowledged s s' \/ ack_pending (now + m_delAckTimeout attrs) s')
  /\ rx s' = rx s /\ m_state s' = m_state s /\ m_endPoint s' = m_endPoint s.
Proof.
  intros Hp Hep Hw Ht. unfold ack_received. cbv [mbind St_bind get].
  destruct (_ || _).
  - destruct (cwnd_event_ok CA_EVENT_NON_DELAYED_ACK s) as (c & w & ->). cbv [upd].
    match goal with |- context [send_ack_with_ecn ?s0] =>
      destruct (send_ack_with_ecn_ok s0 ep Hep Hw) as (s' & -> & Ha & Hst & He) end.
    eexists. split; [reflexivity|]. split; [left; eapply acked_acknowledged; [|exact Ha]; by rewrite app_nil_r|].
    destruct Ha as (? & ? & ? & ? & _ & _ & _ & _ & _ & _ & Hr). auto.
  - cbv [upd]. destruct (d_ge _ _).
    + match goal with |- context [cc_upd ?f ?s0] =>
        destruct (cwnd_event_ok CA_EVENT_NON_DELAYED_ACK s0) as (c & w & ->) end.
      match goal with |- context [send_ack_with_ecn ?s0] =>
        destruct (send_ack_with_ecn_ok s0 ep Hep Hw) as (s' & -> & Ha & Hst & He) end.
      eexists. split; [reflexivity|]. split; [left; eapply acked_acknowledged; [|exact Ha]; by rewrite app_nil_r|].
      destruct Ha as (? & ? & ? & ? & _ & _ & _ & _ & _ & _ & Hr). auto.
    + match goal with |- context [cc_upd ?f ?s0] =>
        destruct (cwnd_event_ok CA_EVENT_DELAYED_ACK s0) as (c & w & ->) end.
      change (m_delAckEvent (s <| m_delAckCount := _ |>)) with (m_delAckEvent s).
      destruct (m_delAckEvent s) as [ev|] eqn:Eev; cbn [IsExpired IsRunning negb].
      * rewrite (sp_adw Hp), (sp_aad Hp). cbn [orb when]. cbv [mret St_ret].
        eexists. split; [reflexivity|]. split; [right|done]. exists ev. split; [exact Eev|]. by apply Ht.
      * match goal with |- context [issueTimeout ?s0] =>
          destruct (issueTimeout_ok s0 Hp) as (s' & -> & Ha & Hr & Hst & He) end.
        eexists. split; [reflexivity|]. auto.
Qed.

(** When the timer fires, what was received is acknowledged. *)
Lemma DelAckTimeout_ok s ep : m_endPoint s = Some ep -> window_ok s ->
  exists s', DelAckTimeout s = Ok (tt, s') /\ acknowledged s s' /\ rx s' = rx s.
Proof.
  intros Hep Hw. unfold DelAckTimeout. cbv [mbind St_bind upd].
  match goal with |- context [cc_upd ?f ?s0] =>
    destruct (cwnd_event_ok CA_EVENT_DELAYED_ACK s0) as (c & w & ->) end.
  match goal with |- context [send_ack_with_ecn ?s0] =>
    destruct (send_ack_with_ecn_ok s0 ep Hep Hw) as (s' & -> & Ha & _) end.
  eexists. split; [reflexivity|]. split; [eapply acked_acknowledged; [|exact Ha]; by rewrite app_nil_r|].
  by destruct Ha as (? & ? & ? & ? & _ & _ & _ & _ & _ & _ & Hr).
Qed.

(** A segment of the peer's stream [S], inside the window. *)
Record in_window (S : Z -> Z) (b : TcpRxBuffer) (p : bytes) (seq : Z) : Prop := {
  iw_bytes : p = stream_slice S seq (length p);
  iw_low : m_nextRxSeq b - W <= seq;
  iw_high : seq + zlen p <= rx_first b + m_maxBuffer b;
}.

Lemma stored S b s p seq : receives S b s -> in_window S b p seq ->
  exists r b', Add (SA := seq32) (rx s) p (u32 seq) = Ok (r, wrap_rx b')
  /\ added S b seq (zlen p) b' /\ inside b'.
Proof.
  intros [Hr Hok Hi] [Hp Hlo Hhi]. pose proof (rx_ok_avail S b Hok). pose proof (ok_avail S b Hok).
  pose proof (ok_max S b Hok).
  destruct (Add_spec S b p seq Hok Hp Hlo ltac:(unfold rx_first in *; lia)) as (r & b' & Ea & Had).
  exists r, b'. rewrite Hr, (wrap_Add S), Ea by (done || unfold rx_first in *; lia).
  split; [done|]. split; [done|]. by eapply added_inside.
Qed.

Lemma ReceivedData_ok S b s p h seq ep :
  standard_policy -> m_endPoint s = Some ep -> timer_ok s ->
  receives S b s -> in_window S b p seq -> m_sequenceNumber h = u32 seq ->
  exists s' b', ReceivedData p h s = Ok (tt, s')
  /\ receives S b' s' /\ added S b seq (zlen p) b'
  /\ m_state s' = m_state s /\ m_endPoint s' = m_endPoint s
  /\ (acknowledged s s' \/ ack_pending (now + m_delAckTimeout attrs) s').
Proof.
  intros Hp Hep Ht Hr Hw Hh. unfold ReceivedData. cbv [mbind St_bind get].
  destruct (update_iat_ok s (receives_window S b s Hr)) as (s1 & -> & Hs1).
  destruct (stored S b s p seq Hr Hw) as (r & b' & Ea & Had & Hin).
  assert (rx s1 = rx s) as -> by (by rewrite Hs1). rewrite Hh, Ea. cbv [lift upd_rx upd_tcb upd].
  set (s2 := s1 <| m_tcb ::= _ |>).
  assert (rx s2 = wrap_rx b') as Hrx by reflexivity.
  assert (m_endPoint s2 = Some ep) as Hep2 by (by rewrite <- Hep; unfold s2; rewrite Hs1).
  assert (m_delAckEvent s2 = m_delAckEvent s /\ m_out s2 = m_out s /\ m_state s2 = m_state s
          /\ m_endPoint s2 = m_endPoint s) as (Hev & Ho & Hst & He) by (unfold s2; by rewrite Hs1).
  clearbody s2. clear Hs1 s1 Ea.
  assert (receives S b' s2) as Hr2 by (split; [done|apply Had|done]).
  pose proof (receives_window S b' s2 Hr2) as Hw2.
  assert (forall s', rx s' = rx s2 -> receives S b' s') as Hkeep.
  { intros s' Hs'. destruct Hr2. split; [congruence|done|done]. }
  destruct r; cbn [negb].
  - assert (Finished (rx s2) = false) as Hf.
    { rewrite Hrx. unfold Finished. change (m_gotFin (wrap_rx b')) with (m_gotFin b').
      by rewrite (ok_nofin S b' (add_ok _ _ _ _ _ Had)). }
    assert (exists s3 l, when (seq_lt (NextRxSequence (rx s)) (NextRxSequence (rx s2)) && negb (m_shutdownRecv s2))
              (notify NotifyDataRecv) s2 = Ok (tt, s3) /\ m_out s3 = m_out s ++ l
              /\ rx s3 = rx s2 /\ m_endPoint s3 = m_endPoint s2 /\ m_state s3 = m_state s2
              /\ m_delAckEvent s3 = m_delAckEvent s2) as (s3 & l & -> & Ho3 & Hr3 & He3 & Hst3 & Hev3).
    { destruct (_ && _); cbn [when]; [rewrite notify_ok; exists (s2 <| m_out ::= fun l => l ++ [O_Notify NotifyDataRecv] |>), [O_Notify NotifyDataRecv]|exists s2, []];
        split_and!; try done; cbn; by rewrite ?Ho, ?app_nil_r. }
    rewrite Hf, andb_false_r, andb_false_l. cbv beta iota.
    destruct (ack_received_ok (GetSize p) (NextRxSequence (rx s)) s3 ep Hp) as (s' & -> & Hack & Hr' & Hst' & He').
    { by rewrite He3. }
    { unfold window_ok. rewrite Hr3. exact Hw2. }
    { unfold timer_ok. rewrite Hev3, Hev. exact Ht. }
    exists s', b'. split_and!; [done|apply Hkeep; congruence|done|congruence|congruence|].
    destruct Hack as [(l' & h' & tos & sa & da & Ho' & Hack)|Hack]; [left|by right].
    exists (l ++ l'), h', tos, sa, da. rewrite Ho', Ho3, !app_assoc. done.
  - destruct (send_ack_with_ecn_ok s2 ep Hep2 Hw2) as (s' & -> & Ha & Hst' & He').
    assert (rx s' = rx s2) as Hr' by (by destruct Ha as (? & ? & ? & ? & _ & _ & _ & _ & _ & _ & ?)).
    exists s', b'. split_and!; [done|by apply Hkeep|done|congruence|congruence|left].
    eapply acked_acknowledged; [|exact Ha]. by rewrite Ho, app_nil_r.
Qed.
End Received.


Lemma established_receives :
  receives witness_stream (SetMaxBufferSize (TcpRxBuffer_new 0) 131072) established_socket.
Proof.
  split; [reflexivity|apply rx_ok_new; unfold W; lia|].
  intros x (k & v & Hin & _). by apply elem_of_nil in Hin.
Qed.


(** ** The adaptive policies before the first inter-arrival time *)

(** Infinities and NaN propagate. *)
Definition not_finite (x : double) : Prop :=
  match x with S754_infinity _ | S754_nan => True | _ => False end.

Lemma not_finite_mul a x : not_finite x -> not_finite (d_mul a x).
Proof. destruct a, x; cbn; done. Qed.

Lemma not_finite_add x y : not_finite x -> not_finite (d_add x y).
Proof. destruct x as [|s| |], y as [|s'| |]; try done; by destruct s, s'. Qed.

Lemma Seconds_not_finite x : not_finite x -> Seconds x = Err BadCast.
Proof. destruct x as [|[]| |]; done. Qed.

(** C39. While no inter-arrival time above the threshold was measured, the base
    interval is infinite, and the delay of a delayed acknowledgement under ADW,
    or under AAD past the count of segments, is the conversion of a number that
    is not finite to a Time: undefined behaviour, for all parameters. *)
Theorem delay_timeout_of_infinite_interval {A B} {E : Env} (s : Sock A B) :
  m_baseIat s = INFINITY ->
  m_adwEnabled attrs = true /\ m_aadEnabled attrs = false
  \/ m_aadEnabled attrs = true /\ m_delAckMaxCount attrs <= m_delAckCount s ->
  GetDelayTimeout s = Err BadCast.
Proof.
  intros Hb Hpol. unfold GetDelayTimeout. rewrite Hb.
  rewrite (Seconds_not_finite (d_mul _ (d_add (d_mul _ INFINITY) _)))
    by (apply not_finite_mul, not_finite_add, not_finite_mul; exact I).
  assert ((negb (m_adwEnabled attrs) && negb (m_aadEnabled attrs)) = false
          /\ ((m_delAckCount s <? m_delAckMaxCount attrs) && m_aadEnabled attrs) = false) as [-> ->]; [|done].
  destruct Hpol as [[-> ->]|[-> Hc]]; rewrite ?andb_false_r; [done|].
  split; [by destruct (m_adwEnabled attrs)|]. by destruct (Z.ltb_spec (m_delAckCount s) (m_delAckMaxCount attrs)); [lia|].
Qed.

(** The attributes with the adaptive delay window. *)
Definition adw_env (t : Z) : Env :=
  {| now := t; attrs := SocketAttributes_new <| m_adwEnabled := true |>;
     NotifyConnectionRequest := fun _ => true |}.

(** The first data segment of a connection is enough. *)
Lemma delay_timeout_of_infinite_interval_witness :
  GetDelayTimeout (E := adw_env 5) established_socket = Err BadCast
  /\ ReceivedData (E := adw_env 5) [1; 2; 3] (TcpHeader_new <| m_flags := ACK |>) established_socket
     = Err BadCast.
Proof.
  split; [|vm_compute; reflexivity].
  apply (delay_timeout_of_infinite_interval (E := adw_env 5) established_socket); [reflexivity|].
  left. split; reflexivity.
Defined.
