(* ===== verification/WindowSpec.v ===== *)
(** The windows of the socket: what is advertised fits in the receive buffer and
    in the field of the header, and the scale is the smallest that suffices. *)
From Stdlib Require Import ZArith Lia Bool List.
From stdpp Require Import base tactics list relations.
From S2P Require Import Prelude SeqNum TxBuffer RxBuffer RxBufferSpec TcpOptions TcpHeader Float NsTime RttEstimator RateOps SocketState CongestionOps RecoveryOps SocketCore SocketRx SocketTx SocketAck SocketFsm SocketVis SocketSpec DelAckSpec.

Section Window.
Context {A B : Type} {CC : TcpCongestionOps A} {RO : TcpRecoveryOps B} {E : Env}.
Implicit Types s : Sock A B.

(** The free space of the receive buffer, from the next expected byte on. *)
Definition free_space s : Z := seq_diff (MaxRxSequence (rx s)) (NextRxSequence (rx s)).

(** The loop halves [x] until it fits: [k] times. *)
Lemma wscale_loop_spec fuel x sc : 0 <= m_maxWinSize attrs -> 0 <= x < 2 ^ Z.of_nat fuel ->
  0 <= sc -> sc + Z.of_nat fuel < 256 ->
  exists k, wscale_loop fuel x sc = sc + k /\ 0 <= k
  /\ Z.shiftr x k <= m_maxWinSize attrs /\ (0 < k -> m_maxWinSize attrs < Z.shiftr x (k - 1)).
Proof.
  intros Hm. revert x sc; induction fuel as [|fuel IH]; intros x sc Hx Hsc Hb; cbn [wscale_loop];
    destruct (Z.ltb_spec (m_maxWinSize attrs) x) as [Hlt|Hle].
  - change (2 ^ Z.of_nat 0) with 1 in Hx. lia.
  - exists 0. rewrite Z.shiftr_0_r. split_and!; lia.
  - rewrite Nat2Z.inj_succ, Z.pow_succ_r in Hx by lia.
    assert (0 <= Z.shiftr x 1 < 2 ^ Z.of_nat fuel) as Hx1.
    { rewrite Z.shiftr_div_pow2 by lia. change (2 ^ 1) with 2. split; [apply Z.div_pos; lia|apply Z.div_lt_upper_bound; lia]. }
    rewrite u8_small by (unfold is_u8; lia).
    destruct (IH (Z.shiftr x 1) (sc + 1) Hx1 ltac:(lia) ltac:(lia)) as (k & -> & Hk & Hfit & Hmin).
    exists (k + 1). rewrite Z.shiftr_shiftr in Hfit by lia. split_and!; [lia|lia|by replace (k + 1) with (1 + k) by lia|].
    intros _. replace (k + 1 - 1) with k by lia. destruct (Z.eq_dec k 0) as [->|]; [by rewrite Z.shiftr_0_r|].
    specialize (Hmin ltac:(lia)). rewrite Z.shiftr_shiftr in Hmin by lia. by replace k with (1 + (k - 1)) by lia.
  - exists 0. rewrite Z.shiftr_0_r. split_and!; lia.
Qed.
End Window.

(** The window scale: at most 14; the buffer, scaled, fits in the largest
    window unless 14 is not enough; and no smaller scale would do. *)
Theorem window_scale_minimal {A B} {E : Env} (s : Sock A B) :
  0 <= m_maxWinSize attrs -> is_u32 (RxBuffer.MaxBufferSize (rx s)) ->
  let size := RxBuffer.MaxBufferSize (rx s) in
  let scale := CalculateWScale s in
  0 <= scale <= 14
  /\ (scale < 14 -> Z.shiftr size scale <= m_maxWinSize attrs)
  /\ (0 < scale -> m_maxWinSize attrs < Z.shiftr size (scale - 1)).
Proof.
  intros Hm Hs. cbv zeta. unfold CalculateWScale. set (size := RxBuffer.MaxBufferSize (rx s)) in *.
  destruct (wscale_loop_spec 32 size 0 Hm) as (k & -> & Hk & Hfit & Hmin);
    [exact Hs|lia|lia|]. rewrite Z.add_0_l. destruct (Z.ltb_spec 14 k) as [Hlt|Hle].
  - split_and!; try lia. intros _. specialize (Hmin ltac:(lia)).
    enough (Z.shiftr size (k - 1) <= Z.shiftr size (14 - 1)) by lia.
    unfold is_u32 in Hs. rewrite !Z.shiftr_div_pow2 by lia. apply Z.div_le_compat_l; [lia|].
    split; [reflexivity|]. apply Z.pow_le_mono_r; lia.
  - split_and!; [lia|lia|auto|auto].
Qed.

Lemma window_scale_minimal_witness :
  CalculateWScale (E := env_at 0) new_socket = 2
  /\ Z.shiftr 131072 2 <= 65535 /\ 65535 < Z.shiftr 131072 1.
Proof.
  destruct (window_scale_minimal (E := env_at 0) new_socket) as (_ & Hfit & Hmin);
    [discriminate|split; [discriminate|reflexivity]|].
  split; [reflexivity|]. split; [exact (Hfit ltac:(reflexivity))|exact (Hmin ltac:(reflexivity))].
Defined.

(** C17. The advertised window: it never exceeds the largest window, the peer
    that scales it back gets no more than the free space of the buffer, and,
    unless it was truncated, less than one unit of the scale is withheld. *)
Theorem advertised_window_bounds {A B} {E : Env} S b (s : Sock A B) :
  receives S b s -> 0 <= m_maxWinSize attrs < 2 ^ 16 -> 0 <= m_rcvWindShift s ->
  exists w s', AdvertisedWindowSize true s = Ok (w, s') /\ rx s' = rx s /\ m_state s' = m_state s
  /\ 0 <= w <= m_maxWinSize attrs
  /\ w * 2 ^ m_rcvWindShift s <= free_space s <= m_maxBuffer b
  /\ (w < m_maxWinSize attrs -> free_space s < (w + 1) * 2 ^ m_rcvWindShift s).
Proof.
  intros Hr Hm Hsh. pose proof (receives_window S b s Hr) as Hw. destruct Hr as [Hrx Hok Hi].
  pose proof (offered_room S b Hok Hi) as Hroom. rewrite <- Hrx in Hroom. fold (free_space s) in Hroom.
  eexists _, _. split; [exact (AdvertisedWindowSize_ok true s Hw)|]. split; [done|]. split; [done|].
  assert (offered s = free_space s) as Eo.
  { unfold offered. rewrite Hrx. change (m_gotFin (wrap_rx b)) with (m_gotFin b). rewrite (ok_nofin S b Hok).
    rewrite <- Hrx. fold (free_space s). apply u32_small. pose proof (ok_max S b Hok). unfold is_u32, W in *. lia. }
  unfold advertised. rewrite Eo. set (f := free_space s) in *. set (k := m_rcvWindShift s) in *.
  assert (0 < 2 ^ k) by (apply Z.pow_pos_nonneg; lia).
  rewrite Z.shiftr_div_pow2 by lia. pose proof (Z.div_mod f (2 ^ k) ltac:(lia)) as Hd.
  pose proof (Z.mod_pos_bound f (2 ^ k) ltac:(lia)). pose proof (Z.div_pos f (2 ^ k) ltac:(lia) ltac:(lia)).
  set (q := f / 2 ^ k) in *. destruct (Z.ltb_spec (m_maxWinSize attrs) q).
  - rewrite u16_small by (unfold is_u16; lia). split_and!; try lia; nia.
  - rewrite u16_small by (unfold is_u16; lia). split_and!; try lia; nia.
Qed.

Lemma advertised_window_bounds_witness :
  exists w s', AdvertisedWindowSize (E := env_at 0) true (established_socket <| m_rcvWindShift := 2 |>) = Ok (w, s')
  /\ w = 32768 /\ w * 2 ^ 2 <= free_space (established_socket <| m_rcvWindShift := 2 |>).
Proof.
  destruct (advertised_window_bounds (E := env_at 0) witness_stream (SetMaxBufferSize (TcpRxBuffer_new 0) 131072)
              (established_socket <| m_rcvWindShift := 2 |>)) as (w & s' & Ew & _ & _ & _ & [Hle _] & _).
  - destruct established_receives as [_ H2 H3]. split; [vm_compute; reflexivity|exact H2|exact H3].
  - split; [discriminate|reflexivity].
  - discriminate.
  - exists w, s'. split; [exact Ew|]. split; [|exact Hle]. vm_compute in Ew. injection Ew as <- _. reflexivity.
Defined.
