(* ===== verification/HandshakeSpec.v ===== *)
(** The opening of a connection: the retransmissions of a SYN, with the
    exponential back-off, end. *)
From Stdlib Require Import ZArith Lia Bool List.
From stdpp Require Import base tactics list relations.
From S2P Require Import Prelude SeqNum TxBuffer RxBuffer TcpOptions TcpHeader Float NsTime TimeSpec RttEstimator RateOps SocketState CongestionOps RecoveryOps SocketCore SocketRx SocketTx SocketAck SocketFsm SocketVis SocketSpec.

(** ** Sending a SYN *)

(** A SYN, perhaps with the bits that ask for ECN. *)
Record syn_flags (f : Z) : Prop := {
  sf_syn : has_flag f SYN = true;
  sf_fin : has_flag f FIN = false;
  sf_ack : has_flag f ACK = false;
}.

Section Syn.
Context {A B : Type} {CC : TcpCongestionOps A} {RO : TcpRecoveryOps B} {E : Env}.
Implicit Types s : Sock A B.

Lemma AddOptionWScale_ok h s : has_flag (m_flags h) SYN = true ->
  exists h' k, AddOptionWScale h s = Ok (h', s <| m_rcvWindShift := k |>) /\ same_fixed h h'.
Proof.
  intros Hf. unfold AddOptionWScale. cbv [mbind St_bind lift]. rewrite Hf. cbn [ns_assert].
  cbv [upd get mret St_ret]. eauto using AppendOption_fixed.
Qed.

Lemma AddOptionSackPermitted_ok h s : has_flag (m_flags h) SYN = true ->
  exists h', AddOptionSackPermitted h s = Ok (h', s) /\ same_fixed h h'.
Proof.
  intros Hf. unfold AddOptionSackPermitted. cbv [mbind St_bind lift]. rewrite Hf. cbn [ns_assert].
  cbv [mret St_ret]. eauto using AppendOption_fixed.
Qed.

(** What sending a SYN leaves as it was. *)
Record syn_frame s s' : Prop := {
  fr_state : m_state s' = m_state s;
  fr_endPoint : m_endPoint s' = m_endPoint s;
  fr_retx : m_retxEvent s' = m_retxEvent s;
  fr_count : m_synCount s' = m_synCount s;
  fr_out : m_out s' = m_out s;
  fr_rx : rx s' = rx s;
}.

Lemma syn_frame_refl s : syn_frame s s.
Proof. by split. Qed.

Lemma syn_frame_trans s1 s2 s3 : syn_frame s1 s2 -> syn_frame s2 s3 -> syn_frame s1 s3.
Proof. intros [] []. split; congruence. Qed.

(** The options of a SYN. *)
Lemma wscale_part_ok b h s : has_flag (m_flags h) SYN = true ->
  exists h' s', (if b : bool then AddOptionWScale h else mret h) s = Ok (h', s')
  /\ same_fixed h h' /\ syn_frame s s'.
Proof.
  intros Hf. destruct b.
  - destruct (AddOptionWScale_ok h s Hf) as (h1 & k & -> & ?). eexists _, _. split_and!; [done|done|]. by split.
  - exists h, s. split_and!; [done|done|apply syn_frame_refl].
Qed.

Lemma sack_part_ok b h s : has_flag (m_flags h) SYN = true ->
  exists h', (if b : bool then AddOptionSackPermitted h else mret h) s = Ok (h', s) /\ same_fixed h h'.
Proof. intros Hf. destruct b; [by apply AddOptionSackPermitted_ok|by exists h]. Qed.

(** The event of the retransmission, after [k] attempts. *)
Definition backoff (k : Z) : Z := m_cnTimeout attrs * 2 ^ k.

(** The clock and the attributes allow the retransmission. *)
Record backoff_ok (k : Z) : Prop := {
  bo_k : 0 <= k <= 30;
  bo_timeout : 0 <= m_cnTimeout attrs;
  bo_clock : 0 <= now /\ now + backoff k < 2 ^ 63;
  bo_retries : is_u32 (m_synRetries attrs);
}.

Lemma shift_one_ok k : 0 <= k <= 30 -> shift_one k = Ok (2 ^ k).
Proof.
  intros Hk. unfold shift_one. destruct (Z.ltb_spec k 32); [|lia]. rewrite Z.shiftl_1_l. f_equal.
  assert (2 ^ k <= 2 ^ 30) by (apply Z.pow_le_mono_r; lia). assert (0 < 2 ^ k) by (apply Z.pow_pos_nonneg; lia).
  apply sint_small; lia.
Qed.

Lemma send_syn_ok h sq s n : has_flag (m_flags h) SYN = true -> window_ok s ->
  m_synCount s = n -> 0 < n <= m_synRetries attrs -> backoff_ok (m_synRetries attrs - n) ->
  exists h' w s', send_syn h sq s = Ok (Some (h', w), s')
  /\ m_flags h' = m_flags h /\ m_rto s' = backoff (m_synRetries attrs - n)
  /\ syn_frame (s <| m_synCount := n - 1 |>) s'.
Proof.
  intros Hf Hw Hn Hr Hb. unfold send_syn. cbv [mbind St_bind get].
  destruct (wscale_part_ok (m_winScalingEnabled s) h s Hf) as (h1 & s1 & -> & Hf1 & Hs1).
  assert (has_flag (m_flags h1) SYN = true) as Hsyn1 by (by destruct Hf1 as [-> _]).
  destruct (sack_part_ok (m_sackEnabled s) h1 s1 Hsyn1) as (h2 & -> & Hf2).
  destruct (Z.eqb_spec (m_synCount s) 0); [lia|]. destruct Hb as [Hk Hto Hck Hre]. unfold is_u32 in Hre.
  rewrite Hn, (u32_small (m_synRetries attrs - n)) by (unfold is_u32; lia). rewrite shift_one_ok by done.
  cbv [lift upd].
  assert (t_mul (m_cnTimeout attrs) (2 ^ (m_synRetries attrs - n)) = backoff (m_synRetries attrs - n)) as Ebk.
  { unfold t_mul, backoff, i64. apply sint_small; [lia|]. unfold backoff in Hck.
    assert (0 <= m_cnTimeout attrs * 2 ^ (m_synRetries attrs - n)) by (apply Z.mul_nonneg_nonneg; [lia|apply Z.pow_nonneg; lia]).
    lia. }
  unfold UpdateRttHistory. cbv [upd].
  match goal with |- context [AdvertisedWindowSize false ?s0] =>
    assert (window_ok s0) as Hw0; [|rewrite (AdvertisedWindowSize_ok false s0 Hw0)] end.
  { unfold window_ok. destruct Hs1. change (rx (set_field m_history _ ?s0)) with (rx s0).
    change (rx (set_field m_synCount _ ?s0)) with (rx s0). change (rx (set_field m_rto _ ?s0)) with (rx s0).
    rewrite fr_rx0. exact Hw. }
  cbv [mret St_ret]. eexists _, _, _. split; [reflexivity|]. split; [|split].
  - by destruct Hf1 as [E1 _], Hf2 as [-> _].
  - exact Ebk.
  - destruct Hs1. split; try done. cbn. rewrite fr_count0, Hn. apply u32_small. unfold is_u32. lia.
Qed.

(** One attempt: a SYN leaves, and the next one is scheduled. *)
Lemma SendEmptyPacket_syn f s ep n : syn_flags f -> m_endPoint s = Some ep -> window_ok s ->
  m_retxEvent s = None -> m_synCount s = n -> 0 < n <= m_synRetries attrs ->
  backoff_ok (m_synRetries attrs - n) ->
  exists h tos s', SendEmptyPacket f s = Ok (tt, s')
  /\ m_flags h = f /\ m_out s' = m_out s ++ [O_SendPacket h [] tos (m_localAddr ep) (m_peerAddr ep)]
  /\ m_state s' = m_state s /\ m_endPoint s' = Some ep /\ m_synCount s' = n - 1 /\ rx s' = rx s
  /\ m_retxEvent s' = Some (mkEvent (now + backoff (m_synRetries attrs - n)) (H_SendEmptyPacket f)).
Proof.
  intros [Hsyn Hfin Hack] Hep Hw Hre Hn Hr Hb. unfold SendEmptyPacket. cbv [mbind St_bind get].
  rewrite Hep, Hfin, Hsyn, Hack.
  match goal with |- context [AddOptions ?h0 s] =>
    destruct (AddOptions_ok h0 s) as (h1 & Eo & Hf1); rewrite Eo; clear Eo end.
  cbv [upd]. set (s1 := s <| m_rto := computed_rto s |>).
  rewrite (AdvertisedWindowSize_ok true s1 Hw).
  set (s2 := s1 <| m_advWnd := offered s1 |>).
  assert (has_flag (m_flags h1) SYN = true) as Hsyn1 by (by destruct Hf1 as [-> _]).
  match goal with |- context [send_syn h1 ?sq s2] =>
    destruct (send_syn_ok h1 sq s2 n Hsyn1 Hw Hn Hr Hb) as (h2 & w & s3 & -> & Hf2 & Hrto & Hs3) end.
  cbv [mret St_ret emit upd]. destruct Hs3.
  change (m_retxEvent (s3 <| m_out ::= _ |>)) with (m_retxEvent s3). rewrite fr_retx0.
  change (m_retxEvent (s2 <| m_synCount := n - 1 |>)) with (m_retxEvent s). rewrite Hre.
  assert ((f =? ACK) = false) as ->.
  { destruct (Z.eqb_spec f ACK) as [->|]; [done|done]. }
  cbn [IsExpired IsRunning negb orb andb when]. unfold Schedule. cbv [mbind St_bind lift].
  change (m_rto (s3 <| m_out ::= _ |>)) with (m_rto s3). rewrite Hrto.
  pose proof (bo_clock _ Hb) as Hck. pose proof (bo_timeout _ Hb). pose proof (bo_k _ Hb).
  assert (0 <= backoff (m_synRetries attrs - n)) as Hpos.
  { unfold backoff. apply Z.mul_nonneg_nonneg; [lia|apply Z.pow_nonneg; lia]. }
  apply Z.leb_le in Hpos as Hpos'. rewrite Hpos'. cbn [ns_assert]. cbv [mret St_ret].
  eexists (h2 <| TcpHeader.m_windowSize := w |>), _, _. split; [reflexivity|].
  split; [cbn; rewrite Hf2; by destruct Hf1 as [-> _]|].
  change (m_out (set_field m_retxEvent _ ?s0)) with (m_out s0).
  split; [cbn; rewrite fr_out0; reflexivity|]. cbn [m_state set_field eta_Sock].
  split; [exact fr_state0|]. split; [change (m_endPoint s3 = Some ep); by rewrite fr_endPoint0|]. split; [exact fr_count0|].
  split; [exact fr_rx0|]. cbn. do 2 f_equal. unfold t_add, i64. rewrite sint_small; lia.
Qed.

(** The last attempt: the connection fails. *)
Lemma SendEmptyPacket_fails f s ep : syn_flags f -> m_endPoint s = Some ep -> window_ok s -> m_synCount s = 0 ->
  exists s', SendEmptyPacket f s = Ok (tt, s')
  /\ m_out s' = m_out s ++ [O_Notify NotifyConnectionFailed; O_RemoveSocket]
  /\ m_state s' = CLOSED /\ m_endPoint s' = None /\ m_retxEvent s' = None.
Proof.
  intros [Hsyn Hfin Hack] Hep Hw Hn. unfold SendEmptyPacket. cbv [mbind St_bind get].
  rewrite Hep, Hfin, Hsyn, Hack.
  match goal with |- context [AddOptions ?h0 s] =>
    destruct (AddOptions_ok h0 s) as (h1 & Eo & Hf1); rewrite Eo; clear Eo end.
  cbv [upd]. set (s1 := s <| m_rto := computed_rto s |>).
  rewrite (AdvertisedWindowSize_ok true s1 Hw).
  set (s2 := s1 <| m_advWnd := offered s1 |>).
  assert (has_flag (m_flags h1) SYN = true) as Hsyn1 by (by destruct Hf1 as [-> _]).
  unfold send_syn. cbv [mbind St_bind get].
  destruct (wscale_part_ok (m_winScalingEnabled s2) h1 s2 Hsyn1) as (h2 & s3 & -> & Hf2 & []).
  assert (has_flag (m_flags h2) SYN = true) as Hsyn2 by (by destruct Hf2 as [-> _]).
  destruct (sack_part_ok (m_sackEnabled s2) h2 s3 Hsyn2) as (h3 & -> & Hf3).
  change (m_synCount s2) with (m_synCount s). rewrite Hn. cbn [Z.eqb].
  unfold notify, emit, set_state, DeallocateEndPoint, CancelAllTimers. cbv [mbind St_bind get upd].
  assert (m_endPoint s3 = Some ep) as Hep3 by (by rewrite fr_endPoint0).
  change (m_endPoint (set_field m_state _ ?s0)) with (m_endPoint s0).
  change (m_endPoint (set_field m_out _ ?s0)) with (m_endPoint s0).
  change (m_endPoint (set_field m_rtt _ ?s0)) with (m_endPoint s0). rewrite Hep3.
  cbv [mret St_ret]. eexists. split; [reflexivity|]. split; [|done].
  cbn. rewrite fr_out0. by rewrite <- app_assoc.
Qed.
End Syn.

(** ** The attempts of a connection *)

(** A SYN was sent; [n] attempts are left, the next one at [t]. *)
Record syn_waiting {A B} (f n t : Z) (ep : EndPoint) (s : Sock A B) : Prop := {
  sw_state : m_state s = SYN_SENT;
  sw_endPoint : m_endPoint s = Some ep;
  sw_count : m_synCount s = n;
  sw_event : m_retxEvent s = Some (mkEvent t (H_SendEmptyPacket f));
  sw_window : window_ok s;
}.

Definition is_syn (f : Z) (o : Output) : Prop :=
  match o with O_SendPacket h [] _ _ _ => m_flags h = f | _ => False end.

Section Attempts.
Context {A B : Type} {CC : TcpCongestionOps A} {RO : TcpRecoveryOps B}.
Context (a : SocketAttributes) (accept : Address -> bool).
Implicit Types s : Sock A B.

Definition env_of (t : Z) : Env := {| now := t; attrs := a; NotifyConnectionRequest := accept |}.

(** The expirations of the retransmission timer, the first at [t], with [n]
    attempts left. *)
Fixpoint syn_timers (t : Z) (n : nat) : list (Env * SocketEvent) :=
  (env_of t, E_Timer T_retx)
  :: match n with
     | O => []
     | Datatypes.S n' => syn_timers (t + m_cnTimeout a * 2 ^ (m_synRetries a - Z.of_nat n)) n'
     end.

(** At most 30 retries, and a clock that does not overflow. *)
Record retries_ok (t : Z) (n : nat) : Prop := {
  ro_retries : Z.of_nat n <= m_synRetries a <= 30;
  ro_timeout : 0 <= m_cnTimeout a;
  ro_clock : 0 <= t /\ t + m_cnTimeout a * (2 ^ (m_synRetries a + 1) - 2 ^ (m_synRetries a - Z.of_nat n)) < 2 ^ 63;
}.

Lemma pow2_double k : 0 <= k -> 2 ^ (k + 1) = 2 * 2 ^ k.
Proof. intros Hk. by rewrite Z.pow_add_r, Z.mul_comm by lia. Qed.

Lemma retries_backoff t n : retries_ok t (Datatypes.S n) ->
  backoff_ok (E := env_of t) (m_synRetries a - Z.of_nat (Datatypes.S n))
  /\ retries_ok (t + m_cnTimeout a * 2 ^ (m_synRetries a - Z.of_nat (Datatypes.S n))) n.
Proof.
  intros [Hr Hc Hck]. set (k := m_synRetries a - Z.of_nat (Datatypes.S n)) in *.
  assert (0 <= k <= 30) as Hk by (unfold k; lia).
  assert (0 < 2 ^ k) by (apply Z.pow_pos_nonneg; lia).
  assert (2 * 2 ^ k <= 2 ^ (m_synRetries a + 1)) as Hle.
  { rewrite <- pow2_double by lia. apply Z.pow_le_mono_r; unfold k; lia. }
  replace (m_synRetries a - Z.of_nat n) with (k + 1) in * by (unfold k; lia).
  split; split; cbn; try (unfold is_u32; lia); unfold backoff; cbn.
  - nia.
  - replace (m_synRetries a - Z.of_nat n) with (k + 1) by (unfold k; lia). rewrite (pow2_double k) by lia. nia.
Qed.

(** The next attempt. *)
Lemma syn_attempt f n t ep s : syn_flags f -> syn_waiting f (Z.of_nat (Datatypes.S n)) t ep s ->
  retries_ok t (Datatypes.S n) ->
  exists s' o, step (E := env_of t) (E_Timer T_retx) s = Ok (tt, s')
  /\ syn_waiting f (Z.of_nat n) (t + m_cnTimeout a * 2 ^ (m_synRetries a - Z.of_nat (Datatypes.S n))) ep s'
  /\ m_out s' = m_out s ++ [o] /\ is_syn f o.
Proof.
  intros Hf [Hst Hep Hn Hev Hw] Hr. destruct (retries_backoff t n Hr) as [Hb _].
  unfold step. cbv [mbind St_bind get]. cbn [timer_of]. rewrite Hev. cbn [ev_time ev_handler].
  rewrite (Z.eqb_refl t : (t =? now (Env := env_of t)) = true). cbn [when run_handler]. cbv [upd].
  destruct (SendEmptyPacket_syn (E := env_of t) f (clear_timer T_retx s) ep (Z.of_nat (Datatypes.S n)) Hf Hep Hw ltac:(reflexivity) Hn)
    as (h & tos & s' & -> & Hh & Ho & Hst' & Hep' & Hn' & Hrx & Hev'); [destruct Hr; cbn; lia|exact Hb|].
  exists s', (O_SendPacket h [] tos (m_localAddr ep) (m_peerAddr ep)). split; [done|]. split; [|by split].
  split; [by rewrite Hst'|done|rewrite Hn'; lia|exact Hev'|].
  unfold window_ok. rewrite Hrx. exact Hw.
Qed.

Lemma syn_attempts f n t ep s : syn_flags f -> syn_waiting f (Z.of_nat n) t ep s -> retries_ok t n ->
  exists s' syns, run (syn_timers t n) s = Ok s'
  /\ m_state s' = CLOSED /\ m_endPoint s' = None /\ m_retxEvent s' = None
  /\ m_out s' = m_out s ++ syns ++ [O_Notify NotifyConnectionFailed; O_RemoveSocket]
  /\ length syns = n /\ Forall (is_syn f) syns.
Proof.
  intros Hf. revert t s; induction n as [|n IH]; intros t s Hs Hr; cbn [syn_timers run].
  - destruct Hs as [Hst Hep Hn Hev Hw].
    assert (exists s', step (E := env_of t) (E_Timer T_retx) s = Ok (tt, s')
      /\ m_out s' = m_out s ++ [O_Notify NotifyConnectionFailed; O_RemoveSocket]
      /\ m_state s' = CLOSED /\ m_endPoint s' = None /\ m_retxEvent s' = None) as (s' & -> & Ho & ? & ? & ?).
    { unfold step. cbv [mbind St_bind get]. cbn [timer_of]. rewrite Hev. cbn [ev_time ev_handler].
      rewrite (Z.eqb_refl t : (t =? now (Env := env_of t)) = true). cbn [when run_handler]. cbv [upd].
      exact (SendEmptyPacket_fails (E := env_of t) f (clear_timer T_retx s) ep Hf Hep Hw Hn). }
    exists s', []. res_step. by split_and!.
  - destruct (syn_attempt f n t ep s Hf Hs Hr) as (s1 & o & -> & Hs1 & Ho & Hsyn). res_step.
    destruct (retries_backoff t n Hr) as [_ Hr1].
    destruct (IH _ s1 Hs1 Hr1) as (s' & syns & -> & Hst & Hep & Hev & Ho' & Hl & Hall).
    exists s', (o :: syns). split_and!; try done; [|cbn; by rewrite Hl|by constructor].
    by rewrite Ho', Ho, <- app_assoc.
Qed.

(** The first SYN. *)
Lemma Connect_ok t alloc src peer s ep : m_state s = CLOSED -> m_retxEvent s = None -> window_ok s ->
  match m_endPoint s with Some ep => Some ep | None => alloc end = Some ep ->
  0 < m_synRetries a -> retries_ok t (Z.to_nat (m_synRetries a)) ->
  exists f o s', syn_flags f /\ Connect (E := env_of t) alloc (Some src) peer s = Ok (true, s')
  /\ syn_waiting f (m_synRetries a - 1) (t + m_cnTimeout a) (mkEndPoint src (m_localPort ep) (fst peer) (snd peer)) s'
  /\ m_out s' = m_out s ++ [o] /\ is_syn f o.
Proof.
  intros Hst Hev Hw Hep Hpos Hr. unfold Connect, DoConnect. cbv [mbind St_bind get]. rewrite Hep. cbv [upd].
  set (ep' := mkEndPoint src (m_localPort ep) (fst peer) (snd peer)).
  set (s1 := s <| m_endPoint := _ |> <| m_rtt ::= _ |> <| m_synCount := _ |> <| m_dataRetrCount := _ |>).
  change (m_state s1) with (m_state s). rewrite Hst, bool_decide_true by apply list_elem_of_here.
  set (f := if bool_decide (m_useEcn (m_tcb s1) = On) then Z.lor SYN (Z.lor ECE CWR) else SYN).
  assert (syn_flags f) as Hf by (unfold f; destruct (bool_decide _); by split).
  match goal with |- context [match ?send s1 with _ => _ end] =>
    assert (send s1 = SendEmptyPacket (E := env_of t) f s1) as -> by (unfold f; by destruct (bool_decide _)) end.
  destruct (Z.to_nat (m_synRetries a)) as [|m] eqn:Em; [lia|]. destruct (retries_backoff t m Hr) as [Hb _].
  replace (m_synRetries a - Z.of_nat (Datatypes.S m)) with (m_synRetries a - m_synRetries a) in Hb by lia.
  destruct (SendEmptyPacket_syn (E := env_of t) f s1 ep' (m_synRetries a) Hf ltac:(reflexivity) Hw Hev ltac:(reflexivity))
    as (h & tos & s' & -> & Hh & Ho & Hst' & Hep' & Hn' & Hrx & Hev'); [cbn; lia|exact Hb|].
  unfold set_state, upd_tcb. cbv [upd mret St_ret].
  exists f, (O_SendPacket h [] tos (m_localAddr ep') (m_peerAddr ep')). eexists. split; [done|].
  split; [reflexivity|]. split; [|by split]. split; [done|exact Hep'|exact Hn'| |].
  - change (m_retxEvent (set_field m_tcb _ ?s0)) with (m_retxEvent s0).
    change (m_retxEvent (set_field m_state _ ?s0)) with (m_retxEvent s0). rewrite Hev'. unfold backoff. cbn [now attrs env_of].
    do 3 f_equal. rewrite Z.sub_diag. lia.
  - unfold window_ok. change (rx (set_field m_tcb _ ?s0)) with (rx s0).
    change (rx (set_field m_state _ ?s0)) with (rx s0). rewrite Hrx. exact Hw.
Qed.
End Attempts.

Section GivesUp.
Context {A B : Type} {CC : TcpCongestionOps A} {RO : TcpRecoveryOps B}.
Context (a : SocketAttributes) (accept : Address -> bool).

End GivesUp.

