(* ===== verification/SendSpec.v ===== *)
(** Sending: SendPendingData of a socket without losses takes the bytes of the
    application in order and keeps the data in flight within the window; when
    the peer has SACKed data and the data sent fills its window exactly, it
    dereferences null. *)
From Stdlib Require Import ZArith Lia Bool List.
From stdpp Require Import base tactics list relations.
From S2P Require Import Prelude SeqNum RxBuffer TxBuffer TxBufferSpec TcpOptions TcpHeader Float NsTime TimeSpec RttEstimator RateOps SocketState CongestionOps RecoveryOps SocketCore SocketRx SocketTx SocketAck SocketFsm SocketVis SocketSpec StreamSpec.

(** ** A loop with a measure ends *)

Lemma rounds_ok {St R : Type} (I : St -> Prop) (F : R -> Prop) (m : St -> Z) (step : St -> res (St + R)) :
  (forall s, I s -> exists o, step s = Ok o /\
     match o with inl s' => I s' /\ 0 <= m s' < m s | inr r => F r end) ->
  forall n s, I s -> exists o, rounds n step s = Ok o /\
  match o with inl s' => I s' /\ 0 <= m s' <= m s - Zpos n | inr r => F r end.
Proof.
  intros Hstep n; induction n as [n IH|n IH|]; intros s Hs; cbn [rounds].
  - destruct (Hstep s Hs) as ([s1|r] & -> & H1); [|by exists (inr r)].
    destruct H1 as [Hs1 Hm1]. destruct (IH s1 Hs1) as ([s2|r] & -> & H2); [|by exists (inr r)].
    destruct H2 as [Hs2 Hm2]. destruct (IH s2 Hs2) as ([s3|r] & -> & H3); [|by exists (inr r)].
    exists (inl s3). split; [done|]. destruct H3. split; [done|]. lia.
  - destruct (IH s Hs) as ([s2|r] & -> & H2); [|by exists (inr r)].
    destruct H2 as [Hs2 Hm2]. destruct (IH s2 Hs2) as ([s3|r] & -> & H3); [|by exists (inr r)].
    exists (inl s3). split; [done|]. destruct H3. split; [done|]. lia.
  - destruct (Hstep s Hs) as ([s1|r] & -> & H1); [|by exists (inr r)].
    exists (inl s1). split; [done|]. destruct H1. split; [done|]. lia.
Qed.

Lemma while_ok {St R : Type} (I : St -> Prop) (F : R -> Prop) (m : St -> Z) (step : St -> res (St + R)) n s :
  (forall s, I s -> exists o, step s = Ok o /\
     match o with inl s' => I s' /\ 0 <= m s' < m s | inr r => F r end) ->
  I s -> m s < Zpos n -> exists r, while n step s = Ok r /\ F r.
Proof.
  intros Hstep Hs Hm. destruct (rounds_ok I F m step Hstep n s Hs) as ([s1|r] & E & H1); unfold while; rewrite E.
  - destruct H1. lia.
  - by exists r.
Qed.

Lemma while_err {St R : Type} (step : St -> res (St + R)) n s e : step s = Err e -> while n step s = Err e.
Proof.
  intros H. assert (rounds n step s = Err e) as E by (induction n; cbn [rounds]; rewrite ?H, ?IHn; done).
  unfold while. by rewrite E.
Qed.

(** Consecutive slices. *)
Lemma ztake_more {X} a m (l : list X) : 0 <= a -> 0 <= m -> ztake a l ++ ztake m (zdrop a l) = ztake (a + m) l.
Proof.
  intros Ha Hm. unfold ztake, zdrop. rewrite Z2Nat.inj_add by done.
  apply take_take_drop.
Qed.

Lemma zdrop_more {X} a m (l : list X) : 0 <= a -> 0 <= m -> zdrop m (zdrop a l) = zdrop (a + m) l.
Proof. intros Ha Hm. unfold zdrop. rewrite drop_drop. f_equal. lia. Qed.

(** ** The send buffer *)

Lemma in_flight_snoc l t : m_sacked t = false -> m_lost t = false -> m_retrans t = false ->
  in_flight (l ++ [t]) = in_flight l + zlen (m_packet t).
Proof.
  intros Hs Hl Hr. unfold in_flight. rewrite !sumf_app. unfold sumf at 2 4. cbn [foldr]. rewrite Hs, Hl, Hr. cbn. lia.
Qed.

Lemma send_copy P b now n : tx_ok P b -> 0 < n < 2 ^ 31 -> 0 < total (m_appList b) ->
  exists item b1, CopyFromSequence now b n (u32 (P + total (m_sentList b))) = Ok (Some item, b1)
  /\ m_packet item = ztake n (zdrop (total (m_sentList b)) (content b))
  /\ m_retrans item = false /\ m_lost item = false /\ m_sacked item = false
  /\ forall item', same_item item item' ->
     let b2 := b1 <| m_sentList ::= update_item (m_id item') (fun _ => item') |> in
     tx_ok P b2 /\ content b2 = content b /\ m_sentList b2 = m_sentList b ++ [item']
     /\ TxBuffer.m_segmentSize b2 = TxBuffer.m_segmentSize b.
Proof.
  intros H Hn Ha. destruct (tx_copy_new_ok P b now n H Hn Ha)
    as (item & b1 & E & H1 & Ec & Ep & _ & _ & El & Hr & Hl & Hs & Eseg).
  exists item, b1. split_and!; try done. intros item' Hsame. cbv zeta.
  assert (m_sentList (b1 <| m_sentList ::= update_item (m_id item') (fun _ => item') |>) = m_sentList b ++ [item']) as El2.
  { change (update_item (m_id item') (fun _ => item') (m_sentList b1) = m_sentList b ++ [item']).
    destruct Hsame as (Hid & _). rewrite El, Hid. rewrite (update_item_middle (m_sentList b) item [] (fun _ => item')); [done|].
    destruct H1 as [_ _ _ _ _ _ _ _ [Hi _] _]. rewrite El, map_app in Hi. by apply NoDup_app in Hi as (? & _). }
  assert (Forall2 same_item (m_sentList b1) (m_sentList b ++ [item'])) as Hall by (rewrite El; by apply same_middle).
  assert (b1 <| m_sentList ::= update_item (m_id item') (fun _ => item') |> = b1 <| m_sentList := m_sentList b ++ [item'] |>) as ->.
  { unfold set_field. f_equal. exact El2. }
  split; [by apply tx_ok_same|]. split; [|done].
  rewrite <- Ec. unfold content.
  change (m_sentList (b1 <| m_sentList := ?l |>)) with l. change (m_appList (b1 <| m_sentList := ?l |>)) with (m_appList b1).
  by rewrite !(bytes_of_app _ (m_appList b1)), (same_bytes _ _ Hall).
Qed.

(** ** The socket that sends *)

(** The bytes of the data segments among the outputs. *)
Definition data_sent (outs : list Output) : bytes :=
  concat (map (fun o => match o with O_SendPacket _ p _ _ _ => p | _ => [] end) outs).

Lemma data_sent_app l k : data_sent (l ++ k) = data_sent l ++ data_sent k.
Proof. unfold data_sent. by rewrite map_app, concat_app. Qed.

Section Send.
Context {A B : Type} {CC : TcpCongestionOps A} {RO : TcpRecoveryOps B} {E : Env}.
Implicit Types s : Sock A B.

(** What sending leaves as it is. *)
Record keeps s s' : Prop := {
  kp_endPoint : m_endPoint s' = m_endPoint s;
  kp_rx : rx s' = rx s;
  kp_mark : m_highRxAckMark s' = m_highRxAckMark s;
  kp_rWnd : m_rWnd s' = m_rWnd s;
  kp_cWnd : m_cWnd (m_tcb s') = m_cWnd (m_tcb s);
  kp_segment : m_segmentSize (m_tcb s') = m_segmentSize (m_tcb s);
  kp_pacing : m_pacing (m_tcb s') = m_pacing (m_tcb s);
  kp_rto : m_rto s' = m_rto s;
  kp_sack : m_sackEnabled s' = m_sackEnabled s;
  kp_cong : m_congState (m_tcb s') = m_congState (m_tcb s);
}.

Lemma keeps_refl s : keeps s s.
Proof. by split. Qed.

Lemma keeps_trans s1 s2 s3 : keeps s1 s2 -> keeps s2 s3 -> keeps s1 s3.
Proof. intros [] []. split; congruence. Qed.

(** Neither data nor outputs, and the retransmission timer as it was. *)
Definition silent s s' : Prop :=
  keeps s s' /\ m_txBuffer s' = m_txBuffer s /\ m_out s' = m_out s /\ m_retxEvent s' = m_retxEvent s.

Lemma silent_refl s : silent s s.
Proof. split_and!; [apply keeps_refl|done..]. Qed.

Lemma silent_trans s1 s2 s3 : silent s1 s2 -> silent s2 s3 -> silent s1 s3.
Proof. intros (K1 & T1 & O1 & E1) (K2 & T2 & O2 & E2). split_and!; [by eapply keeps_trans|congruence..]. Qed.

(** A conditional assignment that is silent. *)
Lemma when_silent (b : bool) (m : St A B unit) s : (exists s1, m s = Ok (tt, s1) /\ silent s s1) ->
  exists s', when b m s = Ok (tt, s') /\ silent s s'.
Proof. intros Hm. destruct b; [exact Hm|exists s; split; [done|apply silent_refl]]. Qed.

(** The buffer is well formed with its first byte at the position [P], nothing
    is SACKed or lost, the window of the peer starts at the first byte. *)
Record can_send P s : Prop := {
  cs_tx : tx_ok P (m_txBuffer s);
  cs_endPoint : exists ep, m_endPoint s = Some ep;
  cs_window : window_ok s;
  cs_mark : m_highRxAckMark s = u32 P;
  cs_rWnd : 0 <= m_rWnd s < 2 ^ 31;
  cs_cWnd : is_u32 (m_cWnd (m_tcb s));
  cs_segment : 0 < m_segmentSize (m_tcb s) < 2 ^ 31;
  cs_segment' : 0 < TxBuffer.m_segmentSize (m_txBuffer s) < 2 ^ 31;
  cs_pacing : m_pacing (m_tcb s) = false;
  cs_rto : 0 <= m_rto s;
  cs_clean : Forall (fun t => m_lost t = false /\ m_sacked t = false) (m_sentList (m_txBuffer s));
}.

Lemma can_send_keeps P s s' : keeps s s' -> can_send P s ->
  tx_ok P (m_txBuffer s') -> TxBuffer.m_segmentSize (m_txBuffer s') = TxBuffer.m_segmentSize (m_txBuffer s) ->
  Forall (fun t => m_lost t = false /\ m_sacked t = false) (m_sentList (m_txBuffer s')) -> can_send P s'.
Proof.
  intros [] [] Htx Hseg Hcl. split; unfold window_ok;
    rewrite ?kp_endPoint0, ?kp_rx0, ?kp_mark0, ?kp_rWnd0, ?kp_cWnd0, ?kp_segment0, ?kp_pacing0, ?kp_rto0, ?Hseg; done.
Qed.

Abbreviation sent s := (m_sentList (m_txBuffer s)).
Abbreviation unsent s := (m_appList (m_txBuffer s)).

Lemma BytesInFlight_send P s : tx_ok P (m_txBuffer s) ->
  exists s', BytesInFlight s = Ok (in_flight (sent s), s') /\ silent s s' /\ m_state s' = m_state s.
Proof.
  intros H. unfold BytesInFlight. cbv [mbind St_bind get lift].
  rewrite (tx_bytes_in_flight_ok P) by done. cbv [upd_tcb upd mret St_ret]. eexists. split; [reflexivity|]. by split.
Qed.

(** The end of SendDataPacket: the segment [p] at [seq] leaves. *)
Record sent_one (P : Z) s (p : bytes) s' : Prop := {
  so_can : can_send P s';
  so_keeps : keeps s s';
  so_content : content (m_txBuffer s') = content (m_txBuffer s);
  so_total : total (sent s') = total (sent s) + zlen p;
  so_flight : in_flight (sent s') = in_flight (sent s) + zlen p;
  so_timer : m_retxEvent s' <> None;
  so_out : exists outs, m_out s' = m_out s ++ outs /\ data_sent outs = p;
}.

Lemma unsent_total P s : tx_ok P (m_txBuffer s) -> zlen (content (m_txBuffer s)) = total (sent s) + total (unsent s).
Proof. intros _. unfold content. by rewrite bytes_of_app, zlen_app, !bytes_of_len. Qed.

Lemma zlen_new P s n : tx_ok P (m_txBuffer s) -> 0 < n -> 0 < total (unsent s) ->
  zlen (ztake n (zdrop (total (sent s)) (content (m_txBuffer s)))) = Z.min n (total (unsent s)).
Proof.
  intros H Hn Hu. pose proof (tx_bounds P _ H) as Hb.
  rewrite zlen_take, zlen_drop, unsent_total with (P := P) by (done || lia). lia.
Qed.

(** The segment is in the buffer, its number of bytes known, and it has left. *)
Lemma sent_one_intro P s s' item outs : can_send P s -> keeps s s' ->
  tx_ok P (m_txBuffer s') -> content (m_txBuffer s') = content (m_txBuffer s) ->
  TxBuffer.m_segmentSize (m_txBuffer s') = TxBuffer.m_segmentSize (m_txBuffer s) ->
  sent s' = sent s ++ [item] -> m_retrans item = false -> m_lost item = false -> m_sacked item = false ->
  m_retxEvent s' <> None -> m_out s' = m_out s ++ outs -> data_sent outs = m_packet item ->
  sent_one P s (m_packet item) s'.
Proof.
  intros Hs K Htx Ec Eseg El Hr Hl Hsk Ht Ho Hd. split; try done.
  - apply (can_send_keeps P s s' K Hs Htx Eseg). rewrite El. apply Forall_app. split; [by destruct Hs|].
    by constructor.
  - rewrite El. unfold total. rewrite sumf_one. done.
  - rewrite El. by apply in_flight_snoc.
  - by exists outs.
Qed.

(** The retransmission timer runs afterwards. *)
Lemma arm_timer s : 0 <= m_rto s -> exists s',
  when (IsExpired (m_retxEvent s))
    (ev ← Schedule (m_rto s) H_ReTxTimeout ; upd (fun s => s <| m_retxEvent := Some ev |>)) s = Ok (tt, s')
  /\ keeps s s' /\ m_txBuffer s' = m_txBuffer s /\ m_out s' = m_out s /\ m_retxEvent s' <> None.
Proof.
  intros Hr. destruct (m_retxEvent s) as [e|] eqn:Ee; cbn [IsExpired IsRunning negb when].
  - exists s. split_and!; [done|apply keeps_refl|done|done|congruence].
  - unfold Schedule. cbv [mbind St_bind lift]. apply Z.leb_le in Hr. rewrite Hr.
    cbv [upd mret St_ret]. cbn. eexists. split; [reflexivity|]. by split_and!.
Qed.

(** The conditional steps of [SendDataPacket] that assign members. *)
Ltac silent_step S :=
  lazymatch goal with |- context [when ?b ?m ?s] =>
    let s' := fresh "s" in let E := fresh "E" in
    destruct (when_silent b m s) as (s' & E & S);
      [eexists; split; [reflexivity|by repeat split]|rewrite E; clear E] end.

Lemma SendDataPacket_ok P s n withAck : can_send P s -> 0 < n < 2 ^ 31 -> total (sent s) + n <= m_rWnd s ->
  0 < total (unsent s) ->
  let p := ztake n (zdrop (total (sent s)) (content (m_txBuffer s))) in
  exists s', SendDataPacket (u32 (P + total (sent s))) n withAck s = Ok (zlen p, s') /\ sent_one P s p s'.
Proof.
  intros Hs Hn Hw Hu p. pose proof Hs as [Htx (ep & Hep) Hwin Hmark Hrw Hcw Hseg Hseg' Hpac Hrto Hcl].
  pose proof (tx_bounds P _ Htx) as Hb.
  unfold SendDataPacket. cbv [mbind St_bind get lift].
  destruct (BytesInFlight_send P s Htx) as (s0 & -> & (K0 & T0 & O0 & _) & _). rewrite T0.
  destruct (send_copy P (m_txBuffer s) now n Htx Hn Hu) as (item & b1 & -> & Ep & Hr & Hl & Hsk & Hitem).
  cbv [upd_tx upd]. destruct (SkbSent now (m_rateOps s0) item (in_flight (sent s) =? 0)) as [rate item'] eqn:Esk.
  assert (same_item item item') as Hsame by (unfold SkbSent in Esk; injection Esk as _ <-; by repeat split).
  destruct (Hitem item' Hsame) as (Htx2 & Ec2 & El2 & Eseg2). clear Hitem Esk.
  destruct Hsame as (_ & _ & Ep' & El' & Er' & Es'). rewrite Er', Hr, Ep', Ep. fold p.
  match goal with |- context [seq_add (m_highRxAckMark ?x) _] => set (s1 := x) end.
  assert (keeps s s1) as K1 by (eapply keeps_trans; [exact K0|by split]).
  assert (m_txBuffer s1 = b1 <| m_sentList ::= update_item (m_id item') (fun _ => item') |>) as T1 by reflexivity.
  assert (m_out s1 = m_out s) as O1 by exact O0. clearbody s1. clear K0 T0 O0 s0.
  rewrite <- T1 in Htx2, Ec2, El2, Eseg2. clear T1.
  assert (zlen p = Z.min n (total (unsent s))) as Hp by (apply (zlen_new P); [done|lia|lia]).
  rewrite !(kp_mark _ _ K1), !(kp_rWnd _ _ K1), Hmark.
  assert (seq_ge (seq_add (u32 P) (m_rWnd s)) (seq_add (u32 (P + total (sent s))) n) = true) as ->.
  { autorewrite with width. rewrite ge32_window by lia. lia. }
  cbn [orb ns_assert].
  assert (IsPacingEnabled s1 = false) as -> by (unfold IsPacingEnabled; by rewrite (kp_pacing _ _ K1), Hpac).
  cbn [when]. cbv [mret St_ret].
  unfold set_state. cbv [upd]. silent_step S2. silent_step S3. silent_step S4.
  assert (silent s1 s3) as S by (by repeat (eapply silent_trans; [eassumption|])).
  clear S2 S3 S4. destruct S as (K2 & T2 & O2 & _). pose proof (keeps_trans _ _ _ K1 K2) as K.
  rewrite (kp_endPoint _ _ K), Hep.
  rewrite AdvertisedWindowSize_ok by (unfold window_ok; by rewrite (kp_rx _ _ K)).
  match goal with |- context [AddOptions ?h ?s] => destruct (AddOptions_ok h s) as (h' & -> & _) end.
  match goal with |- context [m_rto ?x] => destruct (arm_timer x) as (s4 & E4 & K4 & T4 & O4 & Ht) end.
  { by rewrite <- (kp_rto _ _ K) in Hrto. }
  cbv [mbind St_bind upd] in E4. rewrite E4. clear E4. cbv [emit UpdateRttHistory upd upd_tcb negb].
  silent_step S5. cbn [when]. eexists. split; [reflexivity|].
  replace p with (m_packet item') by (by rewrite Ep', Ep). destruct S5 as (K5 & T5 & O5 & R5).
  cbn in T4, T5, O4, O5, R5.
  eapply sent_one_intro; cbn; rewrite ?T5, ?T4, ?T2, ?R5; try done; [|congruence..| |].
  - apply (keeps_trans _ s3 _ K), (keeps_trans _ s4); [by destruct K4; split|].
    apply (keeps_trans _ s5); [by destruct K5; split|by split].
  - rewrite O5, O4, O2, O1, <- !app_assoc. reflexivity.
  - cbn. by rewrite app_nil_r, Ep', Ep.
Qed.

(** ** The segment to send next *)

Lemma scan_new l pos rule3 valid : Forall (fun t => m_lost t = false /\ m_sacked t = false) l ->
  next_seg_scan l pos false rule3 valid = (None, rule3, valid).
Proof.
  intros H. revert pos. induction H as [|t l [Hl _] _ IH]; intros pos; cbn [next_seg_scan]; [done|].
  rewrite Hl, andb_false_r, IH. by destruct (negb _ && _).
Qed.

Lemma SizeFromSequence_sent P b : tx_ok P b ->
  SizeFromSequence b (u32 (P + total (m_sentList b))) = total (m_appList b).
Proof.
  intros H. pose proof (tx_bounds P b H). rewrite (SizeFromSequence_ok P), (tx_size _ _ _ H); [lia|done|].
  rewrite (tx_size _ _ _ H). lia.
Qed.

(** Without losses it is new data, as far as the window of the peer reaches. *)
Lemma NextSeg_new P b w : tx_ok P b -> Forall (fun t => m_lost t = false /\ m_sacked t = false) (m_sentList b) ->
  0 <= w < 2 ^ 31 ->
  NextSeg b w false =
    if (0 <? total (m_appList b)) && (total (m_sentList b) <=? w)
    then Some (u32 (P + total (m_sentList b)),
               u32 (P + total (m_sentList b) + Z.min (TxBuffer.m_segmentSize b) (w - total (m_sentList b))))
    else None.
Proof.
  intros H Hcl Hw. pose proof (tx_bounds P b H) as Hb. unfold NextSeg. rewrite (scan_new _ _ _ _ Hcl).
  rewrite (tx_first _ _ _ H), (tx_sent _ _ _ H), add32_wrap, (SizeFromSequence_sent P b H). cbv zeta.
  destruct (0 <? _); cbn [andb]; [|done]. destruct (Z.leb_spec (total (m_sentList b)) w); [|done].
  rewrite add32_wrap, (u32_small (w - _)) by (unfold is_u32; lia). done.
Qed.

(** ** The loop *)

(** The data in flight of a state and the window that is left. *)
Definition flight s : Z := in_flight (sent s).
Definition room s : Z := Z.max 0 (Window s - flight s).

(** From [s0] to [s]: the next bytes of the stream have left, the data in
    flight within the window. *)
Record progress (P : Z) s0 s : Prop := {
  pg_can : can_send P s;
  pg_keeps : keeps s0 s;
  pg_content : content (m_txBuffer s) = content (m_txBuffer s0);
  pg_le : total (sent s0) <= total (sent s);
  pg_flight : flight s = flight s0 + (total (sent s) - total (sent s0));
  pg_window : flight s <= Z.max (flight s0) (Window s0);
  pg_timer : total (sent s0) < total (sent s) -> m_retxEvent s <> None;
  pg_out : exists outs, m_out s = m_out s0 ++ outs
    /\ data_sent outs = ztake (total (sent s) - total (sent s0)) (zdrop (total (sent s0)) (content (m_txBuffer s0)));
}.

(** Nothing more can be sent: less than a segment is left of the data or of
    the window, or the socket has sent its FIN. *)
Definition stopped s : Prop :=
  total (unsent s) < GetSegSize s \/ room s < GetSegSize s
  \/ cong s = CA_OPEN /\ m_state s = FIN_WAIT_1.

Lemma progress_refl P s : can_send P s -> progress P s s.
Proof.
  intros H. split; rewrite ?Z.sub_diag; try done; try lia.
  exists []. by rewrite app_nil_r.
Qed.

Lemma keeps_window s s' : keeps s s' -> Window s' = Window s.
Proof. intros []. unfold Window. congruence. Qed.

(** A step that sends no data. *)
Lemma progress_quiet P s0 s s' outs : progress P s0 s -> keeps s s' -> m_txBuffer s' = m_txBuffer s ->
  m_out s' = m_out s ++ outs -> data_sent outs = [] -> m_retxEvent s' = m_retxEvent s -> progress P s0 s'.
Proof.
  intros [Hc K Ec Hle Hf Hw Ht (o & Eo & Ed)] K' T Ho Hd Ht'. split; unfold flight; rewrite ?T, ?Ht'; try done.
  - apply (can_send_keeps P s s' K' Hc); rewrite T; [by destruct Hc|done|by destruct Hc].
  - by eapply keeps_trans.
  - exists (o ++ outs). by rewrite data_sent_app, Hd, app_nil_r, Ho, Eo, app_assoc.
Qed.

(** A step that sends a segment. *)
Lemma progress_one P s0 s n s' : progress P s0 s -> 0 <= n <= room s ->
  let p := ztake n (zdrop (total (sent s)) (content (m_txBuffer s))) in
  sent_one P s p s' -> progress P s0 s'.
Proof.
  intros [Hc K Ec Hle Hf Hw _ (o & Eo & Ed)] Hn p [Hc' K' Ec' Et' Ef' Ht' (o' & Eo' & Ed')].
  assert (0 <= zlen p <= n) as Hp by (split; [apply zlen_nonneg|unfold p; rewrite zlen_take by lia; lia]).
  fold (flight s) in Ef'. fold (flight s') in Ef'. pose proof (keeps_window _ _ K) as HW. unfold room in Hn.
  split; try done; [by eapply keeps_trans|congruence|lia|lia|lia|].
  exists (o ++ o'). split; [by rewrite Eo', Eo, app_assoc|]. rewrite data_sent_app, Ed, Ed'.
  replace (total (sent s') - total (sent s0)) with (total (sent s) - total (sent s0) + zlen p) by lia.
  rewrite <- ztake_more by lia. f_equal. rewrite zdrop_more by (apply tot_nonneg || lia).
  replace (total (sent s0) + _) with (total (sent s)) by lia. rewrite <- Ec. by eapply ztake_own.
Qed.


Lemma AvailableWindow_room P s : tx_ok P (m_txBuffer s) -> Window s < 2 ^ 31 ->
  exists s', AvailableWindow s = Ok (room s, s') /\ silent s s' /\ m_state s' = m_state s.
Proof.
  intros Htx Hw. unfold AvailableWindow. cbv [mbind St_bind get].
  destruct (BytesInFlight_send P s) as (s' & -> & S); [done|]. exists s'. split; [|exact S].
  cbv [mret St_ret]. fold (flight s). do 2 f_equal. unfold room.
  assert (0 <= flight s) by (unfold flight, in_flight; apply Z.add_nonneg_nonneg; apply (sumf_bounds _ (sent s))).
  destruct (Z.ltb_spec (Window s) (flight s)); [lia|].
  rewrite u32_small; [lia|]. unfold is_u32. lia.
Qed.

Lemma AvailableWindow_ok P s : can_send P s -> exists s', AvailableWindow s = Ok (room s, s') /\ silent s s'.
Proof.
  intros H. destruct (AvailableWindow_room P s) as (s' & E' & S & _); [by destruct H| |by exists s'].
  pose proof (cs_rWnd _ _ H). unfold Window. lia.
Qed.

(** The data in flight covers what was sent. *)
Lemma flight_sent P s : can_send P s -> total (sent s) <= flight s.
Proof.
  intros H. unfold flight, in_flight, total. pose proof (sumf_bounds m_retrans (sent s)).
  assert (forall l, Forall (fun t => m_lost t = false /\ m_sacked t = false) l ->
    sumf (fun t => negb (m_sacked t) && negb (m_lost t)) l = sumf (fun _ => true) l) as ->; [|lia|by destruct H].
  clear. intros l; induction 1 as [|t l [E1 E2] _ IH]; [done|]. by rewrite !sumf_cons, E1, E2, IH.
Qed.

(** The congestion control leaves the control block alone when sending starts. *)
Hypothesis quiet_start : forall c t, snd (CwndEvent c t CA_EVENT_TX_START) = t.

Lemma start_silent (b : bool) s :
  exists s', when b (CwndEvent_of CA_EVENT_TX_START) s = Ok (tt, s') /\ silent s s'.
Proof.
  apply when_silent. unfold CwndEvent_of, cc_upd. cbv [upd].
  pose proof (quiet_start (m_congestionControl s) (m_tcb s)) as Hq.
  destruct (CwndEvent _ _ _) as [c t]. cbn in Hq. subst t. eexists. split; [reflexivity|by repeat split].
Qed.

Lemma stopped_same s s' : m_txBuffer s' = m_txBuffer s -> m_tcb s' = m_tcb s -> m_rWnd s' = m_rWnd s ->
  m_state s' = m_state s -> stopped s -> stopped s'.
Proof. intros H1 H2 H3 H4. unfold stopped, room, Window, flight, GetSegSize, cong. by rewrite H1, H2, H3, H4. Qed.

(** A packet of the round, when the window has room. *)
Lemma send_packet_ok P s0 withAck size k s : progress P s0 s -> 0 < size <= room s -> 0 < total (unsent s) ->
  exists s', (upd_tcb (fun t => t <| m_nextTxSequence := u32 (P + total (sent s)) |>) ;;
     when (m_bytesInFlight (m_tcb s) =? 0) (CwndEvent_of CA_EVENT_TX_START) ;;
     sz ← SendDataPacket (u32 (P + total (sent s))) size withAck ;
     upd_tcb (fun t => t <| m_nextTxSequence := seq_add (m_nextTxSequence t) sz |>) ;;
     s ← get ;
     stop ← (if IsPacingEnabled s then schedule_pacing sz else mret false) ;
     if (stop : bool) then mret (inr (u32 (k + 1)))
     else available ← AvailableWindow ; mret (inl (available, u32 (k + 1)))) s
    = Ok (inl (room s', u32 (k + 1)), s') /\ progress P s0 s' /\ room s' < room s.
Proof.
  intros Hs Hsize Hu. cbv [mbind St_bind get upd_tcb upd].
  match goal with |- context [when ?b _ ?s] => destruct (start_silent b s) as (sb & -> & Kb & Tb & Ob & Rb) end.
  change (m_retxEvent sb = m_retxEvent s) in Rb.
  change (m_txBuffer sb = m_txBuffer s) in Tb. change (m_out sb = m_out s) in Ob.
  assert (keeps s sb) as K by (eapply keeps_trans; [|exact Kb]; by split).
  assert (progress P s0 sb) as Hb by (apply (progress_quiet P s0 s sb [] Hs K Tb); [by rewrite app_nil_r|done|done]).
  assert (room sb = room s) as Er by (unfold room, flight; by rewrite (keeps_window _ _ K), Tb).
  clear Kb. rewrite <- Tb in Hu |- *. rewrite <- Er in Hsize |- *. clear Er Ob Tb Rb K Hs s. rename sb into s, Hb into Hs.
  pose proof (pg_can _ _ _ Hs) as Hc. pose proof (flight_sent P s Hc) as Hf.
  assert (size <= m_rWnd s - flight s) as Hr by (unfold room, Window in Hsize; lia).
  pose proof Hc as [Htx _ _ _ Hrw _ _ _ Hpac _ _]. pose proof (tx_bounds P _ Htx) as Hbo.
  destruct (SendDataPacket_ok P s size withAck Hc) as (s1 & -> & Hone); [lia|lia|done|].
  set (p := ztake _ _) in *.
  assert (zlen p = Z.min size (total (unsent s))) as Hp by (apply (zlen_new P); [done|lia|lia]).
  pose proof (progress_one P s0 s size s1 Hs ltac:(lia) Hone) as H1.
  match goal with |- context [IsPacingEnabled ?x] => set (s2 := x) end.
  assert (progress P s0 s2) as H2 by (apply (progress_quiet P s0 s1 s2 [] H1); [by split|done|by rewrite app_nil_r|done|done]).
  assert (IsPacingEnabled s2 = false) as ->.
  { unfold IsPacingEnabled. by rewrite (cs_pacing _ _ (pg_can _ _ _ H2)). }
  cbv [mret St_ret]. destruct (AvailableWindow_ok P s2 (pg_can _ _ _ H2)) as (s3 & -> & K3 & T3 & O3 & R3).
  exists s3. assert (room s3 = room s2) as Er by (unfold room, flight; by rewrite (keeps_window _ _ K3), T3).
  split; [by rewrite Er|]. split; [apply (progress_quiet P s0 s2 s3 [] H2 K3 T3); [by rewrite app_nil_r|done|done]|].
  rewrite Er. change (room s2) with (room s1). destruct Hone as [_ K1 _ _ Ef _ _].
  unfold room in *. rewrite (keeps_window _ _ K1). fold (flight s1) in Ef. fold (flight s) in Ef. lia.
Qed.

Lemma stopped_room P s : can_send P s -> room s <= 0 -> stopped s.
Proof. intros H Hr. right; left. pose proof (cs_segment _ _ H). unfold GetSegSize. lia. Qed.

Lemma notify_quiet (b : bool) x s : exists outs,
  when b (notify x) s = Ok (tt, s <| m_out ::= fun l => l ++ outs |>) /\ data_sent outs = [].
Proof.
  destruct b; [by exists [O_Notify x]|]. exists []. split; [|done].
  destruct s. cbn. unfold set_field. cbn. by rewrite app_nil_r.
Qed.

(** Outside a recovery with SACK, a round takes what the window has room for. *)
Lemma send_round_ok P s0 withAck k s : progress P s0 s -> m_sackEnabled s0 && is_cong s0 CA_RECOVERY = false ->
  exists o s', send_round withAck (room s) k s = Ok (o, s') /\ progress P s0 s'
  /\ match o with inl (a, _) => a = room s' /\ room s' < room s | inr _ => stopped s' end.
Proof.
  intros Hs Hnr. pose proof (pg_can _ _ _ Hs) as Hc. pose proof (flight_sent P s Hc) as Hf.
  pose proof Hc as [Htx _ _ _ Hrw _ Hseg Hseg' Hpac _ Hcl]. pose proof (tx_bounds P _ Htx) as Hb.
  unfold send_round. cbv [mbind St_bind get mret St_ret].
  assert (0 <= room s) as Hr by (unfold room; lia). 
  destruct (Z.ltb_spec 0 (room s)) as [Hpos|Hpos]; cbn [negb];
    [|eexists _, s; split_and!; [done|done|by eapply stopped_room]].
  unfold IsPacingEnabled at 1. rewrite Hpac. cbn [andb].
  destruct (is_cong s CA_OPEN && _) eqn:Efin.
  { eexists _, s. split_and!; [done|done|]. apply andb_true_iff in Efin as [E1%bool_decide_eq_true E2%bool_decide_eq_true].
    by right; right. }
  assert (m_sackEnabled s && is_cong s CA_RECOVERY = false) as ->.
  { unfold is_cong, cong in *. destruct (pg_keeps _ _ _ Hs). by rewrite kp_sack0, kp_cong0. }
  assert (total (sent s) < m_rWnd s) as Hlt by (unfold room, Window in Hpos; lia).
  rewrite (NextSeg_new P) by done. destruct (Z.leb_spec (total (sent s)) (m_rWnd s)); [|lia]. rewrite andb_true_r.
  destruct (Z.ltb_spec 0 (total (unsent s))) as [Hu|Hu].
  2:{ eexists _, s. split_and!; [done|done|]. left. unfold GetSegSize. lia. }
  rewrite (SizeFromSequence_sent P) by done.
  match goal with |- context [when ?b (notify ?x)] => destruct (notify_quiet b x s) as (outs & -> & Ho) end.
  set (s1 := s <| m_out ::= _ |>).
  assert (progress P s0 s1) as H1 by (apply (progress_quiet P s0 s s1 outs Hs); [by split|done..]).
  destruct ((room s <? GetSegSize s) && _) eqn:Esmall.
  { eexists _, s1. split_and!; [done|done|]. right; left. change (room s < GetSegSize s). lia. }
  destruct (_ && (total (unsent s) <? GetSegSize s)) eqn:Enagle.
  { eexists _, s1. split_and!; [done|done|]. left. change (total (unsent s) < GetSegSize s). lia. }
  rewrite diff32_window by lia. match goal with |- context [SendDataPacket _ ?n _] => set (size := n) end.
  assert (0 < size <= room s1) as Hsize.
  { change (room s1) with (room s). subst size. rewrite u32_small by (unfold is_u32; lia). unfold GetSegSize. lia. }
  destruct (send_packet_ok P s0 withAck size k s1 H1 Hsize Hu) as (s' & E' & H' & Hlt').
  eexists _, s'. split; [exact E'|]. done.
Qed.

(** The assertion at the end of SendPendingData. *)
Lemma disorder_ok s s' k : keeps s s' ->
  m_sackEnabled s || m_limitedTx attrs || negb (is_cong s CA_DISORDER) = true ->
  when ((0 <? k) && negb (m_sackEnabled s') && negb (m_limitedTx attrs))
    (lift (ns_assert (negb (is_cong s' CA_DISORDER)))) s' = Ok (tt, s').
Proof.
  intros [] H. unfold is_cong, cong in *. rewrite kp_sack0, kp_cong0.
  destruct (m_sackEnabled s), (m_limitedTx attrs), (0 <? k); try done. cbn in *. by rewrite H.
Qed.

(** C3. SendPendingData outside a SACK-based recovery, nothing SACKed or lost:
    it returns; what it has sent are the next bytes of the stream in order,
    none left out and none twice, and they stay in the buffer; the data in
    flight does not exceed the window; when data was sent the retransmission
    timer runs; and it stops only when less than a segment of data or of
    window is left, or after the FIN. *)
Theorem send_pending_data P s withAck : can_send P s ->
  m_sackEnabled s && is_cong s CA_RECOVERY = false ->
  m_sackEnabled s || m_limitedTx attrs || negb (is_cong s CA_DISORDER) = true ->
  exists k s', SendPendingData withAck s = Ok (k, s') /\ progress P s s' /\ (content (m_txBuffer s) <> [] -> stopped s').
Proof.
  intros Hc Hnr Hdis. unfold SendPendingData. cbv [mbind St_bind get mret St_ret].
  destruct (Z.eqb_spec (TxBuffer.Size (m_txBuffer s)) 0) as [E0|E0].
  { exists 0, s. split_and!; [done|by apply progress_refl|]. intros Hne. exfalso. apply Hne.
    apply nil_length_inv. change (m_size (m_txBuffer s) = 0) in E0. 
    pose proof (content_len _ _ _ (cs_tx _ _ Hc)) as Hl. unfold zlen in Hl. lia. }
  destruct (cs_endPoint _ _ Hc) as [ep ->].
  destruct (AvailableWindow_ok P s Hc) as (s1 & -> & K1 & T1 & O1 & R1).
  assert (progress P s s1) as H1.
  { apply (progress_quiet P s s s1 []); [by apply progress_refl|done|done|by rewrite app_nil_r|done|done]. }
  assert (room s1 = room s) as Er by (unfold room, flight; by rewrite (keeps_window _ _ K1), T1).
  unfold send_loop.
  destruct (while_ok (fun st => progress P s (snd st) /\ fst (fst st) = room (snd st))
    (fun r => progress P s (snd r) /\ stopped (snd r)) (fun st => room (snd st)) (send_step withAck)
    (2 ^ 32)%positive (room s, 0, s1)) as ([k s'] & -> & H' & Hst).
  - intros [[a j] s2] [H2 Ea]. cbn [fst snd] in *. subst a. unfold send_step.
    destruct (send_round_ok P s withAck j s2 H2 Hnr) as ([[a' k']|k'] & s' & -> & H3 & Ho);
      (eexists; split; [reflexivity|]); cbn [fst snd]; [|done].
    destruct Ho as [-> Hlt]. unfold room in *. split_and!; [done|done|lia|lia].
  - split; [exact H1|exact (eq_sym Er)].
  - cbn [snd]. rewrite Er. unfold room, Window. pose proof (cs_rWnd _ _ Hc). pose proof (flight_sent P s Hc).
    pose proof (tot_nonneg (sent s)). lia.
  - rewrite (disorder_ok s s' k (pg_keeps _ _ _ H') Hdis). by exists k, s'.
Qed.

(** ** The window of the peer is full, and some of it SACKed *)

(** The data sent fills the window of the peer exactly, nothing is lost; as
    some of it is SACKed, less is in flight, and more is waiting. *)
Record sacked_full_window (P : Z) s : Prop := {
  sf_tx : tx_ok P (m_txBuffer s);
  sf_endPoint : m_endPoint s <> None;
  sf_full : total (sent s) = m_rWnd s;
  sf_lost : Forall (fun t => m_lost t = false) (sent s);
  sf_room : GetSegSize s <= room s;
  sf_segment : 0 < GetSegSize s;
  sf_waiting : GetSegSize s <= total (unsent s);
  sf_pacing : m_pacing (m_tcb s) = false;
  sf_state : is_cong s CA_OPEN && bool_decide (m_state s = FIN_WAIT_1) = false;
}.

Lemma scan_not_lost l pos r rule3 valid : Forall (fun t => m_lost t = false) l ->
  exists rule3' valid', next_seg_scan l pos r rule3 valid = (None, rule3', valid').
Proof.
  intros H. revert pos rule3 valid. induction H as [|t l Hl _ IH]; intros; cbn [next_seg_scan]; [by eexists _, _|].
  rewrite Hl. destruct (negb _ && _); [|by eapply IH]. destruct (_ && r); by eapply IH.
Qed.

(** The range of sequence numbers to send next is empty. *)
Lemma NextSeg_empty P b r : tx_ok P b -> Forall (fun t => m_lost t = false) (m_sentList b) ->
  0 < total (m_appList b) -> 0 <= TxBuffer.m_segmentSize b ->
  let next := u32 (P + total (m_sentList b)) in NextSeg b (total (m_sentList b)) r = Some (next, next).
Proof.
  intros H Hl Hu Hseg. unfold NextSeg. destruct (scan_not_lost (m_sentList b) (m_firstByteSeq b) r 0 false Hl) as (? & ? & ->).
  rewrite (tx_first _ _ _ H), (tx_sent _ _ _ H), add32_wrap, (SizeFromSequence_sent P b H). cbv zeta.
  destruct (Z.ltb_spec 0 (total (m_appList b))); [|lia]. rewrite Z.leb_refl, add32_wrap, Z.sub_diag.
  change (u32 0) with 0. rewrite Z.min_r by done. by rewrite Z.add_0_r.
Qed.

Lemma CopyFromSequence_0 P b t Q : tx_ok P b -> P <= Q <= P + total (m_sentList b) ->
  CopyFromSequence t b 0 (u32 Q) = Ok (None, b).
Proof.
  intros H HQ. pose proof (tx_bounds P b H). unfold CopyFromSequence. cbn [CopyFromSequence_f].
  rewrite (tx_first _ _ _ H). seqw. destruct (Z.ltb_spec Q P); [lia|]. cbn [ns_abort_if]. res_step.
  unfold SizeFromSequence. destruct (seq_ge _ _); [|done].
  by rewrite Z.min_l by (apply u32_range).
Qed.

Lemma SendDataPacket_0 P s withAck : tx_ok P (m_txBuffer s) ->
  SendDataPacket (u32 (P + total (sent s))) 0 withAck s = Err NullDeref.
Proof.
  intros Htx. unfold SendDataPacket. cbv [mbind St_bind get lift].
  destruct (BytesInFlight_send P s Htx) as (s0 & -> & (_ & T0 & _) & _).
  pose proof (tot_nonneg (sent s)). by rewrite T0, (CopyFromSequence_0 P) by (done || lia).
Qed.

Lemma send_round_crash P withAck k s : sacked_full_window P s -> 0 <= TxBuffer.m_segmentSize (m_txBuffer s) ->
  send_round withAck (room s) k s = Err NullDeref.
Proof.
  intros [Htx _ Hfull Hlost Hroom Hseg Hwait Hpac Hst] Hseg'. unfold send_round. cbv [mbind St_bind get mret St_ret].
  destruct (Z.ltb_spec 0 (room s)) as [_|?]; [|lia]. cbn [negb].
  unfold IsPacingEnabled at 1. rewrite Hpac, Hst, <- Hfull. cbn [andb].
  rewrite (NextSeg_empty P) by (done || lia). rewrite (SizeFromSequence_sent P) by done.
  match goal with |- context [when ?b (notify ?x)] => destruct (notify_quiet b x s) as (outs & -> & _) end.
  destruct (Z.ltb_spec (room s) (GetSegSize s)) as [?|_]; [lia|].
  destruct (Z.ltb_spec (total (unsent s)) (GetSegSize s)) as [?|_]; [lia|]. rewrite andb_false_r. cbn [andb].
  rewrite diff32_window, Z.sub_diag, (Z.min_r _ (u32 0)) by (change (u32 0) with 0; lia).
  change (u32 0) with 0. cbv [upd_tcb upd]. unfold CwndEvent_of, cc_upd, when. cbv [upd].
  destruct (m_bytesInFlight (m_tcb s) =? 0); [destruct (CwndEvent _ _ _) as [c t]|cbv [mret St_ret]];
    match goal with |- context [SendDataPacket ?q _ _ ?x] =>
      assert (SendDataPacket q 0 withAck x = Err NullDeref) as -> by exact (SendDataPacket_0 P x withAck Htx) end; done.
Qed.

(** C29. When the data sent fills the window of the peer exactly, none of it is
    lost and so much of it is SACKed that the congestion window allows a
    segment, SendPendingData dereferences null: NextSeg finds an empty range,
    CopyFromSequence returns no item for it, and SendDataPacket does not test
    the item. *)
Theorem sacked_full_window_crashes P s withAck :
  sacked_full_window P s -> 0 <= TxBuffer.m_segmentSize (m_txBuffer s) ->
  SendPendingData withAck s = Err NullDeref.
Proof.
  intros H Hseg. pose proof H as [Htx Hep Hfull Hlost Hroom Hseg' Hwait Hpac Hst]. pose proof (tx_bounds P _ Htx) as Hb.
  unfold SendPendingData. cbv [mbind St_bind get mret St_ret].
  destruct (Z.eqb_spec (TxBuffer.Size (m_txBuffer s)) 0) as [E0|_].
  { change (m_size (m_txBuffer s) = 0) in E0. rewrite (tx_size _ _ _ Htx) in E0. lia. }
  destruct (m_endPoint s) as [ep|] eqn:Eep; [|done].
  destruct (AvailableWindow_room P s Htx) as (s1 & -> & (K & T & _) & Est); [unfold Window; lia|].
  assert (room s1 = room s) as Er by (unfold room, flight; by rewrite (keeps_window _ _ K), T).
  assert (sacked_full_window P s1) as H1.
  { destruct K. split; unfold GetSegSize, is_cong, cong in *; rewrite ?Er, ?T, ?Est, ?kp_endPoint0, ?kp_rWnd0,
      ?kp_segment0, ?kp_pacing0, ?kp_cong0; congruence || done. }
  unfold send_loop. rewrite <- Er, (while_err _ _ _ NullDeref); [done|].
  unfold send_step. rewrite (send_round_crash P) by (done || by rewrite T). done.
Qed.
End Send.

(** ** Witnesses *)

(** An established connection with segments of two bytes, the peer's window
    being [w], and data waiting. *)
Definition sender (w : Z) : Sock TcpNewReno TcpPrrRecovery :=
  established_socket <| m_rWnd := w |> <| m_txBuffer ::= fun b => SetSegmentSize b 2 |>
    <| m_tcb ::= fun t => t <| SocketState.m_segmentSize := 2 |> <| m_cWnd := 100 |> <| m_cWndInfl := 100 |> |>.
Definition sender_data : Sock TcpNewReno TcpPrrRecovery :=
  (sender 5) <| m_txBuffer ::= fun b => snd (Add b [1; 2; 3; 4; 5; 6; 7; 8]) |>.

Lemma sender_data_can_send : can_send 0 sender_data.
Proof.
  split; try done; try (by vm_compute); try lia.
  - apply Add_ok. split; try done; try (by vm_compute). split; [by apply NoDup_nil|done].
  - by eexists.
  - right. by vm_compute.
Qed.

Lemma send_pending_data_witness : exists k s',
  SendPendingData (E := env_at 1000) true sender_data = Ok (k, s')
  /\ data_sent (m_out s') = [1; 2; 3; 4] /\ flight s' <= 5 /\ m_retxEvent s' <> None.
Proof.
  edestruct (send_pending_data (A := TcpNewReno) (B := TcpPrrRecovery) (E := env_at 1000)) as (k & s' & Hr & H & _);
    [|exact sender_data_can_send|reflexivity|reflexivity|]; [by intros|].
  exists k, s'. assert (Hn : match SendPendingData (E := env_at 1000) true sender_data with
    | Ok (_, s) => (data_sent (m_out s), total (m_sentList (m_txBuffer s))) | Err _ => ([], 0) end = ([1; 2; 3; 4], 4))
    by (vm_compute; reflexivity).
  rewrite Hr in Hn. injection Hn as Hd Ht. split_and!; [exact Hr|exact Hd|exact (pg_window _ _ _ H)|].
  apply (pg_timer _ _ _ H). rewrite Ht. by vm_compute.
Defined.

(** Three segments fill the window; the second one is SACKed. *)
Definition sacked_sender : Sock TcpNewReno TcpPrrRecovery :=
  (sender 6) <| m_txBuffer := mkTx [w_item 0 6 [7; 8]]
      [w_item 1 0 [1; 2]; (w_item 2 2 [3; 4]) <| m_sacked := true |>; w_item 3 4 [5; 6]]
      32768 8 6 0 (Some 2, 2) 0 2 0 3 2 false true 4 |>.

Lemma sacked_sender_full : sacked_full_window 0 sacked_sender.
Proof.
  split; try done; try (by vm_compute); [|by repeat constructor].
  split; try done; try (by vm_compute).
  - by repeat constructor.
  - split; [reflexivity..|by repeat constructor].
  - split; [|by repeat constructor]. apply (bool_decide_unpack _). vm_compute. exact I.
  - intros _. eexists. split; [right; left|by vm_compute].
Qed.

Lemma sacked_full_window_crashes_witness :
  SendPendingData (E := env_at 2000) true sacked_sender = Err NullDeref.
Proof. apply (sacked_full_window_crashes (E := env_at 2000) 0); [exact sacked_sender_full|by vm_compute]. Defined.

(** It happens in a run: the application sends, the peer SACKs the second
    segment. *)
Definition sack_events : list (Env * SocketEvent) :=
  [(env_at 1000, E_Send [1; 2; 3; 4; 5; 6; 7; 8]);
   (env_at 1001, E_Timer T_sendPendingData);
   (env_at 2000, E_Segment [] (TcpHeader_new <| m_flags := ACK |>
                 <| m_sourcePort := 80 |> <| m_destinationPort := 49153 |>
                 <| m_options := [TcpOptionSack [(2, 4)]] |>
                 <| TcpHeader.m_windowSize := 6 |>) 20 NotECT (2, 80) (1, 49153))].

Lemma sacked_full_window_run :
  (exists s, run (firstn 2 sack_events) (sender 6) = Ok s /\ data_sent (m_out s) = [1; 2; 3; 4; 5; 6])
  /\ run sack_events (sender 6) = Err NullDeref.
Proof. split; [eexists; split; vm_compute; reflexivity|vm_compute; reflexivity]. Qed.
