(* ===== verification/Demux.v ===== *)
(** The demultiplexing of segments: the end points of a node
    (ipv4-end-point.cc) and the table that finds the end point of a segment
    (ipv4-end-point-demux.cc).

    An end point is a C++ object with an identity, [ep_id]; its callbacks are
    those of its socket and are not part of the record.  An Ipv4Address is a
    32-bit number, a NetDevice a number, the null device is [None]. *)
From Stdlib Require Import ZArith Lia Bool List.
From stdpp Require Import base list.
From S2P Require Import Prelude.

Record Ipv4EndPoint := mkEP {
  ep_id : Z;
  m_localAddr : Z;
  m_localPort : Z;
  m_peerAddr : Z;
  m_peerPort : Z;
  m_boundnetdevice : option Z;
  m_rxEnabled : bool;
}.

#[export] Instance eta_Ipv4EndPoint : Settable Ipv4EndPoint := fun r =>
  mkEP (ep_id r) (m_localAddr r) (m_localPort r) (m_peerAddr r) (m_peerPort r)
    (m_boundnetdevice r) (m_rxEnabled r).

(** Ipv4Address::GetAny and Ipv4Address::CombineMask *)
Definition GetAny : Z := 0.
Definition CombineMask (addr mask : Z) : Z := Z.land addr mask.

Definition Ipv4EndPoint_new (id address port : Z) : Ipv4EndPoint :=
  mkEP id address port GetAny 0 None true.

Definition SetPeer (address port : Z) (e : Ipv4EndPoint) : Ipv4EndPoint :=
  e <| m_peerAddr := address |> <| m_peerPort := port |>.
Definition SetLocalAddress (address : Z) (e : Ipv4EndPoint) : Ipv4EndPoint :=
  e <| m_localAddr := address |>.
Definition BindToNetDevice (d : option Z) (e : Ipv4EndPoint) : Ipv4EndPoint :=
  e <| m_boundnetdevice := d |>.
Definition SetRxEnabled (b : bool) (e : Ipv4EndPoint) : Ipv4EndPoint :=
  e <| m_rxEnabled := b |>.

(** The interface that a packet came in on: its device and the addresses with
    their masks. *)
Record Ipv4Interface := mkIface {
  if_device : Z;
  if_addresses : list (Z * Z);
}.

(** [nextId] numbers the objects that are created. *)
Record Ipv4EndPointDemux := mkDemux {
  m_endPoints : list Ipv4EndPoint;
  m_ephemeral : Z;
  m_portLast : Z;
  m_portFirst : Z;
  nextId : Z;
}.

#[export] Instance eta_Demux : Settable Ipv4EndPointDemux := fun r =>
  mkDemux (m_endPoints r) (m_ephemeral r) (m_portLast r) (m_portFirst r) (nextId r).

Definition Ipv4EndPointDemux_new : Ipv4EndPointDemux := mkDemux [] 49152 65535 49152 0.

Definition LookupPortLocal (d : Ipv4EndPointDemux) (port : Z) : bool :=
  existsb (fun e => m_localPort e =? port) (m_endPoints d).

Definition LookupLocal (d : Ipv4EndPointDemux) (dev : option Z) (addr port : Z) : bool :=
  existsb (fun e => (m_localPort e =? port) && (m_localAddr e =? addr)
                    && bool_decide (m_boundnetdevice e = dev)) (m_endPoints d).

(** The loop of AllocateEphemeralPort: the port found, 0 for none. *)
Fixpoint ephemeral_loop (fuel : nat) (d : Ipv4EndPointDemux) (count port : Z) : res Z :=
  match fuel with
  | O => Err NoFuel
  | S fuel =>
      if count <? 0 then Ok 0
      else
        let port := u16 (port + 1) in
        let port := if (port <? m_portFirst d) || (m_portLast d <? port) then m_portFirst d else port in
        if LookupPortLocal d port then ephemeral_loop fuel d (count - 1) port else Ok port
  end.

Definition AllocateEphemeralPort (d : Ipv4EndPointDemux) : res (Z * Ipv4EndPointDemux) :=
  let count := m_portLast d - m_portFirst d in
  port ← ephemeral_loop (Z.to_nat (count + 2)) d count (m_ephemeral d) ;
  Ok (port, if port =? 0 then d else d <| m_ephemeral := port |>).

(** The common end of the allocations: a new end point in the table. *)
Definition push_endPoint (d : Ipv4EndPointDemux) (e : Z -> Ipv4EndPoint) : Ipv4EndPoint * Ipv4EndPointDemux :=
  (e (nextId d), d <| m_endPoints ::= fun l => l ++ [e (nextId d)] |> <| nextId ::= Z.succ |>).

(** The null pointer is [None]. *)
Definition Allocate_address (d : Ipv4EndPointDemux) (address : Z)
  : res (option Ipv4EndPoint * Ipv4EndPointDemux) :=
  '(port, d) ← AllocateEphemeralPort d ;
  if port =? 0 then Ok (None, d)
  else let '(e, d) := push_endPoint d (fun id => Ipv4EndPoint_new id address port) in Ok (Some e, d).

Definition Allocate_any (d : Ipv4EndPointDemux) : res (option Ipv4EndPoint * Ipv4EndPointDemux) :=
  '(port, d) ← AllocateEphemeralPort d ;
  if port =? 0 then Ok (None, d)
  else let '(e, d) := push_endPoint d (fun id => Ipv4EndPoint_new id GetAny port) in Ok (Some e, d).

Definition Allocate_local (d : Ipv4EndPointDemux) (dev : option Z) (address port : Z)
  : option Ipv4EndPoint * Ipv4EndPointDemux :=
  if LookupLocal d dev address port || LookupLocal d None address port then (None, d)
  else let '(e, d) := push_endPoint d (fun id => Ipv4EndPoint_new id address port) in (Some e, d).

Definition Allocate_port (d : Ipv4EndPointDemux) (dev : option Z) (port : Z)
  : option Ipv4EndPoint * Ipv4EndPointDemux := Allocate_local d dev GetAny port.

Definition same_tuple (dev : option Z) (laddr lport paddr pport : Z) (e : Ipv4EndPoint) : bool :=
  (m_localPort e =? lport) && (m_localAddr e =? laddr) && (m_peerPort e =? pport)
  && (m_peerAddr e =? paddr)
  && (bool_decide (m_boundnetdevice e = dev) || bool_decide (m_boundnetdevice e = None)).

Definition Allocate_tuple (d : Ipv4EndPointDemux) (dev : option Z) (laddr lport paddr pport : Z)
  : option Ipv4EndPoint * Ipv4EndPointDemux :=
  if existsb (same_tuple dev laddr lport paddr pport) (m_endPoints d) then (None, d)
  else
    let '(e, d) := push_endPoint d (fun id => SetPeer paddr pport (Ipv4EndPoint_new id laddr lport)) in
    (Some e, d).

(** The first end point with this identity leaves. *)
Fixpoint erase_endPoint (id : Z) (l : list Ipv4EndPoint) : list Ipv4EndPoint :=
  match l with
  | [] => []
  | e :: l => if ep_id e =? id then l else e :: erase_endPoint id l
  end.

Definition DeAllocate (d : Ipv4EndPointDemux) (id : Z) : Ipv4EndPointDemux :=
  d <| m_endPoints ::= erase_endPoint id |>.

Definition GetAllEndPoints (d : Ipv4EndPointDemux) : list Ipv4EndPoint := m_endPoints d.

(** A call of a setter on the end point with this identity. *)
Definition set_endPoint (d : Ipv4EndPointDemux) (id : Z) (f : Ipv4EndPoint -> Ipv4EndPoint) : Ipv4EndPointDemux :=
  d <| m_endPoints ::= map (fun e => if ep_id e =? id then f e else e) |>.

(** *** Lookup *)

(** The local address is the network address of the interface, and the
    destination is in that network. *)
Definition subnet_any (addrs : list (Z * Z)) (local daddr : Z) : bool :=
  existsb (fun am => let netpart := CombineMask (fst am) (snd am) in
                     (local =? netpart) && (netpart =? CombineMask daddr (snd am))) addrs.

(** The four lists of matches, the least specific first. *)
Record Matches := mkMatches {
  retval1 : list Ipv4EndPoint;
  retval2 : list Ipv4EndPoint;
  retval3 : list Ipv4EndPoint;
  retval4 : list Ipv4EndPoint;
}.

Definition lookup_step (daddr dport saddr sport : Z) (i : Ipv4Interface) (r : Matches) (e : Ipv4EndPoint)
  : Matches :=
  if negb (m_rxEnabled e) then r
  else if negb (m_localPort e =? dport) then r
  else if match m_boundnetdevice e with Some dev => negb (dev =? if_device i) | None => false end then r
  else
    let localExact := m_localAddr e =? daddr in
    let localAny := negb localExact && (m_localAddr e =? GetAny) in
    let localSubnet := negb localExact && negb localAny && subnet_any (if_addresses i) (m_localAddr e) daddr in
    if negb (localExact || localAny || localSubnet) then r
    else
      let portExact := m_peerPort e =? sport in
      let portWild := m_peerPort e =? 0 in
      let addrExact := m_peerAddr e =? saddr in
      let addrWild := m_peerAddr e =? GetAny in
      if negb (portExact || portWild) then r
      else if negb (addrExact || addrWild) then r
      else
        let localWild := localAny || localSubnet in
        let add (b : bool) l := if b then l ++ [e] else l in
        mkMatches (add (localWild && addrWild && portWild) (retval1 r))
          (add (localExact && addrWild && portWild) (retval2 r))
          (add (localWild && addrExact && portExact) (retval3 r))
          (add (localExact && addrExact && portExact) (retval4 r)).

Definition most_exact (r : Matches) : list Ipv4EndPoint :=
  match retval4 r, retval3 r, retval2 r with
  | _ :: _, _, _ => retval4 r
  | [], _ :: _, _ => retval3 r
  | [], [], _ :: _ => retval2 r
  | [], [], [] => retval1 r
  end.

Definition Lookup (d : Ipv4EndPointDemux) (daddr dport saddr sport : Z) (i : Ipv4Interface)
  : res (list Ipv4EndPoint) :=
  let r := fold_left (lookup_step daddr dport saddr sport i) (m_endPoints d) (mkMatches [] [] [] []) in
  let retval := most_exact r in
  ns_abort_if (1 <? zlen retval) ;;
  Ok retval.

Fixpoint simple_lookup (l : list Ipv4EndPoint) (daddr dport saddr sport : Z) (genericity : Z)
    (generic : option Ipv4EndPoint) : option Ipv4EndPoint :=
  match l with
  | [] => generic
  | e :: l =>
      if negb (m_localPort e =? dport) then simple_lookup l daddr dport saddr sport genericity generic
      else if (m_localAddr e =? daddr) && (m_peerPort e =? sport) && (m_peerAddr e =? saddr) then Some e
      else
        let tmp := (if m_localAddr e =? GetAny then 1 else 0) + (if m_peerAddr e =? GetAny then 1 else 0) in
        if tmp <? genericity then simple_lookup l daddr dport saddr sport tmp (Some e)
        else simple_lookup l daddr dport saddr sport genericity generic
  end.

Definition SimpleLookup (d : Ipv4EndPointDemux) (daddr dport saddr sport : Z) : option Ipv4EndPoint :=
  simple_lookup (m_endPoints d) daddr dport saddr sport 3 None.
