(* ===== verification/DemuxSpec.v ===== *)
(** Demultiplexing: the ephemeral ports, the distinct four-tuples, and the end
    point that Lookup finds. *)
From Stdlib Require Import ZArith Lia Bool List.
From stdpp Require Import base list relations.
From S2P Require Import Prelude Demux.

(** ** Ephemeral ports *)

Record ports_ok (d : Ipv4EndPointDemux) : Prop := {
  po_first : 0 < m_portFirst d;
  po_last : m_portLast d < 2 ^ 16;
  po_range : m_portFirst d <= m_ephemeral d <= m_portLast d;
}.

(** The number of ephemeral ports, and the one [j] steps after the last one
    given out, cyclically. *)
Definition port_count (d : Ipv4EndPointDemux) : Z := m_portLast d - m_portFirst d + 1.
Definition port_after (d : Ipv4EndPointDemux) (j : Z) : Z :=
  m_portFirst d + (m_ephemeral d - m_portFirst d + j) mod port_count d.

Lemma port_after_range d j : ports_ok d -> m_portFirst d <= port_after d j <= m_portLast d.
Proof.
  intros [H1 H2 H3]. unfold port_after, port_count.
  pose proof (Z.mod_pos_bound (m_ephemeral d - m_portFirst d + j) (m_portLast d - m_portFirst d + 1)). lia.
Qed.

Lemma port_after_0 d : ports_ok d -> port_after d 0 = m_ephemeral d.
Proof. intros [H1 H2 H3]. unfold port_after, port_count. rewrite Z.mod_small by lia. lia. Qed.

Lemma mod_succ x n : 0 < n -> (x + 1) mod n = if x mod n =? n - 1 then 0 else x mod n + 1.
Proof.
  intros Hn. pose proof (Z.mod_pos_bound x n Hn) as Hb. pose proof (Z.div_mod x n) as Hx.
  destruct (Z.eqb_spec (x mod n) (n - 1)).
  - symmetry. apply (Z.mod_unique _ _ (x / n + 1)); lia.
  - symmetry. apply (Z.mod_unique _ _ (x / n)); lia.
Qed.

(** The step of the loop. *)
Lemma port_after_next d j : ports_ok d ->
  let port := u16 (port_after d j + 1) in
  (if (port <? m_portFirst d) || (m_portLast d <? port) then m_portFirst d else port) = port_after d (j + 1).
Proof.
  intros H. pose proof (port_after_range d j H) as Hr. destruct H as [H1 H2 H3]. cbv zeta.
  unfold port_after, port_count in *. rewrite Z.add_assoc, mod_succ by lia.
  set (r := (_ + j) mod _) in *. destruct (Z.eq_dec (m_portFirst d + r) 65535) as [E|E].
  - rewrite E. change (u16 (65535 + 1)) with 0. destruct (Z.ltb_spec 0 (m_portFirst d)); [|lia]. cbn [orb].
    destruct (Z.eqb_spec r (m_portLast d - m_portFirst d + 1 - 1)); lia.
  - unfold u16. rewrite Z.mod_small by lia.
    destruct (Z.ltb_spec (m_portFirst d + r + 1) (m_portFirst d)); [lia|]. cbn [orb].
    destruct (Z.ltb_spec (m_portLast d) (m_portFirst d + r + 1)), (Z.eqb_spec r (m_portLast d - m_portFirst d + 1 - 1)); lia.
Qed.

(** Every port of the range comes after some number of steps. *)
Lemma port_after_onto d p : ports_ok d -> m_portFirst d <= p <= m_portLast d ->
  exists j, 1 <= j <= port_count d /\ port_after d j = p.
Proof.
  intros [H1 H2 H3] Hp. unfold port_after, port_count. set (n := m_portLast d - m_portFirst d + 1).
  exists ((p - m_ephemeral d - 1) mod n + 1). pose proof (Z.mod_pos_bound (p - m_ephemeral d - 1) n).
  split; [lia|]. replace (m_ephemeral d - m_portFirst d + ((p - m_ephemeral d - 1) mod n + 1))
    with ((m_ephemeral d - m_portFirst d + 1) + (p - m_ephemeral d - 1) mod n) by lia.
  rewrite Z.add_mod_idemp_r by lia. rewrite Z.mod_small; lia.
Qed.

Lemma ephemeral_loop_ok d fuel j : ports_ok d -> 0 <= j <= port_count d ->
  (Z.to_nat (port_count d - j) < fuel)%nat ->
  exists r, ephemeral_loop fuel d (port_count d - 1 - j) (port_after d j) = Ok r
  /\ ((exists k, j < k <= port_count d /\ r = port_after d k /\ LookupPortLocal d r = false
        /\ forall i, j < i < k -> LookupPortLocal d (port_after d i) = true)
      \/ r = 0 /\ forall i, j < i <= port_count d -> LookupPortLocal d (port_after d i) = true).
Proof.
  intros H. revert j. induction fuel as [|fuel IH]; intros j Hj Hf; [lia|]. cbn [ephemeral_loop].
  destruct (Z.ltb_spec (port_count d - 1 - j) 0) as [Hc|Hc].
  - exists 0. split; [done|]. right. split; [done|]. intros i. lia.
  - rewrite port_after_next by done. destruct (LookupPortLocal d (port_after d (j + 1))) eqn:Eu.
    + replace (port_count d - 1 - j - 1) with (port_count d - 1 - (j + 1)) by lia.
      destruct (IH (j + 1)) as (r & -> & Hr); [lia|lia|]. exists r. split; [done|].
      destruct Hr as [(k & Hk & E & Ef & Hi)|[E Hi]].
      * left. exists k. split_and!; [lia|lia|done|done|]. intros i Hik.
        destruct (Z.eq_dec i (j + 1)) as [->|]; [done|apply Hi; lia].
      * right. split; [done|]. intros i Hik. destruct (Z.eq_dec i (j + 1)) as [->|]; [done|apply Hi; lia].
    + exists (port_after d (j + 1)). split; [done|]. left. exists (j + 1). split_and!; [lia|lia|done|done|].
      intros i. lia.
Qed.

Lemma AllocateEphemeralPort_ok d : ports_ok d ->
  exists p d', AllocateEphemeralPort d = Ok (p, d')
  /\ ports_ok d' /\ m_endPoints d' = m_endPoints d /\ nextId d' = nextId d
  /\ ((exists k, 1 <= k <= port_count d /\ p = port_after d k /\ m_ephemeral d' = p
        /\ m_portFirst d <= p <= m_portLast d /\ LookupPortLocal d p = false
        /\ forall i, 1 <= i < k -> LookupPortLocal d (port_after d i) = true)
      \/ p = 0 /\ d' = d
        /\ forall q, m_portFirst d <= q <= m_portLast d -> LookupPortLocal d q = true).
Proof.
  intros H. pose proof H as [H1 H2 H3]. unfold AllocateEphemeralPort.
  destruct (ephemeral_loop_ok d (Z.to_nat (m_portLast d - m_portFirst d + 2)) 0 H) as (r & E & Hr);
    [unfold port_count; lia|unfold port_count; lia|].
  rewrite port_after_0 in E by done. replace (port_count d - 1 - 0) with (m_portLast d - m_portFirst d) in E
    by (unfold port_count; lia).
  rewrite E. cbn. exists r. destruct Hr as [(k & Hk & Er & Ef & Hi)|[-> Hi]].
  - pose proof (port_after_range d k H) as Hrg. rewrite <- Er in Hrg.
    destruct (Z.eqb_spec r 0) as [E0|E0]; [lia|]. eexists. split_and!; [done|by split|done|done|].
    left. exists k. split_and!; try done; lia || (intros i Hik; apply Hi; lia).
  - exists d. split_and!; try done. right. split_and!; try done. intros q Hq.
    destruct (port_after_onto d q H Hq) as (j & Hj & <-). apply Hi. lia.
Qed.

(** C33. AllocateEphemeralPort returns; it gives the first port, cyclically after
    the last one given out, that no end point uses, and 0 only when every port
    of the range is in use. *)
Theorem ephemeral_port d : ports_ok d ->
  exists p d', AllocateEphemeralPort d = Ok (p, d')
  /\ ports_ok d' /\ m_endPoints d' = m_endPoints d /\ nextId d' = nextId d
  /\ ((exists k, 1 <= k <= port_count d /\ p = port_after d k /\ m_ephemeral d' = p
        /\ m_portFirst d <= p <= m_portLast d /\ LookupPortLocal d p = false
        /\ forall i, 1 <= i < k -> LookupPortLocal d (port_after d i) = true)
      \/ p = 0 /\ d' = d
        /\ forall q, m_portFirst d <= q <= m_portLast d -> LookupPortLocal d q = true).
Proof. exact (AllocateEphemeralPort_ok d). Qed.

(** ** The table *)

(** The four-tuple of an end point. *)
Definition tuple (e : Ipv4EndPoint) : Z * Z * Z * Z := (m_localAddr e, m_localPort e, m_peerAddr e, m_peerPort e).

(** Distinct objects, distinct four-tuples, nothing bound to a device. *)
Record demux_ok (d : Ipv4EndPointDemux) : Prop := {
  do_ports : ports_ok d;
  do_ids : NoDup (map ep_id (m_endPoints d));
  do_next : Forall (fun e => ep_id e < nextId d) (m_endPoints d);
  do_tuples : NoDup (map tuple (m_endPoints d));
  do_bound : Forall (fun e => m_boundnetdevice e = None) (m_endPoints d);
}.

(** The calls of TcpL4Protocol and of the sockets.  A socket that connects sets
    the peer and the local address of its end point; the four-tuple it gets is
    not that of another one. *)
Inductive demux_step (d : Ipv4EndPointDemux) : Ipv4EndPointDemux -> Prop :=
| step_any o d' : Allocate_any d = Ok (o, d') -> demux_step d d'
| step_address a o d' : Allocate_address d a = Ok (o, d') -> demux_step d d'
| step_port dev p o d' : Allocate_port d dev p = (o, d') -> demux_step d d'
| step_local dev a p o d' : Allocate_local d dev a p = (o, d') -> demux_step d d'
| step_tuple dev la lp pa pp o d' : Allocate_tuple d dev la lp pa pp = (o, d') -> demux_step d d'
| step_dealloc id : demux_step d (DeAllocate d id)
| step_peer id a p :
    Forall (fun e => forall e0, e0 ∈ m_endPoints d -> ep_id e0 = id -> ep_id e <> id ->
                     tuple e <> tuple (SetPeer a p e0)) (m_endPoints d) ->
    demux_step d (set_endPoint d id (SetPeer a p))
| step_local_address id a :
    Forall (fun e => forall e0, e0 ∈ m_endPoints d -> ep_id e0 = id -> ep_id e <> id ->
                     tuple e <> tuple (SetLocalAddress a e0)) (m_endPoints d) ->
    demux_step d (set_endPoint d id (SetLocalAddress a))
| step_rx id b : demux_step d (set_endPoint d id (SetRxEnabled b)).

Lemma push_ok d f : demux_ok d -> (forall id, ep_id (f id) = id /\ m_boundnetdevice (f id) = None) ->
  (forall id, Forall (fun e => tuple e <> tuple (f id)) (m_endPoints d)) -> demux_ok (snd (push_endPoint d f)).
Proof.
  intros [] Hf Ht. destruct (Hf (nextId d)) as [Hid Hb]. specialize (Ht (nextId d)).
  rewrite Forall_forall in Ht, do_next0. split; cbn; rewrite ?map_app.
  - by destruct do_ports0.
  - apply NoDup_app. split; [done|]. split; [|by apply NoDup_singleton].
    intros x Hx [Hx'|[]%elem_of_nil]%elem_of_cons. apply list_elem_of_fmap in Hx as (e & -> & He).
    specialize (do_next0 _ He). cbn in do_next0. lia.
  - apply Forall_app. split; [|by constructor; [lia|]]. apply Forall_forall. intros e He. specialize (do_next0 e He). cbn in *. lia.
  - apply NoDup_app. split; [done|]. split; [|by apply NoDup_singleton].
    intros x Hx [Hx'|[]%elem_of_nil]%elem_of_cons. apply list_elem_of_fmap in Hx as (e & -> & He).
    by apply (Ht _ He).
  - apply Forall_app. split; [done|by constructor].
Qed.

(** No end point uses the port: no four-tuple with it is taken. *)
Lemma unused_port d p f : LookupPortLocal d p = false -> m_localPort f = p ->
  Forall (fun e => tuple e <> tuple f) (m_endPoints d).
Proof.
  intros H Hp. apply Forall_forall. intros e He Ht. unfold LookupPortLocal in H.
  rewrite <- not_true_iff_false, existsb_exists in H. apply H. exists e.
  split; [by apply list_elem_of_In|]. apply (f_equal (fun t => snd (fst (fst t)))) in Ht. cbn in Ht. lia.
Qed.

Lemma unused_local d dev a p f : LookupLocal d dev a p || LookupLocal d None a p = false ->
  Forall (fun e => m_boundnetdevice e = None) (m_endPoints d) ->
  m_localPort f = p -> m_localAddr f = a -> Forall (fun e => tuple e <> tuple f) (m_endPoints d).
Proof.
  intros [_ H]%orb_false_iff Hb Hp Ha. rewrite Forall_forall in Hb. apply Forall_forall. intros e He Ht.
  unfold LookupLocal in H. rewrite <- not_true_iff_false, existsb_exists in H. apply H. exists e.
  split; [by apply list_elem_of_In|]. rewrite (Hb e He), (bool_decide_true (None = None)) by done.
  injection Ht. intros. rewrite !andb_true_iff, !Z.eqb_eq. split_and!; congruence.
Qed.

Lemma unused_tuple d dev la lp pa pp f : existsb (same_tuple dev la lp pa pp) (m_endPoints d) = false ->
  Forall (fun e => m_boundnetdevice e = None) (m_endPoints d) ->
  tuple f = (la, lp, pa, pp) -> Forall (fun e => tuple e <> tuple f) (m_endPoints d).
Proof.
  intros H Hb Hf. rewrite Forall_forall in Hb. apply Forall_forall. intros e He Ht.
  rewrite <- not_true_iff_false, existsb_exists in H. apply H. exists e.
  split; [by apply list_elem_of_In|]. unfold same_tuple. rewrite (Hb e He), (bool_decide_true (None = None)) by done.
  rewrite Hf in Ht. injection Ht. intros. rewrite orb_true_r, !andb_true_iff, !Z.eqb_eq. split_and!; congruence.
Qed.

(** An allocation with an ephemeral port. *)
Lemma ephemeral_ok d f o d' : demux_ok d ->
  ('(port, d) ← AllocateEphemeralPort d ;
   if port =? 0 then Ok (None, d)
   else let '(e, d) := push_endPoint d (fun id => f id port) in Ok (Some e, d)) = Ok (o, d') ->
  (forall id p, ep_id (f id p) = id /\ m_boundnetdevice (f id p) = None /\ m_localPort (f id p) = p) -> demux_ok d'.
Proof.
  intros H Hr Hf. destruct (AllocateEphemeralPort_ok d) as (p & d1 & E & Hp & Ee & En & Hc); [by destruct H|].
  rewrite E in Hr. assert (demux_ok d1) as H1 by (destruct H; split; rewrite ?Ee, ?En; done).
  cbn [mbind res_bind] in Hr. destruct (Z.eqb_spec p 0) as [E0|E0]; [by injection Hr as _ <-|].
  unfold push_endPoint in Hr. apply Ok_inj in Hr. injection Hr as _ <-.
  apply (push_ok d1 (fun id => f id p)); [done|intros; by destruct (Hf id p) as (? & ? & ?)|].
  intros id. apply (unused_port _ p); [|by destruct (Hf id p) as (? & ? & ?)].
  destruct Hc as [(k & _ & _ & _ & _ & Hu & _)|[? _]]; [|done]. unfold LookupPortLocal in *. by rewrite Ee.
Qed.

Lemma local_ok d dev a p o d' : demux_ok d -> Allocate_local d dev a p = (o, d') -> demux_ok d'.
Proof.
  intros H E. unfold Allocate_local in E. destruct (_ || _) eqn:Eu; [by injection E as _ <-|]. injection E as _ <-.
  apply (push_ok d (fun id => Ipv4EndPoint_new id a p)); [done|done|].
  intros id. eapply unused_local; [exact Eu|by destruct H|done|done].
Qed.

Lemma erase_sublist id l : sublist (erase_endPoint id l) l.
Proof.
  induction l as [|e l IH]; [constructor|]. cbn. destruct (ep_id e =? id); [by apply sublist_cons|by apply sublist_skip].
Qed.

Lemma erase_Forall (P : Ipv4EndPoint -> Prop) id l : Forall P l -> Forall P (erase_endPoint id l).
Proof. induction 1 as [|e l He Hl IH]; cbn; [done|]. destruct (ep_id e =? id); [done|by constructor]. Qed.

Lemma NoDup_map_inj {A B} (h : A -> B) l x y : NoDup (map h l) -> x ∈ l -> y ∈ l -> h x = h y -> x = y.
Proof.
  induction l as [|a l IH]; intros Hn Hx Hy E; [by apply elem_of_nil in Hx|].
  cbn in Hn. apply NoDup_cons in Hn as [Ha Hn]. apply elem_of_cons in Hx as [->|Hx], Hy as [->|Hy]; [done| | |by apply IH].
  - destruct Ha. rewrite E. by apply list_elem_of_fmap_2.
  - destruct Ha. rewrite <- E. by apply list_elem_of_fmap_2.
Qed.

(** A setter leaves the identities alone and the four-tuples distinct. *)
Lemma set_ok d id f : demux_ok d -> (forall e, ep_id (f e) = ep_id e /\ m_boundnetdevice (f e) = m_boundnetdevice e) ->
  Forall (fun e => forall e0, e0 ∈ m_endPoints d -> ep_id e0 = id -> ep_id e <> id -> tuple e <> tuple (f e0)) (m_endPoints d) ->
  demux_ok (set_endPoint d id f).
Proof.
  intros [Hp Hids Hnext Htup Hb] Hf Hnew. rewrite Forall_forall in Hnext, Hb, Hnew.
  set (g := fun e => if ep_id e =? id then f e else e).
  assert (forall e, ep_id (g e) = ep_id e /\ m_boundnetdevice (g e) = m_boundnetdevice e) as Hg.
  { intros e. unfold g. by destruct (ep_id e =? id). }
  split; [by destruct Hp| | | |]; change (m_endPoints (set_endPoint d id f)) with (map g (m_endPoints d)).
  - rewrite map_map. rewrite (map_ext _ ep_id) by apply Hg. done.
  - apply Forall_map, Forall_forall. intros e He. destruct (Hg e) as [-> _]. by apply Hnext.
  - rewrite map_map. apply NoDup_fmap_2_strong; [|by eapply NoDup_fmap_1]. intros x y Hx Hy E. unfold g in E.
    destruct (Z.eqb_spec (ep_id x) id) as [Ex|Ex], (Z.eqb_spec (ep_id y) id) as [Ey|Ey].
    + apply (NoDup_map_inj ep_id (m_endPoints d)); [done|done|done|congruence].
    + by destruct (Hnew y Hy x Hx Ex Ey).
    + by destruct (Hnew x Hx y Hy Ey Ex).
    + by apply (NoDup_map_inj tuple (m_endPoints d)).
  - apply Forall_map, Forall_forall. intros e He. destruct (Hg e) as [_ ->]. by apply Hb.
Qed.

Lemma demux_new_ok : demux_ok Ipv4EndPointDemux_new.
Proof. split; [by split; vm_compute|constructor..]. Qed.

Lemma demux_step_ok d d' : demux_ok d -> demux_step d d' -> demux_ok d'.
Proof.
  intros H Hs. destruct Hs as [o d' E|a o d' E|dev p o d' E|dev a p o d' E|dev la lp pa pp o d' E|id|id a p Hn|id a Hn|id b].
  - by apply (ephemeral_ok d (fun id port => Ipv4EndPoint_new id GetAny port) o d' H E).
  - by apply (ephemeral_ok d (fun id port => Ipv4EndPoint_new id a port) o d' H E).
  - by eapply local_ok.
  - by eapply local_ok.
  - unfold Allocate_tuple in E. destruct (existsb _ _) eqn:Eu; [by injection E as _ <-|]. injection E as _ <-.
    apply (push_ok d (fun id => SetPeer pa pp (Ipv4EndPoint_new id la lp))); [done|done|].
    intros id. eapply unused_tuple; [done|by destruct H|done].
  - destruct H. pose proof (erase_sublist id (m_endPoints d)) as Hsub. split; cbn.
    + by destruct do_ports0.
    + exact (sublist_NoDup _ _ do_ids0 (fmap_sublist ep_id _ _ Hsub)).
    + by apply erase_Forall.
    + exact (sublist_NoDup _ _ do_tuples0 (fmap_sublist tuple _ _ Hsub)).
    + by apply erase_Forall.
  - by apply set_ok.
  - by apply set_ok.
  - apply set_ok; [done|done|]. destruct H. apply Forall_forall. intros e He e0 He0 E0 E1 Et. apply E1. rewrite <- E0.
    f_equal. by apply (NoDup_map_inj tuple (m_endPoints d)).
Qed.

(** ** Lookup *)

Section Lookup.
Context (daddr dport saddr sport : Z) (i : Ipv4Interface).

(** How specifically an end point matches a segment from [saddr]:[sport] to
    [daddr]:[dport]: 0 for not at all, then the local port alone, the local
    address too, the peer, all four. *)
Definition match_rank (e : Ipv4EndPoint) : Z :=
  if m_rxEnabled e && (m_localPort e =? dport) then
    let local := if m_localAddr e =? daddr then 2 else if m_localAddr e =? GetAny then 1 else 0 in
    let remote := if (m_peerAddr e =? saddr) && (m_peerPort e =? sport) then 2
                  else if (m_peerAddr e =? GetAny) && (m_peerPort e =? 0) then 1 else 0 in
    if (local =? 0) || (remote =? 0) then 0 else 2 * (remote - 1) + local
  else 0.

(** A packet has a source; no end point has the address of the network that
    the packet came from as its local address. *)
Hypothesis source : saddr <> GetAny.
Definition no_subnet (e : Ipv4EndPoint) : Prop :=
  m_localAddr e = GetAny \/ subnet_any (if_addresses i) (m_localAddr e) daddr = false.

Definition of_rank (k : Z) (l : list Ipv4EndPoint) : list Ipv4EndPoint := List.filter (fun e => match_rank e =? k) l.

Lemma lookup_step_rank r e : no_subnet e -> m_boundnetdevice e = None ->
  lookup_step daddr dport saddr sport i r e =
  mkMatches (retval1 r ++ of_rank 1 [e]) (retval2 r ++ of_rank 2 [e])
    (retval3 r ++ of_rank 3 [e]) (retval4 r ++ of_rank 4 [e]).
Proof.
  intros Hs Hb. unfold lookup_step, of_rank, match_rank. cbn [List.filter]. rewrite Hb.
  assert (negb (m_localAddr e =? GetAny) && subnet_any (if_addresses i) (m_localAddr e) daddr = false) as Hs'.
  { destruct Hs as [->| ->]; [done|apply andb_false_r]. }
  destruct r as [r1 r2 r3 r4]. cbn [retval1 retval2 retval3 retval4].
  destruct (m_rxEnabled e), (m_localPort e =? dport); cbn [andb negb]; rewrite ?app_nil_r; try done.
  destruct (subnet_any _ _ _), (m_localAddr e =? daddr), (m_localAddr e =? GetAny), (Z.eqb_spec (m_peerAddr e) saddr) as [Ep|Ep],
    (m_peerPort e =? sport), (Z.eqb_spec (m_peerAddr e) GetAny), (m_peerPort e =? 0);
    try congruence; cbn; rewrite ?app_nil_r; done.
Qed.

Lemma lookup_fold l r : Forall no_subnet l -> Forall (fun e => m_boundnetdevice e = None) l ->
  fold_left (lookup_step daddr dport saddr sport i) l r =
  mkMatches (retval1 r ++ of_rank 1 l) (retval2 r ++ of_rank 2 l) (retval3 r ++ of_rank 3 l) (retval4 r ++ of_rank 4 l).
Proof.
  intros Hs Hb. revert r. induction l as [|e l IH]; intros r.
  - cbn. rewrite !app_nil_r. by destruct r.
  - apply Forall_cons in Hs as [Hs1 Hs], Hb as [Hb1 Hb]. cbn [fold_left]. rewrite lookup_step_rank, IH by done.
    cbn [retval1 retval2 retval3 retval4]. unfold of_rank. cbn [List.filter].
    rewrite <- !app_assoc. f_equal; f_equal; by destruct (_ =? _).
Qed.

Lemma match_rank_bounds e : 0 <= match_rank e <= 4.
Proof. unfold match_rank. repeat case_match; lia. Qed.

(** The rank determines the four-tuple. *)
Lemma match_rank_tuple e1 e2 : 0 < match_rank e1 -> match_rank e1 = match_rank e2 -> tuple e1 = tuple e2.
Proof.
  unfold match_rank, tuple. intros Hp E.
  destruct (m_rxEnabled e1), (m_rxEnabled e2), (Z.eqb_spec (m_localPort e1) dport), (Z.eqb_spec (m_localPort e2) dport);
    cbn [andb] in *; try lia.
  destruct (Z.eqb_spec (m_localAddr e1) daddr), (Z.eqb_spec (m_localAddr e2) daddr),
    (Z.eqb_spec (m_localAddr e1) GetAny), (Z.eqb_spec (m_localAddr e2) GetAny); cbn [Z.eqb orb] in *; try lia;
  destruct (Z.eqb_spec (m_peerAddr e1) saddr), (Z.eqb_spec (m_peerAddr e2) saddr),
    (Z.eqb_spec (m_peerPort e1) sport), (Z.eqb_spec (m_peerPort e2) sport); cbn [andb Z.eqb] in *; try congruence;
  destruct (Z.eqb_spec (m_peerAddr e1) GetAny), (Z.eqb_spec (m_peerAddr e2) GetAny),
    (Z.eqb_spec (m_peerPort e1) 0), (Z.eqb_spec (m_peerPort e2) 0); cbn [andb Z.eqb] in *; congruence || lia.
Qed.

Lemma of_rank_unique k l : NoDup (map tuple l) -> 0 < k ->
  of_rank k l = [] /\ Forall (fun e => match_rank e <> k) l
  \/ exists e, of_rank k l = [e] /\ e ∈ l /\ match_rank e = k /\ forall e', e' ∈ l -> match_rank e' = k -> e' = e.
Proof.
  intros Hn Hk. assert (forall x y, x ∈ l -> y ∈ l -> match_rank x = k -> match_rank y = k -> x = y) as Hu.
  { intros x y Hx Hy Ex Ey. apply (NoDup_map_inj tuple l); [done|done|done|apply match_rank_tuple; lia]. }
  assert (NoDup l) as Hl by (by eapply NoDup_fmap_1). clear Hn.
  induction l as [|e l IH]; [by left|].
  apply NoDup_cons in Hl as [He Hl]. destruct IH as [[E Hf]|(e1 & E & H1 & E1 & Hu1)].
  { intros x y Hx Hy. apply Hu; by right. } { done. }
  - unfold of_rank in *. cbn [List.filter]. rewrite E. destruct (Z.eqb_spec (match_rank e) k) as [Ee|Ee].
    + right. exists e. split_and!; [done|by left|done|]. intros e' He' Ee'. apply Hu; [done|by left|done|done].
    + left. split; [done|by constructor].
  - unfold of_rank in *. cbn [List.filter]. rewrite E. destruct (Z.eqb_spec (match_rank e) k) as [Ee|Ee].
    + destruct He. replace e with e1; [done|]. apply Hu; [by right|by left|done|done].
    + right. exists e1. split_and!; [done|by right|done|]. intros e' [->|He']%elem_of_cons Ee'; [done|by apply Hu1].
Qed.
End Lookup.

(** The best match, or none. *)
Definition best_match (daddr dport saddr sport : Z) (l r : list Ipv4EndPoint) : Prop :=
  let rank := match_rank daddr dport saddr sport in
  match r with
  | [] => Forall (fun e => rank e = 0) l
  | [e] => e ∈ l /\ 0 < rank e /\ forall e', e' ∈ l -> e' <> e -> rank e' < rank e
  | _ => False
  end.

(** No end point has a rank above [k]: the list of that rank is the answer, or
    it is empty and no end point has a rank above [k - 1]. *)
Lemma best_of_rank daddr dport saddr sport k l : saddr <> GetAny -> NoDup (map tuple l) -> 0 < k ->
  (forall e, e ∈ l -> match_rank daddr dport saddr sport e <= k) ->
  of_rank daddr dport saddr sport k l = []
    /\ (forall e, e ∈ l -> match_rank daddr dport saddr sport e <= k - 1)
  \/ exists e, of_rank daddr dport saddr sport k l = [e] /\ best_match daddr dport saddr sport l [e].
Proof.
  intros Hs Ht Hk Hle.
  destruct (of_rank_unique daddr dport saddr sport Hs k l Ht Hk) as [[E F]|(e & E & He & Ek & Hu)].
  - left. split; [done|]. rewrite Forall_forall in F. intros e He. specialize (F e He). specialize (Hle e He). lia.
  - right. exists e. split; [done|]. split_and!; [done|lia|]. intros e' He' Hne. specialize (Hle e' He').
    assert (match_rank daddr dport saddr sport e' <> k) by (intros E'; by apply Hne, Hu). lia.
Qed.

Lemma Lookup_ok daddr dport saddr sport i d : demux_ok d -> saddr <> GetAny ->
  Forall (no_subnet daddr i) (m_endPoints d) ->
  exists r, Lookup d daddr dport saddr sport i = Ok r /\ best_match daddr dport saddr sport (m_endPoints d) r.
Proof.
  intros [_ _ _ Ht Hb] Hs Hn. unfold Lookup. rewrite (lookup_fold _ _ _ _ _ Hs) by done.
  cbn [retval1 retval2 retval3 retval4]. rewrite !app_nil_l.
  set (l := m_endPoints d) in *. pose proof (fun k => best_of_rank daddr dport saddr sport k l Hs Ht) as Hk.
  unfold most_exact. cbn [retval1 retval2 retval3 retval4].
  destruct (Hk 4) as [[-> H4]|(e & -> & He)]; [lia|intros; apply match_rank_bounds| |by exists [e]].
  destruct (Hk 3) as [[-> H3]|(e & -> & He)]; [lia|done| |by exists [e]].
  destruct (Hk 2) as [[-> H2]|(e & -> & He)]; [lia|done| |by exists [e]].
  destruct (Hk 1) as [[-> H1]|(e & -> & He)]; [lia|done| |by exists [e]].
  exists []. split; [done|]. apply Forall_forall. intros e He. specialize (H1 e He).
  pose proof (match_rank_bounds daddr dport saddr sport e). lia.
Qed.


(** ** SimpleLookup *)

(** Four-tuple equal, and neither address a wildcard. *)
Definition exact_match (daddr dport saddr sport : Z) (e : Ipv4EndPoint) : bool :=
  (m_localPort e =? dport) && (m_localAddr e =? daddr) && (m_peerPort e =? sport) && (m_peerAddr e =? saddr).
Definition specific (e : Ipv4EndPoint) : bool := negb (m_localAddr e =? GetAny) && negb (m_peerAddr e =? GetAny).

(** Once an end point without wildcards was met, only an exact match replaces it. *)
Lemma simple_lookup_kept l daddr dport saddr sport g :
  Forall (fun e => exact_match daddr dport saddr sport e = false) l ->
  simple_lookup l daddr dport saddr sport 0 g = g.
Proof.
  induction 1 as [|e l He Hl IH]; cbn; [done|]. unfold exact_match in He.
  destruct (m_localPort e =? dport); cbn in *; [|done]. rewrite He.
  by destruct (m_localAddr e =? GetAny), (m_peerAddr e =? GetAny).
Qed.

Lemma simple_lookup_first l1 e l2 daddr dport saddr sport n g :
  Forall (fun e => exact_match daddr dport saddr sport e = false) (l1 ++ e :: l2) ->
  Forall (fun e => m_localPort e = dport -> specific e = false) l1 ->
  m_localPort e = dport -> specific e = true -> 0 < n ->
  simple_lookup (l1 ++ e :: l2) daddr dport saddr sport n g = Some e.
Proof.
  intros Hx Hs Hp He. revert n g. induction Hs as [|e1 l1 H1 Hs IH]; intros n g Hn; cbn [app simple_lookup].
  - apply Forall_cons in Hx as [Hx1 Hx]. unfold exact_match in Hx1. rewrite Hp, Z.eqb_refl in *. cbn in Hx1 |- *. rewrite Hx1.
    unfold specific in He. destruct (m_localAddr e =? GetAny), (m_peerAddr e =? GetAny); try done. cbn.
    change (0 + 0) with 0. destruct (Z.ltb_spec 0 n); [|lia]. by apply simple_lookup_kept.
  - cbn in Hx. apply Forall_cons in Hx as [Hx1 Hx]. unfold exact_match in Hx1.
    destruct (Z.eqb_spec (m_localPort e1) dport) as [E1|E1]; cbn in Hx1 |- *; [|by apply IH].
    rewrite Hx1. specialize (H1 E1). unfold specific in H1.
    destruct (m_localAddr e1 =? GetAny), (m_peerAddr e1 =? GetAny); try done; cbn;
      (destruct (_ <? n); (apply IH; [done|lia])).
Qed.

(** ** Witnesses *)

Lemma new_ports_ok : ports_ok Ipv4EndPointDemux_new.
Proof. split; vm_compute; done || (split; done). Qed.

Lemma ephemeral_port_witness : exists d',
  AllocateEphemeralPort Ipv4EndPointDemux_new = Ok (49153, d') /\ ports_ok d'.
Proof.
  destruct (ephemeral_port Ipv4EndPointDemux_new new_ports_ok) as (p & d' & E & H & _).
  exists d'. split; [|exact H]. assert (match AllocateEphemeralPort Ipv4EndPointDemux_new with
    | Ok (q, _) => q | Err _ => 0 end = 49153) as Hp by (vm_compute; reflexivity).
  rewrite E in Hp. cbn in Hp. rewrite <- Hp. exact E.
Defined.

(** A server on port 80 with a listener and two connections. *)
Definition server : Ipv4EndPointDemux :=
  let d := snd (Allocate_port Ipv4EndPointDemux_new None 80) in
  let d := snd (Allocate_tuple d None 167772161 80 167772162 49153) in
  snd (Allocate_tuple d None 167772161 80 167772163 49153).

Lemma server_reached : rtc demux_step Ipv4EndPointDemux_new server.
Proof.
  eapply rtc_l; [eapply (step_port _ None 80); vm_compute; reflexivity|].
  eapply rtc_l; [eapply (step_tuple _ None 167772161 80 167772162 49153); vm_compute; reflexivity|].
  eapply rtc_l; [eapply (step_tuple _ None 167772161 80 167772163 49153); vm_compute; reflexivity|].
  apply rtc_refl.
Qed.


(** Listeners on the wildcard address and on the address of the network: a
    segment to a host of the network matches both alike, and Lookup aborts. *)
Lemma lookup_subnet_aborts :
  let d := snd (Allocate_local (snd (Allocate_port Ipv4EndPointDemux_new None 80)) None 256 80) in
  Lookup d 257 80 3 49153 (mkIface 0 [(258, 4294967040)]) = Err Aborted.
Proof. vm_compute. reflexivity. Qed.
