(* ===== verification/L4Protocol.v ===== *)
(** The TCP protocol of a node: tcp-l4-protocol.cc over IPv4.

    What is handed to other objects is an output: a packet to the IPv4 layer
    (the down target, which routes it), a packet to the socket of an end point,
    an ICMP report.  [checksumEnabled] is Node::ChecksumEnabled. *)
From Stdlib Require Import ZArith Lia Bool List.
From stdpp Require Import base gmap list.
From S2P Require Import Prelude SeqNum TcpOptions TcpHeader Demux.

Definition PROT_NUMBER : Z := 6.

(** The bytes of an Ipv4Address in network order. *)
Definition addr_bytes (a : Z) : bytes := WriteHtonU32 a.

(** IpL4Protocol::RxStatus *)
Inductive RxStatus := RX_OK | RX_CSUM_FAILED | RX_ENDPOINT_CLOSED | RX_ENDPOINT_UNREACH.

Inductive L4Output :=
| O_Down (packet : bytes) (saddr daddr : Z)
| O_ForwardUp (ep : Z) (packet : bytes) (saddr daddr sport : Z)
| O_ForwardIcmp (ep : Z) (icmpType icmpCode : Z).

(** [m_sockets] maps the index of a socket to the socket. *)
Record TcpL4Protocol := mkL4 {
  l4_endPoints : Ipv4EndPointDemux;
  m_sockets : gmap Z Z;
  m_socketIndex : Z;
  l4_out : list L4Output;
}.

#[export] Instance eta_L4 : Settable TcpL4Protocol := fun r =>
  mkL4 (l4_endPoints r) (m_sockets r) (m_socketIndex r) (l4_out r).

Definition TcpL4Protocol_new : TcpL4Protocol := mkL4 Ipv4EndPointDemux_new ∅ 0 [].

Definition l4_emit (o : L4Output) (t : TcpL4Protocol) : TcpL4Protocol := t <| l4_out ::= fun l => l ++ [o] |>.

(** TcpHeader::InitializeChecksum and TcpHeader::EnableChecksums *)
Definition InitializeChecksum (source destination : bytes) (protocol : Z) (h : TcpHeader) : TcpHeader :=
  h <| m_source := source |> <| m_destination := destination |> <| m_protocol := protocol |>.
Definition EnableChecksums (h : TcpHeader) : TcpHeader := h <| m_calcChecksum := true |>.

(** *** Sending *)

Definition SendPacketV4 (checksumEnabled : bool) (packet : bytes) (outgoing : TcpHeader) (saddr daddr : Z)
    (t : TcpL4Protocol) : res TcpL4Protocol :=
  let h := if checksumEnabled then EnableChecksums outgoing else outgoing in
  let h := InitializeChecksum (addr_bytes saddr) (addr_bytes daddr) PROT_NUMBER h in
  packet ← Serialize h packet ;
  Ok (l4_emit (O_Down packet saddr daddr) t).

(** *** Receiving *)

(** [packet->PeekHeader]: the option loop takes at most 41 rounds, or never
    ends. *)
Definition PeekHeader (h : TcpHeader) (packet : bytes) : res (Z * TcpHeader) :=
  match Deserialize 41 h packet with Some r => r | None => Err NoFuel end.

Definition PacketReceived (checksumEnabled : bool) (packet : bytes) (source destination : Z)
  : res (RxStatus * TcpHeader) :=
  let h := if checksumEnabled
           then InitializeChecksum (addr_bytes source) (addr_bytes destination) PROT_NUMBER
                  (EnableChecksums TcpHeader_new)
           else TcpHeader_new in
  '(_, h) ← PeekHeader h packet ;
  Ok (if m_goodChecksum h then RX_OK else RX_CSUM_FAILED, h).

Definition rst_reply (h : TcpHeader) : TcpHeader :=
  let r :=
    if negb (Z.land (m_flags h) ACK =? 0)
    then TcpHeader_new <| m_flags := RST |> <| m_sequenceNumber := m_ackNumber h |>
    else TcpHeader_new <| m_flags := Z.lor RST ACK |> <| m_sequenceNumber := 0 |>
           <| m_ackNumber := seq_add (m_sequenceNumber h) 1 |> in
  r <| m_sourcePort := m_destinationPort h |> <| m_destinationPort := m_sourcePort h |>.

Definition NoEndPointsFound (checksumEnabled : bool) (h : TcpHeader) (saddr daddr : Z) (t : TcpL4Protocol)
  : res TcpL4Protocol :=
  if Z.land (m_flags h) RST =? 0
  then SendPacketV4 checksumEnabled [] (rst_reply h) daddr saddr t
  else Ok t.

(** Receive over IPv4 on a node without the IPv6 protocol. *)
Definition Receive (checksumEnabled : bool) (packet : bytes) (saddr daddr : Z) (i : Ipv4Interface)
    (t : TcpL4Protocol) : res (RxStatus * TcpL4Protocol) :=
  '(checksumControl, h) ← PacketReceived checksumEnabled packet saddr daddr ;
  match checksumControl with
  | RX_OK =>
      endPoints ← Lookup (l4_endPoints t) daddr (m_destinationPort h) saddr (m_sourcePort h) i ;
      match endPoints with
      | [] => t ← NoEndPointsFound checksumEnabled h saddr daddr t ; Ok (RX_ENDPOINT_CLOSED, t)
      | e :: _ =>
          ns_assert (zlen endPoints =? 1) ;;
          Ok (RX_OK, l4_emit (O_ForwardUp (ep_id e) packet saddr daddr (m_sourcePort h)) t)
      end
  | _ => Ok (checksumControl, t)
  end.

(** [payload]: the first 8 bytes of the segment that the report is about, sent
    from [source] to [destination]. *)
Definition ReceiveIcmp (icmpType icmpCode source destination : Z) (payload : bytes) (t : TcpL4Protocol)
  : res TcpL4Protocol :=
  '(src, p) ← ReadNtohU16 payload ;
  '(dst, _) ← ReadNtohU16 p ;
  match SimpleLookup (l4_endPoints t) source src destination dst with
  | Some e => Ok (l4_emit (O_ForwardIcmp (ep_id e) icmpType icmpCode) t)
  | None => Ok t
  end.

(** *** Sockets *)

Definition CreateSocket (socket : Z) (t : TcpL4Protocol) : TcpL4Protocol :=
  t <| m_sockets ::= <[m_socketIndex t := socket]> |> <| m_socketIndex ::= Z.succ |>.

Definition has_socket (socket : Z) (t : TcpL4Protocol) : bool :=
  existsb (fun kv => snd kv =? socket) (map_to_list (m_sockets t)).

Definition AddSocket (socket : Z) (t : TcpL4Protocol) : TcpL4Protocol :=
  if has_socket socket t then t
  else t <| m_sockets ::= <[m_socketIndex t := socket]> |> <| m_socketIndex ::= Z.succ |>.

(** The first entry of the socket in the order of the map. *)
Definition RemoveSocket (socket : Z) (t : TcpL4Protocol) : bool * TcpL4Protocol :=
  match List.find (fun kv => snd kv =? socket) (map_to_list (m_sockets t)) with
  | Some (k, _) => (true, t <| m_sockets ::= delete k |>)
  | None => (false, t)
  end.
