(* ===== verification/L4Spec.v ===== *)
(** The TCP protocol of a node: a segment reaches the end point that matches it
    best, or is refused; and what a connecting socket does with the refusal. *)
From Stdlib Require Import ZArith Lia Bool List.
From stdpp Require Import base gmap list relations.
From S2P Require Import Prelude SeqNum TcpOptions TcpHeader TcpHeaderSpec Demux DemuxSpec L4Protocol.

(** The header with the addresses and the checksum that SendPacketV4 gives it. *)
Definition outgoing_header (c : bool) (h : TcpHeader) (saddr daddr : Z) : TcpHeader :=
  InitializeChecksum (addr_bytes saddr) (addr_bytes daddr) PROT_NUMBER (if c then EnableChecksums h else h).

(** What the receiver reads of the header [h]. *)
Record reads (h h' : TcpHeader) : Prop := {
  rd_sport : m_sourcePort h' = m_sourcePort h;
  rd_dport : m_destinationPort h' = m_destinationPort h;
  rd_seq : m_sequenceNumber h' = m_sequenceNumber h;
  rd_ack : m_ackNumber h' = m_ackNumber h;
  rd_flags : m_flags h' = m_flags h;
  rd_window : m_windowSize h' = m_windowSize h;
  rd_options : m_options h' = read_back (m_options h);
}.

(** The packet of a segment and its way back. *)
Record packet_of (c : bool) (h : TcpHeader) (p : bytes) (saddr daddr : Z) (buf : bytes) : Prop := {
  pk_sent : forall t, SendPacketV4 c p h saddr daddr t = Ok (l4_emit (O_Down buf saddr daddr) t);
  pk_received : exists h', PacketReceived c buf saddr daddr = Ok (RX_OK, h') /\ reads h h';
  pk_removed : exists h', PeekHeader TcpHeader_new buf = Ok (GetSerializedSize h, h') /\ reads h h';
  pk_payload : zdrop (GetSerializedSize h) buf = p;
}.

Lemma outgoing_ok c h saddr daddr : header_ok h -> header_ok (outgoing_header c h saddr daddr).
Proof. intros []. by destruct c. Qed.

Lemma outgoing_pseudo c h saddr daddr : pseudo_ok (outgoing_header c h saddr daddr).
Proof.
  unfold pseudo_ok, outgoing_header, InitializeChecksum. cbn. unfold addr_bytes.
  split_and!; [apply is_bytes_WriteHtonU32..|by vm_compute].
Qed.

Lemma packet_exists c h p saddr daddr : header_ok h -> m_calcChecksum h = false -> is_bytes p ->
  zlen p + GetSerializedSize h < 2 ^ 16 -> exists buf, packet_of c h p saddr daddr buf.
Proof.
  intros Hh Hc Hp Hl. set (g := outgoing_header c h saddr daddr).
  assert (GetSerializedSize g = GetSerializedSize h) as Es by (by destruct c).
  set (h0 := if c then InitializeChecksum (addr_bytes saddr) (addr_bytes daddr) PROT_NUMBER (EnableChecksums TcpHeader_new)
             else TcpHeader_new).
  destruct (header_read_back g h0 p) as (buf & Eb & _ & Ed & Er);
    [by apply outgoing_ok|apply outgoing_pseudo|done|by rewrite Es|by destruct c|].
  destruct (header_read_back g TcpHeader_new p) as (buf' & Eb' & _ & _ & Er');
    [by apply outgoing_ok|apply outgoing_pseudo|done|by rewrite Es|done|].
  assert (buf' = buf) as -> by congruence. exists buf. rewrite Es in *. split.
  - intros t. unfold SendPacketV4. fold (outgoing_header c h saddr daddr). fold g. rewrite Eb. done.
  - eexists. split.
    + unfold PacketReceived, PeekHeader. fold h0. rewrite Er. res_step. cbn [m_goodChecksum].
      destruct c; reflexivity.
    + by destruct c.
  - eexists. split; [unfold PeekHeader; by rewrite Er'|]. by destruct c.
  - done.
Qed.

Lemma rst_reply_ok h : header_ok h -> header_ok (rst_reply h).
Proof.
  intros []. unfold rst_reply. destruct (negb _); split; cbn [m_sourcePort m_destinationPort];
    try assumption; try (apply u32_range); try apply Forall_nil; try reflexivity; try done;
    try (unfold is_u32, is_u16, is_u8; lia).
Qed.

Lemma rst_reply_fields h : m_options (rst_reply h) = [] /\ m_calcChecksum (rst_reply h) = false
  /\ GetSerializedSize (rst_reply h) = 20
  /\ m_sourcePort (rst_reply h) = m_destinationPort h /\ m_destinationPort (rst_reply h) = m_sourcePort h.
Proof. unfold rst_reply. by destruct (negb _). Qed.

Lemma rst_packet_exists c h saddr daddr : header_ok h -> exists buf, packet_of c (rst_reply h) [] saddr daddr buf.
Proof.
  intros H. destruct (rst_reply_fields h) as (_ & Hc & Hs & _).
  apply packet_exists; [by apply rst_reply_ok|done|by constructor|by rewrite Hs].
Qed.

Lemma reads_rst h h' : reads h h' -> rst_reply h' = rst_reply h.
Proof. intros []. unfold rst_reply. by rewrite rd_flags0, rd_ack0, rd_seq0, rd_sport0, rd_dport0. Qed.

(** What Receive does with the packet [buf] of the segment [h]. *)
Definition received (c : bool) (h : TcpHeader) (buf : bytes) (saddr daddr : Z) (r : list Ipv4EndPoint)
    (t : TcpL4Protocol) (o : RxStatus * TcpL4Protocol) : Prop :=
  match r with
  | e :: _ => o = (RX_OK, l4_emit (O_ForwardUp (ep_id e) buf saddr daddr (m_sourcePort h)) t)
  | [] =>
      if Z.land (m_flags h) RST =? 0
      then exists rst, packet_of c (rst_reply h) [] daddr saddr rst
                       /\ o = (RX_ENDPOINT_CLOSED, l4_emit (O_Down rst daddr saddr) t)
      else o = (RX_ENDPOINT_CLOSED, t)
  end.

Lemma Receive_ok c h p buf saddr daddr i t : header_ok h -> packet_of c h p saddr daddr buf ->
  demux_ok (l4_endPoints t) -> saddr <> GetAny -> Forall (no_subnet daddr i) (Demux.m_endPoints (l4_endPoints t)) ->
  exists r o, best_match daddr (m_destinationPort h) saddr (m_sourcePort h) (Demux.m_endPoints (l4_endPoints t)) r
  /\ Receive c buf saddr daddr i t = Ok o /\ received c h buf saddr daddr r t o.
Proof.
  intros Hh Hp Hd Hs Hn. destruct (pk_received _ _ _ _ _ _ Hp) as (h' & E & Hr).
  destruct (Lookup_ok daddr (m_destinationPort h) saddr (m_sourcePort h) i (l4_endPoints t) Hd Hs Hn) as (r & El & Hb).
  destruct (rst_packet_exists c h daddr saddr Hh) as (rst & Hrst).
  unfold Receive. rewrite E. res_step. rewrite (rd_sport _ _ Hr), (rd_dport _ _ Hr), El. res_step.
  destruct r as [|e [|]]; [| |done].
  - unfold NoEndPointsFound. rewrite (rd_flags _ _ Hr), (reads_rst _ _ Hr). exists []. cbn [received].
    destruct (Z.land (m_flags h) RST =? 0); [rewrite (pk_sent _ _ _ _ _ _ Hrst)|];
      (eexists; split; [exact Hb|]; split; [reflexivity|]); [|done].
    exists rst. by split.
  - exists [e]. eexists. split; [exact Hb|]. split; reflexivity.
Qed.

(** C11. A segment that SendPacketV4 sends from one node and Receive gets on
    another one, checksums on at both ends or off at both: it reaches the end
    point that matches it best, with its fields and its payload unchanged; when
    none matches, a reset goes back to the sender's address and port, unless
    the segment is a reset itself. *)
Theorem segment_demultiplexed c h p saddr daddr i t1 t2 :
  header_ok h -> m_calcChecksum h = false -> is_bytes p -> zlen p + GetSerializedSize h < 2 ^ 16 ->
  demux_ok (l4_endPoints t2) -> saddr <> GetAny -> Forall (no_subnet daddr i) (Demux.m_endPoints (l4_endPoints t2)) ->
  exists buf r o, SendPacketV4 c p h saddr daddr t1 = Ok (l4_emit (O_Down buf saddr daddr) t1)
  /\ Receive c buf saddr daddr i t2 = Ok o
  /\ best_match daddr (m_destinationPort h) saddr (m_sourcePort h) (Demux.m_endPoints (l4_endPoints t2)) r
  /\ received c h buf saddr daddr r t2 o
  /\ (exists h', PeekHeader TcpHeader_new buf = Ok (GetSerializedSize h, h') /\ reads h h')
  /\ zdrop (GetSerializedSize h) buf = p.
Proof.
  intros Hh Hc Hp Hl Hd Hs Hn. destruct (packet_exists c h p saddr daddr Hh Hc Hp Hl) as (buf & Hbuf).
  destruct (Receive_ok c h p buf saddr daddr i t2 Hh Hbuf Hd Hs Hn) as (r & o & Hb & Hr & Ho).
  exists buf, r, o. destruct Hbuf. by split_and!.
Qed.

(** ** Witnesses *)

Definition server_node : TcpL4Protocol := TcpL4Protocol_new <| l4_endPoints := server |>.
Definition server_iface : Ipv4Interface := mkIface 0 [(167772161, 4294967040)].

Lemma server_ok : demux_ok (l4_endPoints server_node).
Proof.
  split.
  - split; vm_compute; done || (split; done).
  - apply (bool_decide_unpack _). vm_compute. exact I.
  - repeat (apply Forall_cons; split; [reflexivity|]). by apply Forall_nil.
  - apply (bool_decide_unpack _). vm_compute. exact I.
  - repeat (apply Forall_cons; split; [reflexivity|]). by apply Forall_nil.
Qed.

Lemma server_subnet : Forall (no_subnet 167772161 server_iface) (Demux.m_endPoints (l4_endPoints server_node)).
Proof. repeat (apply Forall_cons; split; [by vm_compute; auto|]). by apply Forall_nil. Qed.

(** The third byte of the stream of a client, to the server. *)
Definition client_segment : TcpHeader :=
  TcpHeader_new <| m_sourcePort := 49153 |> <| m_destinationPort := 80 |> <| m_sequenceNumber := 3 |>
    <| m_ackNumber := 1 |> <| m_flags := ACK |>.

Lemma client_segment_ok : header_ok client_segment.
Proof.
  split; try reflexivity; try apply Forall_nil; try done; unfold is_u32, is_u16, is_u8; cbn; lia.
Qed.

Lemma segment_demultiplexed_witness : exists buf,
  SendPacketV4 true [7] client_segment 167772163 167772161 TcpL4Protocol_new
    = Ok (l4_emit (O_Down buf 167772163 167772161) TcpL4Protocol_new)
  /\ Receive true buf 167772163 167772161 server_iface server_node
    = Ok (RX_OK, l4_emit (O_ForwardUp 2 buf 167772163 167772161 49153) server_node).
Proof.
  destruct (segment_demultiplexed true client_segment [7] 167772163 167772161 server_iface TcpL4Protocol_new server_node)
    as (buf & r & o & Es & Er & Hb & Ho & _); [exact client_segment_ok|reflexivity|apply Forall_cons; split; [unfold is_u8; lia|by apply Forall_nil]|reflexivity
    |exact server_ok|discriminate|exact server_subnet|].
  exists buf. split; [exact Es|].
  assert (Hid : match Receive true buf 167772163 167772161 server_iface server_node with
                | Ok (_, t) => map (fun o => match o with O_ForwardUp k _ _ _ _ => k | _ => -1 end) (l4_out t)
                | Err _ => [] end = [2]).
  { vm_compute in Es. injection Es as <-. vm_compute. reflexivity. }
  rewrite Er in Hid |- *. destruct r as [|e r]; cbn [received] in Ho.
  { change (Z.land (m_flags client_segment) RST =? 0) with true in Ho. cbn iota in Ho.
    destruct Ho as (rst & _ & ->). discriminate Hid. }
  subst o. cbn in Hid. injection Hid as Hid. by rewrite Hid.
Defined.

(** A report about a connection that is gone reaches another connection of the
    same port: SimpleLookup prefers any end point without wildcards to the
    listener, whatever its addresses. *)
Lemma icmp_report_astray :
  ReceiveIcmp 3 1 167772161 167772170 [0; 80; 4; 0; 0; 0; 0; 0] server_node
  = Ok (l4_emit (O_ForwardIcmp 1 3 1) server_node).
Proof. vm_compute. reflexivity. Qed.
