(* ===== verification/RefusalSpec.v ===== *)
(** A refused connection: the reset that answers a SYN, and the socket that
    waits for the answer. *)
From Stdlib Require Import ZArith Lia Bool List.
From stdpp Require Import base gmap list relations.
From S2P Require Import Prelude SeqNum RxBuffer TxBuffer TcpOptions TcpHeader TcpHeaderSpec Float NsTime RttEstimator RateOps SocketState CongestionOps RecoveryOps SocketCore SocketRx SocketTx SocketAck SocketFsm SocketVis SocketSpec Demux DemuxSpec L4Protocol L4Spec.

(** A SYN that is neither an acknowledgement nor a reset. *)
Definition initial_syn (h : TcpHeader) : Prop :=
  has_flag (m_flags h) SYN = true /\ Z.land (m_flags h) ACK = 0 /\ Z.land (m_flags h) RST = 0.

Lemma rst_of_syn h : Z.land (m_flags h) ACK = 0 -> m_flags (rst_reply h) = Z.lor RST ACK.
Proof. intros H. unfold rst_reply. by rewrite H. Qed.

(** The reset has no timestamp: with the option enabled the connecting socket
    throws it away before it looks at its flags. *)
Lemma syn_sent_drops {A B} {CC : TcpCongestionOps A} {RO : TcpRecoveryOps B} {E : Env} (s : Sock A B) h ep from to :
  m_state s = SYN_SENT -> m_endPoint s = Some ep -> m_timestampEnabled s = true ->
  m_flags h = Z.lor RST ACK -> m_options h = [] ->
  step (E_Segment [] h 20 NotECT from to) s = Ok (tt, s).
Proof.
  intros Hst Hep Hts Hf Ho. cbn [step]. unfold ForwardUp. cbv [mbind St_bind get]. rewrite Hep.
  unfold IsValidTcpSegment. cbv [mbind St_bind get]. cbn [Z.eqb orb Z.ltb Z.compare andb].
  change (0 <? GetSize []) with false. cbn. cbv [mret St_ret].
  change (bool_decide (NotECT = CongExp)) with false. change (bool_decide (NotECT = NotECT)) with true.
  cbn [andb negb when]. cbv [mret St_ret]. unfold DoForwardUp. cbv [mbind St_bind get].
  rewrite Hst, Hf. change (bool_decide (SYN_SENT = ESTABLISHED)) with false. cbn [andb when]. cbv [mret St_ret].
  change (has_flag (Z.lor RST ACK) SYN) with false. change (has_flag (Z.lor RST ACK) ACK) with true.
  unfold forward_ack. cbv [mbind St_bind get]. rewrite Hts. unfold HasOption. by rewrite Ho.
Qed.

(** C12. An attempt to connect to a port where no end point listens: the SYN
    reaches the peer, which answers with a reset that acknowledges it; the
    reset reaches the connecting node intact; and the socket, in SYN_SENT with
    timestamps on, discards it: nothing changes, nobody is told, and the
    attempts go on until they run out. *)
Theorem refused_connection_ignored {A B} {CC : TcpCongestionOps A} {RO : TcpRecoveryOps B} {E : Env} c h saddr daddr i t1 t2 (s : Sock A B) ep :
  header_ok h -> m_calcChecksum h = false -> GetSerializedSize h < 2 ^ 16 -> initial_syn h ->
  demux_ok (l4_endPoints t2) -> saddr <> GetAny -> Forall (no_subnet daddr i) (Demux.m_endPoints (l4_endPoints t2)) ->
  Forall (fun e => match_rank daddr (m_destinationPort h) saddr (m_sourcePort h) e = 0)
    (Demux.m_endPoints (l4_endPoints t2)) ->
  m_state s = SYN_SENT -> SocketCore.m_endPoint s = Some ep -> m_timestampEnabled s = true ->
  exists syn rst h', SendPacketV4 c [] h saddr daddr t1 = Ok (l4_emit (O_Down syn saddr daddr) t1)
  /\ Receive c syn saddr daddr i t2 = Ok (RX_ENDPOINT_CLOSED, l4_emit (O_Down rst daddr saddr) t2)
  /\ PacketReceived c rst daddr saddr = Ok (RX_OK, h')
  /\ m_flags h' = Z.lor RST ACK /\ m_ackNumber h' = u32 (m_sequenceNumber h + 1)
  /\ m_sourcePort h' = m_destinationPort h /\ m_destinationPort h' = m_sourcePort h
  /\ forall from to, step (E_Segment [] h' 20 NotECT from to) s = Ok (tt, s).
Proof.
  intros Hh Hc Hl (_ & Hack & Hrst) Hd Hs Hn Hno Hst Hep Hts.
  destruct (packet_exists c h [] saddr daddr Hh Hc) as (syn & Hsyn); [by constructor|exact Hl|].
  destruct (Receive_ok c h [] syn saddr daddr i t2 Hh Hsyn Hd Hs Hn) as ([|e r] & o & Hb & Hr & Ho).
  2:{ destruct r; [|done]. destruct Hb as (He & Hp & _). rewrite Forall_forall in Hno. specialize (Hno e He). lia. }
  cbn [received] in Ho. rewrite Hrst in Ho. destruct Ho as (rst & Hp & ->).
  destruct (pk_received _ _ _ _ _ _ Hp) as (h' & Er & R). destruct (rst_reply_fields h) as (Eo & _ & _ & Esp & Edp).
  exists syn, rst, h'. destruct R. rewrite Eo in rd_options. split_and!; try congruence.
  - by destruct Hsyn.
  - rewrite rd_flags. by apply rst_of_syn.
  - rewrite rd_ack. unfold rst_reply. by rewrite Hack.
  - intros from to. apply (syn_sent_drops s h' ep); try done. rewrite rd_flags. by apply rst_of_syn.
Qed.

(** ** Witness: a connection to a node without end points *)

Definition connecting_socket : Sock TcpNewReno TcpPrrRecovery :=
  match Connect (E := env_at 1000) (Some (mkEndPoint 0 49153 0 0)) (Some 167772162) (167772161, 80) new_socket with
  | Ok (_, s) => s
  | Err _ => new_socket
  end.
Definition first_syn : TcpHeader :=
  TcpHeader_new <| m_sourcePort := 49153 |> <| m_destinationPort := 80 |> <| m_flags := SYN |>.

Lemma refused_connection_ignored_witness : exists syn rst h',
  Receive true syn 167772162 167772161 server_iface TcpL4Protocol_new
    = Ok (RX_ENDPOINT_CLOSED, l4_emit (O_Down rst 167772161 167772162) TcpL4Protocol_new)
  /\ PacketReceived true rst 167772161 167772162 = Ok (RX_OK, h')
  /\ m_flags h' = Z.lor RST ACK
  /\ step (E := env_at 2000) (E_Segment [] h' 20 NotECT (167772161, 80) (167772162, 49153)) connecting_socket
     = Ok (tt, connecting_socket).
Proof.
  destruct (refused_connection_ignored (E := env_at 2000) true first_syn 167772162 167772161 server_iface
    TcpL4Protocol_new TcpL4Protocol_new connecting_socket (mkEndPoint 167772162 49153 167772161 80))
    as (syn & rst & h' & _ & Hr & Hp & Hf & _ & _ & _ & Hstep).
  - split; try reflexivity; try apply Forall_nil; try done; unfold is_u32, is_u16, is_u8; cbn; lia.
  - reflexivity.
  - reflexivity.
  - by split.
  - exact demux_new_ok.
  - discriminate.
  - apply Forall_nil. exact I.
  - apply Forall_nil. exact I.
  - by vm_compute.
  - by vm_compute.
  - by vm_compute.
  - exists syn, rst, h'. split; [exact Hr|]. split; [exact Hp|]. split; [exact Hf|exact (Hstep _ _)].
Defined.
